(* ===== verification/_CoqProject ===== *)
-Q . S2P
Prelude.v
GoStrings.v
NetIP.v
DnsLib.v
Regex.v
Encoding.v
FS.v
Ddns.v
ZoneTok.v
ZoneFile.v
Store.v
Tsig.v
Config.v
Named.v
NamedParse.v
FileZone.v
Editors.v
Server.v
RecordMut.v
Service.v
Overlap.v
Host.v
Zoned.v
Helper.v
History.v
RotateKey.v
Session.v
Throttle.v
Limiter.v
Proxy.v
Splice.v
Stats.v
VhostMut.v
Tls.v
Acme.v
FileWatch.v
Serve.v
Watch.v
Readers.v
Form.v
Tail.v
Flag.v
Cli.v
ZoneView.v
Main.v
Admin.v
Privsep.v
Fanout.v
