(* ===== verification/Prelude.v ===== *)
(** * goddns: a verified model of the program

    goddns is a dynamic DNS service beside a BIND name server. Clients register
    their address with a bearer token; the daemon sends BIND a signed update.
    Around that core it edits zones (dynamic ones by update, static ones in
    their file), keeps a history of zone contents, proxies web hosts with their
    certificates, and offers a console and a command line for all of it. This
    library translates the Go source (src/, module github.com/chrismfz/goddns)
    into definitions, one file per component, and proves what each promises.

    ** The parts, from the ground up

    - [Prelude], [GoStrings], [NetIP], [Regex], [Encoding], [Flag]: what the
      program uses of Go's library. The monad [result] is Go's (T, error);
      strings are byte strings; a time is an integer in the unit the code uses.
    - [DnsLib]: github.com/miekg/dns as the class [Dns], with the documented
      laws theorems rely on and an instance for the witnesses.
    - [FS]: the operating system. A program that touches files is a function
      [io E A] on a world of files, the commands that were run, the open files
      with the locks on them, and a count of system calls, any of which can
      fail: [fault t] is the error of the t-th. A theorem over every [fault]
      covers every point of interruption. Opening by name follows a link.
    - [ZoneTok], [ZoneFile] (internal/zonefile/zonefile.go): the line-aware
      tokenizer and the in-place editor of a zone file. [Host]
      (internal/zonefile/checkzone.go and the production hooks of
      internal/filezone): what the editor runs on the machine. [FileZone]
      (internal/filezone): which zones may be edited, the lock, the screens and
      the guarded write, a call from its first to its last line. [Editors]:
      many such calls on one zone at once, each at a line of its own, and an
      operator with the file open.
    - [Ddns] (internal/ddns): update messages. [RecordMut]
      (internal/recordmut): editing a dynamic zone, with a snapshot first.
      [Named], [NamedParse] (internal/named): reading BIND's configuration, its
      zones and their health. [Tsig] (internal/tsig): the keyring file.
      [RotateKey] (cmd/goddns/rotatekey.go): replacing a key.
    - [Store] (internal/store): the database as its three tables, every method
      as the statements it runs. [History] (internal/history): the poller and
      differences. [Server] (internal/server): the update endpoints.
      [Service]: server, store and backend in front of a name server, as one
      system; [Overlap]: the same, with requests that are served at once.
    - [Config] (internal/config): loading and validation. [VhostMut]
      (internal/vhostmut): the fragments of proxied hosts. [Proxy], [Splice],
      [Limiter], [Stats] (internal/proxy): routes and gates, console sessions,
      token buckets, counters. [Tls] (internal/tlsmgr/files.go, hybrid.go) and
      [Acme] (acme.go, buildTLS): certificates. [FileWatch]
      (internal/filewatch).
    - [Session], [Throttle], [Readers], [Form], [Tail], [Admin]
      (internal/admin): the console, from its cookies to every handler. [Zoned]
      (internal/zoned) and [Helper] (cmd/goddns/zoned.go): the privileged helper
      it may write zone files through, and its process; [Privsep]: the console
      and the helper together. [Serve] and [Watch] (cmd/goddns/serve.go): the
      daemon's loops.
    - [Cli], [ZoneView], [Main] (cmd/goddns): the commands and their dispatch.
      [Fanout]: the probes of name servers they and the console run at once.

    ** How they interact

    The editors are called by the console ([Admin]) and the commands ([Cli])
    alike, so what is proved of [FileZone.commit], [RecordMut.Apply] and
    [VhostMut.Set_] holds for both. Clients are proved against interfaces where
    the code has one: [Server] against a [Backend] that [Ddns] implements,
    [RecordMut] against a [Snapshotter] that [Store] implements, [Service]
    against a [NameServer] that does what RFC 2136 says, its answer lost or
    not, [Zoned] and [Admin] against a [Wire] of requests. State shared between goroutines is written as
    a step relation whose steps are the atomic operations ([Stats], [Splice],
    [Overlap], [Editors], [Fanout], [Helper]) or as one step per method where a
    mutex covers it ([Throttle], [Limiter]). What keeps the calls of [Editors]
    apart is the kernel's table of locks, which [FileZone.lock] and
    [FileZone.unlock] write; that they then run one at a time is a simulation
    of a system with a single holder ([Editors.step_serial]). The reload loop of [Serve] is the
    only writer of the configuration, as in the code.

    ** What the theorems show

    - Files are never damaged: an edit leaves every line it is not about byte
      for byte ([ZoneFile.edit_preserves_untouched_lines]), respects inherited
      owners and ttls, and bumps the serial in place; a write is checked, made
      of the content it was computed from, and undone when the reload fails
      ([FileZone.commit_spec], [writes_only_admitted]), as long as nobody else
      saves the file between the comparison and the reload
      ([EditorsExample.window_loses] is what happens then); calls that overlap
      are as if made one after the other, never two behind the lock, and are
      all answered ([Editors.no_edit_lost], [calls_complete]); the keyring is replaced
      atomically and a rotation is a transaction ([Tsig.WriteFile_atomic],
      [RotateKey.rotate_transactional]); fragments are confined to their own
      file and load again.
    - Records: an answer of the service tells the truth about what is served
      ([Service.answers_truthful]), also for requests that overlap, but for those
      of one name ([Overlap.overlap_truthful]), while the database can be
      written, no answer of the name server is lost after it acted, and the
      registered names are no aliases and changed by nobody else; updates need the token of an enabled record
      ([Server.update_authorised]); a change of a dynamic zone is preceded by
      its snapshot, and restoring reaches it, by the rules of RFC 2136 (3.4.2)
      for what a server passes over, where the apex keeps a name server and
      aliases are alone at their names ([RecordMut.apply_guarded],
      [restore_reaches_snapshot]).
    - State: the tables keep their constraints under every use of the store;
      tokens are replaced exactly; counters agree with what was forwarded and
      are persisted once; reloads, sweeps and renewals converge; probes made at
      once give what they give in a row ([Fanout.probes_in_any_order]).
    - Access: the address that is registered, sessions, CSRF tokens, lockouts,
      the console's layers, the helper's confinement and its socket, rate limits
      that isolate clients, the names a certificate may be ordered for, and the
      routes a request can take through the proxy.
    - Texts: what the program writes it reads back: keyrings, fragments,
      exports, session tokens; and the commands ask before they change, the
      owners of the database's own files apart ([Cli.kept]).

    ** Bounds and fuel

    Integers with a width are written with their wrap-around where it matters
    ([u32] serials with RFC 1982 comparison, [i64] durations and shifts, the
    [uint32] of a ttl). Recursion that is not structural has a measure given as
    fuel by its caller: the scan of a line and its entries get the length of
    the text, of which each step consumes a part ([ZoneTok.scan_loop_fuel]);
    the matches of a regular expression the length plus one; an IPv6 address
    one more than its eight fields; [Form.scale] five divisions of an int64,
    proved enough by [Form.humanBytes_total]. None of them runs out.

    ** Not modelled, and why

    - Third-party and system code is a parameter with its documented behaviour
      as a named hypothesis: the DNS library and network, named-checkconf,
      named-checkzone, rndc, SQLite's engine, TOML, JSON, URL parsing, bcrypt,
      SHA-256 and HMAC, X.509, certmagic, HTTP transport, the terminal.
    - Case folding and white space are ASCII; bytes above 127 are kept by the
      quoting verbs, as valid UTF-8 is.
    - The limiter's float64 tokens are exact fractions, and its calls come in
      the order of their times, although the code reads the clock before it
      takes the mutex.
    - Files are regular files and symbolic links to them, by their cleaned
      names; directories exist, and devices, sockets and chains of links are
      not represented. No theorem is about a crash of the machine.
    - The console and the helper have the same effective ids in [Privsep],
      which compares what they do, not what the system lets each do.
    - Templates (internal/admin/templates.go), the columns of tables and log
      lines are output only. The order [tailFile] leaves its lines in is not
      specified by Go, so [Tail] says nothing of it.
    - The sockets of the HTTP listeners, their time-outs, and the transport to
      an upstream (net/http/httputil) are the library's. *)

From Stdlib Require Import Ascii Permutation Sorted.
From stdpp Require Export base gmap strings list fin_maps sorting.
From Stdlib Require Export ZArith Lia.

#[global] Open Scope Z_scope.

Create HintDb goddns.

(** ** Fallible code

    A Go function returning [(T, error)] is a function into [result E T]:
    [Ok] is the nil error. Early returns are the bind of this monad. *)

Inductive result (E A : Type) : Type :=
| Ok (a : A)
| Err (e : E).
Arguments Ok {E A} a.
Arguments Err {E A} e.

#[export] Instance result_ret {E} : MRet (result E) := fun A a => Ok a.
#[export] Instance result_bind {E} : MBind (result E) :=
  fun A B f m => match m with Ok a => f a | Err e => Err e end.
#[export] Instance result_fmap {E} : FMap (result E) :=
  fun A B f m => match m with Ok a => Ok (f a) | Err e => Err e end.

(** [guard b e]: the early return [if !b { return e }]. *)
Definition guard_or {E} (b : bool) (e : E) : result E unit :=
  if b then Ok tt else Err e.

Definition is_ok {E A} (r : result E A) : bool :=
  match r with Ok _ => true | Err _ => false end.

(** The value of a successful result. *)
Definition from_ok {E A} (d : A) (r : result E A) : A :=
  match r with Ok a => a | Err _ => d end.

Lemma from_ok_ok {E A} (d : A) (r : result E A) : is_ok r = true -> r = Ok (from_ok d r).
Proof. by destruct r. Qed.

Lemma default_some {A} (d : A) (o : option A) :
  (match o with Some _ => true | None => false end) = true -> o = Some (default d o).
Proof. by destruct o. Qed.

Lemma bind_ok {E A B} (m : result E A) (f : A -> result E B) b :
  (m ≫= f) = Ok b <-> exists a, m = Ok a /\ f a = Ok b.
Proof. destruct m; cbn; naive_solver. Qed.

Lemma guard_or_ok {E} (b : bool) (e : E) u :
  guard_or b e = Ok u <-> b = true.
Proof. unfold guard_or. destruct b, u; naive_solver. Qed.

(** [inv_ok] decomposes every [<monadic code> = Ok r] of the context into
    the successful steps that lead to [r]. *)
Ltac inv_ok :=
  repeat match goal with
  | H : mbind _ _ = Ok _ |- _ =>
      let a := fresh "a" in let H1 := fresh "Hstep" in let H2 := fresh "Hrest" in
      apply bind_ok in H; destruct H as (a & H1 & H2); cbn beta in H2
  | H : guard_or _ _ = Ok _ |- _ => apply guard_or_ok in H
  | H : mret _ = Ok _ |- _ => unfold mret, result_ret in H
  | H : Ok ?x = Ok ?y |- _ => let E := fresh "E" in injection H as E; clear H
  | H : Err _ = Ok _ |- _ => discriminate H
  | H : Ok _ = Err _ |- _ => discriminate H
  end.

(** ** Boolean case analysis *)

Ltac bsplit :=
  repeat match goal with
  | H : (_ && _) = true |- _ => apply andb_true_iff in H; destruct H
  | H : (_ || _) = false |- _ => apply orb_false_iff in H; destruct H
  | H : negb _ = true |- _ => apply negb_true_iff in H
  | H : negb _ = false |- _ => apply negb_false_iff in H
  | H : String.eqb _ _ = true |- _ => apply String.eqb_eq in H
  | H : String.eqb _ _ = false |- _ => apply String.eqb_neq in H
  | H : Z.eqb _ _ = true |- _ => apply Z.eqb_eq in H
  | H : Z.eqb _ _ = false |- _ => apply Z.eqb_neq in H
  | H : Z.ltb _ _ = true |- _ => apply Z.ltb_lt in H
  | H : Z.ltb _ _ = false |- _ => apply Z.ltb_ge in H
  | H : Z.leb _ _ = true |- _ => apply Z.leb_le in H
  | H : Z.leb _ _ = false |- _ => apply Z.leb_gt in H
  | H : Nat.eqb _ _ = true |- _ => apply Nat.eqb_eq in H
  | H : Nat.eqb _ _ = false |- _ => apply Nat.eqb_neq in H
  end.

(** ** Machine integers

    Go's [uint32], [uint64] and [int64] are [Z] with the wrap-around written
    out. *)

Definition two32 : Z := 4294967296.
Definition u32 (z : Z) : Z := z mod two32.
Definition two64 : Z := 18446744073709551616.
Definition i64 (z : Z) : Z := (z + two64 / 2) mod two64 - two64 / 2.

Definition is_u32 (z : Z) : Prop := 0 <= z < two32.
Definition is_i64 (z : Z) : Prop := - (two64 / 2) <= z < two64 / 2.

Lemma u32_range z : is_u32 (u32 z).
Proof. unfold is_u32, u32, two32. apply Z.mod_pos_bound. lia. Qed.

Lemma u32_small z : is_u32 z -> u32 z = z.
Proof. unfold is_u32, u32. intros. apply Z.mod_small. done. Qed.

Lemma i64_small z : is_i64 z -> i64 z = z.
Proof.
  unfold is_i64, i64. change (two64 / 2) with 9223372036854775808. unfold two64.
  intros. rewrite Z.mod_small; lia.
Qed.

Lemma i64_range z : is_i64 (i64 z).
Proof.
  unfold is_i64, i64. change (two64 / 2) with 9223372036854775808. unfold two64.
  pose proof (Z.mod_pos_bound (z + 9223372036854775808) 18446744073709551616). lia.
Qed.

#[export] Hint Resolve u32_range i64_range : goddns.

(** ** Lists *)

(** The first element satisfying a boolean test. *)
Definition find_first {A} (p : A -> bool) (l : list A) : option A :=
  List.find p l.

Lemma find_first_Some {A} (p : A -> bool) l x :
  find_first p l = Some x -> x ∈ l /\ p x = true.
Proof. intros H%find_some. by rewrite list_elem_of_In. Qed.

Lemma find_first_None {A} (p : A -> bool) l x :
  find_first p l = None -> x ∈ l -> p x = false.
Proof. intros H. rewrite list_elem_of_In. by apply (find_none p l H). Qed.

Lemma elem_of_bfilter {A} (p : A -> bool) l x :
  x ∈ List.filter p l <-> x ∈ l /\ p x = true.
Proof. rewrite !list_elem_of_In. apply filter_In. Qed.

Lemma existsb_elem {A} (p : A -> bool) l :
  existsb p l = true <-> exists x, x ∈ l /\ p x = true.
Proof. rewrite existsb_exists. by setoid_rewrite list_elem_of_In. Qed.

Lemma existsb_none {A} (p : A -> bool) l x :
  existsb p l = false -> x ∈ l -> p x = false.
Proof.
  intros He Hx. destruct (p x) eqn:Hp; [|done].
  rewrite <- He. symmetry. apply existsb_elem. eauto.
Qed.

Lemma forallb_elem {A} (p : A -> bool) l :
  forallb p l = true <-> forall x, x ∈ l -> p x = true.
Proof. rewrite forallb_forall. by setoid_rewrite list_elem_of_In. Qed.

Lemma existsb_false {A} (p : A -> bool) l : (forall x, x ∈ l -> p x = false) -> existsb p l = false.
Proof.
  intros H. destruct (existsb p l) eqn:E; [|done]. apply existsb_elem in E as (x & Hx & Hp). by rewrite H in Hp.
Qed.

Lemma forallb_false {A} (p : A -> bool) l x : x ∈ l -> p x = false -> forallb p l = false.
Proof. intros Hx Hp. destruct (forallb p l) eqn:E; [|done]. rewrite forallb_elem in E. by rewrite E in Hp. Qed.

Lemma find_first_unique {A} (p : A -> bool) l x :
  x ∈ l -> p x = true -> (forall y, y ∈ l -> p y = true -> y = x) -> find_first p l = Some x.
Proof.
  intros Hx Hp Hu. destruct (find_first p l) as [y|] eqn:E.
  - apply find_first_Some in E as [Hy Hpy]. f_equal. by apply Hu.
  - by rewrite (find_first_None p l x E Hx) in Hp.
Qed.

Lemma find_first_ext {A} (p q : A -> bool) l :
  (forall x, x ∈ l -> p x = q x) -> find_first p l = find_first q l.
Proof.
  unfold find_first. induction l as [|x l IH]; [done|]. intros H. cbn.
  rewrite (H x) by left. destruct (q x); [done|]. apply IH. intros. apply H. by right.
Qed.

Lemma find_first_app {A} (p : A -> bool) l1 l2 :
  find_first p (l1 ++ l2) =
  match find_first p l1 with Some x => Some x | None => find_first p l2 end.
Proof. unfold find_first. induction l1 as [|x l1 IH]; cbn; [done|]. by destruct (p x). Qed.

Lemma bfilter_app {A} (p : A -> bool) l1 l2 :
  List.filter p (l1 ++ l2) = List.filter p l1 ++ List.filter p l2.
Proof. apply List.filter_app. Qed.

Lemma bfilter_all {A} (p : A -> bool) l :
  (forall x, x ∈ l -> p x = true) -> List.filter p l = l.
Proof.
  induction l as [|x l IH]; cbn; [done|]. intros H. rewrite (H x) by left.
  f_equal. apply IH. intros. apply H. by right.
Qed.

Lemma bfilter_none {A} (p : A -> bool) l :
  (forall x, x ∈ l -> p x = false) -> List.filter p l = [].
Proof.
  induction l as [|x l IH]; cbn; [done|]. intros H. rewrite (H x) by left.
  apply IH. intros. apply H. by right.
Qed.

Lemma bfilter_ext {A} (p q : A -> bool) l :
  (forall x, x ∈ l -> p x = q x) -> List.filter p l = List.filter q l.
Proof.
  induction l as [|x l IH]; cbn; [done|]. intros H. rewrite (H x) by left.
  rewrite IH; [done|]. intros. apply H. by right.
Qed.

Lemma bfilter_filter {A} (p q : A -> bool) l :
  List.filter p (List.filter q l) = List.filter (fun x => q x && p x) l.
Proof. induction l as [|x l IH]; cbn; [done|]. destruct (q x); cbn; rewrite IH; done. Qed.

(** A column of a table is a key: equal values, equal rows. *)
Lemma key_inj {A B} (f : A -> B) l x y :
  NoDup (f <$> l) -> x ∈ l -> y ∈ l -> f x = f y -> x = y.
Proof.
  induction l as [|z l IH]; [by intros _ ?%elem_of_nil|].
  rewrite fmap_cons, NoDup_cons, !elem_of_cons. intros [Hz Hl] [->|Hx] [->|Hy] Heq.
  - done.
  - destruct Hz. rewrite Heq. by apply list_elem_of_fmap_2.
  - destruct Hz. rewrite <- Heq. by apply list_elem_of_fmap_2.
  - by apply IH.
Qed.

Lemma bfilter_sublist {A} (p : A -> bool) l : sublist (List.filter p l) l.
Proof. induction l as [|x l IH]; cbn; [constructor|]. destruct (p x); by constructor. Qed.

Lemma nodup_bfilter {A B} (f : A -> B) (p : A -> bool) l :
  NoDup (f <$> l) -> NoDup (f <$> List.filter p l).
Proof. intros H. eapply sublist_NoDup; [exact H|]. apply fmap_sublist, bfilter_sublist. Qed.

(** ** Sorting

    [sort.Slice], [sort.SliceStable], [sort.Strings] and [slices.Sort] are
    modelled by one stable insertion sort on the caller's [less]. For the
    strict weak orders the program uses, a stable sort has a unique result. *)

Section sorting.
Context {A : Type} (less : A -> A -> bool).

Fixpoint insert_by (x : A) (l : list A) : list A :=
  match l with
  | [] => [x]
  | y :: l' => if less y x then y :: insert_by x l' else x :: l
  end.

Definition sort_by (l : list A) : list A := foldr insert_by [] l.

Lemma insert_by_perm x l : insert_by x l ≡ₚ x :: l.
Proof.
  induction l as [|y l IH]; cbn; [done|].
  destruct (less y x); [|done]. rewrite IH. apply Permutation_swap.
Qed.

Lemma insert_by_end x l : (forall y, y ∈ l -> less y x = true) -> insert_by x l = l ++ [x].
Proof.
  induction l as [|y l IH]; cbn; [done|]. intros H. rewrite (H y) by left.
  f_equal. apply IH. intros. apply H. by right.
Qed.

Lemma sort_by_perm l : sort_by l ≡ₚ l.
Proof. induction l as [|x l IH]; cbn; [done|]. rewrite insert_by_perm. by f_equiv. Qed.

Lemma elem_of_sort_by x l : x ∈ sort_by l <-> x ∈ l.
Proof. by rewrite sort_by_perm. Qed.

Lemma length_sort_by l : length (sort_by l) = length l.
Proof. by rewrite sort_by_perm. Qed.

(** The order [less] refines: [x] may stand before [y]. *)
Definition not_after (x y : A) : Prop := less y x = false.

Hypothesis less_trans : forall x y z, less x y = false -> less y z = false -> less x z = false.
Hypothesis less_asym : forall x y, less x y = true -> less y x = false.

Lemma insert_by_sorted x l :
  StronglySorted not_after l -> StronglySorted not_after (insert_by x l).
Proof.
  unfold not_after. induction 1 as [|y l Hl IH Hy]; cbn.
  { repeat constructor. }
  destruct (less y x) eqn:E.
  - constructor; [done|]. rewrite insert_by_perm. constructor; [|done]. by apply less_asym.
  - constructor; [by constructor|]. constructor; [done|].
    rewrite Forall_forall in Hy |- *. intros z Hz. eapply less_trans; [by apply Hy|done].
Qed.

Lemma sort_by_sorted l : StronglySorted not_after (sort_by l).
Proof. induction l; cbn; [constructor|by apply insert_by_sorted]. Qed.

Hypothesis less_tricho : forall x y, less x y = false -> less y x = false -> x = y.

(** A sorted list is determined by its multiset of elements. *)
Lemma sorted_perm_eq l1 l2 :
  l1 ≡ₚ l2 -> StronglySorted not_after l1 -> StronglySorted not_after l2 -> l1 = l2.
Proof.
  intros Hp H1. revert l2 Hp. induction H1 as [|x l1 _ IH Hx]; intros l2 Hp H2.
  { by apply Permutation_nil in Hp. }
  destruct H2 as [|y l2 H2 Hy]; [by apply Permutation_sym, Permutation_nil in Hp|].
  assert (x = y) as ->.
  { assert (Hxin : x ∈ y :: l2) by (rewrite <- Hp; left).
    assert (Hyin : y ∈ x :: l1) by (rewrite Hp; left).
    rewrite Forall_forall in Hx, Hy. unfold not_after in *.
    apply elem_of_cons in Hxin as [->|Hxin]; [done|].
    apply elem_of_cons in Hyin as [->|Hyin]; [done|].
    apply less_tricho; auto. }
  f_equal. apply IH; [|done]. by apply Permutation_cons_inv in Hp.
Qed.

Lemma sort_by_perm_eq l1 l2 : l1 ≡ₚ l2 -> sort_by l1 = sort_by l2.
Proof.
  intros Hp. apply sorted_perm_eq; [|apply sort_by_sorted..].
  by rewrite !sort_by_perm.
Qed.

End sorting.

(** Sorting by a key is sorting the keys. *)
Lemma sort_by_fmap {A B} (f : A -> B) (less : B -> B -> bool) (l : list A) :
  f <$> sort_by (fun a b => less (f a) (f b)) l = sort_by less (f <$> l).
Proof.
  assert (Hi : forall x l, f <$> insert_by (fun a b => less (f a) (f b)) x l = insert_by less (f x) (f <$> l)).
  { intros x l0. induction l0 as [|y l0 IH]; cbn; [done|]. destruct (less (f y) (f x)); cbn; [by f_equal|done]. }
  induction l as [|x l IH]; [done|]. cbn. rewrite Hi. by f_equal.
Qed.

(** ** Strings as byte sequences: the order Go's [<] uses. *)

Lemma str_ltb_leb s1 s2 : String.ltb s1 s2 = negb (String.leb s2 s1).
Proof.
  unfold String.ltb, String.leb. rewrite String.compare_antisym.
  by destruct (String.compare s2 s1).
Qed.

Lemma str_ge_trans s1 s2 s3 :
  String.ltb s1 s2 = false -> String.ltb s2 s3 = false -> String.ltb s1 s3 = false.
Proof.
  rewrite !str_ltb_leb, !negb_false_iff. rewrite <- !Is_true_true.
  intros H12 H23. by etrans; [apply H23|apply H12].
Qed.

Lemma str_lt_asym s1 s2 : String.ltb s1 s2 = true -> String.ltb s2 s1 = false.
Proof.
  rewrite !str_ltb_leb, negb_true_iff, negb_false_iff. intros H.
  destruct (String.leb_total s1 s2); congruence.
Qed.

Lemma str_lt_tricho s1 s2 : String.ltb s1 s2 = false -> String.ltb s2 s1 = false -> s1 = s2.
Proof.
  rewrite !str_ltb_leb, !negb_false_iff. intros. by apply String.leb_antisym.
Qed.

Lemma str_lt_irrefl s : String.ltb s s = false.
Proof. destruct (String.ltb s s) eqn:E; [|done]. by pose proof (str_lt_asym _ _ E); congruence. Qed.

#[export] Hint Resolve str_ge_trans str_lt_asym str_lt_tricho str_lt_irrefl : goddns.

Definition sort_strings : list string -> list string := sort_by String.ltb.

Lemma sort_strings_perm l : sort_strings l ≡ₚ l.
Proof. apply sort_by_perm. Qed.

Lemma sort_strings_sorted l : StronglySorted (not_after String.ltb) (sort_strings l).
Proof. apply sort_by_sorted; eauto with goddns. Qed.

Lemma sort_strings_perm_eq l1 l2 : l1 ≡ₚ l2 -> sort_strings l1 = sort_strings l2.
Proof. apply sort_by_perm_eq; eauto with goddns. Qed.
