(* ===== verification/GoStrings.v ===== *)
(** * Go's [strings], [strconv] and slicing, on byte strings

    A Go [string] (and a [[]byte] holding text) is a Rocq [string]: a sequence
    of bytes. Case folding and white space are those of ASCII, which is what
    host names, zone names and the files the program writes consist of.
    Definitions carry the Go names in snake case. *)

From Stdlib Require Import Ascii DecimalString DecimalN Decimal DecimalFacts.
From S2P Require Import Prelude.

(** ** Characters *)

Definition code (c : ascii) : nat := nat_of_ascii c.

Definition is_upper (c : ascii) : bool := (65 <=? code c)%nat && (code c <=? 90)%nat.
Definition is_lower (c : ascii) : bool := (97 <=? code c)%nat && (code c <=? 122)%nat.
Definition is_digit (c : ascii) : bool := (48 <=? code c)%nat && (code c <=? 57)%nat.
Definition is_space (c : ascii) : bool :=
  ((9 <=? code c)%nat && (code c <=? 13)%nat) || (code c =? 32)%nat.

Definition lower_char (c : ascii) : ascii :=
  if is_upper c then ascii_of_nat (code c + 32) else c.
Definition upper_char (c : ascii) : ascii :=
  if is_lower c then ascii_of_nat (code c - 32) else c.

(** ** Whole-string functions *)

Fixpoint str_map (f : ascii -> ascii) (s : string) : string :=
  match s with "" => "" | String c s' => String (f c) (str_map f s') end.

Fixpoint str_forall (p : ascii -> bool) (s : string) : bool :=
  match s with "" => true | String c s' => p c && str_forall p s' end.

Fixpoint str_exists (p : ascii -> bool) (s : string) : bool :=
  match s with "" => false | String c s' => p c || str_exists p s' end.

Definition to_lower : string -> string := str_map lower_char.
Definition to_upper : string -> string := str_map upper_char.
Definition equal_fold (a b : string) : bool := String.eqb (to_lower a) (to_lower b).

(** [strings.ContainsAny]. *)
Definition contains_any (s chars : string) : bool :=
  str_exists (fun c => str_exists (Ascii.eqb c) chars) s.

(** ** Slices *)

Fixpoint str_take (n : nat) (s : string) : string :=
  match n, s with
  | S n', String c s' => String c (str_take n' s')
  | _, _ => ""
  end.

Fixpoint str_drop (n : nat) (s : string) : string :=
  match n, s with
  | O, _ => s
  | S n', String _ s' => str_drop n' s'
  | S _, "" => ""
  end.

(** [s[i:j]]. *)
Definition slice (i j : nat) (s : string) : string := str_take (j - i) (str_drop i s).

Fixpoint has_prefix (p s : string) : bool :=
  match p, s with
  | "", _ => true
  | String a p', String b s' => Ascii.eqb a b && has_prefix p' s'
  | String _ _, "" => false
  end.

Definition has_suffix (suf s : string) : bool :=
  (String.length suf <=? String.length s)%nat &&
  String.eqb (str_drop (String.length s - String.length suf) s) suf.

Definition trim_prefix (p s : string) : string :=
  if has_prefix p s then str_drop (String.length p) s else s.

Definition trim_suffix (suf s : string) : string :=
  if has_suffix suf s then str_take (String.length s - String.length suf) s else s.

Fixpoint trim_left_by (p : ascii -> bool) (s : string) : string :=
  match s with
  | "" => ""
  | String c s' => if p c then trim_left_by p s' else s
  end.

Fixpoint trim_right_by (p : ascii -> bool) (s : string) : string :=
  match s with
  | "" => ""
  | String c s' =>
      let r := trim_right_by p s' in
      if String.eqb r "" && p c then "" else String c r
  end.

Definition trim_by (p : ascii -> bool) (s : string) : string :=
  trim_right_by p (trim_left_by p s).
Definition trim_space : string -> string := trim_by is_space.

(** [strings.Contains]. *)
Fixpoint contains (sub s : string) : bool :=
  has_prefix sub s ||
  match s with "" => false | String _ s' => contains sub s' end.

(** [strings.Cut] on a one-byte separator. *)
Fixpoint cut (sep : ascii) (s : string) : option (string * string) :=
  match s with
  | "" => None
  | String c s' =>
      if Ascii.eqb c sep then Some ("", s')
      else match cut sep s' with
           | Some (a, b) => Some (String c a, b)
           | None => None
           end
  end.

(** [strings.Split] on a one-byte separator; the result is never empty. *)
Fixpoint split (sep : ascii) (s : string) : list string :=
  match s with
  | "" => [""]
  | String c s' =>
      if Ascii.eqb c sep then "" :: split sep s'
      else match split sep s' with
           | h :: t => String c h :: t
           | [] => [String c ""]
           end
  end.

Fixpoint join (sep : string) (l : list string) : string :=
  match l with
  | [] => ""
  | [x] => x
  | x :: l' => x +:+ sep +:+ join sep l'
  end.

(** [strings.FieldsFunc]: maximal runs of bytes outside [p]. *)
Fixpoint fields_by (p : ascii -> bool) (s : string) : list string :=
  match s with
  | "" => []
  | String c s' =>
      if p c then fields_by p s'
      else match s' with
           | String d _ =>
               if p d then String c "" :: fields_by p s'
               else match fields_by p s' with
                    | h :: t => String c h :: t
                    | [] => [String c ""]
                    end
           | "" => [String c ""]
           end
  end.
Definition fields : string -> list string := fields_by is_space.

Definition newline : ascii := "010"%char.
Definition tab : ascii := "009"%char.
Definition cr : ascii := "013"%char.
Definition quote : ascii := "034"%char.
Definition nl : string := String newline "".

(** ** [strconv] *)

(** [strconv.FormatUint(n, 10)], [fmt.Sprint] and [%d] of an unsigned. *)
Definition format_uint (z : Z) : string :=
  NilZero.string_of_uint (N.to_uint (Z.to_N z)).

Definition format_int (z : Z) : string :=
  if z <? 0 then String "-" (format_uint (- z)) else format_uint z.

(** [strconv.ParseUint(s, 10, bits)]. *)
Definition parse_uint (bits : Z) (s : string) : option Z :=
  if String.eqb s "" then None
  else match NilEmpty.uint_of_string s with
       | Some d => let z := Z.of_N (N.of_uint d) in
                   if z <? 2 ^ bits then Some z else None
       | None => None
       end.

(** [strconv.ParseInt(s, 10, 64)]; [strconv.Atoi] on a 64-bit target. *)
Definition parse_int (s : string) : option Z :=
  let '(neg, digits) :=
    match s with
    | String "-" s' => (true, s')
    | String "+" s' => (false, s')
    | _ => (false, s)
    end in
  if String.eqb digits "" then None
  else match NilEmpty.uint_of_string digits with
       | Some d =>
           let z := Z.of_N (N.of_uint d) in
           let z' := if neg then - z else z in
           if (- (two64 / 2) <=? z') && (z' <? two64 / 2) then Some z' else None
       | None => None
       end.

(** The normalisation the program applies to host and zone names in several
    places: trimmed, lower case, one trailing dot removed. *)
Definition norm_name (s : string) : string := trim_suffix "." (to_lower (trim_space s)).

(** ** Lemmas: append, length, slices *)

#[global] Arguments String.append : simpl nomatch.

Lemma str_app_nil_r s : s +:+ "" = s.
Proof. induction s as [|c s IH]; [done|]. cbn. by rewrite IH. Qed.

Lemma str_app_assoc a b c : (a +:+ b) +:+ c = a +:+ (b +:+ c).
Proof. induction a as [|x a IH]; [done|]. cbn. by rewrite IH. Qed.

Lemma str_app_cons x a b : String x a +:+ b = String x (a +:+ b).
Proof. done. Qed.

Lemma str_length_app a b : String.length (a +:+ b) = (String.length a + String.length b)%nat.
Proof. induction a as [|x a IH]; [done|]. cbn. by rewrite IH. Qed.

Lemma str_take_app a b : str_take (String.length a) (a +:+ b) = a.
Proof. induction a as [|x a IH]; cbn; [by destruct b|]. by rewrite IH. Qed.

Lemma str_drop_app a b : str_drop (String.length a) (a +:+ b) = b.
Proof. induction a as [|x a IH]; cbn; [by destruct b|]. done. Qed.

Lemma str_take_app_n n a b : String.length a = n -> str_take n (a +:+ b) = a.
Proof. intros <-. apply str_take_app. Qed.

Lemma str_drop_app_n n a b : String.length a = n -> str_drop n (a +:+ b) = b.
Proof. intros <-. apply str_drop_app. Qed.

Lemma str_take_drop n s : str_take n s +:+ str_drop n s = s.
Proof.
  revert s. induction n as [|n IH]; intros [|c s]; try done.
  cbn. f_equal. apply IH.
Qed.

Lemma str_take_all n s : (String.length s <= n)%nat -> str_take n s = s.
Proof.
  revert s. induction n as [|n IH]; intros [|c s]; cbn; try done; [lia|].
  intros. by rewrite IH by lia.
Qed.

Lemma str_length_take n s : String.length (str_take n s) = (n `min` String.length s)%nat.
Proof. revert s. induction n as [|n IH]; intros [|c s]; cbn; auto. Qed.

Lemma str_length_drop n s : String.length (str_drop n s) = (String.length s - n)%nat.
Proof. revert s. induction n as [|n IH]; intros [|c s]; cbn; auto. Qed.

Lemma str_drop_drop m n s : str_drop m (str_drop n s) = str_drop (n + m) s.
Proof.
  revert s. induction n as [|n IH]; intros s; [done|].
  destruct s as [|c s]; cbn; [by destruct m|apply IH].
Qed.

Lemma str_app_eq_nil a b : a +:+ b = "" <-> a = "" /\ b = "".
Proof. destruct a; cbn; split; intros; [done|naive_solver|done|naive_solver]. Qed.

Lemma str_app_inj_l a b c : c +:+ a = c +:+ b -> a = b.
Proof. induction c as [|x c IH]; [done|]. cbn. intros [= H]. by apply IH. Qed.

Lemma str_app_inj_r a b c : a +:+ c = b +:+ c -> a = b.
Proof.
  intros H. assert (Hl : String.length a = String.length b).
  { apply (f_equal String.length) in H. rewrite !str_length_app in H. lia. }
  revert b Hl H. induction a as [|x a IH]; intros [|y b]; cbn; intros Hl H; try done.
  injection H as -> H. f_equal. apply IH; [lia|done].
Qed.

Lemma slice_mid a m b :
  slice (String.length a) (String.length a + String.length m) (a +:+ m +:+ b) = m.
Proof.
  unfold slice. rewrite str_drop_app.
  replace (String.length a + String.length m - String.length a)%nat
    with (String.length m) by lia.
  apply str_take_app.
Qed.

(** ** Predicates on every byte *)

Lemma str_forall_app p a b : str_forall p (a +:+ b) = str_forall p a && str_forall p b.
Proof. induction a as [|x a IH]; cbn; [done|]. by rewrite IH, andb_assoc. Qed.

Lemma str_exists_app p a b : str_exists p (a +:+ b) = str_exists p a || str_exists p b.
Proof. induction a as [|x a IH]; cbn; [done|]. by rewrite IH, orb_assoc. Qed.

Lemma str_forall_impl (p q : ascii -> bool) s :
  (forall c, p c = true -> q c = true) -> str_forall p s = true -> str_forall q s = true.
Proof.
  intros Hpq. induction s as [|c s IH]; cbn; [done|]. intros. bsplit.
  by rewrite Hpq, IH.
Qed.

Lemma str_exists_negb p s : str_exists p s = negb (str_forall (fun c => negb (p c)) s).
Proof. induction s as [|c s IH]; cbn; [done|]. rewrite IH. by destruct (p c). Qed.

(** ** Prefixes and suffixes *)

Lemma has_prefix_spec p s : has_prefix p s = true <-> exists r, s = p +:+ r.
Proof.
  revert s. induction p as [|a p IH]; intros s; cbn.
  { naive_solver. }
  destruct s as [|b s]; [naive_solver|].
  rewrite andb_true_iff, Ascii.eqb_eq, IH. naive_solver.
Qed.

Lemma has_suffix_spec suf s : has_suffix suf s = true <-> exists r, s = r +:+ suf.
Proof.
  unfold has_suffix. rewrite andb_true_iff, Nat.leb_le, String.eqb_eq. split.
  - intros [Hl H]. exists (str_take (String.length s - String.length suf) s).
    rewrite <- H at 2. by rewrite str_take_drop.
  - intros [r ->]. rewrite str_length_app. split; [lia|].
    rewrite Nat.add_sub. apply str_drop_app.
Qed.

Lemma trim_suffix_app suf r : trim_suffix suf (r +:+ suf) = r.
Proof.
  unfold trim_suffix. rewrite (proj2 (has_suffix_spec suf _)) by eauto.
  rewrite str_length_app, Nat.add_sub. apply str_take_app.
Qed.

Lemma trim_suffix_cases suf s :
  (s = trim_suffix suf s +:+ suf) \/ (trim_suffix suf s = s /\ has_suffix suf s = false).
Proof.
  unfold trim_suffix. destruct (has_suffix suf s) eqn:E; [|by right].
  left. apply has_suffix_spec in E as [r ->].
  rewrite str_length_app, Nat.add_sub. by rewrite str_take_app.
Qed.

Lemma trim_prefix_app p r : trim_prefix p (p +:+ r) = r.
Proof.
  unfold trim_prefix. rewrite (proj2 (has_prefix_spec p _)) by eauto.
  apply str_drop_app.
Qed.

Lemma contains_spec sub s : contains sub s = true <-> exists a b, s = a +:+ sub +:+ b.
Proof.
  induction s as [|c s IH]; cbn; rewrite orb_true_iff, has_prefix_spec.
  - split; [intros [[r H]|[=]]; by exists "", r|].
    intros (a & b & H). symmetry in H. apply str_app_eq_nil in H as [-> H].
    left. by exists b.
  - rewrite IH. split.
    + intros [[r H]|(a & b & ->)]; [by exists "", r|]. by exists (String c a), b.
    + intros ([|x a] & b & H); [left; eauto|]. injection H as -> ->. right; eauto.
Qed.

(** ** Case folding *)

Lemma lower_char_idem c : lower_char (lower_char c) = lower_char c.
Proof. destruct c as [[] [] [] [] [] [] [] []]; reflexivity. Qed.

Lemma to_lower_idem s : to_lower (to_lower s) = to_lower s.
Proof. induction s as [|c s IH]; [done|]. cbn. by rewrite lower_char_idem; f_equal. Qed.

Lemma to_lower_app a b : to_lower (a +:+ b) = to_lower a +:+ to_lower b.
Proof. induction a as [|c a IH]; [done|]. cbn. f_equal. apply IH. Qed.

Lemma to_lower_length s : String.length (to_lower s) = String.length s.
Proof. induction s as [|c s IH]; cbn; auto. Qed.

Lemma equal_fold_eq a b : equal_fold a b = true <-> to_lower a = to_lower b.
Proof. apply String.eqb_eq. Qed.

Lemma equal_fold_refl a : equal_fold a a = true.
Proof. by apply equal_fold_eq. Qed.

Lemma equal_fold_sym a b : equal_fold a b = equal_fold b a.
Proof. apply String.eqb_sym. Qed.

(** ** Split and join *)

Lemma trim_right_idem p s : trim_right_by p (trim_right_by p s) = trim_right_by p s.
Proof.
  induction s as [|c s IH]; [done|]. cbn. destruct (String.eqb (trim_right_by p s) "" && p c) eqn:E; [done|].
  cbn. by rewrite IH, E.
Qed.

Lemma trim_left_head p s : trim_left_by p s = "" \/ exists c r, trim_left_by p s = String c r /\ p c = false.
Proof. induction s as [|c s IH]; cbn; [by left|]. destruct (p c) eqn:E; [done|]. right. by eauto. Qed.

Lemma trim_idem p s : trim_by p (trim_by p s) = trim_by p s.
Proof.
  unfold trim_by. destruct (trim_left_head p s) as [->|(c & r & -> & Hc)]; [done|].
  assert (H : trim_right_by p (String c r) = String c (trim_right_by p r)) by (cbn; by rewrite Hc, andb_false_r).
  rewrite H. cbn [trim_left_by]. rewrite Hc, <- H. apply trim_right_idem.
Qed.

Lemma trim_forall p q s : str_forall q s = true -> str_forall q (trim_by p s) = true.
Proof.
  assert (Hr : forall t, str_forall q t = true -> str_forall q (trim_right_by p t) = true).
  { induction t as [|c t IH]; [done|]. cbn. intros [Hc Ht]%andb_true_iff. specialize (IH Ht).
    destruct (trim_right_by p t); [destruct (p c); cbn|cbn in *]; by rewrite ?Hc. }
  intros H. apply Hr. induction s as [|c s IH]; [done|]. cbn in *. apply andb_true_iff in H as [Hc H].
  destruct (p c); [by apply IH|]. cbn. by rewrite Hc.
Qed.

Lemma lower_fixed s : to_lower s = s <-> str_forall (fun c => Ascii.eqb (lower_char c) c) s = true.
Proof.
  induction s as [|c s IH]; [done|]. cbn. rewrite andb_true_iff, <- IH, Ascii.eqb_eq. split; [by intros [= ? ?]|].
  by intros [-> ->].
Qed.

Lemma trim_id p s : str_forall (fun c => negb (p c)) s = true -> trim_by p s = s.
Proof.
  unfold trim_by. intros H. assert (Hl : trim_left_by p s = s).
  { destruct s as [|c s]; [done|]. cbn in *. bsplit. by destruct (p c). }
  rewrite Hl. clear Hl. induction s as [|c s IH]; [done|]. cbn in *. bsplit. rewrite IH by done.
  by rewrite H, andb_false_r.
Qed.

Lemma split_nonempty sep s : split sep s <> [].
Proof.
  destruct s as [|c s]; cbn; [done|]. destruct (Ascii.eqb c sep); [done|].
  by destruct (split sep s).
Qed.

Definition free_of (sep : ascii) (s : string) : bool :=
  str_forall (fun c => negb (Ascii.eqb c sep)) s.

Lemma split_free sep s : Forall (fun x => free_of sep x = true) (split sep s).
Proof.
  induction s as [|c s IH]; cbn; [by repeat constructor|].
  destruct (Ascii.eqb c sep) eqn:E; [by constructor|].
  destruct (split sep s) as [|h t]; inversion_clear IH; constructor; try done;
    unfold free_of in *; cbn; by rewrite E.
Qed.

Lemma join_cons sep x y l : join sep (x :: y :: l) = x +:+ sep +:+ join sep (y :: l).
Proof. done. Qed.

(** [strings.Join(strings.Split(s, sep), sep) = s]. *)
Lemma join_split sep s : join (String sep "") (split sep s) = s.
Proof.
  induction s as [|c s IH]; cbn [split]; [done|].
  destruct (Ascii.eqb_spec c sep) as [->|Hne].
  - pose proof (split_nonempty sep s). destruct (split sep s) as [|h t]; [done|].
    rewrite join_cons, IH. done.
  - pose proof (split_nonempty sep s). destruct (split sep s) as [|h [|h' t]]; [done|..].
    + cbn in *. by rewrite IH.
    + rewrite join_cons in *. by rewrite <- IH.
Qed.

Lemma split_app sep x s :
  free_of sep x = true -> split sep (x +:+ String sep s) = x :: split sep s.
Proof.
  induction x as [|c x IH]; cbn; [by rewrite Ascii.eqb_refl|].
  intros H. bsplit. rewrite H, IH by done. done.
Qed.

Lemma split_app_any sep a b : split sep (a +:+ String sep b) = split sep a ++ split sep b.
Proof.
  induction a as [|c a IH]; cbn; [by rewrite Ascii.eqb_refl|].
  destruct (Ascii.eqb c sep); [by rewrite IH|]. rewrite IH.
  pose proof (split_nonempty sep a). by destruct (split sep a).
Qed.

Lemma split_free_id sep x : free_of sep x = true -> split sep x = [x].
Proof.
  induction x as [|c x IH]; cbn; [done|]. intros H. bsplit. by rewrite H, IH.
Qed.

(** [strings.Split(strings.Join(l, sep), sep) = l] when no element holds
    the separator. *)
Lemma split_join sep l :
  l <> [] -> Forall (fun x => free_of sep x = true) l ->
  split sep (join (String sep "") l) = l.
Proof.
  intros Hne Hf. induction Hf as [|x l Hx Hf IH]; [done|].
  destruct l as [|y l]; [by apply split_free_id|].
  rewrite join_cons. cbn [String.append]. rewrite split_app by done. by rewrite IH.
Qed.

Lemma cut_app sep a b : free_of sep a = true -> cut sep (a +:+ String sep b) = Some (a, b).
Proof.
  induction a as [|c a IH]; cbn; [by rewrite Ascii.eqb_refl|].
  intros H. bsplit. by rewrite H, IH.
Qed.

Lemma cut_Some sep s a b :
  cut sep s = Some (a, b) -> s = a +:+ String sep b /\ free_of sep a = true.
Proof.
  revert a. induction s as [|c s IH]; intros a; cbn; [done|].
  destruct (Ascii.eqb c sep) eqn:E.
  - intros [= <- <-]. apply Ascii.eqb_eq in E as ->. done.
  - destruct (cut sep s) as [[a' b']|]; [|done]. intros [= <- <-].
    destruct (IH a') as [-> Hf]; [done|]. split; [done|]. cbn. by rewrite E.
Qed.

(** ** Decimal numbers *)

Lemma string_of_uint_digits d : str_forall is_digit (NilEmpty.string_of_uint d) = true.
Proof. induction d; cbn; auto. Qed.

Lemma format_uint_digits z : str_forall is_digit (format_uint z) = true /\ format_uint z <> "".
Proof.
  unfold format_uint, NilZero.string_of_uint.
  destruct (N.to_uint (Z.to_N z)) eqn:E; (split; [|done]);
    try apply (string_of_uint_digits (Decimal.D0 _)); rewrite <- ?E;
    try apply string_of_uint_digits; done.
Qed.

Lemma parse_format_uint bits z : 0 <= z < 2 ^ bits -> parse_uint bits (format_uint z) = Some z.
Proof.
  intros [H0 Hlt]. unfold parse_uint.
  destruct (format_uint_digits z) as [_ Hne].
  destruct (String.eqb_spec (format_uint z) ""); [done|].
  assert (exists d, NilEmpty.uint_of_string (format_uint z) = Some d /\ Z.of_N (N.of_uint d) = z)
    as (d & -> & ->).
  { unfold format_uint, NilZero.string_of_uint.
    pose proof (DecimalN.Unsigned.of_to (Z.to_N z)) as Hof.
    destruct (N.to_uint (Z.to_N z)) as [|u|u|u|u|u|u|u|u|u|u] eqn:E;
      [exists (Decimal.D0 Decimal.Nil); split; [done|]; cbn in *; lia|..];
      (eexists; split; [apply NilEmpty.usu|rewrite Hof; lia]). }
  by destruct (Z.ltb_spec z (2 ^ bits)); [|lia].
Qed.

(** The digits of a natural number, read back. *)
Lemma format_uint_read k : 0 <= k ->
  format_uint k <> "" /\ (exists d, NilEmpty.uint_of_string (format_uint k) = Some d /\ Z.of_N (N.of_uint d) = k) /\
  forall c s, format_uint k = String c s -> c <> "-"%char /\ c <> "+"%char.
Proof.
  intros Hk. destruct (format_uint_digits k) as [Hd Hne].
  assert (Hr : 0 <= k < 2 ^ (Z.log2 k + 1)).
  { split; [done|]. destruct (decide (k = 0)) as [->|]; [done|]. rewrite Z.add_1_r. apply Z.log2_spec. lia. }
  pose proof (parse_format_uint (Z.log2 k + 1) k Hr) as H. unfold parse_uint in H.
  pose proof Hne as Hne'. apply String.eqb_neq in Hne'. rewrite Hne' in H.
  split; [done|]. split.
  - destruct (NilEmpty.uint_of_string (format_uint k)) as [d|]; [|done]. exists d. split; [done|].
    destruct (_ <? _) in H; [|done]. by injection H.
  - intros c s Hs. rewrite Hs in Hd. cbn in Hd. bsplit. by split; intros ->.
Qed.

Lemma parse_format_int z : - (two64 / 2) <= z < two64 / 2 -> parse_int (format_int z) = Some z.
Proof.
  intros Hz. unfold format_int.
  assert (Hrange : (- (two64 / 2) <=? z) && (z <? two64 / 2) = true) by (apply andb_true_iff; split; lia).
  destruct (Z.ltb_spec z 0).
  - destruct (format_uint_read (- z)) as (Hne & (d & Hd & Hv) & _); [lia|]. unfold parse_int.
    apply String.eqb_neq in Hne. rewrite Hne, Hd, Hv, Z.opp_involutive, Hrange. done.
  - destruct (format_uint_read z) as (Hne & (d & Hd & Hv) & Hc); [lia|]. unfold parse_int.
    destruct (format_uint z) as [|c s] eqn:E; [done|]. destruct (Hc c s eq_refl) as [Hm Hp].
    assert (Hcase : match String c s with String "-" s' => (true, s') | String "+" s' => (false, s') | _ => (false, String c s) end
                    = (false, String c s)) by (destruct c as [[] [] [] [] [] [] [] []]; done).
    rewrite Hcase. cbn [String.eqb]. rewrite Hd, Hv, Hrange. done.
Qed.

(** ** Lines of text *)

(** Each line and its newline. *)
Definition text_of (lines : list string) : string := foldr (fun l s => l +:+ String newline s) "" lines.

Lemma free_of_app c a b : free_of c (a +:+ b) = free_of c a && free_of c b.
Proof. apply str_forall_app. Qed.

Lemma format_uint_free c n : is_digit c = false -> free_of c (format_uint n) = true.
Proof.
  intros Hc. apply (str_forall_impl is_digit); [|apply format_uint_digits]. intros d Hd.
  destruct (Ascii.eqb_spec d c) as [->|]; [congruence|done].
Qed.

Lemma format_uint_line n : free_of newline (format_uint n) = true.
Proof. by apply format_uint_free. Qed.

Lemma format_int_free c n : is_digit c = false -> c <> "-"%char -> free_of c (format_int n) = true.
Proof.
  intros Hc Hm. unfold format_int. destruct (n <? 0); [|by apply format_uint_free].
  change (negb (Ascii.eqb "-" c) && free_of c (format_uint (- n)) = true). rewrite format_uint_free by done.
  destruct (Ascii.eqb_spec "-" c); [by subst|done].
Qed.

Lemma format_int_inj a b : - (two64 / 2) <= a < two64 / 2 -> - (two64 / 2) <= b < two64 / 2 -> format_int a = format_int b -> a = b.
Proof. intros Ha Hb H. apply (f_equal parse_int) in H. rewrite !parse_format_int in H by done. congruence. Qed.

Lemma split_text_of lines : Forall (fun l => free_of newline l = true) lines -> split newline (text_of lines) = lines ++ [""].
Proof. induction 1 as [|l ls Hl _ IH]; [done|]. cbn [text_of foldr]. rewrite split_app by done. rewrite <- app_comm_cons. f_equal. exact IH. Qed.

Lemma split_inj sep s1 s2 : split sep s1 = split sep s2 -> s1 = s2.
Proof. intros H. rewrite <- (join_split sep s1), <- (join_split sep s2). by rewrite H. Qed.

(** What follows the last separator. *)
Lemma last_field_inj c a b x y : free_of c x = true -> free_of c y = true -> a +:+ String c x = b +:+ String c y -> a = b /\ x = y.
Proof.
  intros Hx Hy H. apply (f_equal (split c)) in H. rewrite !split_app_any, (split_free_id c x), (split_free_id c y) in H by done.
  apply app_inj_tail in H as [H ->]. by apply split_inj in H.
Qed.

Lemma uint_of_string_digits s d : NilEmpty.uint_of_string s = Some d -> str_forall is_digit s = true.
Proof.
  revert d. induction s as [|c s IH]; intros d; [done|]. cbn.
  destruct (NilEmpty.uint_of_string s) as [d'|];
    [|by destruct c as [[] [] [] [] [] [] [] []]].
  intros H. rewrite (IH d' eq_refl). by destruct c as [[] [] [] [] [] [] [] []].
Qed.

Lemma parse_uint_range bits s z :
  parse_uint bits s = Some z -> 0 <= z < 2 ^ bits /\ s <> "" /\ str_forall is_digit s = true.
Proof.
  unfold parse_uint. destruct (String.eqb_spec s ""); [done|].
  destruct (NilEmpty.uint_of_string s) as [d|] eqn:E; [|done].
  destruct (Z.ltb_spec (Z.of_N (N.of_uint d)) (2 ^ bits)); [|done].
  intros [= <-]. split; [lia|]. split; [done|]. by eapply uint_of_string_digits.
Qed.
