(* ===== verification/NetIP.v ===== *)
(** * NetIP: what the program uses of Go's [net]

    Addresses ([net.IP], with [To4] already applied: an IPv4-mapped IPv6
    address is [V4]), [net.ParseIP], [IP.String], the address classes,
    [net.ParseCIDR], [IPNet.Contains] and [net.SplitHostPort]. *)

From Stdlib Require Import String Ascii.
From S2P Require Import Prelude GoStrings.

Inductive addr := V4 (b : list Z) | V6 (b : list Z).

#[export] Instance addr_eq_dec : EqDecision addr.
Proof. solve_decision. Defined.

Definition bytes_of (a : addr) : list Z := match a with V4 b | V6 b => b end.

Definition v4_prefix : list Z := [0;0;0;0;0;0;0;0;0;0;255;255].

(** [IP.To4] on sixteen bytes. *)
Definition addr_of16 (b : list Z) : addr :=
  if bool_decide (take 12 b = v4_prefix) then V4 (drop 12 b) else V6 b.

(** ** Parsing addresses *)

(** One decimal field: digits only, no leading zero, at most 255. *)
Definition ipv4_field (s : string) : option Z :=
  match s with
  | "" => None
  | String "0" (String _ _) => None
  | _ => if str_forall is_digit s
         then z ← parse_uint 32 s; if z <=? 255 then Some z else None
         else None
  end.

Definition parse_ipv4 (s : string) : option (list Z) :=
  match split "." s with
  | [a; b; c; d] =>
      a' ← ipv4_field a; b' ← ipv4_field b; c' ← ipv4_field c; d' ← ipv4_field d;
      Some [a'; b'; c'; d']
  | _ => None
  end.

Definition hex_val (c : ascii) : option Z :=
  let n := Z.of_nat (code c) in
  if is_digit c then Some (n - 48)
  else if (97 <=? n) && (n <=? 102) then Some (n - 87)
  else if (65 <=? n) && (n <=? 70) then Some (n - 55)
  else None.

(** The hexadecimal digits at the head of [s]: their value, their number and
    what follows. *)
Fixpoint hex_run (acc : Z) (n : nat) (s : string) : Z * nat * string :=
  match s with
  | "" => (acc, n, "")
  | String c s' =>
      match hex_val c with
      | Some d => hex_run (acc * 16 + d) (S n) s'
      | None => (acc, n, s)
      end
  end.

(** The bytes parsed so far, and their number when [::] was met. *)
Fixpoint ipv6_fields (fuel : nat) (s : string) (ip : list Z) (ellipsis : option nat)
  : option (list Z * option nat) :=
  match fuel with
  | O => None
  | S f =>
      if (16 <=? length ip)%nat then None
      else
      let '(acc, n, rest) := hex_run 0 0 s in
      if (n =? 0)%nat || (4 <? n)%nat then None
      else match rest with
      | String "." _ =>
          if (match ellipsis with None => negb (length ip =? 12)%nat | Some _ => false end)
             || (16 <? length ip + 4)%nat then None
          else v4 ← parse_ipv4 s; Some (ip ++ v4, ellipsis)
      | _ =>
          let ip' := ip ++ [acc / 256; acc mod 256] in
          match rest with
          | "" => Some (ip', ellipsis)
          | String ":" "" => None
          | String ":" (String ":" rest') =>
              match ellipsis with
              | Some _ => None
              | None => if String.eqb rest' "" then Some (ip', Some (length ip'))
                        else ipv6_fields f rest' ip' (Some (length ip'))
              end
          | String ":" rest' => ipv6_fields f rest' ip' ellipsis
          | _ => None
          end
      end
  end.

Definition expand (r : list Z * option nat) : option (list Z) :=
  let '(ip, ellipsis) := r in
  if (length ip <? 16)%nat then
    match ellipsis with
    | Some k => Some (take k ip ++ repeat 0 (16 - length ip) ++ drop k ip)
    | None => None
    end
  else match ellipsis with Some _ => None | None => Some ip end.

(** Eight fields of two bytes at most. *)
Definition parse_ipv6 (s : string) : option (list Z) :=
  match s with
  | "::" => Some (repeat 0 16)
  | String ":" (String ":" s') => r ← ipv6_fields 9 s' [] (Some 0%nat); expand r
  | _ => r ← ipv6_fields 9 s [] None; expand r
  end.

(** The first of [.], [:] and [%] decides; an IPv6 zone is not accepted. *)
Fixpoint addr_kind (s : string) : option ascii :=
  match s with
  | "" => None
  | String c s' => if Ascii.eqb c "." || Ascii.eqb c ":" || Ascii.eqb c "%" then Some c else addr_kind s'
  end.

(** [netip.ParseAddr] without zones: four or sixteen bytes. *)
Definition parse_addr (s : string) : option (list Z) :=
  match addr_kind s with
  | Some "."%char => parse_ipv4 s
  | Some ":"%char => if contains "%" s then None else parse_ipv6 s
  | _ => None
  end.

Definition ParseIP (s : string) : option addr :=
  b ← parse_addr s;
  Some (if (length b =? 4)%nat then V4 b else addr_of16 b).

(** ** Printing *)

Definition hex_field (z : Z) : string :=
  let d n := String (default "0"%char (String.get (Z.to_nat (z / n mod 16)) "0123456789abcdef")) "" in
  (if 4096 <=? z then d 4096 else "") +:+ (if 256 <=? z then d 256 else "") +:+
  (if 16 <=? z then d 16 else "") +:+ d 1.

Fixpoint pairs (b : list Z) : list Z :=
  match b with x :: y :: b' => x * 256 + y :: pairs b' | _ => [] end.

Fixpoint zero_run (l : list Z) : nat :=
  match l with 0 :: l' => S (zero_run l') | _ => 0 end.

(** The first longest run of zero fields, of length at least two. *)
Fixpoint longest_zeros (i : nat) (l : list Z) (best : nat * nat) : nat * nat :=
  match l with
  | [] => best
  | _ :: l' => longest_zeros (S i) l' (if (best.2 <? zero_run l)%nat then (i, zero_run l) else best)
  end.

Definition ip_string (a : addr) : string :=
  match a with
  | V4 b => join "." (format_uint <$> b)
  | V6 b =>
      let f := pairs b in
      let '(i, n) := longest_zeros 0 f (0%nat, 1%nat) in
      if (n <? 2)%nat then join ":" (hex_field <$> f)
      else join ":" (hex_field <$> take i f) +:+ "::" +:+ join ":" (hex_field <$> drop (i + n) f)
  end.

(** ** Classes *)

Definition byte_at (a : addr) (i : nat) : Z := nth i (bytes_of a) 0.

Definition IsLoopback (a : addr) : bool :=
  match a with V4 _ => byte_at a 0 =? 127 | V6 b => bool_decide (b = repeat 0 15 ++ [1]) end.
Definition IsUnspecified (a : addr) : bool :=
  match a with V4 b => bool_decide (b = repeat 0 4) | V6 b => bool_decide (b = repeat 0 16) end.
Definition IsMulticast (a : addr) : bool :=
  match a with V4 _ => Z.land (byte_at a 0) 240 =? 224 | V6 _ => byte_at a 0 =? 255 end.
Definition IsLinkLocalUnicast (a : addr) : bool :=
  match a with
  | V4 _ => (byte_at a 0 =? 169) && (byte_at a 1 =? 254)
  | V6 _ => (byte_at a 0 =? 254) && (Z.land (byte_at a 1) 192 =? 128)
  end.
Definition IsLinkLocalMulticast (a : addr) : bool :=
  match a with
  | V4 _ => (byte_at a 0 =? 224) && (byte_at a 1 =? 0) && (byte_at a 2 =? 0)
  | V6 _ => (byte_at a 0 =? 255) && (Z.land (byte_at a 1) 15 =? 2)
  end.

(** ** Networks *)

Record ipnet := mkNet { net_addr : addr; net_bits : Z }.

Definition value (b : list Z) : Z := foldl (fun v x => v * 256 + x) 0 b.

(** An IPv4-mapped network given as IPv6 with at least 96 bits is an IPv4
    network. *)
Definition ParseCIDR (s : string) : option ipnet :=
  match cut "/" s with
  | None => None
  | Some (a, m) =>
      b ← parse_addr a;
      let len := 8 * Z.of_nat (length b) in
      n ← (if str_forall is_digit m then parse_uint 32 m else None);
      if len <? n then None
      else if (length b =? 4)%nat then Some (mkNet (V4 b) n)
      else match addr_of16 b with
           | V4 b' => if 96 <=? n then Some (mkNet (V4 b') (n - 96)) else Some (mkNet (V6 b) n)
           | V6 _ => Some (mkNet (V6 b) n)
           end
  end.

Definition Contains (n : ipnet) (a : addr) : bool :=
  let b := bytes_of a in let nb := bytes_of (net_addr n) in
  let len := 8 * Z.of_nat (length b) in
  (length b =? length nb)%nat &&
  (Z.shiftr (value b) (len - net_bits n) =? Z.shiftr (value nb) (len - net_bits n)).

(** ** host:port *)

Fixpoint str_index (c : ascii) (i : nat) (s : string) : option nat :=
  match s with
  | "" => None
  | String d s' => if Ascii.eqb c d then Some i else str_index c (S i) s'
  end.

Fixpoint last_index (c : ascii) (i : nat) (s : string) : option nat :=
  match s with
  | "" => None
  | String d s' =>
      match last_index c (S i) s' with
      | Some k => Some k
      | None => if Ascii.eqb c d then Some i else None
      end
  end.

Definition has_byte (c : ascii) (s : string) : bool := str_exists (Ascii.eqb c) s.

Definition SplitHostPort (hp : string) : option (string * string) :=
  match last_index ":" 0 hp with
  | None => None
  | Some i =>
      let port := str_drop (S i) hp in
      match hp with
      | String "[" rest =>
          match str_index "]" 1 rest with
          | Some e =>
              if negb (S e =? i)%nat then None
              else if has_byte "[" rest || has_byte "]" (str_drop (S e) hp) then None
              else Some (slice 1 e hp, port)
          | None => None
          end
      | _ =>
          let host := str_take i hp in
          if has_byte ":" host || has_byte "[" hp || has_byte "]" hp then None
          else Some (host, port)
      end
  end.

Definition JoinHostPort (host port : string) : string :=
  if has_byte ":" host || has_byte "%" host then "[" +:+ host +:+ "]:" +:+ port else host +:+ ":" +:+ port.

Example parse_v4 : ParseIP "192.0.2.7" = Some (V4 [192;0;2;7]). Proof. reflexivity. Qed.
Example parse_bad : map ParseIP ["01.2.3.4"; "1.2.3"; "1.2.3.256"; "x"; "1::2::3"; "fe80::1%eth0"] = repeat None 6.
Proof. reflexivity. Qed.
Example parse_mapped : ParseIP "::ffff:10.0.0.1" = Some (V4 [10;0;0;1]). Proof. reflexivity. Qed.
Example print_v6 : ip_string <$> ParseIP "2001:DB8:0:0:1:0:0:1" = Some "2001:db8::1:0:0:1". Proof. reflexivity. Qed.
Example print_zero : ip_string <$> ParseIP "::" = Some "::". Proof. reflexivity. Qed.
Example contains_v4 : (fun n => Contains n (V4 [10;1;2;3])) <$> ParseCIDR "10.0.0.0/8" = Some true.
Proof. reflexivity. Qed.
Example split_v6 : (SplitHostPort "[::1]:80", SplitHostPort "::1", SplitHostPort "a:1") =
  (Some ("::1", "80"), None, Some ("a", "1")).
Proof. reflexivity. Qed.

(** ** An address that was parsed prints as something *)

Lemma parse_ipv4_length s b : parse_ipv4 s = Some b -> length b = 4%nat.
Proof.
  unfold parse_ipv4. destruct (split "." s) as [|a [|b' [|c [|d [|]]]]]; try done.
  destruct (ipv4_field a), (ipv4_field b'), (ipv4_field c), (ipv4_field d); try done. by intros [= <-].
Qed.

Lemma expand_length r b : expand r = Some b -> (16 <= length b)%nat.
Proof.
  destruct r as [ip e]. unfold expand. destruct (Nat.ltb_spec (length ip) 16); destruct e as [k|]; try done; intros [= <-]; [|done].
  rewrite !length_app, repeat_length, length_take, length_drop. lia.
Qed.

Lemma parse_ipv6_length s b : parse_ipv6 s = Some b -> (16 <= length b)%nat.
Proof.
  assert (Hf : forall s' e, (r ← ipv6_fields 9 s' [] e; expand r) = Some b -> (16 <= length b)%nat).
  { intros s' e. destruct (ipv6_fields 9 s' [] e) as [r|]; [apply expand_length|done]. }
  unfold parse_ipv6. intros H.
  repeat match type of H with context [match ?x with _ => _ end] => is_var x; destruct x end;
    try (exact (Hf _ _ H)). injection H as <-. cbn. lia.
Qed.

Lemma parsed_bytes s ip : ParseIP s = Some ip ->
  match ip with V4 b => (1 <= length b)%nat | V6 b => (16 <= length b)%nat end.
Proof.
  unfold ParseIP. destruct (parse_addr s) as [b|] eqn:Eb; [|done]. cbn. intros [= <-].
  assert (Hl : length b = 4%nat \/ (16 <= length b)%nat).
  { unfold parse_addr in Eb. destruct (addr_kind s) as [[[] [] [] [] [] [] [] []]|]; try done;
      [left; by eapply parse_ipv4_length|right]. destruct (contains "%" s); [done|by eapply parse_ipv6_length]. }
  destruct (Nat.eqb_spec (length b) 4); [lia|]. unfold addr_of16. case_bool_decide; [rewrite length_drop|]; lia.
Qed.

Lemma join_nonempty sep x l : x <> "" -> join sep (x :: l) <> "".
Proof. intros Hx. destruct l; cbn; [done|]. by destruct x. Qed.

Lemma app_nonempty_r a b : b <> "" -> a +:+ b <> "".
Proof. by destruct a. Qed.

Lemma hex_field_nonempty z : hex_field z <> "".
Proof. unfold hex_field. by do 3 apply app_nonempty_r. Qed.

Lemma printed_nonempty s ip : ParseIP s = Some ip -> ip_string ip <> "".
Proof.
  intros H%parsed_bytes. destruct ip as [b|b]; cbn [ip_string].
  - destruct b as [|x b]; [cbn in H; lia|]. apply join_nonempty, format_uint_digits.
  - destruct b as [|x [|y b]]; [cbn in H; lia..|]. destruct (longest_zeros _ _ _) as [i n].
    destruct (n <? 2)%nat; [apply join_nonempty, hex_field_nonempty|by apply app_nonempty_r].
Qed.
