(* ===== verification/DnsLib.v ===== *)
(** * The DNS library interface

    goddns reads and writes records through github.com/miekg/dns, which is not
    part of the repository. This file states what the program uses of it as
    the class [Dns]; every component that handles records is parametric in an
    instance. [DnsLaws] collects the documented behaviour some theorems rely
    on, and [Sample] is a small concrete instance the witnesses evaluate. *)

From Stdlib Require Import Ascii.
From S2P Require Import Prelude GoStrings NetIP.

(** ** Record types (IANA numbers, the [dns.TypeX] constants) *)

Definition TypeA : Z := 1.
Definition TypeNS : Z := 2.
Definition TypeCNAME : Z := 5.
Definition TypeSOA : Z := 6.
Definition TypeMX : Z := 15.
Definition TypeTXT : Z := 16.
Definition TypeAAAA : Z := 28.
Definition TypeRRSIG : Z := 46.
Definition TypeNSEC : Z := 47.
Definition TypeDNSKEY : Z := 48.
Definition TypeNSEC3 : Z := 50.
Definition TypeNSEC3PARAM : Z := 51.
Definition TypeCDS : Z := 59.
Definition TypeCDNSKEY : Z := 60.

(** The fields of a SOA record the program reads. *)
Record SOA := mkSOA { soa_ns : string; soa_serial : Z }.

(** What the program uses of a [dns.RR] and of the package's functions. *)
Class Dns := {
  RR : Type;
  rr_name : RR -> string;                 (* Header().Name *)
  rr_type : RR -> Z;                      (* Header().Rrtype *)
  rr_ttl : RR -> Z;                       (* Header().Ttl *)
  rr_string : RR -> string;               (* String() *)
  hdr_string : RR -> string;              (* Header().String() *)
  as_soa : RR -> option SOA;              (* the assertion to SOA *)
  as_ns : RR -> option string;            (* the assertion to NS, its Ns *)
  as_addr : RR -> option string;          (* A or AAAA, its address printed *)
  Fqdn : string -> string;
  CanonicalName : string -> string;
  IsSubDomain : string -> string -> bool;
  TypeToString : Z -> string;             (* the map; empty for an unknown type *)
  NewRR : string -> result string (option RR);
  mk_A : string -> Z -> list Z -> RR;     (* an A literal: name, ttl, 4 address bytes *)
  mk_AAAA : string -> Z -> list Z -> RR;  (* an AAAA literal: name, ttl, 16 address bytes *)
  mk_hdr : string -> Z -> RR;             (* a record with only a name and a type *)
  (** [NewZoneParser] with [Next] called until it answers false: the records
      read, and [Err()]. *)
  zone_parse : string -> string -> list RR * option string
}.

(** Documented behaviour: names, and the Go type behind a type number. *)
Class DnsLaws `(D : Dns) : Prop := {
  canonical_is_lower_fqdn s : CanonicalName s = to_lower (Fqdn s);
  fqdn_app_dot s : has_suffix "." s = false -> Fqdn s = s +:+ ".";
  fqdn_of_fqdn s : has_suffix "." (Fqdn s) = true;
  as_soa_type r : is_Some (as_soa r) <-> rr_type r = TypeSOA;
  hdr_prefix r : has_prefix (hdr_string r) (rr_string r) = true
}.

(** The struct literals the program builds, and names that end with a dot. *)
Class LiteralLaws `(D : Dns) : Prop := {
  a_literal n t b : rr_name (mk_A n t b) = n /\ rr_type (mk_A n t b) = TypeA /\ rr_ttl (mk_A n t b) = t /\
    as_addr (mk_A n t b) = Some (ip_string (V4 b));
  aaaa_literal n t b : rr_name (mk_AAAA n t b) = n /\ rr_type (mk_AAAA n t b) = TypeAAAA /\ rr_ttl (mk_AAAA n t b) = t /\
    as_addr (mk_AAAA n t b) = Some (ip_string (V6 b));
  hdr_literal n t : rr_name (mk_hdr n t) = n /\ rr_type (mk_hdr n t) = t;
  as_addr_type r : is_Some (as_addr r) <-> rr_type r = TypeA \/ rr_type r = TypeAAAA;
  fqdn_dotted s : has_suffix "." s = true -> str_forall (fun c => negb (Ascii.eqb c "\")) s = true -> Fqdn s = s
}.

(** The rdata text: [strings.TrimPrefix(rr.String(), rr.Header().String())]. *)
Definition rdata_text `{Dns} (r : RR) : string := trim_prefix (hdr_string r) (rr_string r).

(** ** A concrete instance *)

Module Sample.

Record srr := mkRR { s_name : string; s_ttl : Z; s_type : Z; s_rdata : string }.

Definition types : list (string * Z) :=
  [("A", TypeA); ("NS", TypeNS); ("CNAME", TypeCNAME); ("SOA", TypeSOA); ("MX", TypeMX);
   ("TXT", TypeTXT); ("AAAA", TypeAAAA); ("RRSIG", TypeRRSIG); ("NSEC", TypeNSEC);
   ("DNSKEY", TypeDNSKEY); ("NSEC3", TypeNSEC3); ("NSEC3PARAM", TypeNSEC3PARAM);
   ("CDS", TypeCDS); ("CDNSKEY", TypeCDNSKEY)].

Definition type_to_string (t : Z) : string :=
  match find_first (fun p => Z.eqb p.2 t) types with Some p => p.1 | None => "" end.

Definition string_to_type (s : string) : option Z :=
  snd <$> find_first (fun p => equal_fold p.1 s) types.

Definition tabs : string := String tab "".

Definition header (r : srr) : string :=
  join tabs [s_name r; format_uint (s_ttl r); "IN"; type_to_string (s_type r); ""].

Definition print (r : srr) : string := header r +:+ s_rdata r.

Definition fqdn (s : string) : string := if has_suffix "." s then s else s +:+ ".".

Definition to_soa (r : srr) : option SOA :=
  if Z.eqb (s_type r) TypeSOA then
    match fields (s_rdata r) with
    | ns :: _ :: serial :: _ =>
        Some (mkSOA ns (default 0 (parse_uint 32 serial)))
    | _ => Some (mkSOA "" 0)
    end
  else None.

Definition qualify (name origin : string) : string :=
  if String.eqb name "@" then fqdn origin
  else if has_suffix "." name then name
  else name +:+ "." +:+ fqdn origin.

(** A one-record line [name ttl IN type rdata...]; a line that starts with
    white space takes the previous owner, an omitted TTL the previous TTL. *)
Definition parse_line (line origin : string) (prev : string * Z) : option srr :=
  let implied := match line with String c _ => is_space c | "" => false end in
  let '(owner, rest) :=
    if implied then (prev.1, fields line)
    else match fields line with f :: r => (qualify f origin, r) | [] => ("", []) end in
  let '(ttl, rest') :=
    match rest with
    | f :: r => match parse_uint 32 f with Some t => (t, r) | None => (prev.2, rest) end
    | [] => (prev.2, rest)
    end in
  match rest' with
  | "IN" :: typ :: d :: rdata =>
      match string_to_type typ with
      | Some ty => Some (mkRR owner ttl ty (join " " (d :: rdata)))
      | None => None
      end
  | _ => None
  end.

(** The bytes before a comment. *)
Fixpoint uncomment (s : string) : string :=
  match s with
  | "" => ""
  | String c s' => if Ascii.eqb c ";" then "" else String c (uncomment s')
  end.

Fixpoint parse_lines (lines : list string) (origin : string) (prev : string * Z)
  : list srr * option string :=
  match lines with
  | [] => ([], None)
  | l0 :: ls =>
      let l := uncomment l0 in
      match fields l with
      | [] => parse_lines ls origin prev
      | f :: _ =>
          if has_prefix "$TTL" f then parse_lines ls origin prev
          else match parse_line l origin prev with
               | Some r => let '(rs, e) := parse_lines ls origin (s_name r, s_ttl r) in (r :: rs, e)
               | None => ([], Some "syntax error")
               end
      end
  end.

#[export] Instance dns : Dns := {|
  RR := srr;
  rr_name := s_name;
  rr_type := s_type;
  rr_ttl := s_ttl;
  rr_string := print;
  hdr_string := header;
  as_soa := to_soa;
  as_ns r := if Z.eqb (s_type r) TypeNS then Some (s_rdata r) else None;
  as_addr r := if Z.eqb (s_type r) TypeA || Z.eqb (s_type r) TypeAAAA
               then Some (s_rdata r) else None;
  Fqdn := fqdn;
  CanonicalName s := to_lower (fqdn s);
  IsSubDomain parent child :=
    String.eqb (to_lower child) (to_lower parent) ||
    has_suffix (to_lower (String "." parent)) (to_lower child);
  TypeToString := type_to_string;
  mk_A name ttl ip := mkRR name ttl TypeA (ip_string (V4 ip));
  mk_AAAA name ttl ip := mkRR name ttl TypeAAAA (ip_string (V6 ip));
  mk_hdr name ty := mkRR name 0 ty "";
  NewRR s := match parse_line s "." ("", 3600) with Some r => Ok (Some r) | None => Err "bad RR" end;
  zone_parse data origin := parse_lines (split newline data) origin ("", 3600)
|}.

Lemma fqdn_dot s : has_suffix "." (fqdn s) = true.
Proof.
  unfold fqdn. destruct (has_suffix "." s) eqn:E; [done|]. apply has_suffix_spec. by exists s.
Qed.

#[export] Instance laws : DnsLaws dns.
Proof.
  constructor.
  - done.
  - intros s H. cbn. unfold fqdn. by rewrite H.
  - intros s. apply fqdn_dot.
  - intros r. cbn. unfold to_soa. destruct (Z.eqb_spec (s_type r) TypeSOA) as [->|E].
    + split; [done|]. intros _. destruct (fields (s_rdata r)) as [|? [|? [|? ?]]]; eauto.
    + split; [by intros []|done].
  - intros r. cbn. apply has_prefix_spec. by exists (s_rdata r).
Qed.

#[export] Instance literal_laws : LiteralLaws dns.
Proof.
  constructor; try done; [|intros s H _; cbn; unfold fqdn; by rewrite H].
  intros r. cbn. destruct (Z.eqb_spec (s_type r) TypeA) as [->|]; [split; eauto|].
  destruct (Z.eqb_spec (s_type r) TypeAAAA) as [->|]; [split; eauto|]. cbn. split; [by intros []|naive_solver].
Qed.

End Sample.
