(* ===== verification/Regex.v ===== *)
(** * Regex: the fragment of Go's regular expressions the program uses

    Character classes, their starred forms (greedy and lazy), sequences,
    alternatives, capture groups, word boundaries and line starts. Every star
    in the program is over one character class, so matching is structural in
    the text. [run] lists all the ways to match in the order of preference;
    Go's leftmost-first match is the head of the list at the first position
    that has one. *)

From Stdlib Require Import String Ascii.
From S2P Require Import Prelude GoStrings.

Inductive re :=
| Chr (p : ascii -> bool)
| Star (greedy : bool) (p : ascii -> bool)
| Opt (p : ascii -> bool)
| Seq (r1 r2 : re)
| Alt (r1 r2 : re)
| Group (r : re)
| WordB
| LineStart.

(** The byte before the position, the text from it on, the position, and the
    captures so far. *)
Record cursor := mkCur { c_prev : option ascii; c_rest : string; c_pos : nat; c_caps : list string }.

Definition word_char (c : ascii) : bool :=
  is_upper c || is_lower c || is_digit c || Ascii.eqb c "_".

(** [\s]: the five ASCII blanks of RE2 (no vertical tab). *)
Definition re_space (c : ascii) : bool :=
  Ascii.eqb c " " || Ascii.eqb c tab || Ascii.eqb c newline || Ascii.eqb c cr || Ascii.eqb c "012".

Definition starts_word (s : string) : bool :=
  match s with String c _ => word_char c | "" => false end.

Definition at_boundary (cur : cursor) : bool :=
  xorb (match c_prev cur with Some c => word_char c | None => false end) (starts_word (c_rest cur)).

Definition at_line_start (cur : cursor) : bool :=
  match c_prev cur with None => true | Some c => Ascii.eqb c newline end.

Fixpoint star_at (greedy : bool) (p : ascii -> bool) (prev : option ascii) (s : string) (pos : nat)
    (caps : list string) : list cursor :=
  let here := mkCur prev s pos caps in
  match s with
  | "" => [here]
  | String c s' =>
      if p c then
        let more := star_at greedy p (Some c) s' (S pos) caps in
        if greedy then more ++ [here] else here :: more
      else [here]
  end.

Definition step_chr (p : ascii -> bool) (cur : cursor) : list cursor :=
  match c_rest cur with
  | String c s' => if p c then [mkCur (Some c) s' (S (c_pos cur)) (c_caps cur)] else []
  | "" => []
  end.

Fixpoint run (r : re) (cur : cursor) : list cursor :=
  match r with
  | Chr p => step_chr p cur
  | Star g p => star_at g p (c_prev cur) (c_rest cur) (c_pos cur) (c_caps cur)
  | Opt p => step_chr p cur ++ [cur]
  | Seq r1 r2 => cur1 ← run r1 cur; run r2 cur1
  | Alt r1 r2 => run r1 cur ++ run r2 cur
  | Group r1 =>
      (fun c => mkCur (c_prev c) (c_rest c) (c_pos c)
                  (c_caps c ++ [str_take (c_pos c - c_pos cur) (c_rest cur)])) <$> run r1 cur
  | WordB => if at_boundary cur then [cur] else []
  | LineStart => if at_line_start cur then [cur] else []
  end.

Record rmatch := mkMatch { m_start : nat; m_end : nat; m_caps : list string; m_prev : option ascii; m_rest : string }.

(** The leftmost match from a position on. *)
Fixpoint search (r : re) (prev : option ascii) (s : string) (pos : nat) : option rmatch :=
  match run r (mkCur prev s pos []) with
  | c :: _ => Some (mkMatch pos (c_pos c) (c_caps c) (c_prev c) (c_rest c))
  | [] => match s with
          | "" => None
          | String c s' => search r (Some c) s' (S pos)
          end
  end.

(** Successive matches; the expressions used never match the empty text. *)
Fixpoint find_all_from (fuel : nat) (r : re) (prev : option ascii) (s : string) (pos : nat) : list rmatch :=
  match fuel with
  | O => []
  | S f =>
      match search r prev s pos with
      | None => []
      | Some m => m :: find_all_from f r (m_prev m) (m_rest m) (m_end m)
      end
  end.

Definition find_all (r : re) (s : string) : list rmatch :=
  find_all_from (S (String.length s)) r None s 0.

Definition find (r : re) (s : string) : option rmatch := search r None s 0.

(** [firstSubmatch]: the first capture of the first match, or the empty
    string. *)
Definition submatch (r : re) (s : string) : option string := m ← find r s; head (m_caps m).

(** ** Notation for the expressions *)

Definition Plus (p : ascii -> bool) : re := Seq (Chr p) (Star true p).
Definition Lit1 (c : ascii) : re := Chr (Ascii.eqb c).

Fixpoint Lit (s : string) (rest : re) : re :=
  match s with "" => rest | String c s' => Seq (Lit1 c) (Lit s' rest) end.

Definition none_of (chars : string) (c : ascii) : bool := negb (str_exists (Ascii.eqb c) chars).
Definition any (c : ascii) : bool := true.

Definition not_quote : ascii -> bool := none_of (String quote "").
Definition Quote : re := Lit1 quote.
Definition Blanks : re := Star true re_space.
Definition Blanks1 : re := Plus re_space.
Definition OptQuote : re := Opt (Ascii.eqb quote).

(** ** Lemmas *)

Fixpoint last_char (prev : option ascii) (w : string) : option ascii :=
  match w with "" => prev | String c w' => last_char (Some c) w' end.

Definition starts_with (p : ascii -> bool) (s : string) : bool :=
  match s with String c _ => p c | "" => false end.

Lemma bind_after_fmap {A B D} (k : B -> list D) (g : A -> B) (l : list A) :
  mbind k (g <$> l) = mbind (fun x => k (g x)) l.
Proof. induction l as [|x l IH]; [done|]. cbn. by f_equal. Qed.

(** A greedy run of a class followed by something that cannot start inside
    the class has one way to match: the whole run. *)
Lemma star_then p (k : cursor -> list cursor) prev w r pos caps :
  str_forall p w = true -> starts_with p r = false ->
  (forall cur, starts_with p (c_rest cur) = true -> k cur = []) ->
  mbind k (star_at true p prev (w +:+ r) pos caps) =
  k (mkCur (last_char prev w) r (pos + String.length w) caps).
Proof.
  intros Hw Hr Hk. revert prev pos Hw. induction w as [|c w IH]; intros prev pos Hw.
  - cbn. rewrite Nat.add_0_r. destruct r as [|c r]; cbn in *; [by rewrite app_nil_r|].
    rewrite Hr. cbn. by rewrite app_nil_r.
  - cbn in Hw |- *. bsplit. rewrite H, bind_app. rewrite IH by done. cbn.
    rewrite (Hk (mkCur prev (String c (w +:+ r)) pos caps)) by done.
    rewrite !app_nil_r. by rewrite <- plus_n_Sm.
Qed.

(** A lazy run stops at the first position its continuation matches. *)
Lemma lazy_then (k : cursor -> list cursor) prev w r pos caps :
  (forall u v prev pos, w = u +:+ v -> v <> "" -> k (mkCur prev (v +:+ r) pos caps) = []) ->
  k (mkCur (last_char prev w) r (pos + String.length w) caps) <> [] ->
  head (mbind k (star_at false any prev (w +:+ r) pos caps)) =
  head (k (mkCur (last_char prev w) r (pos + String.length w) caps)).
Proof.
  revert prev pos. induction w as [|c w IH]; intros prev pos Hk Hne.
  - cbn in *. rewrite Nat.add_0_r in *. destruct r as [|c r]; cbn; by destruct (k _).
  - change (star_at false any prev (String c w +:+ r) pos caps) with
      (mkCur prev (String c w +:+ r) pos caps :: star_at false any (Some c) (w +:+ r) (S pos) caps).
    rewrite bind_cons, (Hk "" (String c w) prev pos) by done. cbn in *.
    rewrite <- plus_n_Sm in *. apply IH; [|done].
    intros u v prev' pos' -> Hv. by apply (Hk (String c u) v).
Qed.

#[global] Arguments step_chr : simpl never.

Lemma step_chr_app p c s prev pos caps :
  p c = true -> step_chr p (mkCur prev (String c s) pos caps) = [mkCur (Some c) s (S pos) caps].
Proof. intros H. unfold step_chr. cbn. by rewrite H. Qed.

Lemma run_Lit s rest prev r pos caps :
  run (Lit s rest) (mkCur prev (s +:+ r) pos caps) =
  run rest (mkCur (last_char prev s) r (pos + String.length s) caps).
Proof.
  revert prev pos. induction s as [|c s IH]; intros prev pos; cbn; [by rewrite Nat.add_0_r|].
  rewrite step_chr_app by apply Ascii.eqb_refl. cbn. rewrite app_nil_r, IH. do 2 f_equal. lia.
Qed.

Lemma run_Lit_none s rest cur : has_prefix s (c_rest cur) = false -> run (Lit s rest) cur = [].
Proof.
  revert cur. induction s as [|c s IH]; intros [prev r pos caps]; cbn; [done|].
  unfold step_chr. destruct r as [|d r]; cbn; [done|]. destruct (Ascii.eqb c d) eqn:E; cbn; [|done].
  intros H. rewrite app_nil_r. by apply IH.
Qed.

Lemma plus_then p (k : cursor -> list cursor) prev w r pos caps :
  str_forall p w = true -> w <> "" -> starts_with p r = false ->
  (forall cur, starts_with p (c_rest cur) = true -> k cur = []) ->
  mbind k (run (Plus p) (mkCur prev (w +:+ r) pos caps)) =
  k (mkCur (last_char prev w) r (pos + String.length w) caps).
Proof.
  intros Hw Hne Hr Hk. destruct w as [|c w]; [done|]. cbn in Hw. bsplit.
  cbn [Plus run]. rewrite str_app_cons, step_chr_app by done. cbn -[star_at]. rewrite app_nil_r.
  rewrite star_then by done. do 2 f_equal. cbn. lia.
Qed.

(** Positions with no match are skipped. *)
Lemma search_skip r w s prev pos :
  (forall u v prev pos, w = u +:+ v -> v <> "" -> run r (mkCur prev (v +:+ s) pos []) = []) ->
  search r prev (w +:+ s) pos = search r (last_char prev w) s (pos + String.length w).
Proof.
  revert prev pos. induction w as [|c w IH]; intros prev pos H.
  - cbn. by rewrite Nat.add_0_r.
  - rewrite str_app_cons. cbn [search]. rewrite <- str_app_cons.
    rewrite (H "" (String c w) prev pos) by done. cbn. rewrite <- plus_n_Sm. apply IH.
    intros u v prev' pos' -> Hv. by apply (H (String c u) v).
Qed.

Lemma find_all_from_step r prev s pos fuel c m :
  run r (mkCur prev s pos []) = c -> head c = Some m ->
  find_all_from (S fuel) r prev s pos =
  mkMatch pos (c_pos m) (c_caps m) (c_prev m) (c_rest m) ::
  find_all_from fuel r (c_prev m) (c_rest m) (c_pos m).
Proof.
  intros Hr Hc. cbn. destruct s; cbn [search]; rewrite Hr; destruct c; cbn in Hc; simplify_eq; done.
Qed.

Lemma str_length_app_le a b : (String.length b <= String.length (a +:+ b))%nat.
Proof. rewrite str_length_app. lia. Qed.
