(* ===== verification/Encoding.v ===== *)
(** * Encoding: hexadecimal and base64url of the standard library

    What tokens, hashes and session cookies use of [encoding/hex] and
    [encoding/base64] ([RawURLEncoding]: the URL alphabet without padding),
    and the cryptographic functions as a class of parameters. *)

From Stdlib Require Import String Ascii.
From S2P Require Import Prelude GoStrings.

(** [crypto/sha256], [crypto/hmac] over it: any function of the right type. *)
Class Crypto := {
  sha256 : string -> string;
  hmac_sha256 : string -> string -> string;
}.

(** golang.org/x/crypto/bcrypt: whether a string is a hash ([Cost] gives no
    error), and whether it is the hash of a password. *)
Class Bcrypt := {
  bcrypt_cost : string -> bool;
  bcrypt_compare : string -> string -> bool;
}.

Definition byte (c : ascii) : Z := Z.of_nat (code c).
Definition chr (z : Z) : ascii := ascii_of_nat (Z.to_nat z).

Lemma byte_range c : 0 <= byte c < 256.
Proof. unfold byte, code. pose proof (nat_ascii_bounded c). lia. Qed.

Lemma chr_byte c : chr (byte c) = c.
Proof. unfold chr, byte, code. by rewrite Nat2Z.id, ascii_nat_embedding. Qed.

(** ** Hexadecimal *)

Definition hex_digit (z : Z) : ascii :=
  default "0"%char (String.get (Z.to_nat z) "0123456789abcdef").

Fixpoint hex_encode (s : string) : string :=
  match s with
  | "" => ""
  | String c s' => String (hex_digit (byte c / 16)) (String (hex_digit (byte c mod 16)) (hex_encode s'))
  end.

(** ** Base64 *)

Definition b64_alphabet : string :=
  "ABCDEFGHIJKLMNOPQRSTUVWXYZabcdefghijklmnopqrstuvwxyz0123456789-_".

Definition b64_char (z : Z) : ascii := default "A"%char (String.get (Z.to_nat z) b64_alphabet).

Fixpoint index_of (c : ascii) (i : Z) (s : string) : option Z :=
  match s with
  | "" => None
  | String d s' => if Ascii.eqb c d then Some i else index_of c (i + 1) s'
  end.

Definition b64_val (c : ascii) : option Z := index_of c 0 b64_alphabet.

(** [RawURLEncoding.EncodeToString]. *)
Fixpoint b64_encode (s : string) : string :=
  match s with
  | "" => ""
  | String a "" => String (b64_char (byte a / 4)) (String (b64_char (byte a mod 4 * 16)) "")
  | String a (String b "") =>
      String (b64_char (byte a / 4))
        (String (b64_char (byte a mod 4 * 16 + byte b / 16))
          (String (b64_char (byte b mod 16 * 4)) ""))
  | String a (String b (String c s')) =>
      String (b64_char (byte a / 4))
        (String (b64_char (byte a mod 4 * 16 + byte b / 16))
          (String (b64_char (byte b mod 16 * 4 + byte c / 64))
            (String (b64_char (byte c mod 64)) (b64_encode s'))))
  end.

(** Four characters are three bytes; a last group of two or three characters
    is one or two bytes (its unused low bits are not checked); a last group of
    one is an error. *)
Fixpoint b64_groups (s : string) : option string :=
  match s with
  | "" => Some ""
  | String p (String q "") =>
      x ← b64_val p; y ← b64_val q; Some (String (chr (x * 4 + y / 16)) "")
  | String p (String q (String r "")) =>
      x ← b64_val p; y ← b64_val q; z ← b64_val r;
      Some (String (chr (x * 4 + y / 16)) (String (chr (y mod 16 * 16 + z / 4)) ""))
  | String p (String q (String r (String t s'))) =>
      x ← b64_val p; y ← b64_val q; z ← b64_val r; w ← b64_val t;
      rest ← b64_groups s';
      Some (String (chr (x * 4 + y / 16)) (String (chr (y mod 16 * 16 + z / 4))
             (String (chr (z mod 4 * 64 + w)) rest)))
  | String _ "" => None
  end.

Fixpoint drop_newlines (s : string) : string :=
  match s with
  | "" => ""
  | String c s' => if Ascii.eqb c newline || Ascii.eqb c cr then drop_newlines s'
                   else String c (drop_newlines s')
  end.

(** [RawURLEncoding.DecodeString]: line breaks are skipped wherever they are. *)
Definition b64_decode (s : string) : option string := b64_groups (drop_newlines s).

(** ** Lemmas *)

Lemma below_cases n z : 0 <= z < Z.of_nat n -> z ∈ (Z.of_nat <$> seq 0 n).
Proof. intros Hz. apply list_elem_of_fmap. exists (Z.to_nat z). rewrite elem_of_seq. lia. Qed.

Lemma hex_digit_inj x y : 0 <= x < 16 -> 0 <= y < 16 -> hex_digit x = hex_digit y -> x = y.
Proof.
  intros Hx%(below_cases 16) Hy%(below_cases 16) Heq.
  assert (Hall : forallb (fun x => forallb (fun y =>
    implb (Ascii.eqb (hex_digit x) (hex_digit y)) (Z.eqb x y)) (Z.of_nat <$> seq 0 16))
      (Z.of_nat <$> seq 0 16) = true) by (vm_compute; reflexivity).
  rewrite forallb_elem in Hall. pose proof (Hall x Hx) as H. rewrite forallb_elem in H.
  specialize (H y Hy). rewrite Heq, Ascii.eqb_refl in H. by apply Z.eqb_eq.
Qed.

Lemma hex_encode_inj s1 s2 : hex_encode s1 = hex_encode s2 -> s1 = s2.
Proof.
  revert s2. induction s1 as [|a s1 IH]; intros [|b s2]; cbn; try done.
  intros [= Hh Hl Hs]. f_equal; [|by apply IH].
  pose proof (byte_range a); pose proof (byte_range b).
  apply hex_digit_inj in Hh, Hl; try (Z.to_euclidean_division_equations; lia).
  rewrite <- (chr_byte a), <- (chr_byte b). f_equal.
  Z.to_euclidean_division_equations; lia.
Qed.

Lemma b64_val_char z : 0 <= z < 64 -> b64_val (b64_char z) = Some z.
Proof.
  intros Hz%(below_cases 64).
  assert (Hall : forallb (fun z => bool_decide (b64_val (b64_char z) = Some z))
    (Z.of_nat <$> seq 0 64) = true) by (vm_compute; reflexivity).
  rewrite forallb_elem in Hall. by apply (bool_decide_eq_true (b64_val (b64_char z) = Some z)), Hall.
Qed.

Definition b64_safe (c : ascii) : bool :=
  str_exists (Ascii.eqb c) b64_alphabet.

Lemma b64_char_safe z : b64_safe (b64_char z) = true.
Proof.
  unfold b64_char. destruct (String.get (Z.to_nat z) b64_alphabet) as [c|] eqn:E; [|done].
  unfold default, id, b64_safe. revert E. generalize (Z.to_nat z), b64_alphabet.
  intros n s. revert n. induction s as [|d s IH]; intros [|n]; cbn; try done; [intros [= ->]|].
  - by rewrite Ascii.eqb_refl.
  - intros H. rewrite (IH n H). apply orb_true_r.
Qed.

(** Three bytes at a time. *)
Lemma str_ind3 (P : string -> Prop) :
  P "" -> (forall a, P (String a "")) -> (forall a b, P (String a (String b ""))) ->
  (forall a b c s, P s -> P (String a (String b (String c s)))) -> forall s, P s.
Proof.
  intros H0 H1 H2 H3. fix go 1. intros [|a [|b [|c s]]]; [done..|]. apply H3, go.
Qed.

Lemma b64_encode_safe s : str_forall b64_safe (b64_encode s) = true.
Proof.
  induction s as [|a|a b|a b c s IH] using str_ind3; cbn -[b64_safe b64_char];
    rewrite ?b64_char_safe, ?IH; done.
Qed.

Lemma safe_no_newline c : b64_safe c = true -> Ascii.eqb c newline || Ascii.eqb c cr = false.
Proof. intros H. destruct (Ascii.eqb_spec c newline) as [->|]; [done|]. by destruct (Ascii.eqb_spec c cr) as [->|]. Qed.

Lemma drop_newlines_safe s : str_forall b64_safe s = true -> drop_newlines s = s.
Proof.
  induction s as [|c s IH]; [done|]. intros [Hc Hs]%andb_true_iff.
  cbn [drop_newlines]. rewrite (safe_no_newline c Hc), (IH Hs). done.
Qed.

Ltac b64_step :=
  repeat (rewrite b64_val_char; [cbn [mbind option_bind]|Z.to_euclidean_division_equations; lia]).

Lemma bytes_of_sextets a b c :
  0 <= a < 256 -> 0 <= b < 256 -> 0 <= c < 256 ->
  (a / 4) * 4 + (a mod 4 * 16 + b / 16) / 16 = a /\
  (a mod 4 * 16 + b / 16) mod 16 * 16 + (b mod 16 * 4 + c / 64) / 4 = b /\
  (b mod 16 * 4 + c / 64) mod 4 * 64 + c mod 64 = c.
Proof. intros. Z.to_euclidean_division_equations; lia. Qed.

Lemma b64_groups_encode s : b64_groups (b64_encode s) = Some s.
Proof.
  induction s as [|a|a b|a b c s IH] using str_ind3; [done|..]; cbn [b64_encode b64_groups];
    repeat match goal with c : ascii |- _ =>
      lazymatch goal with _ : 0 <= byte c < 256 |- _ => fail | _ => pose proof (byte_range c) end end;
    b64_step; rewrite ?IH; cbn [mbind option_bind].
  - destruct (bytes_of_sextets (byte a) 0 0) as (Ha & _); [lia..|].
    rewrite Z.add_0_r in Ha. by rewrite Ha, chr_byte.
  - destruct (bytes_of_sextets (byte a) (byte b) 0) as (Ha & Hb & _); [lia..|].
    rewrite Z.add_0_r in Hb. by rewrite Ha, Hb, !chr_byte.
  - destruct (bytes_of_sextets (byte a) (byte b) (byte c)) as (Ha & Hb & Hc); [lia..|].
    by rewrite Ha, Hb, Hc, !chr_byte.
Qed.

Lemma b64_decode_encode s : b64_decode (b64_encode s) = Some s.
Proof.
  unfold b64_decode. rewrite drop_newlines_safe by apply b64_encode_safe.
  apply b64_groups_encode.
Qed.

Lemma b64_encode_inj s1 s2 : b64_encode s1 = b64_encode s2 -> s1 = s2.
Proof. intros H%(f_equal b64_decode). rewrite !b64_decode_encode in H. by injection H. Qed.

Lemma b64_encode_free sep s : b64_safe sep = false -> free_of sep (b64_encode s) = true.
Proof.
  intros Hsep. eapply str_forall_impl; [|apply b64_encode_safe].
  intros c Hc. destruct (Ascii.eqb_spec c sep) as [->|]; [congruence|done].
Qed.
