(* ===== verification/FS.v ===== *)
(** * FS: files, paths and external commands

    The operating system the program writes to, as an explicit world threaded
    through a state-and-error monad. Every call can fail: [fault t] is the
    error of the t-th system call, if any, so a theorem about a program in
    this monad covers every point at which it can be interrupted by an error.
    [tempname] is the name the t-th call would give a temporary file. A path is
    a regular file, a symbolic link to one, or absent; directories are taken to
    exist, and devices, sockets and links to links are not represented. *)

From Stdlib Require Import String Ascii.
From S2P Require Import Prelude GoStrings.

(** ** [path/filepath] on slash-separated paths *)

Fixpoint clean_parts (rooted : bool) (acc : list string) (parts : list string) : list string :=
  match parts with
  | [] => rev acc
  | p :: ps =>
      if String.eqb p "" || String.eqb p "." then clean_parts rooted acc ps
      else if String.eqb p ".." then
        match acc with
        | a :: acc' => if String.eqb a ".." then clean_parts rooted (p :: acc) ps
                       else clean_parts rooted acc' ps
        | [] => clean_parts rooted (if rooted then [] else [".."]) ps
        end
      else clean_parts rooted (p :: acc) ps
  end.

Definition Clean (p : string) : string :=
  let rooted := has_prefix "/" p in
  let body := join "/" (clean_parts rooted [] (split "/" p)) in
  if rooted then "/" +:+ body else if String.eqb body "" then "." else body.

Definition Join (elems : list string) : string :=
  match List.filter (fun e => negb (String.eqb e "")) elems with
  | [] => ""
  | es => Clean (join "/" es)
  end.

(** The path up to the last slash, and the name after it. *)
Fixpoint split_path (p : string) : string * string :=
  match p with
  | "" => ("", "")
  | String c p' =>
      let '(d, b) := split_path p' in
      if String.eqb d "" then (if Ascii.eqb c "/" then ("/", b) else ("", String c b))
      else (String c d, b)
  end.

Definition Dir (p : string) : string := Clean (split_path p).1.
Definition Base (p : string) : string := (split_path p).2.

(** *** Absolute paths of plain components *)

Definition plain (n : string) : bool :=
  negb (String.eqb n "") && negb (String.eqb n ".") && negb (String.eqb n "..") && free_of "/" n.

Definition abs (ps : list string) : string := "/" +:+ join "/" ps.

Lemma plain_spec n : plain n = true <-> n <> "" /\ n <> "." /\ n <> ".." /\ free_of "/" n = true.
Proof. unfold plain. rewrite !andb_true_iff, !negb_true_iff, !String.eqb_neq. tauto. Qed.

Lemma clean_parts_plain ps acc tl :
  Forall (fun n => plain n = true) ps -> clean_parts true acc (ps ++ tl) = clean_parts true (rev ps ++ acc) tl.
Proof.
  intros H. revert acc. induction H as [|p ps Hp _ IH]; intros acc; [done|]. cbn [app clean_parts rev].
  apply plain_spec in Hp as (H1 & H2 & H3 & _). apply String.eqb_neq in H1, H2, H3. rewrite H1, H2, H3, IH. cbn. by rewrite <- app_assoc.
Qed.

Lemma split_abs ps : Forall (fun n => plain n = true) ps -> ps <> [] -> split "/" (abs ps) = "" :: ps.
Proof.
  intros H Hne. unfold abs. cbn. f_equal. apply split_join; [done|]. eapply Forall_impl; [exact H|].
  intros n Hn. by apply plain_spec in Hn as (_ & _ & _ & ?).
Qed.

Lemma Clean_abs ps : Forall (fun n => plain n = true) ps -> Clean (abs ps) = abs ps.
Proof.
  intros H. destruct ps as [|p ps]; [done|].
  assert (Hs := split_abs (p :: ps) H ltac:(done)). unfold Clean.
  replace (has_prefix "/" (abs (p :: ps))) with true by (symmetry; apply has_prefix_spec; by exists (join "/" (p :: ps))).
  rewrite Hs. transitivity ("/" +:+ join "/" (clean_parts true [] ((p :: ps) ++ []))); [by rewrite app_nil_r|].
  rewrite clean_parts_plain by done. cbn [clean_parts]. by rewrite !app_nil_r, rev_involutive.
Qed.

Lemma join_snoc ps n : ps <> [] -> join "/" (ps ++ [n]) = join "/" ps +:+ "/" +:+ n.
Proof.
  intros Hne. induction ps as [|p [|q ps] IH]; [done..|].
  change ((p :: q :: ps) ++ [n]) with (p :: q :: (ps ++ [n])). rewrite join_cons.
  change (q :: (ps ++ [n])) with ((q :: ps) ++ [n]). rewrite IH by done.
  rewrite join_cons. by rewrite !str_app_assoc.
Qed.

Lemma Join_abs ps n : Forall (fun n => plain n = true) ps -> ps <> [] -> plain n = true ->
  Join [abs ps; n] = abs (ps ++ [n]).
Proof.
  intros H Hne Hn. unfold Join. cbn [List.filter].
  replace (String.eqb (abs ps) "") with false by done.
  replace (String.eqb n "") with false by (symmetry; by apply String.eqb_neq, plain_spec).
  cbn [negb]. rewrite <- (Clean_abs (ps ++ [n])) by (apply Forall_app; auto). f_equal.
  unfold abs. rewrite join_snoc by done. cbn [join]. done.
Qed.

Lemma split_path_snoc d n : free_of "/" n = true -> split_path (d +:+ "/" +:+ n) = (d +:+ "/", n).
Proof.
  intros Hn. assert (H0 : split_path n = ("", n)).
  { clear d. induction n as [|c n IH]; [done|]. unfold free_of in *. cbn in *. apply andb_true_iff in Hn as [Hc Hn].
    apply negb_true_iff in Hc. by rewrite IH, Hc. }
  induction d as [|c d IH]; cbn.
  - by rewrite H0.
  - cbn in IH. rewrite IH. by destruct d.
Qed.

Lemma Dir_abs ps n : Forall (fun n => plain n = true) ps -> ps <> [] -> plain n = true -> Dir (abs (ps ++ [n])) = abs ps.
Proof.
  intros H Hne Hn. unfold Dir, abs. rewrite join_snoc by done. rewrite <- str_app_assoc.
  rewrite split_path_snoc by (by apply plain_spec in Hn as (_ & _ & _ & ?)). cbn [fst].
  change ("/" +:+ join "/" ps) with (abs ps).
  assert (Hs : split "/" (abs ps +:+ String "/" "") = "" :: ps ++ [""]).
  { rewrite split_app_any, split_abs by done. done. }
  unfold Clean. replace (has_prefix "/" (abs ps +:+ "/")) with true
    by (symmetry; apply has_prefix_spec; by exists (join "/" ps +:+ "/")).
  rewrite Hs. transitivity ("/" +:+ join "/" (clean_parts true [] (ps ++ [""]))); [done|].
  rewrite clean_parts_plain by done. cbn [clean_parts String.eqb orb]. by rewrite app_nil_r, rev_involutive.
Qed.

(** ** Files *)

Inductive node :=
| Reg (data : string) (mode uid gid : Z)
| Link (target : string).

Notation files := (gmap string node).

(** The kernel's table of open files, as far as [flock] goes: how many were
    opened, and which of them holds the exclusive lock of a path. *)
Record open_files := mkOpen { o_next : nat; o_locked : gmap string nat }.
Definition no_open : open_files := mkOpen 0 ∅.

(** System calls made so far, the commands run, and the open files. *)
Record world := mkWorld { w_files : files; w_tick : nat; w_cmds : list (list string); w_open : open_files }.

Inductive io_error := ENOENT | EEXIST | ELOOP | EFault (what : string).

Definition io (E A : Type) : Type := world -> result E A * world.

#[export] Instance io_ret {E} : MRet (io E) := fun A a w => (Ok a, w).
#[export] Instance io_bind {E} : MBind (io E) := fun A B f m w =>
  match m w with (Ok a, w') => f a w' | (Err e, w') => (Err e, w') end.

Definition fail {E A} (e : E) : io E A := fun w => (Err e, w).

(** The error of a call as the caller wraps it. *)
Definition wrap {E E' A} (f : E -> E') (m : io E A) : io E' A := fun w =>
  match m w with (Ok a, w') => (Ok a, w') | (Err e, w') => (Err (f e), w') end.

(** Go's [_ = f()]: an ignored error; [attempt] gives it to the caller. *)
Definition attempt {E E' A} (m : io E A) : io E' (result E A) := fun w =>
  let '(r, w') := m w in (Ok r, w').
Definition ignore {E E' A} (m : io E A) : io E' unit := fun w => (Ok tt, (m w).2).

(** [defer cleanup()]: runs whatever the body answers. *)
Definition deferred {E A} (m : io E A) (cleanup : world -> world) : io E A := fun w =>
  let '(r, w') := m w in (r, cleanup w').

Section calls.
Context (fault : nat -> option string) (tempname : nat -> string -> string) (euid egid : Z).

Definition tick (w : world) : world := mkWorld (w_files w) (S (w_tick w)) (w_cmds w) (w_open w).
Definition with_files (w : world) (f : files) : world := mkWorld f (w_tick w) (w_cmds w) (w_open w).
Definition with_open (w : world) (o : open_files) : world := mkWorld (w_files w) (w_tick w) (w_cmds w) o.

(** One system call: it fails without effect, or does [f]. *)
Definition syscall {A} (f : files -> result io_error (A * files)) : io io_error A := fun w =>
  match fault (w_tick w) with
  | Some e => (Err (EFault e), tick w)
  | None => match f (w_files w) with
            | Ok (a, fs) => (Ok a, tick (with_files w fs))
            | Err e => (Err e, tick w)
            end
  end.

Definition Lstat (p : string) : io io_error node := syscall (fun fs =>
  match fs !! p with Some n => Ok (n, fs) | None => Err ENOENT end).

(** [Stat] and [ReadFile] follow a link. *)
Definition resolve_link (fs : files) (p : string) : option node :=
  match fs !! p with
  | Some (Link t) => match fs !! t with Some (Reg d m u g) => Some (Reg d m u g) | _ => None end
  | n => n
  end.

Definition Stat (p : string) : io io_error node := syscall (fun fs =>
  match resolve_link fs p with Some n => Ok (n, fs) | None => Err ENOENT end).

Definition ReadFile (p : string) : io io_error string := syscall (fun fs =>
  match resolve_link fs p with Some (Reg d _ _ _) => Ok (d, fs) | _ => Err ENOENT end).

(** Opened with [O_NOFOLLOW]. *)
Definition readNoFollow (p : string) : io io_error string := syscall (fun fs =>
  match fs !! p with
  | Some (Reg d _ _ _) => Ok (d, fs)
  | Some (Link _) => Err ELOOP
  | None => Err ENOENT
  end).

(** The path that is opened when [p] is, a link being followed. *)
Definition follow (fs : files) (p : string) : string := match fs !! p with Some (Link t) => t | _ => p end.

(** Opened with [O_CREATE|O_TRUNC]: what a link names is emptied, or created;
    the answer is the path of the file that is open. The write is a call of its
    own, so an error between the two leaves an empty file. *)
Definition open_trunc (p : string) (mode : Z) : io io_error string := syscall (fun fs =>
  let q := follow fs p in
  match fs !! q with
  | Some (Reg _ m u g) => Ok (q, <[q := Reg "" m u g]> fs)
  | Some (Link _) => Err ELOOP
  | None => Ok (q, <[q := Reg "" mode euid egid]> fs)
  end).

Definition write_at (p data : string) : io io_error unit := syscall (fun fs =>
  match fs !! p with
  | Some (Reg d m u g) => Ok (tt, <[p := Reg (d +:+ data) m u g]> fs)
  | _ => Err ENOENT
  end).

Definition WriteFile (p data : string) (mode : Z) : io io_error unit :=
  q ← open_trunc p mode; write_at q data.

(** [os.CreateTemp]: mode 0600, and never an existing file. *)
Definition CreateTemp (dir : string) : io io_error string := fun w =>
  let p := tempname (w_tick w) dir in
  syscall (fun fs => match fs !! p with
                     | Some _ => Err EEXIST
                     | None => Ok (p, <[p := Reg "" 384 euid egid]> fs)
                     end) w.

Definition Chmod (p : string) (mode : Z) : io io_error unit := syscall (fun fs =>
  match fs !! p with
  | Some (Reg d _ u g) => Ok (tt, <[p := Reg d mode u g]> fs)
  | _ => Err ENOENT
  end).

(** A negative id is left as it is. *)
Definition Chown (p : string) (uid gid : Z) : io io_error unit := syscall (fun fs =>
  match fs !! p with
  | Some (Reg d m u g) =>
      Ok (tt, <[p := Reg d m (if uid <? 0 then u else uid) (if gid <? 0 then g else gid)]> fs)
  | _ => Err ENOENT
  end).

(** [fsync], [close], [mkdir -p]: they may fail and change no file. *)
Definition Sync (p : string) : io io_error unit := syscall (fun fs => Ok (tt, fs)).
Definition Close (p : string) : io io_error unit := syscall (fun fs => Ok (tt, fs)).
Definition MkdirAll (p : string) : io io_error unit := syscall (fun fs => Ok (tt, fs)).

Definition Rename (src dst : string) : io io_error unit := syscall (fun fs =>
  match fs !! src with
  | Some n => Ok (tt, <[dst := n]> (delete src fs))
  | None => Err ENOENT
  end).

Definition Remove (p : string) : io io_error unit := syscall (fun fs =>
  match fs !! p with Some _ => Ok (tt, delete p fs) | None => Err ENOENT end).

(** The names in a directory, in order. *)
Definition names_in (dir : string) (fs : files) : list string :=
  sort_strings (snd <$> List.filter (fun s => String.eqb s.1 (dir +:+ "/") && negb (String.eqb s.2 ""))
                       ((fun kv => split_path kv.1) <$> map_to_list fs)).

Definition ReadDir (dir : string) : io io_error (list string) := syscall (fun fs => Ok (names_in dir fs, fs)).

(** An external command: it is recorded, and may fail. *)
Definition exec (cmd : list string) : io io_error unit := fun w =>
  let w' := mkWorld (w_files w) (S (w_tick w)) (w_cmds w ++ [cmd]) (w_open w) in
  match fault (w_tick w) with Some e => (Err (EFault e), w') | None => (Ok tt, w') end.

End calls.

Lemma split_path_free p : free_of "/" (split_path p).2 = true.
Proof.
  induction p as [|c p IH]; [done|]. cbn. destruct (split_path p) as [d b]. cbn in IH.
  destruct (String.eqb d ""); [|done]. destruct (Ascii.eqb c "/") eqn:E; [done|].
  unfold free_of in *. cbn in *. by rewrite E.
Qed.

Lemma names_in_free dir fs : Forall (fun n => free_of "/" n = true) (names_in dir fs).
Proof.
  apply Forall_forall. intros n. unfold names_in. rewrite sort_strings_perm.
  intros (s & -> & Hs)%list_elem_of_fmap. apply list_elem_of_In, filter_In in Hs as [Hs _].
  apply list_elem_of_In, list_elem_of_fmap in Hs as (kv & -> & _). apply split_path_free.
Qed.

(** ** Which paths a program may change *)

(** [m] changes no file but those of [P]. *)
Definition touches {E A} (P : string -> Prop) (m : io E A) : Prop :=
  forall w p, ~ P p -> w_files (m w).2 !! p = w_files w !! p.

Lemma touches_weaken {E A} (P Q : string -> Prop) (m : io E A) :
  (forall p, P p -> Q p) -> touches P m -> touches Q m.
Proof. intros HPQ Hm w p Hp. apply Hm. naive_solver. Qed.

Lemma io_bind_ok {E A B} (m : io E A) (f : A -> io E B) w r w' :
  mbind f m w = (r, w') ->
  (exists a w1, m w = (Ok a, w1) /\ f a w1 = (r, w')) \/ (exists e, m w = (Err e, w') /\ r = Err e).
Proof.
  unfold mbind, io_bind. destruct (m w) as [[a|e] w1]; intros H; [left|right]; simplify_eq; eauto.
Qed.

Lemma touches_bind {E A B} P (m : io E A) (f : A -> io E B) :
  touches P m -> (forall a, touches P (f a)) -> touches P (mbind f m).
Proof.
  intros Hm Hf w p Hp. unfold mbind, io_bind. specialize (Hm w p Hp).
  destruct (m w) as [[a|e] w1]; cbn in *; [|done]. rewrite Hf by done. done.
Qed.

Lemma touches_ret {E A} P (a : A) : touches P (mret a : io E A).
Proof. by intros w p Hp. Qed.

Lemma touches_fail {E A} P (e : E) : touches P (fail e : io E A).
Proof. by intros w p Hp. Qed.

Lemma wrap_world {E E' A} (f : E -> E') (m : io E A) w : (wrap f m w).2 = (m w).2.
Proof. unfold wrap. by destruct (m w) as [[|] ?]. Qed.

Lemma touches_wrap {E E' A} P (f : E -> E') (m : io E A) : touches P m -> touches P (wrap f m).
Proof. intros Hm w p Hp. unfold wrap. specialize (Hm w p Hp). by destruct (m w) as [[|] ?]. Qed.

Lemma touches_attempt {E E' A} P (m : io E A) : touches P m -> touches P (attempt (E' := E') m).
Proof. intros Hm w p Hp. unfold attempt. specialize (Hm w p Hp). by destruct (m w). Qed.

Lemma touches_ignore {E E' A} P (m : io E A) : touches P m -> touches P (ignore (E' := E') m).
Proof. intros Hm w p Hp. apply Hm, Hp. Qed.

Lemma touches_syscall {A} P fault (f : files -> result io_error (A * files)) :
  (forall fs a fs' p, f fs = Ok (a, fs') -> ~ P p -> fs' !! p = fs !! p) -> touches P (syscall fault f).
Proof.
  intros Hf w p Hp. unfold syscall. destruct (fault (w_tick w)); [done|].
  destruct (f (w_files w)) as [[a fs']|] eqn:E; [|done]. by eapply Hf.
Qed.

Ltac fs_cases :=
  repeat match goal with
  | H : context [match ?x with _ => _ end] |- _ => destruct x eqn:?; simplify_eq
  end; simplify_eq; rewrite ?lookup_insert_ne, ?lookup_delete_ne by (intros ?; subst; contradiction); try done.

Lemma touches_Lstat P fault p : touches P (Lstat fault p).
Proof. apply touches_syscall. intros; fs_cases. Qed.
Lemma touches_Stat P fault p : touches P (Stat fault p).
Proof. apply touches_syscall. intros; fs_cases. Qed.
Lemma touches_ReadFile P fault p : touches P (ReadFile fault p).
Proof. apply touches_syscall. intros; fs_cases. Qed.
Lemma touches_readNoFollow P fault p : touches P (readNoFollow fault p).
Proof. apply touches_syscall. intros; fs_cases. Qed.
Lemma touches_Sync P fault p : touches P (Sync fault p).
Proof. apply touches_syscall. intros; fs_cases. Qed.
Lemma touches_Close P fault p : touches P (Close fault p).
Proof. apply touches_syscall. intros; fs_cases. Qed.
Lemma touches_MkdirAll P fault p : touches P (MkdirAll fault p).
Proof. apply touches_syscall. intros; fs_cases. Qed.
Lemma touches_ReadDir P fault p : touches P (ReadDir fault p).
Proof. apply touches_syscall. intros; fs_cases. Qed.
Lemma touches_exec P fault cmd : touches P (exec fault cmd).
Proof. intros w p _. unfold exec. by destruct (fault _). Qed.

Lemma touches_Remove (P : string -> Prop) fault p : P p -> touches P (Remove fault p).
Proof. intros Hp. apply touches_syscall. intros; fs_cases. Qed.
Lemma touches_Chmod (P : string -> Prop) fault p m : P p -> touches P (Chmod fault p m).
Proof. intros Hp. apply touches_syscall. intros; fs_cases. Qed.
Lemma touches_Chown (P : string -> Prop) fault p u g : P p -> touches P (Chown fault p u g).
Proof. intros Hp. apply touches_syscall. intros; fs_cases. Qed.
Lemma touches_write_at (P : string -> Prop) fault p d : P p -> touches P (write_at fault p d).
Proof. intros Hp. apply touches_syscall. intros; fs_cases. Qed.

Lemma touches_nothing {E A} (m : io E A) w : touches (fun _ => False) m -> w_files (m w).2 = w_files w.
Proof. intros H. apply map_eq. intros p. apply H. intros []. Qed.

(** What is written is the file a link leads to. *)
Lemma WriteFile_elsewhere fault u g p d m w q : q <> follow (w_files w) p ->
  w_files (WriteFile fault u g p d m w).2 !! q = w_files w !! q.
Proof.
  intros Hq. unfold WriteFile, mbind, io_bind.
  assert (H : w_files (open_trunc fault u g p m w).2 !! q = w_files w !! q /\
            forall t, (open_trunc fault u g p m w).1 = Ok t -> t = follow (w_files w) p).
  { unfold open_trunc, syscall. destruct (fault _); [done|]. destruct (w_files w !! follow _ p) as [[]|]; cbn; try done;
      rewrite lookup_insert_ne by done; split; [done| |done|]; by intros t [= <-]. }
  destruct H as [H1 H2]. destruct (open_trunc fault u g p m w) as [[t|] w1]; cbn in *; [|done].
  rewrite <- H1, (H2 t eq_refl). by apply (touches_write_at (fun q => q = follow (w_files w) p)).
Qed.
Lemma touches_Rename (P : string -> Prop) fault p q : P p -> P q -> touches P (Rename fault p q).
Proof. intros Hp Hq. apply touches_syscall. intros; fs_cases. Qed.

#[export] Hint Resolve touches_ret touches_fail touches_wrap touches_attempt touches_ignore touches_Lstat
  touches_Stat touches_ReadFile touches_readNoFollow touches_Sync touches_Close touches_MkdirAll
  touches_ReadDir touches_exec touches_Remove touches_Chmod touches_Chown touches_write_at
  touches_Rename touches_bind : goddns.

(** ** Assertions on the files

    [hoare P m Q X]: from files satisfying [P], [m] answers [a] with files
    satisfying [Q a], or an error [e] with files satisfying [X e]. *)

Definition hoare {E A} (P : files -> Prop) (m : io E A) (Q : A -> files -> Prop) (X : E -> files -> Prop) : Prop :=
  forall w, P (w_files w) ->
    match m w with
    | (Ok a, w') => Q a (w_files w')
    | (Err e, w') => X e (w_files w')
    end.

Lemma hoare_bind {E A B} P (m : io E A) (f : A -> io E B) Q R X :
  hoare P m Q X -> (forall a, hoare (Q a) (f a) R X) -> hoare P (mbind f m) R X.
Proof.
  intros Hm Hf w HP. specialize (Hm w HP). unfold mbind, io_bind.
  destruct (m w) as [[a|e] w1]; [|done]. by apply Hf.
Qed.

Lemma hoare_conseq {E A} (P P' : files -> Prop) (m : io E A) (Q Q' : A -> files -> Prop) (X X' : E -> files -> Prop) :
  hoare P' m Q' X' -> (forall fs, P fs -> P' fs) -> (forall a fs, Q' a fs -> Q a fs) ->
  (forall e fs, X' e fs -> X e fs) -> hoare P m Q X.
Proof.
  intros Hm HP HQ HX w Hw. specialize (Hm w (HP _ Hw)). destruct (m w) as [[a|e] w1]; auto.
Qed.

Lemma hoare_syscall {A} P fault (f : files -> result io_error (A * files)) Q (X : io_error -> files -> Prop) :
  (forall e fs, P fs -> X e fs) ->
  (forall fs a fs', P fs -> f fs = Ok (a, fs') -> Q a fs') -> hoare P (syscall fault f) Q X.
Proof.
  intros HX HQ w Hw. unfold syscall. destruct (fault (w_tick w)); [by apply HX|].
  destruct (f (w_files w)) as [[a fs']|] eqn:E; [by eapply HQ|by apply HX].
Qed.

Lemma hoare_exec P fault cmd (X : io_error -> files -> Prop) :
  (forall e fs, P fs -> X e fs) -> hoare P (exec fault cmd) (fun _ => P) X.
Proof. intros HX w Hw. unfold exec. destruct (fault _); [by apply HX|done]. Qed.

Lemma hoare_ret {E A} (a : A) (Q : A -> files -> Prop) X : hoare (Q a) (mret a : io E A) Q X.
Proof. by intros w Hw. Qed.

Lemma hoare_fail {E A} (e : E) (Q : A -> files -> Prop) (X : E -> files -> Prop) : hoare (X e) (fail e : io E A) Q X.
Proof. by intros w Hw. Qed.

Lemma hoare_wrap {E E' A} (f : E -> E') P (m : io E A) Q X : hoare P m Q (fun e => X (f e)) -> hoare P (wrap f m) Q X.
Proof. intros Hm w Hw. specialize (Hm w Hw). unfold wrap. by destruct (m w) as [[|] ?]. Qed.

Lemma hoare_ignore {E E' A} P (m : io E A) (R : files -> Prop) X :
  hoare P m (fun _ => R) (fun _ => R) -> hoare P (ignore (E' := E') m) (fun _ => R) X.
Proof. intros Hm w Hw. specialize (Hm w Hw). unfold ignore. cbn. by destruct (m w) as [[|] ?]. Qed.

Lemma hoare_attempt {E E' A} P (m : io E A) Q X Y :
  hoare P m Q X ->
  hoare P (attempt (E' := E') m) (fun r fs => match r with Ok a => Q a fs | Err e => X e fs end) Y.
Proof. intros Hm w Hw. specialize (Hm w Hw). unfold attempt. by destruct (m w) as [[|] ?]. Qed.

Lemma hoare_deferred {E A} P (m : io E A) cleanup Q Q' (X X' : E -> files -> Prop) :
  hoare P m Q X -> (forall w a, Q a (w_files w) -> Q' a (w_files (cleanup w))) ->
  (forall w e, X e (w_files w) -> X' e (w_files (cleanup w))) -> hoare P (deferred m cleanup) Q' X'.
Proof. intros Hm HQ HX w Hw. specialize (Hm w Hw). unfold deferred. destruct (m w) as [[|] ?]; auto. Qed.

(** *** Writing through a temporary file *)

(** Nothing but [tmp] differs from [fs0]. *)
Definition framed (fs0 : files) (tmp : string) (fs : files) : Prop :=
  forall p, p <> tmp -> fs !! p = fs0 !! p.

(** As above, and [tmp] is a regular file holding [data]. *)
Definition staged (fs0 : files) (tmp data : string) (Attr : Z -> Z -> Z -> Prop) (fs : files) : Prop :=
  framed fs0 tmp fs /\ exists m u g, fs !! tmp = Some (Reg data m u g) /\ Attr m u g.

Section staging.
Context (fault : nat -> option string) (fs0 : files) (tmp : string).

Lemma staged_framed data Attr fs : staged fs0 tmp data Attr fs -> framed fs0 tmp fs.
Proof. by intros [? _]. Qed.

Lemma framed_insert fs n : framed fs0 tmp fs -> framed fs0 tmp (<[tmp := n]> fs).
Proof. intros H p Hp. rewrite lookup_insert_ne by done. by apply H. Qed.

Ltac staged_step :=
  apply hoare_syscall; [by intros e fs [? ?]|];
  intros fs a fs' [Hf (m & u & g & Hn & HA)] H; rewrite ?Hn in H; simplify_eq;
  (split; [by apply framed_insert|]); do 3 eexists; rewrite lookup_insert_eq; split; [done|]; eauto.

Lemma hoare_write_at data d Attr :
  hoare (staged fs0 tmp data Attr) (write_at fault tmp d)
        (fun _ => staged fs0 tmp (data +:+ d) Attr) (fun _ => framed fs0 tmp).
Proof. staged_step. Qed.

Lemma hoare_Chmod data mode Attr :
  hoare (staged fs0 tmp data Attr) (Chmod fault tmp mode)
        (fun _ => staged fs0 tmp data (fun m u g => m = mode /\ exists m0, Attr m0 u g)) (fun _ => framed fs0 tmp).
Proof. staged_step. Qed.

Definition own (uid uid' : Z) : Z := if uid' <? 0 then uid else uid'.

Lemma hoare_Chown data uid gid Attr :
  hoare (staged fs0 tmp data Attr) (Chown fault tmp uid gid)
        (fun _ => staged fs0 tmp data (fun m u g => exists u0 g0, Attr m u0 g0 /\ u = own u0 uid /\ g = own g0 gid))
        (fun _ => framed fs0 tmp).
Proof. staged_step. Qed.

(** A call that reads, or changes nothing. *)
Lemma hoare_read {A} P (f : files -> result io_error (A * files)) (X : io_error -> files -> Prop) :
  (forall fs a fs', f fs = Ok (a, fs') -> fs' = fs) -> (forall e fs, P fs -> X e fs) ->
  hoare P (syscall fault f) (fun _ => P) X.
Proof. intros Hf HX. apply hoare_syscall; [done|]. intros fs a fs' HP E. by rewrite (Hf _ _ _ E). Qed.

Lemma hoare_Rename_staged data Attr dst :
  tmp <> dst ->
  hoare (staged fs0 tmp data Attr) (Rename fault tmp dst)
        (fun _ fs => (exists m u g, fs !! dst = Some (Reg data m u g) /\ Attr m u g) /\
                     (forall p, p <> tmp -> p <> dst -> fs !! p = fs0 !! p)) (fun _ => framed fs0 tmp).
Proof.
  intros Hne. apply hoare_syscall; [by intros e fs [? ?]|].
  intros fs a fs' [Hf (m & u & g & Hn & HA)] H. rewrite Hn in H. simplify_eq. split.
  - exists m, u, g. by rewrite lookup_insert_eq.
  - intros p Hp1 Hp2. rewrite lookup_insert_ne, lookup_delete_ne by done. by apply Hf.
Qed.

Lemma remove_tmp w p : p <> tmp -> w_files (Remove fault tmp w).2 !! p = w_files w !! p.
Proof. intros Hp. apply (touches_Remove (fun q => q = tmp)); [done|]. congruence. Qed.
End staging.

Lemma hoare_CreateTemp fault tempname u g dir fs0 :
  hoare (fun fs => fs = fs0) (CreateTemp fault tempname u g dir)
        (fun tmp => staged fs0 tmp "" (fun m u' g' => m = 384 /\ u' = u /\ g' = g)) (fun _ fs => fs = fs0).
Proof.
  intros w <-. unfold CreateTemp, syscall. destruct (fault (w_tick w)); [done|].
  destruct (w_files w !! tempname (w_tick w) dir) eqn:E; [done|]. cbn. split.
  - intros p Hp. by rewrite lookup_insert_ne.
  - do 3 eexists. rewrite lookup_insert_eq. done.
Qed.

Lemma hoare_pure {E A} (phi : Prop) P (m : io E A) Q X :
  (phi -> hoare P m Q X) -> hoare (fun fs => phi /\ P fs) m Q X.
Proof. intros H w [Hphi Hw]. by apply H. Qed.

(** The same when temporary files are never called [path]: the outcome of a
    program that only stages is that nothing but one other file differs. *)
Definition untouched_but_tmp (path : string) (fs0 fs : files) : Prop :=
  exists tmp, tmp <> path /\ framed fs0 tmp fs.

Lemma hoare_CreateTemp_for fault tempname u g dir path fs0 :
  (forall t d, tempname t d <> path) ->
  hoare (fun fs => fs = fs0) (CreateTemp fault tempname u g dir)
        (fun tmp fs => tmp <> path /\ staged fs0 tmp "" (fun m u' g' => m = 384 /\ u' = u /\ g' = g) fs)
        (fun _ => untouched_but_tmp path fs0).
Proof.
  intros Hfresh w Hw. pose proof (hoare_CreateTemp fault tempname u g dir fs0 w Hw) as H.
  unfold CreateTemp in *. destruct (syscall _ _ w) as [[tmp|e] w'] eqn:E.
  - split; [|done]. unfold syscall in E. destruct (fault _); [done|]. destruct (w_files w !! _); [done|].
    injection E as <- _. apply Hfresh.
  - exists (tempname 0%nat dir). split; [apply Hfresh|]. intros p _. by rewrite H.
Qed.

(** Existing files are as they were. *)
Definition preserved (fs0 fs : files) : Prop := forall p, is_Some (fs0 !! p) -> fs !! p = fs0 !! p.

Definition preserving {E A} (m : io E A) : Prop := forall w, preserved (w_files w) (w_files (m w).2).

Lemma preserved_refl fs : preserved fs fs.
Proof. by intros p _. Qed.

Lemma preserved_trans fs1 fs2 fs3 : preserved fs1 fs2 -> preserved fs2 fs3 -> preserved fs1 fs3.
Proof. intros H12 H23 p Hp. rewrite H23; [by apply H12|]. by rewrite H12. Qed.

Lemma framed_preserved fs0 tmp fs : fs0 !! tmp = None -> framed fs0 tmp fs -> preserved fs0 fs.
Proof. intros Hn Hf p [n Hp]. apply Hf. intros ->. congruence. Qed.

Lemma hoare_CreateTemp_new fault tempname u g dir fs0 :
  hoare (fun fs => fs = fs0) (CreateTemp fault tempname u g dir)
        (fun tmp fs => fs0 !! tmp = None /\ staged fs0 tmp "" (fun m u' g' => m = 384 /\ u' = u /\ g' = g) fs)
        (fun _ fs => fs = fs0).
Proof.
  intros w Hw. pose proof (hoare_CreateTemp fault tempname u g dir fs0 w Hw) as H.
  unfold CreateTemp in *. destruct (syscall _ _ w) as [[tmp|e] w'] eqn:E; [|done].
  split; [|done]. unfold syscall in E. destruct (fault _); [done|].
  destruct (w_files w !! _) eqn:En; [done|]. injection E as <- _. by rewrite <- Hw.
Qed.

(** No file there was, but those of [P], is changed: new files may appear. *)
Definition spares {E A} (P : string -> Prop) (m : io E A) : Prop :=
  forall w p, ~ P p -> is_Some (w_files w !! p) -> w_files (m w).2 !! p = w_files w !! p.

Lemma spares_touches {E A} P (m : io E A) : touches P m -> spares P m.
Proof. intros Hm w p Hp _. by apply Hm. Qed.

Lemma spares_preserving {E A} P (m : io E A) : preserving m -> spares P m.
Proof. intros Hm w p _ Hs. by apply Hm. Qed.

Lemma spares_bind {E A B} P (m : io E A) (f : A -> io E B) :
  spares P m -> (forall a, spares P (f a)) -> spares P (mbind f m).
Proof.
  intros Hm Hf w p Hp Hs. unfold mbind, io_bind. specialize (Hm w p Hp Hs).
  destruct (m w) as [[a|e] w1]; cbn in *; [|done]. rewrite Hf; [done..|]. by rewrite Hm.
Qed.

Lemma spares_wrap {E E' A} P (f : E -> E') (m : io E A) : spares P m -> spares P (wrap f m).
Proof. intros Hm w p Hp Hs. unfold wrap. specialize (Hm w p Hp Hs). by destruct (m w) as [[|] ?]. Qed.

Lemma spares_attempt {E E' A} P (m : io E A) : spares P m -> spares P (attempt (E' := E') m).
Proof. intros Hm w p Hp Hs. unfold attempt. specialize (Hm w p Hp Hs). by destruct (m w). Qed.

Lemma spares_deferred {E A} P (m : io E A) cleanup :
  spares P m -> (forall w, w_files (cleanup w) = w_files w) -> spares P (deferred m cleanup).
Proof.
  intros Hm Hc w p Hp Hs. unfold deferred. specialize (Hm w p Hp Hs). destruct (m w) as [r w1]. cbn in *.
  by rewrite Hc.
Qed.

Lemma spares_weaken {E A} (P Q : string -> Prop) (m : io E A) :
  (forall p, P p -> Q p) -> spares P m -> spares Q m.
Proof. intros HPQ Hm w p Hp. apply Hm. naive_solver. Qed.

#[export] Hint Resolve spares_bind spares_wrap spares_attempt : goddns.

(** [m] fails: close the temporary file, then report the error. *)
Definition or_close {E A} (fault : nat -> option string) (tmp : string) (m : io E A) : io E A := fun w =>
  match m w with
  | (Ok a, w') => (Ok a, w')
  | (Err e, w') => (Err e, (Close fault tmp w').2)
  end.

Lemma hoare_or_close {E A} fault P (m : io E A) Q fs0 tmp :
  hoare P m Q (fun _ => framed fs0 tmp) -> hoare P (or_close fault tmp m) Q (fun _ => framed fs0 tmp).
Proof.
  intros Hm w Hw. specialize (Hm w Hw). unfold or_close. destruct (m w) as [[a|e] w1]; [done|].
  intros p Hp. rewrite (touches_Close (fun _ => False) fault tmp w1 p) by tauto. by apply Hm.
Qed.

(** *** Symbolic links

    What a path leads to depends on the links there are; no program here makes
    one. *)

Definition same_links (fs0 fs : files) : Prop := forall p t, fs !! p = Some (Link t) <-> fs0 !! p = Some (Link t).
Definition no_link (fs : files) (p : string) : Prop := forall t, fs !! p <> Some (Link t).

Definition keeps_links {E A} (m : io E A) : Prop := forall w, same_links (w_files w) (w_files (m w).2).

Lemma same_links_refl fs : same_links fs fs.
Proof. done. Qed.

Lemma same_links_trans fs1 fs2 fs3 : same_links fs1 fs2 -> same_links fs2 fs3 -> same_links fs1 fs3.
Proof. unfold same_links. intros H1 H2 p t. by rewrite H2, H1. Qed.

Lemma same_links_no_link fs0 fs p : same_links fs0 fs -> no_link fs0 p <-> no_link fs p.
Proof. unfold same_links, no_link. intros H. split; intros Hn t; [rewrite H|rewrite <- H]; auto. Qed.

Lemma same_links_follow fs0 fs p : same_links fs0 fs -> follow fs p = follow fs0 p.
Proof.
  intros H. unfold follow. destruct (fs0 !! p) as [[|t]|] eqn:E0.
  - destruct (fs !! p) as [[|t]|] eqn:E; [done| |done]. apply H in E. congruence.
  - by rewrite (proj2 (H p t) E0).
  - destruct (fs !! p) as [[|t]|] eqn:E; [done| |done]. apply H in E. congruence.
Qed.

Lemma same_links_insert fs0 fs p d m u g : same_links fs0 fs -> no_link fs p -> same_links fs0 (<[p := Reg d m u g]> fs).
Proof.
  intros H Hp q t. destruct (decide (q = p)) as [->|]; [rewrite lookup_insert_eq|by rewrite lookup_insert_ne].
  split; [done|]. intros Hq%H. by apply Hp in Hq.
Qed.

Lemma same_links_delete fs0 fs p : same_links fs0 fs -> no_link fs p -> same_links fs0 (delete p fs).
Proof.
  intros H Hp q t. destruct (decide (q = p)) as [->|]; [rewrite lookup_delete_eq|by rewrite lookup_delete_ne].
  split; [done|]. intros Hq%H. by apply Hp in Hq.
Qed.

Lemma keeps_links_bind {E A B} (m : io E A) (f : A -> io E B) : keeps_links m -> (forall a, keeps_links (f a)) -> keeps_links (mbind f m).
Proof.
  intros Hm Hf w. unfold mbind, io_bind. specialize (Hm w). destruct (m w) as [[a|e] w1]; [|done].
  eapply same_links_trans; [exact Hm|apply Hf].
Qed.

Lemma keeps_links_ret {E A} (a : A) : keeps_links (mret a : io E A).
Proof. by intros w. Qed.
Lemma keeps_links_fail {E A} (e : E) : keeps_links (fail e : io E A).
Proof. by intros w. Qed.
Lemma keeps_links_wrap {E E' A} (f : E -> E') (m : io E A) : keeps_links m -> keeps_links (wrap f m).
Proof. intros H w. specialize (H w). unfold wrap. by destruct (m w) as [[] ?]. Qed.
Lemma keeps_links_attempt {E E' A} (m : io E A) : keeps_links m -> keeps_links (attempt (E' := E') m).
Proof. intros H w. specialize (H w). unfold attempt. by destruct (m w). Qed.
Lemma keeps_links_ignore {E E' A} (m : io E A) : keeps_links m -> keeps_links (ignore (E' := E') m).
Proof. intros H w. apply H. Qed.
Lemma keeps_links_or_close {E A} fault tmp (m : io E A) : keeps_links m -> keeps_links (or_close fault tmp m).
Proof.
  intros H w. specialize (H w). unfold or_close. destruct (m w) as [[] w1]; [done|]. cbn in *.
  intros p t. by rewrite (touches_Close (fun _ => False) fault tmp w1 p (fun f => f)).
Qed.

(** One that touches no file. *)
Lemma keeps_links_reads {E A} (m : io E A) : touches (fun _ => False) m -> keeps_links m.
Proof. intros H w p t. by rewrite (H w p (fun f => f)). Qed.

Lemma keeps_links_syscall {A} fault (f : files -> result io_error (A * files)) :
  (forall fs a fs', f fs = Ok (a, fs') -> same_links fs fs') -> keeps_links (syscall fault f).
Proof.
  intros Hf w. unfold syscall. destruct (fault _); [done|]. destruct (f (w_files w)) as [[a fs']|] eqn:E; [|done]. by eapply Hf.
Qed.

Ltac rewritten_in_place :=
  apply keeps_links_syscall; intros fs a fs' H; cbv zeta in H;
  repeat match type of H with context [match ?x with _ => _ end] => destruct x eqn:?; simplify_eq end; simplify_eq;
  (apply same_links_insert; [done|intros ? ?; congruence]).

Lemma keeps_links_write_at fault p d : keeps_links (write_at fault p d).
Proof. unfold write_at. rewritten_in_place. Qed.
Lemma keeps_links_Chmod fault p m : keeps_links (Chmod fault p m).
Proof. unfold Chmod. rewritten_in_place. Qed.
Lemma keeps_links_Chown fault p u g : keeps_links (Chown fault p u g).
Proof. unfold Chown. rewritten_in_place. Qed.
Lemma keeps_links_CreateTemp fault tempname u g dir : keeps_links (CreateTemp fault tempname u g dir).
Proof.
  intros w. unfold CreateTemp. cbv zeta. generalize (tempname (w_tick w) dir). intros name.
  assert (H : forall p, keeps_links (syscall fault (fun fs => match fs !! p with Some _ => Err EEXIST
                                      | None => Ok (p, <[p := Reg "" 384 u g]> fs) end))); [|apply H].
  intros p. rewritten_in_place.
Qed.
Lemma keeps_links_open_trunc fault u g p m : keeps_links (open_trunc fault u g p m).
Proof. unfold open_trunc. rewritten_in_place. Qed.
Lemma keeps_links_WriteFile fault u g p d m : keeps_links (WriteFile fault u g p d m).
Proof. apply keeps_links_bind; [apply keeps_links_open_trunc|]. intros. apply keeps_links_write_at. Qed.

(** These take a link away, if it is one they are given. *)
Lemma links_Remove fault p w : no_link (w_files w) p -> same_links (w_files w) (w_files (Remove fault p w).2).
Proof.
  intros Hp. unfold Remove, syscall. destruct (fault _); [done|]. destruct (w_files w !! p) eqn:E; [|done]. by apply same_links_delete.
Qed.

Lemma links_Rename fault p q w : no_link (w_files w) p -> no_link (w_files w) q ->
  same_links (w_files w) (w_files (Rename fault p q w).2).
Proof.
  intros Hp Hq. unfold Rename, syscall. destruct (fault _); [done|]. destruct (w_files w !! p) as [[d m u g|t]|] eqn:E; [|by apply Hp in E|done].
  cbn. apply same_links_insert; [by apply same_links_delete|]. intros t. destruct (decide (q = p)) as [->|].
  - by rewrite lookup_delete_eq.
  - rewrite lookup_delete_ne by done. apply Hq.
Qed.

#[export] Hint Resolve keeps_links_bind keeps_links_ret keeps_links_fail keeps_links_wrap keeps_links_attempt keeps_links_ignore
  keeps_links_or_close keeps_links_reads keeps_links_write_at keeps_links_Chmod keeps_links_Chown keeps_links_CreateTemp
  keeps_links_WriteFile : goddns.

(** *** Programs of others

    Another program: it leaves alone the files that are there, makes and
    removes no link, and knows nothing of our open files. *)

Definition external {E A} (m : io E A) : Prop := forall w,
  let w' := (m w).2 in preserved (w_files w) (w_files w') /\ same_links (w_files w) (w_files w') /\ w_open w' = w_open w.

Lemma external_preserving {E A} (m : io E A) : external m -> preserving m.
Proof. intros H w. by destruct (H w). Qed.
Lemma external_links {E A} (m : io E A) : external m -> keeps_links m.
Proof. intros H w. by destruct (H w) as (_ & ? & _). Qed.

(** The open files stay as they are. *)
Definition keeps_open {E A} (m : io E A) : Prop := forall w, w_open (m w).2 = w_open w.

Lemma external_open {E A} (m : io E A) : external m -> keeps_open m.
Proof. intros H w. by destruct (H w) as (_ & _ & ?). Qed.

Lemma keeps_open_syscall {A} fault (f : files -> result io_error (A * files)) : keeps_open (syscall fault f).
Proof. intros w. unfold syscall. destruct (fault _); [done|]. by destruct (f _) as [[]|]. Qed.
Lemma keeps_open_bind {E A B} (m : io E A) (f : A -> io E B) : keeps_open m -> (forall a, keeps_open (f a)) -> keeps_open (mbind f m).
Proof.
  intros Hm Hf w. unfold mbind, io_bind. specialize (Hm w). destruct (m w) as [[a|e] w1]; [|done]. by rewrite Hf.
Qed.
Lemma keeps_open_ret {E A} (a : A) : keeps_open (mret a : io E A).
Proof. by intros w. Qed.
Lemma keeps_open_fail {E A} (e : E) : keeps_open (fail e : io E A).
Proof. by intros w. Qed.
Lemma keeps_open_wrap {E E' A} (f : E -> E') (m : io E A) : keeps_open m -> keeps_open (wrap f m).
Proof. intros H w. specialize (H w). unfold wrap. by destruct (m w) as [[] ?]. Qed.
Lemma keeps_open_attempt {E E' A} (m : io E A) : keeps_open m -> keeps_open (attempt (E' := E') m).
Proof. intros H w. specialize (H w). unfold attempt. by destruct (m w). Qed.
Lemma keeps_open_ignore {E E' A} (m : io E A) : keeps_open m -> keeps_open (ignore (E' := E') m).
Proof. intros H w. apply H. Qed.
Lemma keeps_open_or_close {E A} fault tmp (m : io E A) : keeps_open m -> keeps_open (or_close fault tmp m).
Proof.
  intros H w. specialize (H w). unfold or_close. destruct (m w) as [[] w1]; [done|]. cbn in *. by rewrite <- H; apply keeps_open_syscall.
Qed.
Lemma keeps_open_deferred {E E' A} (m : io E A) (c : io E' unit) : keeps_open m -> keeps_open c -> keeps_open (deferred m (fun w => (c w).2)).
Proof. intros Hm Hc w. specialize (Hm w). unfold deferred. destruct (m w) as [r w1]. cbn in *. by rewrite Hc. Qed.
Lemma keeps_open_exec fault cmd : keeps_open (exec fault cmd).
Proof. intros w. unfold exec. by destruct (fault _). Qed.
Lemma keeps_open_CreateTemp fault tempname u g dir : keeps_open (CreateTemp fault tempname u g dir).
Proof. intros w. unfold CreateTemp. apply (keeps_open_syscall fault (fun fs => match fs !! _ with Some _ => _ | None => _ end) w). Qed.

#[export] Hint Resolve keeps_open_syscall keeps_open_bind keeps_open_ret keeps_open_fail keeps_open_wrap keeps_open_attempt
  keeps_open_ignore keeps_open_or_close keeps_open_deferred keeps_open_exec keeps_open_CreateTemp : goddns.

Example clean_ex : (Clean "/a/./b/../c/", Join ["/etc"; "proxy.d"; "x.conf"], Dir "/etc/goddns.conf", Base "/a/b.c") =
  ("/a/c", "/etc/proxy.d/x.conf", "/etc", "b.c").
Proof. reflexivity. Qed.
