(* ===== verification/Ddns.v ===== *)
(** * internal/ddns: record operations and the RFC 2136 backend

    [Op] is the record-level operation every editor of the program speaks
    (mutate.go). The backend turns a batch of operations into one signed
    UPDATE message and hands it to the server (updater.go, mutate.go); the
    network exchange is a parameter. *)

From S2P Require Import Prelude GoStrings DnsLib NetIP.

(** ** Operations *)

(** [Action] is an [int]; any other value reaches the [default] branches. *)
Inductive Action := AddRR | DelRR | DelRRset | DelName | OtherAction (n : Z).

#[export] Instance Action_eq_dec : EqDecision Action.
Proof. solve_decision. Defined.

Record Op `{Dns} := mkOp { op_action : Action; op_rr : option RR }.
Arguments mkOp {_} _ _.

(** ** TSIG algorithms *)

Inductive Hmac := HmacSHA256 | HmacSHA512 | HmacSHA1 | HmacMD5.

Inductive ddns_error :=
| UnsupportedAlgorithm (a : string)
| SecretNotSet
| NilRR (i : nat)
| UnknownMutation
| ExchangeFailed (msg : string)
| UpdateRejected (rcode : Z)
| NotSigned (key : string).

Definition AlgoToDNS (a : string) : result ddns_error Hmac :=
  let n := to_lower (trim_suffix "." a) in
  if String.eqb n "hmac-sha256" || String.eqb n "" then Ok HmacSHA256
  else if String.eqb n "hmac-sha512" then Ok HmacSHA512
  else if String.eqb n "hmac-sha1" then Ok HmacSHA1
  else if String.eqb n "hmac-md5" then Ok HmacMD5
  else Err (UnsupportedAlgorithm a).

Record RFC2136 := mkRFC2136 {
  u_server : string; u_keyName : string; u_algo : Hmac; u_secret : string }.

Section backend.
Context `{D : Dns}.

Definition NewRFC2136 (server keyName algo secret : string) : result ddns_error RFC2136 :=
  if String.eqb secret "" then Err SecretNotSet
  else a ← AlgoToDNS algo; mret (mkRFC2136 server (Fqdn keyName) a secret).

(** ** One UPDATE message *)

(** The calls on [dns.Msg] that fill the update section. *)
Inductive update_rr :=
| Insert (r : RR)
| Remove (r : RR)
| RemoveRRset (r : RR)
| RemoveName (r : RR).

Record updateMsg := mkUpdate {
  m_zone : string; m_updates : list update_rr; m_key : string; m_algo : Hmac; m_fudge : Z }.

Fixpoint build_updates (i : nat) (ops : list Op) : result ddns_error (list update_rr) :=
  match ops with
  | [] => Ok []
  | op :: rest =>
      match op_rr op with
      | None => Err (NilRR i)
      | Some r =>
          match op_action op with
          | OtherAction _ => Err UnknownMutation
          | a => us ← build_updates (S i) rest;
                 mret (match a with
                       | AddRR => Insert r
                       | DelRR => Remove r
                       | DelRRset => RemoveRRset r
                       | _ => RemoveName r
                       end :: us)
          end
      end
  end.

(** The exchange with the server: the message, the secret it is signed with
    and the world it changes; it answers an error or a response code. *)
Context {W : Type} (exchange : string -> string -> updateMsg -> W -> W * result string Z).

Definition RcodeSuccess : Z := 0.

Definition Apply (u : RFC2136) (zone : string) (ops : list Op) (w : W)
  : W * result ddns_error unit :=
  match build_updates 0 ops with
  | Err e => (w, Err e)
  | Ok us =>
      let m := mkUpdate (Fqdn zone) us (u_keyName u) (u_algo u) 300 in
      let '(w', resp) := exchange (u_server u) (u_secret u) m w in
      match resp with
      | Err e => (w', Err (ExchangeFailed e))
      | Ok rcode => if Z.eqb rcode RcodeSuccess then (w', Ok tt)
                    else (w', Err (UpdateRejected rcode))
      end
  end.

Definition update_ops (fqdn : string) (ip : addr) (ttl : Z) : list Op :=
  let name := Fqdn fqdn in
  let add := match ip with
             | V4 b => mk_A name ttl b
             | V6 b => mk_AAAA name ttl b
             end in
  [ mkOp DelRRset (Some (mk_hdr name TypeA));
    mkOp DelRRset (Some (mk_hdr name TypeAAAA));
    mkOp AddRR (Some add) ].

Definition Update (u : RFC2136) (fqdn zone : string) (ip : addr) (ttl : Z) (w : W)
  : W * result ddns_error unit :=
  Apply u zone (update_ops fqdn ip ttl) w.

(** A signed query for the zone's SOA: [query] answers an error, or whether the
    response carries a signature, which the client library has then verified. *)
Definition Verify (query : string -> string -> string -> string -> Hmac -> result string bool) (u : RFC2136) (name : string)
  : result ddns_error unit :=
  match query (u_server u) (Fqdn name) (u_keyName u) (u_secret u) (u_algo u) with
  | Err e => Err (ExchangeFailed e)
  | Ok signed => if signed then Ok tt else Err (NotSigned (u_keyName u))
  end.

End backend.
