(* ===== verification/ZoneTok.v ===== *)
(** * internal/zonefile: the line-aware tokenizer

    [scanLine] and [tokenizeEntries] of zonefile.go: every physical line is
    scanned into tokens with byte columns, and lines are grouped into entries
    (blank, directive, record), a record spanning the lines its parentheses
    stay open. The theorems say that the entries partition the file, that a
    token is exactly the bytes at its columns, and that replacing the text of
    one token leaves the scan of the rest of the line unchanged, which is what
    the in-place serial bump relies on. *)

From Stdlib Require Import Ascii.
From S2P Require Import Prelude GoStrings.

(** ** Data *)

Record tokPos := mkTok { t_line : nat; t_start : nat; t_end : nat; t_text : string }.

Inductive entryKind := kindBlank | kindDirective | kindRecord.

#[export] Instance entryKind_eq_dec : EqDecision entryKind.
Proof. solve_decision. Defined.

Record entry := mkEntry {
  e_kind : entryKind;
  e_start : nat;
  e_end : nat;
  e_tokens : list tokPos;
  e_explicit : bool;
  e_directive : string
}.

(** ** One line *)

Definition isBlank (c : ascii) : bool :=
  Ascii.eqb c " " || Ascii.eqb c tab || Ascii.eqb c cr.

Definition isDelim (c : ascii) : bool :=
  Ascii.eqb c ";" || isBlank c || Ascii.eqb c "(" || Ascii.eqb c ")".

(** The inner loop: the length of the token at the head of [s]. A delimiter
    inside double quotes does not end the token. *)
Fixpoint tok_run (inQuote : bool) (s : string) : nat :=
  match s with
  | "" => 0
  | String c s' =>
      if Ascii.eqb c quote then S (tok_run (negb inQuote) s')
      else if negb inQuote && isDelim c then 0
      else S (tok_run inQuote s')
  end.

(** The outer loop from byte column [i] on; [inQuote] is false whenever it is
    entered, since the inner loop only stops inside quotes at the line's end. *)
Fixpoint scan_loop (fuel : nat) (i : nat) (s : string) : list tokPos * Z :=
  match fuel, s with
  | O, _ => ([], 0)
  | _, "" => ([], 0)
  | S f, String c s' =>
      if Ascii.eqb c ";" then ([], 0)
      else if isBlank c then scan_loop f (S i) s'
      else if Ascii.eqb c "(" then
        let '(toks, delta) := scan_loop f (S i) s' in (toks, delta + 1)
      else if Ascii.eqb c ")" then
        let '(toks, delta) := scan_loop f (S i) s' in (toks, delta - 1)
      else
        let n := tok_run false s in
        let '(toks, delta) := scan_loop f (i + n) (str_drop n s) in
        (mkTok 0 i (i + n) (str_take n s) :: toks, delta)
  end.

Definition leadingWS (line : string) : bool :=
  match line with
  | String c _ => Ascii.eqb c " " || Ascii.eqb c tab
  | "" => false
  end.

Definition scanLine (line : string) : list tokPos * Z * bool :=
  (scan_loop (String.length line) 0 line, leadingWS line).

#[global] Arguments scanLine : simpl never.

(** ** Entries *)

Definition directives : list string := ["$ORIGIN"; "$TTL"; "$INCLUDE"; "$GENERATE"].

Definition directiveName (tok : string) : option string :=
  let up := to_upper tok in
  if existsb (String.eqb up) directives then Some up else None.

Definition set_line (i : nat) (toks : list tokPos) : list tokPos :=
  (fun t => mkTok i (t_start t) (t_end t) (t_text t)) <$> toks.

(** The continuation loop of a record entry, from line [j] with parenthesis
    depth [depth]: the tokens gathered, the last line used, the lines left. *)
Fixpoint gather (depth : Z) (j : nat) (all : list tokPos) (rest : list string)
  : list tokPos * nat * list string :=
  match rest with
  | [] => (all, j, [])
  | l :: rest' =>
      if 0 <? depth then
        let '(t2, d2, _) := scanLine l in
        gather (depth + d2) (S j) (all ++ set_line (S j) t2) rest'
      else (all, j, rest)
  end.

Fixpoint entries_from (fuel i : nat) (lines : list string) : list entry :=
  match fuel, lines with
  | S f, l :: rest =>
      let '(toks0, delta, leadWS) := scanLine l in
      let toks := set_line i toks0 in
      match toks with
      | [] => mkEntry kindBlank i i [] false "" :: entries_from f (S i) rest
      | t :: _ =>
          match directiveName (t_text t) with
          | Some name =>
              mkEntry kindDirective i i toks false name :: entries_from f (S i) rest
          | None =>
              let '(all, j, rest') := gather delta i toks rest in
              mkEntry kindRecord i j all (negb leadWS) "" :: entries_from f (S j) rest'
          end
      end
  | _, _ => []
  end.

Definition tokenizeEntries (lines : list string) : list entry :=
  entries_from (length lines) 0 lines.

(** ** Token classes *)

Definition isClass (s : string) : bool :=
  existsb (String.eqb (to_upper s)) ["IN"; "CH"; "HS"; "CS"; "ANY"; "NONE"].

(** A bare number or a BIND duration such as [1h30m]. *)
Definition looksLikeTTL (s : string) : bool :=
  str_forall (fun c => is_digit c || str_exists (Ascii.eqb c) "smhdwSMHDW") s &&
  str_exists is_digit s.

(** [hasExplicitTTL] with the type's name already looked up in
    [dns.TypeToString]. *)
Fixpoint ttl_scan (typeStr : string) (toks : list tokPos) : bool :=
  match toks with
  | [] => false
  | t :: rest =>
      if equal_fold (t_text t) typeStr then false
      else if isClass (t_text t) then ttl_scan typeStr rest
      else if looksLikeTTL (t_text t) then true
      else ttl_scan typeStr rest
  end.

Definition hasExplicitTTL (toks : list tokPos) (explicitOwner : bool) (typeStr : string) : bool :=
  ttl_scan typeStr (if explicitOwner then drop 1 toks else toks).

(** The SOA serial: the third token after the [SOA] one. *)
Fixpoint locateSerial (toks : list tokPos) : option tokPos :=
  match toks with
  | [] => None
  | t :: rest => if equal_fold (t_text t) "SOA" then rest !! 2%nat else locateSerial rest
  end.

(** ** The scan of one line *)

Definition token_start (c : ascii) : bool := negb (isDelim c).

Lemma tok_run_pos c s : isDelim c = false -> (1 <= tok_run false (String c s))%nat.
Proof. intros H. cbn. rewrite H. destruct (Ascii.eqb c quote); cbn; lia. Qed.

Lemma tok_run_le q s : (tok_run q s <= String.length s)%nat.
Proof.
  revert q. induction s as [|c s IH]; intros q; cbn; [lia|].
  destruct (Ascii.eqb c quote); [specialize (IH (negb q)); lia|].
  destruct (_ && _); [lia|]. specialize (IH q). lia.
Qed.

(** The token stops at the end of the line or at a delimiter. *)
Definition at_delim (s : string) : Prop :=
  match s with "" => True | String c _ => isDelim c = true end.

Lemma tok_run_stop q s : at_delim (str_drop (tok_run q s) s).
Proof.
  revert q. induction s as [|c s IH]; intros q; cbn; [done|].
  destruct (Ascii.eqb c quote); [apply IH|].
  destruct q; cbn; [apply IH|]. destruct (isDelim c) eqn:E; cbn; [done|apply IH].
Qed.

Lemma isDelim_false c :
  isDelim c = false ->
  Ascii.eqb c ";" = false /\ isBlank c = false /\ Ascii.eqb c "(" = false /\ Ascii.eqb c ")" = false.
Proof. unfold isDelim. intros H. bsplit. done. Qed.

(** The shape of one step of the outer loop. *)
Lemma scan_loop_token f i c s :
  isDelim c = false ->
  scan_loop (S f) i (String c s) =
    let n := tok_run false (String c s) in
    let '(toks, delta) := scan_loop f (i + n) (str_drop n (String c s)) in
    (mkTok 0 i (i + n) (str_take n (String c s)) :: toks, delta).
Proof. intros H. destruct (isDelim_false c H) as (H1 & H2 & H3 & H4). cbn. by rewrite H1, H2, H3, H4. Qed.

Lemma scan_loop_fuel f f' i s :
  (String.length s <= f)%nat -> (String.length s <= f')%nat ->
  scan_loop f i s = scan_loop f' i s.
Proof.
  revert f' i s. induction f as [|f IH]; intros f' i s Hf Hf'.
  { destruct s; cbn in *; [by destruct f'|lia]. }
  destruct s as [|c s]; [by destruct f'|]. destruct f' as [|f']; [cbn in *; lia|].
  destruct (isDelim c) eqn:Hd.
  - cbn in *. unfold isDelim in Hd. rewrite (IH f' (S i) s) by lia.
    destruct (Ascii.eqb c ";"), (isBlank c), (Ascii.eqb c "("), (Ascii.eqb c ")"); done.
  - rewrite !scan_loop_token by done. cbn zeta.
    pose proof (tok_run_pos c s Hd). rewrite (IH f'); [done|..];
      rewrite str_length_drop; cbn in *; lia.
Qed.

(** The scan with exactly enough fuel, and its equations. *)
Definition scan (i : nat) (s : string) : list tokPos * Z := scan_loop (String.length s) i s.

Definition paren (c : ascii) : Z :=
  if Ascii.eqb c "(" then 1 else if Ascii.eqb c ")" then -1 else 0.

Lemma scan_delim i c s :
  isDelim c = true ->
  scan i (String c s) =
    if Ascii.eqb c ";" then ([], 0)
    else ((scan (S i) s).1, (scan (S i) s).2 + paren c).
Proof.
  unfold scan, paren, isDelim. cbn. intros Hd. destruct (scan_loop _ (S i) s) as [ts d].
  destruct (Ascii.eqb c ";"); [done|]. destruct (isBlank c) eqn:Eb.
  - unfold isBlank in Eb. cbn. destruct (Ascii.eqb_spec c "(") as [->|]; [done|].
    destruct (Ascii.eqb_spec c ")") as [->|]; [done|]. by rewrite Z.add_0_r.
  - by destruct (Ascii.eqb c "("), (Ascii.eqb c ")").
Qed.

Lemma scan_token i c s :
  isDelim c = false ->
  scan i (String c s) =
    let n := tok_run false (String c s) in
    let r := scan (i + n) (str_drop n (String c s)) in
    (mkTok 0 i (i + n) (str_take n (String c s)) :: r.1, r.2).
Proof.
  intros Hd. unfold scan. cbn [String.length]. rewrite scan_loop_token by done. cbn zeta.
  pose proof (tok_run_pos c s Hd).
  rewrite (scan_loop_fuel _ (String.length (str_drop (tok_run false (String c s)) (String c s))));
    [by destruct (scan_loop _ _ _)|rewrite str_length_drop; cbn in *; lia|done].
Qed.

(** Induction along the scan. *)
Lemma scan_ind (P : nat -> string -> Prop) :
  (forall i, P i "") ->
  (forall i c s, isDelim c = true -> P (S i) s -> P i (String c s)) ->
  (forall i c s n, isDelim c = false -> n = tok_run false (String c s) ->
     (1 <= n <= String.length (String c s))%nat ->
     P (i + n)%nat (str_drop n (String c s)) -> P i (String c s)) ->
  forall i s, P i s.
Proof.
  intros H0 H1 H2 i s. remember (String.length s) as k eqn:Hk. revert i s Hk.
  induction k as [k IH] using lt_wf_ind; intros i s ->.
  destruct s as [|c s]; [done|]. destruct (isDelim c) eqn:Hd.
  - apply H1; [done|]. eapply IH; [|done]. cbn. lia.
  - pose proof (tok_run_pos c s Hd). pose proof (tok_run_le false (String c s)).
    eapply (H2 i c s _ Hd eq_refl); [lia|].
    eapply IH; [|done]. rewrite str_length_drop. cbn in *. lia.
Qed.

(** A token is the bytes at its columns; it is not empty, and it stops at a
    delimiter or at the end of the line. *)
Definition tok_in_line (i : nat) (s : string) (t : tokPos) : Prop :=
  exists pre post, s = pre +:+ t_text t +:+ post /\
    t_start t = (i + String.length pre)%nat /\
    t_end t = (t_start t + String.length (t_text t))%nat /\
    t_text t <> "" /\ at_delim post /\
    match t_text t with "" => False | String c _ => isDelim c = false end.

Lemma tok_in_line_later a i s t :
  tok_in_line (i + String.length a) s t -> tok_in_line i (a +:+ s) t.
Proof.
  intros (pre & post & -> & Hs & He & Hne & Hp & Hd).
  exists (a +:+ pre), post. rewrite !str_app_assoc, str_length_app.
  repeat split; try done; lia.
Qed.

Lemma scan_tokens i s t : t ∈ (scan i s).1 -> tok_in_line i s t.
Proof.
  revert i s. apply (scan_ind (fun i s => t ∈ (scan i s).1 -> tok_in_line i s t)).
  - by intros i ?%elem_of_nil.
  - intros i c s Hd IH. rewrite scan_delim by done.
    destruct (Ascii.eqb c ";"); [by intros ?%elem_of_nil|]. intros Ht%IH.
    change (String c s) with (String c "" +:+ s). apply tok_in_line_later.
    cbn. by rewrite Nat.add_1_r.
  - intros i c s n Hd Hn [Hpos Hle] IH. rewrite scan_token by done. rewrite <- Hn.
    intros [->|Ht]%elem_of_cons.
    + exists "", (str_drop n (String c s)). cbn [t_text t_start t_end].
      rewrite str_take_drop, str_length_take, Nat.min_l by done.
      repeat split; [cbn; lia| |subst n; apply tok_run_stop|].
      * by destruct n; [lia|].
      * by destruct n; [lia|].
    + rewrite <- (str_take_drop n (String c s)). apply tok_in_line_later.
      rewrite str_length_take, Nat.min_l by done. by apply IH.
Qed.

Lemma scan_texts i j s :
  t_text <$> (scan i s).1 = t_text <$> (scan j s).1 /\ (scan i s).2 = (scan j s).2.
Proof.
  revert i s j. apply (scan_ind (fun i s => forall j,
    t_text <$> (scan i s).1 = t_text <$> (scan j s).1 /\ (scan i s).2 = (scan j s).2)).
  - done.
  - intros i c s Hd IH j. rewrite !scan_delim by done. destruct (Ascii.eqb c ";"); [done|].
    destruct (IH (S j)) as [H1 H2]. cbn. by rewrite H1, H2.
  - intros i c s n Hd Hn _ IH j. rewrite !scan_token by done. rewrite <- !Hn. cbn.
    destruct (IH (j + n)%nat) as [H1 H2]. by rewrite H1, H2.
Qed.

(** Replacing the text of one token by a plain word keeps every other token:
    those before it at their columns, those after it shifted. *)
Definition plain (w : string) : Prop :=
  w <> "" /\ str_forall (fun c => negb (isDelim c) && negb (Ascii.eqb c quote)) w = true.

Lemma tok_run_plain w post :
  str_forall (fun c => negb (isDelim c) && negb (Ascii.eqb c quote)) w = true ->
  at_delim post -> tok_run false (w +:+ post) = String.length w.
Proof.
  intros Hw Hp. induction w as [|c w IH]; cbn in *.
  - destruct post as [|c post]; [done|]. cbn in *. rewrite Hp.
    destruct (Ascii.eqb_spec c quote) as [->|]; done.
  - bsplit. rewrite H, H1. cbn. by rewrite IH.
Qed.

Lemma scan_word i w post :
  plain w -> at_delim post ->
  scan i (w +:+ post) =
    (mkTok 0 i (i + String.length w) w :: (scan (i + String.length w) post).1,
     (scan (i + String.length w) post).2).
Proof.
  intros [Hne Hw] Hp. pose proof (tok_run_plain w post Hw Hp) as Hrun.
  destruct w as [|c w]; [done|]. cbn in Hw. bsplit.
  cbn [String.append] in *. rewrite scan_token by done. cbn zeta. rewrite Hrun.
  change (String c (w +:+ post)) with (String c w +:+ post).
  by rewrite str_drop_app, str_take_app.
Qed.

Lemma tok_run_prefix q s rest :
  str_drop (tok_run q s) s <> "" -> at_delim rest ->
  tok_run q (str_take (tok_run q s) s +:+ rest) = tok_run q s.
Proof.
  revert q. induction s as [|c s IH]; intros q; cbn; [done|].
  destruct (Ascii.eqb c quote) eqn:Eq; cbn.
  { intros. rewrite Eq. by rewrite IH. }
  destruct q; cbn.
  { intros. rewrite Eq. cbn. by rewrite IH. }
  destruct (isDelim c) eqn:Ed; cbn.
  - intros _. destruct rest as [|d rest]; cbn; [done|]. intros Hd.
    destruct (Ascii.eqb_spec d quote) as [->|]; [done|]. by rewrite Hd.
  - intros. rewrite Eq, Ed. cbn. by rewrite IH.
Qed.

Lemma app_split_nonempty (pre x post : string) d r :
  String d r = pre +:+ x +:+ post ->
  isDelim d = true ->
  match x with "" => False | String c _ => isDelim c = false end ->
  exists pre', pre = String d pre'.
Proof.
  destruct pre as [|c pre]; cbn; intros H Hd Hx.
  - destruct x as [|c x]; [done|]. injection H as <- _. congruence.
  - injection H as <- _. eauto.
Qed.

(** The scan of a line in which one token's text is replaced: every other
    token keeps its text, the tokens before it their columns as well. *)
Lemma scan_splice w tk i s :
  plain w -> forall t1 t2 d, scan i s = (t1 ++ tk :: t2, d) ->
  exists pre post t2',
    s = pre +:+ t_text tk +:+ post /\ t_start tk = (i + String.length pre)%nat /\
    t_end tk = (t_start tk + String.length (t_text tk))%nat /\
    Forall (fun t => (t_start t < t_start tk)%nat) t1 /\
    Forall (fun t => (t_start tk < t_start t)%nat) t2 /\
    t_text <$> t2' = t_text <$> t2 /\
    scan i (pre +:+ w +:+ post) =
      (t1 ++ mkTok 0 (t_start tk) (t_start tk + String.length w) w :: t2', d).
Proof.
  intros Hw. revert i s. apply (scan_ind (fun i s => forall t1 t2 d, _ -> _)).
  - intros i t1 t2 d H. by destruct t1.
  - intros i c s Hd IH t1 t2 d. rewrite scan_delim by done.
    destruct (Ascii.eqb c ";") eqn:Ec; [by destruct t1|].
    destruct (scan (S i) s) as [ts e]. cbn [fst snd]. intros [= -> <-].
    destruct (IH t1 t2 e eq_refl) as (pre & post & t2' & -> & Hst & Hen & Hlt & Hgt & Htx & Hnew).
    exists (String c pre), post, t2'. cbn [String.length String.append].
    repeat split; try done; [lia|]. rewrite scan_delim, Ec by done. by rewrite Hnew.
  - intros i c s n Hd Hn [Hpos Hle] IH t1 t2 d. rewrite scan_token by done. rewrite <- Hn. cbn zeta.
    pose proof (scan_tokens (i + n) (str_drop n (String c s))) as Htoks.
    pose proof (tok_run_stop false (String c s)) as Hstop.
    pose proof (tok_run_prefix false (String c s)) as Hpref. rewrite <- Hn in Hstop, Hpref.
    destruct (scan (i + n) (str_drop n (String c s))) as [ts e] eqn:He. cbn [fst snd] in *.
    intros [= Hts <-]. destruct t1 as [|h t1].
    + (* the token itself *)
      injection Hts as <- ->. cbn [t_text t_start t_end].
      exists "", (str_drop n (String c s)), (scan (i + String.length w) (str_drop n (String c s))).1.
      rewrite str_take_drop, str_length_take, Nat.min_l by done. cbn [String.length String.append].
      destruct (scan_texts (i + String.length w) (i + n) (str_drop n (String c s))) as [Htx Hd2].
      rewrite He in Htx, Hd2. cbn in Hd2.
      repeat split; try done; try lia; try constructor.
      * rewrite Forall_forall. intros t Ht. destruct (Htoks t Ht) as (p & q & _ & -> & _). lia.
      * rewrite scan_word by done. by rewrite Hd2.
    + (* a later token *)
      injection Hts as <- ->.
      destruct (IH t1 t2 e eq_refl) as (pre & post & t2' & Hs & Hst & Hen & Hlt & Hgt & Htx & Hnew).
      assert (Htk : tok_in_line (i + n) (str_drop n (String c s)) tk).
      { apply Htoks. apply elem_of_app. right. left. }
      destruct Htk as (_ & _ & _ & _ & _ & _ & _ & Hc).
      assert (exists x pre', pre = String x pre' /\ isDelim x = true) as (x & pre' & -> & Hx).
      { rewrite Hs in Hstop. destruct pre as [|x pre]; [|cbn in Hstop; eauto].
        exfalso. destruct (t_text tk) as [|y r]; [done|]. cbn in Hstop. congruence. }
      exists (str_take n (String c s) +:+ String x pre'), post, t2'.
      assert (Hn' : tok_run false (str_take n (String c s) +:+ (String x pre' +:+ w +:+ post)) = n).
      { apply Hpref; [by rewrite Hs|done]. }
      rewrite !str_app_assoc, str_length_app, str_length_take, Nat.min_l by done.
      rewrite <- Hs, str_take_drop. cbn [t_start].
      repeat split; try done; [lia|constructor; [cbn; lia|done]|].
      assert (Hl : String.length (str_take n (String c s)) = n) by (rewrite str_length_take; lia).
      cbn [String.append] in Hnew, Hn' |- *.
      remember (String x (pre' +:+ w +:+ post)) as rest eqn:Hrest. clear Hrest.
      destruct n as [|n]; [lia|]. cbn [str_take String.append] in Hn' |- *.
      rewrite scan_token by done. cbn zeta. rewrite Hn'.
      change (String c (str_take n s +:+ rest)) with (str_take (S n) (String c s) +:+ rest).
      by rewrite str_drop_app_n, str_take_app_n, Hnew.
Qed.

Lemma scanLine_scan line : scanLine line = ((scan 0 line).1, (scan 0 line).2, leadingWS line).
Proof. unfold scanLine, scan. by destruct (scan_loop _ 0 line). Qed.

(** ** Entries partition the lines *)

(** [es] covers the lines [i .. n-1] in order, each line once. *)
Fixpoint covers (i : nat) (es : list entry) (n : nat) : Prop :=
  match es with
  | [] => i = n
  | e :: es' => e_start e = i /\ (i <= e_end e)%nat /\ covers (S (e_end e)) es' n
  end.

Lemma gather_spec rest depth j all all' j' rest' :
  gather depth j all rest = (all', j', rest') ->
  (j <= j')%nat /\ rest' = drop (j' - j) rest /\ (j' - j <= length rest)%nat.
Proof.
  revert depth j all. induction rest as [|l rest IH]; intros depth j all; cbn.
  { intros [= <- <- <-]. rewrite Nat.sub_diag. done. }
  destruct (0 <? depth).
  - rewrite scanLine_scan. intros (Hj & -> & Hle)%IH.
    replace (j' - j)%nat with (S (j' - S j)) by lia. cbn. repeat split; lia.
  - intros [= <- <- <-]. rewrite Nat.sub_diag. cbn. repeat split; lia.
Qed.

Lemma entries_from_covers f i lines :
  (length lines <= f)%nat -> covers i (entries_from f i lines) (i + length lines).
Proof.
  revert i lines. induction f as [|f IH]; intros i lines Hf.
  { destruct lines; cbn in *; lia. }
  destruct lines as [|l rest]; cbn [entries_from]; [cbn; lia|].
  cbn [length] in *. rewrite scanLine_scan.
  destruct (set_line i (scan 0 l).1) as [|t ts].
  { cbn. repeat split; try lia. replace (i + S (length rest))%nat with (S i + length rest)%nat by lia.
    apply IH. lia. }
  destruct (directiveName (t_text t)).
  { cbn. repeat split; try lia. replace (i + S (length rest))%nat with (S i + length rest)%nat by lia.
    apply IH. lia. }
  destruct (gather _ i _ rest) as [[all j] rest'] eqn:Hg.
  apply gather_spec in Hg as (Hj & -> & Hle). cbn. repeat split; try lia.
  replace (i + S (length rest))%nat with (S j + length (drop (j - i) rest))%nat
    by (rewrite length_drop; lia).
  apply IH. rewrite length_drop. lia.
Qed.

Lemma tokenizeEntries_covers lines : covers 0 (tokenizeEntries lines) (length lines).
Proof. apply entries_from_covers. done. Qed.

(** Distinct entries of a partition have disjoint spans. *)
Lemma covers_ge i es n e : covers i es n -> e ∈ es -> (i <= e_start e)%nat /\ (e_end e < n)%nat /\ (e_start e <= e_end e)%nat.
Proof.
  revert i. induction es as [|x es IH]; intros i; [by intros _ ?%elem_of_nil|].
  cbn. intros (<- & Hle & Hc) [->|He]%elem_of_cons.
  - split; [lia|]. split; [|lia]. clear IH.
    assert (Hm : forall es k, covers k es n -> (k <= n)%nat).
    { clear. induction es as [|y es IH]; intros k; cbn; [lia|]. intros (? & ? & H%IH). lia. }
    apply Hm in Hc. lia.
  - destruct (IH _ Hc He) as (? & ? & ?). lia.
Qed.

Lemma covers_disjoint i es n a b x y :
  covers i es n -> es !! a = Some x -> es !! b = Some y -> (a < b)%nat ->
  (e_end x < e_start y)%nat.
Proof.
  revert i a b. induction es as [|e es IH]; intros i a b; [done|].
  cbn. intros (<- & Hle & Hc) Ha Hb Hab.
  destruct b as [|b]; [lia|]. cbn in Hb. destruct a as [|a].
  - injection Ha as ->. apply list_elem_of_lookup_2 in Hb.
    destruct (covers_ge _ _ _ _ Hc Hb). lia.
  - cbn in Ha. apply (IH _ _ _ Hc Ha Hb). lia.
Qed.

(** ** The tokens of an entry lie on its lines *)

Definition tok_of_line (l : string) (t : tokPos) : Prop :=
  exists u, u ∈ (scan 0 l).1 /\ t = mkTok (t_line t) (t_start u) (t_end u) (t_text u).

Definition tok_at (lines : list string) (t : tokPos) : Prop :=
  exists l, lines !! t_line t = Some l /\ tok_of_line l t.

Lemma tok_of_line_span l t : tok_of_line l t -> tok_in_line 0 l t.
Proof. intros (u & Hu & ->). by apply scan_tokens in Hu. Qed.

Lemma set_line_elem i l t :
  t ∈ set_line i (scan 0 l).1 -> t_line t = i /\ tok_of_line l t.
Proof.
  unfold set_line. intros (u & -> & Hu)%list_elem_of_fmap. cbn.
  split; [done|]. by exists u.
Qed.

Lemma gather_tokens lines rest depth j all all' j' rest' :
  gather depth j all rest = (all', j', rest') ->
  rest = drop (S j) lines ->
  forall t, t ∈ all' -> t ∈ all \/ ((j < t_line t <= j')%nat /\ tok_at lines t).
Proof.
  revert depth j all. induction rest as [|l rest IH]; intros depth j all; cbn.
  { intros [= <- <- <-]. auto. }
  destruct (0 <? depth); [|intros [= <- <- <-]; auto].
  rewrite scanLine_scan. intros Hg Hr t Ht.
  assert (Hl : lines !! S j = Some l) by (rewrite <- (Nat.add_0_r (S j)), <- lookup_drop, <- Hr; done).
  assert (Hr' : rest = drop (S (S j)) lines).
  { rewrite <- (Nat.add_1_r (S j)), <- drop_drop, <- Hr. done. }
  pose proof (gather_spec _ _ _ _ _ _ _ Hg) as (Hj & _).
  destruct (IH _ _ _ Hg Hr' t Ht) as [Hin|[Hb Hat]]; [|right; split; [lia|done]].
  apply elem_of_app in Hin as [Hin|Hin]; [by left|].
  apply set_line_elem in Hin as [Hline Hin]. right. rewrite Hline. split; [lia|].
  exists l. by rewrite Hline.
Qed.

Lemma entries_from_tokens lines f i rest e :
  rest = drop i lines -> e ∈ entries_from f i rest ->
  forall t, t ∈ e_tokens e -> (e_start e <= t_line t <= e_end e)%nat /\ tok_at lines t.
Proof.
  revert i rest. induction f as [|f IH]; intros i rest Hr; [by intros ?%elem_of_nil|].
  destruct rest as [|l rest]; [by intros ?%elem_of_nil|]. cbn [entries_from].
  assert (Hl : lines !! i = Some l) by (rewrite <- (Nat.add_0_r i), <- lookup_drop, <- Hr; done).
  assert (Hr' : rest = drop (S i) lines) by (rewrite <- Nat.add_1_r, <- drop_drop, <- Hr; done).
  rewrite scanLine_scan. pose proof (set_line_elem i l) as Hset.
  assert (Hhere : forall t, t ∈ set_line i (scan 0 l).1 -> (i <= t_line t <= i)%nat /\ tok_at lines t).
  { intros t [Hline Hin]%Hset. rewrite Hline. split; [lia|]. exists l. by rewrite Hline. }
  destruct (set_line i (scan 0 l).1) as [|t0 ts].
  { intros [->|He]%elem_of_cons; [by intros t ?%elem_of_nil|]. by apply (IH (S i) rest). }
  destruct (directiveName (t_text t0)).
  { intros [->|He]%elem_of_cons; [apply Hhere|]. by apply (IH (S i) rest). }
  destruct (gather _ i _ rest) as [[all j] rest'] eqn:Hg.
  pose proof (gather_spec _ _ _ _ _ _ _ Hg) as (Hj & -> & _).
  intros [->|He]%elem_of_cons; cbn [e_tokens e_start e_end].
  - intros t Ht. destruct (gather_tokens _ _ _ _ _ _ _ _ Hg Hr' t Ht) as [Hin|[Hb Hat]].
    + destruct (Hhere t Hin). split; [lia|done].
    + split; [lia|done].
  - apply (IH (S j) (drop (j - i) rest)); [|done].
    rewrite Hr', drop_drop. f_equal. lia.
Qed.

Lemma tokenizeEntries_tokens lines e t :
  e ∈ tokenizeEntries lines -> t ∈ e_tokens e ->
  (e_start e <= t_line t <= e_end e)%nat /\ tok_at lines t.
Proof. intros He Ht. by eapply (entries_from_tokens lines _ 0 lines). Qed.

(** ** Replacing one numeric token of the file *)

Definition digits (s : string) : Prop := s <> "" /\ str_forall is_digit s = true.

Lemma digit_not_delim c : is_digit c = true -> negb (isDelim c) && negb (Ascii.eqb c quote) = true.
Proof. destruct c as [[] [] [] [] [] [] [] []]; done. Qed.

Lemma digits_plain w : digits w -> plain w.
Proof.
  intros [Hne Hw]. split; [done|]. revert Hw. apply str_forall_impl, digit_not_delim.
Qed.

Lemma digits_not_directive w : digits w -> directiveName w = None.
Proof.
  intros [Hne Hw]. destruct w as [|c w]; [done|]. cbn in Hw. bsplit.
  unfold directiveName, directives. cbn [to_upper str_map existsb].
  by destruct c as [[] [] [] [] [] [] [] []].
Qed.

Lemma digits_not_soa w : digits w -> equal_fold w "SOA" = false.
Proof.
  intros [Hne Hw]. destruct w as [|c w]; [done|]. cbn in Hw. bsplit.
  unfold equal_fold, to_lower. cbn [str_map].
  by destruct c as [[] [] [] [] [] [] [] []].
Qed.

Section bump.
Context (lines : list string) (L : nat) (l : string) (tk : tokPos) (w : string).
Hypothesis HL : lines !! L = Some l.
Hypothesis Htk : tk ∈ (scan 0 l).1.
Hypothesis Hold : digits (t_text tk).
Hypothesis Hw : digits w.

Definition bumped : string := str_take (t_start tk) l +:+ w +:+ str_drop (t_end tk) l.
Definition bumped_lines : list string := <[L := bumped]> lines.

(** The same token, with the new text if it is the one replaced. *)
Definition same_tok (t t' : tokPos) : Prop :=
  t_line t' = t_line t /\
  if decide (t_line t = L /\ t_start t = t_start tk)
  then digits (t_text t) /\ t_text t' = w
  else t_text t' = t_text t.

Lemma same_tok_text t t' : same_tok t t' ->
  (digits (t_text t) /\ digits (t_text t')) \/ t_text t' = t_text t.
Proof.
  intros [_ H]. case_decide; [|by right]. left. destruct H as [? ->]. done.
Qed.

Lemma bumped_scan :
  exists t1 t2 t2' d u,
    scan 0 l = (t1 ++ tk :: t2, d) /\ scan 0 bumped = (t1 ++ u :: t2', d) /\
    t_text u = w /\ t_text <$> t2' = t_text <$> t2 /\
    Forall (fun t => (t_start t < t_start tk)%nat) t1 /\
    Forall (fun t => (t_start tk < t_start t)%nat) t2 /\
    leadingWS bumped = leadingWS l.
Proof.
  apply list_elem_of_split in Htk as (t1 & t2 & Hs).
  destruct (scan 0 l) as [ts d] eqn:E. cbn in Hs. subst ts.
  destruct (scan_splice w tk 0 l (digits_plain _ Hw) _ _ _ E)
    as (pre & post & t2' & Hl & Hst & Hen & Hlt & Hgt & Htx & Hnew).
  assert (bumped = pre +:+ w +:+ post) as Hb.
  { unfold bumped. rewrite Hen, Hst, Hl. cbn [Nat.add].
    rewrite str_take_app, <- (str_app_assoc pre (t_text tk)).
    by rewrite str_drop_app_n by (by rewrite str_length_app). }
  exists t1, t2, t2', d. eexists. rewrite Hb, Hl. repeat split; try done.
  destruct pre as [|c pre]; [|done]. cbn.
  destruct Hold as [Hne1 Hd1], Hw as [Hne2 Hd2].
  destruct (t_text tk) as [|c1 ?], w as [|c2 ?]; try done. cbn in *. bsplit.
  destruct c1 as [[] [] [] [] [] [] [] []]; try done;
  destruct c2 as [[] [] [] [] [] [] [] []]; done.
Qed.

Lemma bumped_line i x x' :
  lines !! i = Some x -> bumped_lines !! i = Some x' ->
  Forall2 same_tok (set_line i (scan 0 x).1) (set_line i (scan 0 x').1) /\
  (scan 0 x').2 = (scan 0 x).2 /\ leadingWS x' = leadingWS x.
Proof.
  intros Hx Hx'. unfold bumped_lines in Hx'.
  destruct (decide (i = L)) as [->|Hne].
  - rewrite list_lookup_insert_eq in Hx' by (by eapply lookup_lt_Some). injection Hx' as <-.
    rewrite HL in Hx. injection Hx as <-.
    destruct bumped_scan as (t1 & t2 & t2' & d & u & -> & -> & Hu & Htx & Hlt & Hgt & ->).
    cbn [fst snd]. split; [|done]. unfold set_line. rewrite !fmap_app, !fmap_cons.
    apply Forall2_app; [|constructor].
    + clear - Hlt. induction Hlt as [|t t1 Ht _ IH]; constructor; [|done].
      split; [done|]. cbn. case_decide as Hd; [|done]. destruct Hd; lia.
    + split; [done|]. cbn. case_decide as Hd; [done|]. by destruct Hd.
    + clear - Hgt Htx. revert t2' Htx. induction Hgt as [|t t2 Ht _ IH]; intros [|t' t2'] Htx;
        cbn in *; try done; constructor.
      * injection Htx as Htx _. split; [done|]. cbn. case_decide as Hd; [|done]. destruct Hd; lia.
      * injection Htx as _ Htx. by apply IH.
  - rewrite list_lookup_insert_ne in Hx' by done. rewrite Hx in Hx'. injection Hx' as <-.
    split; [|done]. unfold set_line. induction (scan 0 x).1 as [|t ts IH]; constructor; [|done].
    split; [done|]. cbn. case_decide as Hd; [|done]. by destruct Hd.
Qed.

Definition same_entry (e e' : entry) : Prop :=
  e_kind e' = e_kind e /\ e_start e' = e_start e /\ e_end e' = e_end e /\
  e_explicit e' = e_explicit e /\ e_directive e' = e_directive e /\
  Forall2 same_tok (e_tokens e) (e_tokens e').

Lemma drop_cons_lookup (ls : list string) i x rest :
  drop i ls = x :: rest -> ls !! i = Some x /\ rest = drop (S i) ls.
Proof.
  intros H. split.
  - by rewrite <- (Nat.add_0_r i), <- lookup_drop, H.
  - by rewrite <- Nat.add_1_r, <- drop_drop, H.
Qed.

Lemma drop_bumped_length i : length (drop i bumped_lines) = length (drop i lines).
Proof. unfold bumped_lines. by rewrite !length_drop, length_insert. Qed.

Lemma gather_bumped k depth j all1 all2 :
  length (drop (S j) lines) = k -> Forall2 same_tok all1 all2 ->
  let g := gather depth j all1 (drop (S j) lines) in
  let g' := gather depth j all2 (drop (S j) bumped_lines) in
  Forall2 same_tok g.1.1 g'.1.1 /\ g'.1.2 = g.1.2 /\
  g.2 = drop (S g.1.2) lines /\ g'.2 = drop (S g.1.2) bumped_lines.
Proof.
  revert depth j all1 all2. induction k as [|k IH]; intros depth j all1 all2 Hk Hall.
  - pose proof (drop_bumped_length (S j)) as Hb. rewrite Hk in Hb.
    apply nil_length_inv in Hk, Hb. rewrite Hk, Hb. cbn. by rewrite Hk, Hb.
  - destruct (drop (S j) lines) as [|x rest] eqn:E; [done|].
    pose proof (drop_bumped_length (S j)) as Hb. rewrite E in Hb.
    destruct (drop (S j) bumped_lines) as [|x' rest'] eqn:E'; [done|].
    destruct (drop_cons_lookup _ _ _ _ E) as [Hx ->].
    destruct (drop_cons_lookup _ _ _ _ E') as [Hx' ->].
    destruct (bumped_line _ _ _ Hx Hx') as (Htoks & Hd & _).
    cbn. destruct (0 <? depth).
    + rewrite !scanLine_scan, Hd. apply IH; [cbn in Hk; lia|]. by apply Forall2_app.
    + cbn. by rewrite E, E'.
Qed.

Lemma entries_bumped f i :
  Forall2 same_entry (entries_from f i (drop i lines)) (entries_from f i (drop i bumped_lines)).
Proof.
  revert i. induction f as [|f IH]; intros i; [by constructor|].
  pose proof (drop_bumped_length i) as Hlen.
  destruct (drop i lines) as [|x rest] eqn:E, (drop i bumped_lines) as [|x' rest'] eqn:E';
    try done.
  destruct (drop_cons_lookup _ _ _ _ E) as [Hx ->].
  destruct (drop_cons_lookup _ _ _ _ E') as [Hx' ->].
  destruct (bumped_line _ _ _ Hx Hx') as (Htoks & Hd & Hws).
  cbn [entries_from]. rewrite !scanLine_scan, Hd, Hws.
  pose proof (gather_bumped _ (scan 0 x).2 i _ _ eq_refl Htoks) as Hg. cbn zeta in Hg.
  destruct Htoks as [|t t' ts ts' Ht Hts].
  { constructor; [|apply IH]. repeat split; try done; by constructor. }
  assert (directiveName (t_text t') = directiveName (t_text t)) as ->.
  { destruct (same_tok_text _ _ Ht) as [[? ?]| ->]; [|done].
    by rewrite !digits_not_directive. }
  destruct (directiveName (t_text t)).
  { constructor; [|apply IH]. repeat split; try done; by constructor. }
  destruct (gather _ i (t :: ts) (drop (S i) lines)) as [[all j] r],
           (gather _ i (t' :: ts') (drop (S i) bumped_lines)) as [[all' j'] r'].
  cbn [fst snd] in Hg. destruct Hg as (Hall & -> & -> & ->).
  constructor; [|apply IH]. by repeat split.
Qed.

Lemma tokenize_bumped :
  Forall2 same_entry (tokenizeEntries lines) (tokenizeEntries bumped_lines).
Proof.
  unfold tokenizeEntries, bumped_lines. rewrite length_insert. apply (entries_bumped (length lines) 0).
Qed.

Lemma locateSerial_bumped toks toks' st :
  Forall2 same_tok toks toks' -> locateSerial toks = Some st ->
  exists st', locateSerial toks' = Some st' /\ same_tok st st'.
Proof.
  induction 1 as [|t t' ts ts' Ht Hts IH]; [done|]. cbn.
  assert (equal_fold (t_text t') "SOA" = equal_fold (t_text t) "SOA") as ->.
  { destruct (same_tok_text _ _ Ht) as [[? ?]| ->]; [|done]. by rewrite !digits_not_soa. }
  destruct (equal_fold (t_text t) "SOA"); [|done].
  intros H. destruct (Forall2_lookup_l _ _ _ _ _ Hts H) as (st' & ? & ?). eauto.
Qed.

End bump.

(** A record in the generic form of RFC 3597 never names its type, so the scan
    runs into the data, and a length there passes for a ttl. *)
Lemma generic_rdata_read_as_ttl :
  (fun e => hasExplicitTTL (e_tokens e) (e_explicit e) "A") <$> tokenizeEntries ["x IN TYPE1 \# 4 C0000201"] = [true].
Proof. by vm_compute. Qed.
