(* ===== verification/ZoneFile.v ===== *)
(** * internal/zonefile: the in-place zone-file editor

    [Parse], [SerialFloor], [Edit] and their helpers of zonefile.go. A parsed
    [File] keeps the physical lines and, for each record, the lines it spans;
    a record is identified by its index in the file, which stands for the
    pointer the code compares. *)

From S2P Require Import Prelude GoStrings DnsLib Ddns ZoneTok.

(** ** Errors *)

(** The reasons a file is outside the safe subset ([File.noSurgery]). *)
Inductive refusal :=
| UsesDirective (name : string)
| RescopesOrigin
| CountDisagrees (tokenizer parser : nat)
| NoLocatableSerial
| SerialMismatch.

Inductive zf_error :=
| ParseFailed (msg : string)
| UnsafeFile (why : refusal)
| UnsafeSerial
| UnsafeSOA
| UnsafeSpan (line : nat)
| UnsafeOwner (line : nat)
| UnsafeTTL (line : nat)
| OpWithoutRecord
| UnknownOpAction.

(** [*UnsafeError]: the caller falls back to raw mode. *)
Definition is_unsafe (e : zf_error) : bool :=
  match e with
  | UnsafeFile _ | UnsafeSerial | UnsafeSOA | UnsafeSpan _ | UnsafeOwner _ | UnsafeTTL _ => true
  | _ => false
  end.

Section zonefile.
Context `{D : Dns}.

(** ** Data *)

Record rec := mkRec {
  r_rr : RR; r_start : nat; r_end : nat; r_explicit : bool; r_explicitTTL : bool }.

Record File := mkFile {
  f_lines : list string;
  f_origin : string;
  f_records : list rec;
  f_soa : option nat;
  f_serialTok : option tokPos;
  f_hasTTLDirec : bool;
  f_noSurgery : option refusal }.

(** ** Parsing *)

(** The scan over the entries for constructs the line mapper cannot reason
    about: record seen, refusal, $TTL seen. *)
Fixpoint directive_scan (seenRecord : bool) (why : option refusal) (ttl : bool)
    (es : list entry) : option refusal * bool :=
  match es with
  | [] => (why, ttl)
  | e :: es' =>
      match e_kind e with
      | kindDirective =>
          let d := e_directive e in
          if String.eqb d "$INCLUDE" || String.eqb d "$GENERATE" then
            directive_scan seenRecord (Some (UsesDirective d)) ttl es'
          else if String.eqb d "$TTL" then directive_scan seenRecord why true es'
          else if String.eqb d "$ORIGIN" && seenRecord then
            directive_scan seenRecord (Some RescopesOrigin) ttl es'
          else directive_scan seenRecord why ttl es'
      | kindRecord => directive_scan true why ttl es'
      | kindBlank => directive_scan seenRecord why ttl es'
      end
  end.

Definition parseAll (data origin : string) : result string (list RR) :=
  match zone_parse data origin with
  | (rrs, None) => Ok rrs
  | (_, Some e) => Err e
  end.

Definition is_record (e : entry) : bool :=
  match e_kind e with kindRecord => true | _ => false end.

Definition mk_record (e : entry) (rr : RR) : rec :=
  mkRec rr (e_start e) (e_end e) (e_explicit e)
    (hasExplicitTTL (e_tokens e) (e_explicit e) (TypeToString (rr_type rr))).

(** The zip of record entries with resolved records, keeping the last SOA. *)
Fixpoint zip_records (i : nat) (soa : option nat) (tok : option tokPos)
    (es : list entry) (rrs : list RR) : list rec * option nat * option tokPos :=
  match es, rrs with
  | e :: es', rr :: rrs' =>
      let '(soa', tok') :=
        if Z.eqb (rr_type rr) TypeSOA then (Some i, locateSerial (e_tokens e)) else (soa, tok) in
      let '(rs, s, t) := zip_records (S i) soa' tok' es' rrs' in
      (mk_record e rr :: rs, s, t)
  | _, _ => ([], soa, tok)
  end.

Definition SOASerial (f : File) : Z :=
  match f_soa f with
  | Some k =>
      match f_records f !! k with
      | Some r => match as_soa (r_rr r) with Some s => soa_serial s | None => 0 end
      | None => 0
      end
  | None => 0
  end.

Definition with_refusal (f : File) (why : refusal) : File :=
  mkFile (f_lines f) (f_origin f) (f_records f) (f_soa f) (f_serialTok f)
    (f_hasTTLDirec f) (Some why).

Definition Parse (data origin : string) : result zf_error File :=
  let lines := split newline data in
  let o := Fqdn origin in
  let entries := tokenizeEntries lines in
  let '(why, ttl) := directive_scan false None false entries in
  let f0 := mkFile lines o [] None None ttl why in
  match why with
  | Some _ => Ok f0
  | None =>
      match parseAll data o with
      | Err e => Err (ParseFailed e)
      | Ok rrs =>
          let recs := List.filter is_record entries in
          if negb (length recs =? length rrs)%nat then
            Ok (with_refusal f0 (CountDisagrees (length recs) (length rrs)))
          else
            let '(rs, soa, tok) := zip_records 0 None None recs rrs in
            let f := mkFile lines o rs soa tok ttl None in
            match soa, tok with
            | Some _, Some st =>
                match parse_uint 32 (t_text st) with
                | Some v => if Z.eqb (u32 v) (SOASerial f) then Ok f
                            else Ok (with_refusal f SerialMismatch)
                | None => Ok (with_refusal f SerialMismatch)
                end
            | _, _ => Ok (with_refusal f NoLocatableSerial)
            end
      end
  end.

Definition Surgical (f : File) : bool :=
  match f_noSurgery f with None => true | Some _ => false end.

(** ** The serial *)

(** [time.Now().Date()]. *)
Record date := mkDate { d_year : Z; d_month : Z; d_day : Z }.

Definition serial_base (d : date) : Z :=
  u32 (u32 (u32 (d_year d) * 1000000) + u32 (u32 (d_month d) * 10000) + u32 (u32 (d_day d) * 100)).

Definition nextSerial (today : date) (cur : Z) : Z :=
  let base := serial_base today in
  let next := u32 (cur + 1) in
  if next <? base then base else next.

(** [line[:st.start] + text + line[st.end:]]. *)
Definition splice_tok (st : tokPos) (text line : string) : string :=
  str_take (t_start st) line +:+ text +:+ str_drop (t_end st) line.

Definition bump_lines (st : tokPos) (next : Z) (lines : list string) : list string :=
  alter (splice_tok st (format_uint next)) (t_line st) lines.

Definition SerialFloor (today : date) (f : File) (floor : Z) : result zf_error string :=
  match f_noSurgery f, f_serialTok f with
  | None, Some st =>
      let base := if SOASerial f <? floor then floor else SOASerial f in
      Ok (join nl (bump_lines st (nextSerial today base) (f_lines f)))
  | _, _ => Err UnsafeSerial
  end.

(** ** Editing *)

Definition rrKey (rr : RR) : string :=
  to_lower (trim_suffix "." (rr_name rr)) +:+ " " +:+ TypeToString (rr_type rr) +:+ " " +:+ rdata_text rr.

(** The indices of the records satisfying a test, in file order. *)
Fixpoint indices_from (p : rec -> bool) (i : nat) (rs : list rec) : list nat :=
  match rs with
  | [] => []
  | r :: rs' => if p r then i :: indices_from p (S i) rs' else indices_from p (S i) rs'
  end.

Definition findExact (f : File) (rr : RR) : option nat :=
  head (indices_from (fun r => String.eqb (rrKey (r_rr r)) (rrKey rr)) 0 (f_records f)).

Definition findRRset (f : File) (rr : RR) : list nat :=
  indices_from (fun r => equal_fold (rr_name (r_rr r)) (rr_name rr) &&
                         Z.eqb (rr_type (r_rr r)) (rr_type rr)) 0 (f_records f).

Definition findName (f : File) (rr : RR) : list nat :=
  indices_from (fun r => equal_fold (rr_name (r_rr r)) (rr_name rr)) 0 (f_records f).

Definition nextRecord (f : File) (i : nat) : option rec := f_records f !! S i.

Definition canDelete (f : File) (i : nat) (r : rec) : result zf_error unit :=
  if bool_decide (f_soa f = Some i) then Err UnsafeSOA
  else if negb (r_explicit r) || negb (r_start r =? r_end r)%nat then Err (UnsafeSpan (r_start r))
  else match nextRecord f i with
       | None => Ok tt
       | Some nxt =>
           if negb (r_explicit nxt) then Err (UnsafeOwner (r_start r))
           else if negb (f_hasTTLDirec f) && negb (r_explicitTTL nxt) then Err (UnsafeTTL (r_start r))
           else Ok tt
       end.

(** [canDelete] on each record in turn, marking its line. *)
Fixpoint mark_deleted (f : File) (ids : list nat) (del : gset nat) : result zf_error (gset nat) :=
  match ids with
  | [] => Ok del
  | i :: ids' =>
      match f_records f !! i with
      | None => mark_deleted f ids' del
      | Some r => _ ← canDelete f i r; mark_deleted f ids' ({[r_start r]} ∪ del)
      end
  end.

(** The records an operation targets. *)
Definition targets (f : File) (a : Action) (rr : RR) : list nat :=
  match a with
  | DelRR => option_list (findExact f rr)
  | DelRRset => findRRset f rr
  | DelName => findName f rr
  | _ => []
  end.

(** The loop over the operations: lines to drop, records to append. *)
Fixpoint edit_ops (f : File) (ops : list Op) (del : gset nat) (adds : list string)
  : result zf_error (gset nat * list string) :=
  match ops with
  | [] => Ok (del, adds)
  | op :: ops' =>
      match op_rr op with
      | None => Err OpWithoutRecord
      | Some rr =>
          match op_action op with
          | AddRR => edit_ops f ops' del (adds ++ [rr_string rr])
          | OtherAction _ => Err UnknownOpAction
          | a => del' ← mark_deleted f (targets f a rr) del; edit_ops f ops' del' adds
          end
      end
  end.

(** The lines whose index is not marked. *)
Fixpoint keep_lines (del : gset nat) (i : nat) (lines : list string) : list string :=
  match lines with
  | [] => []
  | l :: ls => if decide (i ∈ del) then keep_lines del (S i) ls else l :: keep_lines del (S i) ls
  end.

Definition appendRecords (res adds : list string) : list string :=
  match adds with
  | [] => res
  | _ =>
      match last res with
      | Some "" => removelast res ++ adds ++ [""]
      | _ => res ++ adds
      end
  end.

Definition Edit (today : date) (f : File) (ops : list Op) : result zf_error string :=
  match f_noSurgery f with
  | Some why => Err (UnsafeFile why)
  | None =>
      '(del, adds) ← edit_ops f ops ∅ [];
      let out := match f_serialTok f with
                 | Some st => bump_lines st (nextSerial today (SOASerial f)) (f_lines f)
                 | None => f_lines f
                 end in
      mret (join nl (appendRecords (keep_lines del 0 out) adds))
  end.

End zonefile.

(** A [$TTL] counts wherever it stands, also below the records it says nothing
    of. *)
Lemma late_ttl_counts :
  directive_scan false None false (tokenizeEntries ["a 60 IN A 192.0.2.1"; "b IN A 192.0.2.2"; "$TTL 300"]) = (None, true).
Proof. by vm_compute. Qed.

(** ** The serial arithmetic *)

Lemma nextSerial_range today cur : is_u32 (nextSerial today cur).
Proof. unfold nextSerial, serial_base. destruct (_ <? _); apply u32_range. Qed.

Lemma nextSerial_above today cur :
  0 <= cur < two32 - 1 -> cur < nextSerial today cur.
Proof.
  unfold nextSerial, two32. intros Hc.
  rewrite (u32_small (cur + 1)) by (unfold is_u32, two32; lia).
  destruct (Z.ltb_spec (cur + 1) (serial_base today)); lia.
Qed.

Lemma serial_base_value d :
  0 <= d_year d < 4294 -> 1 <= d_month d <= 12 -> 1 <= d_day d <= 31 ->
  serial_base d = d_year d * 1000000 + d_month d * 10000 + d_day d * 100.
Proof.
  intros. unfold serial_base.
  rewrite (u32_small (d_year d)), (u32_small (d_month d)), (u32_small (d_day d))
    by (unfold is_u32, two32; lia).
  rewrite !(u32_small (_ * _)) by (unfold is_u32, two32; lia).
  apply u32_small. unfold is_u32, two32. lia.
Qed.

Section facts.
Context `{D : Dns}.
Implicit Types (f : File) (r : rec).

(** ** What [Parse] establishes *)

Definition record_entries (f : File) : list entry :=
  List.filter is_record (tokenizeEntries (f_lines f)).

Lemma zip_records_spec i soa tok es rrs rs s t :
  length es = length rrs ->
  zip_records i soa tok es rrs = (rs, s, t) ->
  rs = zip_with mk_record es rrs /\
  ((s = soa /\ t = tok) \/
   exists j e rr, es !! j = Some e /\ rrs !! j = Some rr /\ rr_type rr = TypeSOA /\
     s = Some (i + j)%nat /\ t = locateSerial (e_tokens e)).
Proof.
  revert i soa tok rrs rs s t. induction es as [|e es IH]; intros i soa tok [|rr rrs] rs s t Hl;
    try done; cbn; [intros [= <- <- <-]; auto|].
  destruct (Z.eqb_spec (rr_type rr) TypeSOA) as [Hty|Hty];
    (destruct (zip_records _ _ _ es rrs) as [[rs' s'] t'] eqn:E; intros [= <- <- <-];
     apply IH in E as [-> E]; [|cbn in Hl; lia]; split; [done|];
     destruct E as [[-> ->]|(j & e' & rr' & He & Hr & Ht & -> & ->)];
     [|right; exists (S j), e', rr'; repeat split; try done; f_equal; lia]).
  - right. exists 0%nat, e, rr. repeat split; try done. f_equal. lia.
  - by left.
Qed.

(** The invariant of a file accepted for surgical editing. *)
Record wf_file (f : File) : Prop := {
  wf_records : Forall2 (fun e r => r_start r = e_start e /\ r_end r = e_end e /\
                                   r_explicit r = e_explicit e)
                 (record_entries f) (f_records f);
  wf_serial : exists k e r st,
    f_soa f = Some k /\ record_entries f !! k = Some e /\ f_records f !! k = Some r /\
    rr_type (r_rr r) = TypeSOA /\ f_serialTok f = Some st /\
    locateSerial (e_tokens e) = Some st /\ parse_uint 32 (t_text st) = Some (SOASerial f);
  wf_lines : Forall (fun l => free_of newline l = true) (f_lines f)
}.

Lemma zip_records_entries es (rrs : list RR) :
  length es = length rrs ->
  Forall2 (fun e r => r_start r = e_start e /\ r_end r = e_end e /\ r_explicit r = e_explicit e)
    es (zip_with mk_record es rrs).
Proof.
  revert rrs. induction es as [|e es IH]; intros [|rr rrs] Hl; try discriminate Hl.
  - constructor.
  - constructor; [done|]. apply IH. by injection Hl.
Qed.

Lemma Parse_wf data origin f :
  Parse data origin = Ok f -> Surgical f = true ->
  wf_file f /\ f_lines f = split newline data.
Proof.
  unfold Parse, Surgical.
  destruct (directive_scan false None false _) as [[why|] ttl]; [by intros [= <-]|].
  destruct (parseAll data (Fqdn origin)) as [rrs|e]; [|done].
  destruct (Nat.eqb_spec (length (List.filter is_record (tokenizeEntries (split newline data))))
              (length rrs)) as [Hlen|]; cbn [negb]; [|by intros [= <-]].
  destruct (zip_records 0 None None _ rrs) as [[rs soa] tok] eqn:Hz.
  destruct (zip_records_spec _ _ _ _ _ _ _ _ Hlen Hz) as [-> Hsoa].
  destruct soa as [k|]; [|by intros [= <-]]. destruct tok as [st|]; [|by intros [= <-]].
  destruct (parse_uint 32 (t_text st)) as [v|] eqn:Hv; [|by intros [= <-]].
  destruct (parse_uint_range _ _ _ Hv) as [Hvr _].
  rewrite u32_small by (unfold is_u32, two32; change (2 ^ 32) with 4294967296 in Hvr; lia).
  destruct (Z.eqb_spec v (SOASerial (mkFile (split newline data) (Fqdn origin)
    (zip_with mk_record (List.filter is_record (tokenizeEntries (split newline data))) rrs)
    (Some k) (Some st) ttl None))) as [Heq|]; [|by intros [= <-]].
  intros [= <-] _. split; [|done]. constructor; cbn [f_lines f_records f_soa f_serialTok].
  - by apply zip_records_entries.
  - destruct Hsoa as [[? ?]|(j & e & rr & He & Hr & Hty & [= ->] & Htok)]; [done|].
    eexists j, e, _, st. split; [done|]. split; [done|].
    rewrite lookup_zip_with, He, Hr. split; [done|]. split; [done|]. split; [done|].
    split; [done|]. by rewrite <- Heq.
  - cbn. apply split_free.
Qed.

(** ** Spans *)

Lemma filter_entries_sorted (p : entry -> bool) i es n :
  covers i es n -> forall a b x y,
  List.filter p es !! a = Some x -> List.filter p es !! b = Some y -> (a < b)%nat ->
  (e_end x < e_start y)%nat.
Proof.
  revert i. induction es as [|e es IH]; intros i; [done|]. cbn. intros (<- & Hle & Hc) a b x y.
  destruct (p e); [|by apply IH with (1 := Hc)].
  intros Ha Hb Hab. destruct b as [|b]; [lia|]. cbn in Hb. destruct a as [|a].
  - injection Ha as ->. apply list_elem_of_lookup_2 in Hb. apply elem_of_bfilter in Hb as [Hb _].
    destruct (covers_ge _ _ _ _ Hc Hb). lia.
  - cbn in Ha. by apply (IH _ Hc a b x y); [..|lia].
Qed.

Lemma record_span f i e :
  record_entries f !! i = Some e ->
  e ∈ tokenizeEntries (f_lines f) /\ (e_start e <= e_end e)%nat /\ (e_end e < length (f_lines f))%nat.
Proof.
  intros Hi. apply list_elem_of_lookup_2, elem_of_bfilter in Hi as [Hi _].
  split; [done|]. destruct (covers_ge _ _ _ _ (tokenizeEntries_covers _) Hi). lia.
Qed.

Lemma records_disjoint f i j ri rj n :
  wf_file f -> f_records f !! i = Some ri -> f_records f !! j = Some rj -> i <> j ->
  (r_start ri <= n <= r_end ri)%nat -> ~ (r_start rj <= n <= r_end rj)%nat.
Proof.
  intros Hwf Hi Hj Hne.
  destruct (Forall2_lookup_r _ _ _ _ _ (wf_records f Hwf) Hi) as (ei & Hei & -> & -> & _).
  destruct (Forall2_lookup_r _ _ _ _ _ (wf_records f Hwf) Hj) as (ej & Hej & -> & -> & _).
  pose proof (filter_entries_sorted is_record _ _ _ (tokenizeEntries_covers (f_lines f))) as Hs.
  destruct (decide (i < j)%nat).
  - pose proof (Hs _ _ _ _ Hei Hej). lia.
  - pose proof (Hs _ _ _ _ Hej Hei). lia.
Qed.

(** The serial token lies on a line of the SOA record, at its columns. *)
Lemma serial_tok_at f k e r st :
  wf_file f -> f_soa f = Some k -> record_entries f !! k = Some e ->
  f_records f !! k = Some r -> locateSerial (e_tokens e) = Some st ->
  (r_start r <= t_line st <= r_end r)%nat /\ tok_at (f_lines f) st.
Proof.
  intros Hwf Hk He Hr Hst.
  destruct (Forall2_lookup_lr _ _ _ _ _ _ (wf_records f Hwf) He Hr) as (-> & -> & _).
  destruct (record_span f k e He) as (Hin & _ & _).
  assert (st ∈ e_tokens e) as Hstin.
  { revert Hst. clear. induction (e_tokens e) as [|t ts IH]; cbn; [done|].
    destruct (equal_fold _ _); intros H; right; [by eapply list_elem_of_lookup_2|auto]. }
  by apply (tokenizeEntries_tokens _ _ _ Hin Hstin).
Qed.

(** ** What an edit deletes *)

(** Line [n] holds a record that some operation targets. *)
Definition line_targeted (f : File) (ops : list Op) (n : nat) : Prop :=
  exists op rr i r, op ∈ ops /\ op_rr op = Some rr /\ i ∈ targets f (op_action op) rr /\
    f_records f !! i = Some r /\ r_start r = n.

Definition all_deletable (f : File) (ops : list Op) : Prop :=
  forall op rr i r, op ∈ ops -> op_rr op = Some rr -> i ∈ targets f (op_action op) rr ->
    f_records f !! i = Some r -> canDelete f i r = Ok tt.

(** The records an edit appends. *)
Definition added (ops : list Op) : list string :=
  omap (fun op => match op_action op, op_rr op with
                  | AddRR, Some rr => Some (rr_string rr)
                  | _, _ => None
                  end) ops.

Lemma canDelete_ok f i r :
  canDelete f i r = Ok tt <->
  f_soa f <> Some i /\ r_explicit r = true /\ r_start r = r_end r /\
  forall nxt, f_records f !! S i = Some nxt ->
    r_explicit nxt = true /\ (f_hasTTLDirec f = true \/ r_explicitTTL nxt = true).
Proof.
  unfold canDelete, nextRecord. case_bool_decide as Hs; [naive_solver|].
  destruct (r_explicit r); cbn [negb orb]; [|naive_solver].
  destruct (Nat.eqb_spec (r_start r) (r_end r)); cbn [negb]; [|naive_solver].
  destruct (f_records f !! S i) as [nxt|]; [|naive_solver].
  destruct (r_explicit nxt) eqn:E1, (f_hasTTLDirec f) eqn:E2, (r_explicitTTL nxt) eqn:E3;
    cbn; naive_solver congruence.
Qed.

Lemma mark_deleted_spec f ids del del' :
  mark_deleted f ids del = Ok del' ->
  (forall n, n ∈ del' <-> n ∈ del \/ exists i r, i ∈ ids /\ f_records f !! i = Some r /\ r_start r = n) /\
  (forall i r, i ∈ ids -> f_records f !! i = Some r -> canDelete f i r = Ok tt).
Proof.
  revert del. induction ids as [|i ids IH]; intros del; cbn.
  { intros [= <-]. split; [|by intros i r ?%elem_of_nil].
    intros n. split; [auto|]. by intros [?|(i & r & ?%elem_of_nil & _)]. }
  destruct (f_records f !! i) as [r|] eqn:Hi.
  - intros H. apply bind_ok in H as ([] & Hc & H). apply IH in H as [H1 H2]. split.
    + intros n. rewrite H1, elem_of_union, elem_of_singleton. setoid_rewrite elem_of_cons.
      naive_solver.
    + intros j r' [->|Hj]%elem_of_cons Hr; [congruence|eauto].
  - intros H. apply IH in H as [H1 H2]. split.
    + intros n. rewrite H1. setoid_rewrite elem_of_cons. naive_solver.
    + intros j r' [->|Hj]%elem_of_cons Hr; [congruence|eauto].
Qed.

Lemma edit_ops_spec f ops del adds del' adds' :
  edit_ops f ops del adds = Ok (del', adds') ->
  (forall n, n ∈ del' <-> n ∈ del \/ line_targeted f ops n) /\
  adds' = adds ++ added ops /\ all_deletable f ops.
Proof.
  revert del adds. induction ops as [|op ops IH]; intros del adds; cbn [edit_ops].
  { intros [= <- <-]. cbn. rewrite app_nil_r. repeat split.
    - auto.
    - intros [?|(op & rr & i & r & ?%elem_of_nil & _)]; done.
    - by intros op rr i r ?%elem_of_nil. }
  destruct (op_rr op) as [rr|] eqn:Hrr; [|done].
  assert (Hstep : forall del1 add1,
    edit_ops f ops del1 (adds ++ add1) = Ok (del', adds') ->
    added (op :: ops) = add1 ++ added ops ->
    (forall n, n ∈ del1 <-> n ∈ del \/ exists i r, i ∈ targets f (op_action op) rr /\
       f_records f !! i = Some r /\ r_start r = n) ->
    (forall i r, i ∈ targets f (op_action op) rr -> f_records f !! i = Some r ->
       canDelete f i r = Ok tt) ->
    (forall n, n ∈ del' <-> n ∈ del \/ line_targeted f (op :: ops) n) /\
    adds' = adds ++ added (op :: ops) /\ all_deletable f (op :: ops)).
  { intros del1 add1 H -> Hd Hc. apply IH in H as (H1 & -> & H3). rewrite app_assoc.
    split; [|split; [done|]].
    - intros n. rewrite H1, Hd. unfold line_targeted. setoid_rewrite elem_of_cons. naive_solver.
    - intros op' rr' i r [->|Hop]%elem_of_cons Hrr'; [|by apply (H3 op')].
      rewrite Hrr in Hrr'. injection Hrr' as <-. auto. }
  destruct (op_action op) eqn:Ha; try done.
  - intros H. apply (Hstep del _ H); [cbn; by rewrite Ha, Hrr|..]; cbn.
    + intros n. split; [auto|]. by intros [?|(i & r & ?%elem_of_nil & _)].
    + by intros i r ?%elem_of_nil.
  - intros H. apply bind_ok in H as (del1 & Hm & H). apply mark_deleted_spec in Hm as [Hm1 Hm2].
    rewrite <- (app_nil_r adds) in H. apply (Hstep del1 [] H); [cbn; by rewrite Ha|done..].
  - intros H. apply bind_ok in H as (del1 & Hm & H). apply mark_deleted_spec in Hm as [Hm1 Hm2].
    rewrite <- (app_nil_r adds) in H. apply (Hstep del1 [] H); [cbn; by rewrite Ha|done..].
  - intros H. apply bind_ok in H as (del1 & Hm & H). apply mark_deleted_spec in Hm as [Hm1 Hm2].
    rewrite <- (app_nil_r adds) in H. apply (Hstep del1 [] H); [cbn; by rewrite Ha|done..].
Qed.

(** A targeted line belongs to exactly one record. *)
Lemma line_targeted_record f ops i r :
  wf_file f -> all_deletable f ops -> f_records f !! i = Some r ->
  line_targeted f ops (r_start r) -> canDelete f i r = Ok tt.
Proof.
  intros Hwf Hall Hi (op & rr & j & r' & Hop & Hrr & Hj & Hr' & Hst).
  destruct (decide (i = j)) as [->|Hne]; [by apply (Hall op rr)|].
  destruct (Forall2_lookup_r _ _ _ _ _ (wf_records f Hwf) Hi) as (e & He & H1 & H2 & _).
  destruct (Forall2_lookup_r _ _ _ _ _ (wf_records f Hwf) Hr') as (e' & He' & H3 & H4 & _).
  destruct (record_span f i e He) as (_ & ? & _), (record_span f j e' He') as (_ & ? & _).
  exfalso. apply (records_disjoint f i j r r' (r_start r) Hwf Hi Hr' Hne); lia.
Qed.

Lemma serial_line_survives f ops st :
  wf_file f -> all_deletable f ops -> f_serialTok f = Some st -> ~ line_targeted f ops (t_line st).
Proof.
  intros Hwf Hall Hst (op & rr & j & r' & Hop & Hrr & Hj & Hr' & Hline).
  destruct (wf_serial f Hwf) as (k & e & r & st' & Hk & He & Hr & _ & Hst' & Hloc & _).
  rewrite Hst in Hst'. injection Hst' as <-.
  destruct (serial_tok_at f k e r st Hwf Hk He Hr Hloc) as [Hspan _].
  pose proof (Hall _ _ _ _ Hop Hrr Hj Hr') as Hc. apply canDelete_ok in Hc as (Hns & _ & Heq & _).
  apply (records_disjoint f k j r r' (t_line st) Hwf Hr Hr'); [congruence|done|lia].
Qed.

(** ** The serial bump *)

Lemma bump_lines_bumped f k e r st next :
  wf_file f -> f_soa f = Some k -> record_entries f !! k = Some e ->
  f_records f !! k = Some r -> locateSerial (e_tokens e) = Some st ->
  exists l u, f_lines f !! t_line st = Some l /\ u ∈ (scan 0 l).1 /\
    t_start st = t_start u /\ t_text st = t_text u /\
    bump_lines st next (f_lines f) = bumped_lines (f_lines f) (t_line st) l u (format_uint next).
Proof.
  intros Hwf Hk He Hr Hst.
  destruct (serial_tok_at f k e r st Hwf Hk He Hr Hst) as (_ & l & Hl & u & Hu & Heq).
  exists l, u. repeat split; try done; [by rewrite Heq..|].
  unfold bump_lines, bumped_lines, splice_tok, bumped.
  assert (t_start st = t_start u /\ t_end st = t_end u) as [-> ->] by (split; by rewrite Heq).
  apply list_eq. intros i.
  destruct (decide (i = t_line st)) as [->|Hne].
  - rewrite list_lookup_insert_eq by (by eapply lookup_lt_Some).
    rewrite list_lookup_alter_eq, Hl. done.
  - by rewrite list_lookup_insert_ne, list_lookup_alter_ne.
Qed.

Lemma filter_same_entry L tk w es es' :
  Forall2 (same_entry L tk w) es es' ->
  Forall2 (same_entry L tk w) (List.filter is_record es) (List.filter is_record es').
Proof.
  induction 1 as [|e e' es es' He Hes IH]; cbn; [constructor|].
  assert (is_record e' = is_record e) as ->.
  { destruct He as [Hk _]. unfold is_record. by rewrite Hk. }
  destruct (is_record e); [by constructor|done].
Qed.

Lemma same_tok_value L tk w st st' :
  same_tok L tk w st st' -> t_line st = L -> t_start st = t_start tk -> t_text st' = w.
Proof. intros [_ H] H1 H2. case_decide; [by destruct H|naive_solver]. Qed.

End facts.

(** ** Theorems *)

Section theorems.
Context `{D : Dns}.

Lemma keep_lines_elem del i lines n l :
  lines !! n = Some l -> (i + n)%nat ∉ del -> l ∈ keep_lines del i lines.
Proof.
  revert i n. induction lines as [|x lines IH]; intros i n; [done|]. destruct n as [|n]; cbn.
  - intros [= ->]. rewrite Nat.add_0_r. intros Hn. rewrite decide_False by done. left.
  - intros Hl Hn. assert (l ∈ keep_lines del (S i) lines).
    { apply (IH (S i) n Hl). by rewrite Nat.add_succ_comm. }
    case_decide; [done|by right].
Qed.

Lemma keep_lines_free c del i lines :
  Forall (fun l => free_of c l = true) lines -> Forall (fun l => free_of c l = true) (keep_lines del i lines).
Proof.
  intros H. revert i. induction H as [|l lines Hl H IH]; intros i; cbn; [done|].
  case_decide; [done|by constructor].
Qed.

Lemma digits_free w : str_forall is_digit w = true -> free_of newline w = true.
Proof.
  apply str_forall_impl. intros c. by destruct c as [[] [] [] [] [] [] [] []].
Qed.

Lemma free_take_drop c n s : free_of c s = true ->
  free_of c (str_take n s) = true /\ free_of c (str_drop n s) = true.
Proof.
  unfold free_of. rewrite <- (str_take_drop n s) at 1. rewrite str_forall_app. intros. by bsplit.
Qed.

Lemma bump_lines_free st next lines :
  Forall (fun l => free_of newline l = true) lines ->
  Forall (fun l => free_of newline l = true) (bump_lines st next lines).
Proof.
  intros H. unfold bump_lines. apply Forall_alter; [done|]. intros x Hx Hfree.
  destruct (free_take_drop newline (t_start st) x Hfree) as [H1 _].
  destruct (free_take_drop newline (t_end st) x Hfree) as [_ H2].
  destruct (format_uint_digits next) as [Hd _]. apply digits_free in Hd.
  unfold splice_tok, free_of in *. by rewrite !str_forall_app, H1, H2, Hd.
Qed.

Lemma appendRecords_spec (res adds : list string) :
  res <> [] -> appendRecords res adds <> [] /\
  (Forall (fun l => free_of newline l = true) res ->
   Forall (fun l => free_of newline l = true) adds ->
   Forall (fun l => free_of newline l = true) (appendRecords res adds)).
Proof.
  intros Hne. unfold appendRecords. destruct adds as [|a adds]; [done|].
  assert (Happ : forall l, l ++ (a :: adds) <> [] /\ l ++ (a :: adds) ++ [""] <> []) by (by intros []).
  destruct (last res) as [[|]|] eqn:El; (split; [by apply Happ|]); intros Hr Ha; try by apply Forall_app.
  rewrite !Forall_app. split; [|split; [done|by repeat constructor]].
  rewrite Forall_forall in Hr |- *. intros x Hx. apply Hr.
  rewrite list_elem_of_In in Hx |- *. clear - Hx.
  revert Hx. induction res as [|y [|z res] IH]; cbn; [done|by intros []|]. cbn in IH. naive_solver.
Qed.

(** C1: [Edit] changes only what it was asked to change. The bytes it returns
    are the original lines, in order, with the lines of the targeted records
    removed, the serial token rewritten on its own line, which is never
    removed, and the added records appended: every other line is byte for
    byte the original one. *)
Theorem edit_preserves_untouched_lines today data origin (f : File) ops out st :
  Parse data origin = Ok f -> f_serialTok f = Some st -> Edit today f ops = Ok out ->
  Forall (fun l => free_of newline l = true) (added ops) ->
  let next := nextSerial today (SOASerial f) in
  exists del : gset nat,
    (forall n, n ∈ del <-> line_targeted f ops n) /\ t_line st ∉ del /\
    split newline out =
      appendRecords (keep_lines del 0 (bump_lines st next (split newline data))) (added ops) /\
    (forall i, i <> t_line st -> bump_lines st next (split newline data) !! i = split newline data !! i).
Proof.
  intros Hp Hst He Hadd next. unfold Edit in He.
  destruct (f_noSurgery f) eqn:Hs; [done|].
  destruct (Parse_wf _ _ _ Hp) as [Hwf Hlines]; [by unfold Surgical; rewrite Hs|].
  apply bind_ok in He as ([del adds] & Hops & He). rewrite Hst, Hlines in He.
  injection He as <-. apply edit_ops_spec in Hops as (Hdel & -> & Hall). cbn [app].
  assert (Hdel' : forall n, n ∈ del <-> line_targeted f ops n).
  { intros n. rewrite Hdel, elem_of_empty. naive_solver. }
  assert (Hsurv : t_line st ∉ del).
  { rewrite Hdel'. by apply serial_line_survives. }
  exists del. split; [done|]. split; [done|]. split; [|intros i Hi; by apply list_lookup_alter_ne].
  destruct (wf_serial f Hwf) as (k & e & r & st' & Hk & He & Hr & _ & Hst' & Hloc & _).
  rewrite Hst in Hst'. injection Hst' as <-.
  destruct (serial_tok_at f k e r st Hwf Hk He Hr Hloc) as (_ & l & Hl & _).
  rewrite Hlines in Hl.
  assert (Hne : keep_lines del 0 (bump_lines st next (split newline data)) <> []).
  { intros H0. assert (Hin : splice_tok st (format_uint next) l ∈ keep_lines del 0 (bump_lines st next (split newline data))).
    { apply (keep_lines_elem _ _ _ (t_line st)); [|done].
      unfold bump_lines. by rewrite list_lookup_alter_eq, Hl. }
    rewrite H0 in Hin. by apply elem_of_nil in Hin. }
  destruct (appendRecords_spec _ (added ops) Hne) as [Hne' Hfree].
  apply split_join; [done|]. apply Hfree; [|done].
  apply keep_lines_free, bump_lines_free, split_free.
Qed.

(** C21: a deletion never re-homes the record below it, as far as the
    tokenizer tells who inherits: when [Edit] succeeds, the record above one
    whose owner it read as omitted is never a deleted one, nor, where no
    $TTL directive stands anywhere in the file, the record above one whose
    TTL it read as omitted. What it misreads is outside of this: a record in
    the generic form of RFC 3597, whose type it takes for the owner's place,
    and a $TTL that stands below the record (the findings on these lines). *)
Theorem edit_respects_inheritance today data origin (f : File) ops out i r nxt :
  Parse data origin = Ok f -> Edit today f ops = Ok out ->
  f_records f !! i = Some r -> f_records f !! S i = Some nxt ->
  r_explicit nxt = false \/ (f_hasTTLDirec f = false /\ r_explicitTTL nxt = false) ->
  ~ line_targeted f ops (r_start r).
Proof.
  intros Hp He Hi Hn Hinh Ht. unfold Edit in He.
  destruct (f_noSurgery f) eqn:Hs; [done|].
  destruct (Parse_wf _ _ _ Hp) as [Hwf _]; [by unfold Surgical; rewrite Hs|].
  apply bind_ok in He as ([del adds] & Hops & _). apply edit_ops_spec in Hops as (_ & _ & Hall).
  pose proof (line_targeted_record f ops i r Hwf Hall Hi Ht) as Hc.
  apply canDelete_ok in Hc as (_ & _ & _ & Hc). destruct (Hc _ Hn) as [? [?|?]];
    destruct Hinh as [?|[? ?]]; congruence.
Qed.

(** The in-place bump lands on the serial and on nothing else. Scanning
    the rewritten lines gives the same entries as before, token for token,
    except that the token located as the SOA serial now reads as the new
    serial. *)
Theorem serial_bump_retokenizes data origin (f : File) st next :
  Parse data origin = Ok f -> Surgical f = true -> f_serialTok f = Some st -> is_u32 next ->
  let lines' := bump_lines st next (f_lines f) in
  exists k e' st' l u,
    f_soa f = Some k /\
    Forall2 (same_entry (t_line st) u (format_uint next)) (tokenizeEntries (f_lines f)) (tokenizeEntries lines') /\
    f_lines f !! t_line st = Some l /\ u ∈ (scan 0 l).1 /\ t_start u = t_start st /\
    List.filter is_record (tokenizeEntries lines') !! k = Some e' /\
    locateSerial (e_tokens e') = Some st' /\ parse_uint 32 (t_text st') = Some next.
Proof.
  intros Hp Hs Hst Hnext lines'. destruct (Parse_wf _ _ _ Hp Hs) as [Hwf _].
  destruct (wf_serial f Hwf) as (k & e & r & st0 & Hk & He & Hr & _ & Hst0 & Hloc & Hnum).
  rewrite Hst in Hst0. injection Hst0 as <-.
  destruct (bump_lines_bumped f k e r st next Hwf Hk He Hr Hloc) as (l & u & Hl & Hu & Hstart & Htext & Hb).
  assert (Hold : digits (t_text u)).
  { apply parse_uint_range in Hnum as (_ & Hne & Hd). rewrite Htext in Hne, Hd. done. }
  assert (Hnew : digits (format_uint next)).
  { destruct (format_uint_digits next). done. }
  pose proof (tokenize_bumped (f_lines f) (t_line st) l u _ Hl Hu Hold Hnew) as Hsame.
  fold lines' in Hb. rewrite <- Hb in Hsame.
  destruct (Forall2_lookup_l _ _ _ _ _ (filter_same_entry _ _ _ _ _ Hsame) He) as (e' & He' & Hee).
  destruct Hee as (_ & _ & _ & _ & _ & Htoks).
  destruct (locateSerial_bumped _ _ _ Hnew _ _ _ Htoks Hloc) as (st' & Hloc' & Htok).
  exists k, e', st', l, u. repeat split; try done.
  rewrite (same_tok_value _ _ _ _ _ Htok eq_refl Hstart).
  apply parse_format_uint. unfold is_u32, two32 in Hnext. change (2 ^ 32) with 4294967296. lia.
Qed.

Lemma SerialFloor_lines today data origin (f : File) floor out :
  Parse data origin = Ok f -> SerialFloor today f floor = Ok out ->
  exists st, f_serialTok f = Some st /\
    split newline out = bump_lines st (nextSerial today (Z.max (SOASerial f) floor)) (split newline data).
Proof.
  intros Hp Hf. unfold SerialFloor in Hf.
  destruct (f_noSurgery f) eqn:Hno; [done|]. destruct (f_serialTok f) as [st|]; [|done].
  destruct (Parse_wf _ _ _ Hp) as [Hwf Hlines]; [by unfold Surgical; rewrite Hno|].
  exists st. split; [done|]. injection Hf as <-. rewrite Hlines.
  replace (Z.max (SOASerial f) floor) with (if SOASerial f <? floor then floor else SOASerial f)
    by (destruct (Z.ltb_spec (SOASerial f) floor); lia).
  apply split_join; [|apply bump_lines_free, split_free].
  pose proof (split_nonempty newline data). intros Hnil.
  apply (f_equal length) in Hnil. unfold bump_lines in Hnil. rewrite length_alter in Hnil.
  by apply nil_length_inv in Hnil.
Qed.

(** [SerialFloor] writes a serial above both the file's serial and the
    floor, unless one of them is already the largest 32-bit value. *)
Theorem serial_floor_exceeds today data origin (f : File) floor out :
  Parse data origin = Ok f -> SerialFloor today f floor = Ok out ->
  0 <= SOASerial f < two32 - 1 -> 0 <= floor < two32 - 1 ->
  exists st next, f_serialTok f = Some st /\ SOASerial f < next /\ floor < next /\ is_u32 next /\
    split newline out = bump_lines st next (split newline data).
Proof.
  intros Hp Hf Hs Hfl. destruct (SerialFloor_lines _ _ _ _ _ _ Hp Hf) as (st & Hst & Hl).
  exists st, (nextSerial today (Z.max (SOASerial f) floor)).
  pose proof (nextSerial_above today (Z.max (SOASerial f) floor) ltac:(lia)).
  repeat split; try done; try lia; apply nextSerial_range.
Qed.

(** The bump is not monotonic at the top of the serial space: from the
    largest serial, [nextSerial] goes back to today's date-based value. *)
Theorem nextSerial_regresses_at_max today :
  serial_base today < two32 - 1 ->
  nextSerial today (two32 - 1) = serial_base today /\ nextSerial today (two32 - 1) < two32 - 1.
Proof.
  intros Hb. unfold nextSerial. change (u32 (two32 - 1 + 1)) with 0.
  assert (is_u32 (serial_base today)) as Hr by apply u32_range. unfold is_u32 in Hr.
  destruct (Z.ltb_spec 0 (serial_base today)); [lia|]. unfold two32 in *. lia.
Qed.

End theorems.

(** ** Witnesses: a small zone, edited *)

Module ZoneFileExample.

#[local] Existing Instance Sample.dns.


Definition zone : string :=
  join nl ["$TTL 300"; "@ 300 IN SOA ns.example. root.example. 2024010100 1 2 3 4";
           "@ 300 IN NS ns.example."; "www 300 IN A 192.0.2.1 ; web"; "mail 300 IN A 192.0.2.2"; ""].
Definition today : date := mkDate 2026 1 2.
Definition www : Sample.srr := Sample.mkRR "www.example." 0 TypeA "192.0.2.1".
Definition api : Sample.srr := Sample.mkRR "api.example." 60 TypeA "192.0.2.9".
Definition ops : list (Op (H := Sample.dns)) :=
  [mkOp DelRR (Some (www : RR)); mkOp AddRR (Some (api : RR))].
Definition no_file : File (D := Sample.dns) := mkFile [] "" [] None None false None.
Definition file : File (D := Sample.dns) := from_ok no_file (Parse zone "example.").
Definition tok : tokPos := match f_serialTok file with Some t => t | None => mkTok 0 0 0 "" end.
Definition edited : string := from_ok "" (Edit today file ops).

Example edited_value :
  edited = join nl ["$TTL 300"; "@ 300 IN SOA ns.example. root.example. 2026010200 1 2 3 4";
           "@ 300 IN NS ns.example."; "mail 300 IN A 192.0.2.2";
           Sample.print api; ""].
Proof. by vm_compute. Qed.

Lemma edit_preserves_untouched_lines_witness :
  let next := nextSerial today (SOASerial file) in
  exists del : gset nat,
    (forall n, n ∈ del <-> line_targeted file ops n) /\ t_line tok ∉ del /\
    split newline edited =
      appendRecords (keep_lines del 0 (bump_lines tok next (split newline zone))) (added ops) /\
    (forall i, i <> t_line tok -> bump_lines tok next (split newline zone) !! i = split newline zone !! i).
Proof.
  assert (H1 : Parse zone "example." = Ok file) by (apply from_ok_ok; vm_compute; reflexivity).
  assert (H2 : f_serialTok file = Some tok) by (vm_compute; reflexivity).
  assert (H3 : Edit today file ops = Ok edited) by (apply from_ok_ok; vm_compute; reflexivity).
  assert (H4 : Forall (fun l => free_of newline l = true) (added ops)) by repeat constructor.
  exact (edit_preserves_untouched_lines today zone "example." file ops edited tok H1 H2 H3 H4).
Defined.

(** Without a $TTL directive, and with records that inherit. *)
Definition implied : string :=
  join nl ["@ 300 IN SOA ns.example. root.example. 7 1 2 3 4"; "www 300 IN A 192.0.2.1";
           "    300 IN A 192.0.2.3"; "mail 300 IN A 192.0.2.4"; "ftp IN A 192.0.2.5"].
Definition file2 : File (D := Sample.dns) :=
  from_ok no_file (Parse implied "example.").
Definition dels (name : string) : list (Op (H := Sample.dns)) :=
  [mkOp DelName (Some (Sample.mkRR name 0 TypeA "" : RR))].

Example refused :
  (Edit today file2 (dels "www.example."), Edit today file2 (dels "mail.example."),
   is_ok (Edit today file2 (dels "ftp.example."))) =
  (Err (UnsafeOwner 1), Err (UnsafeTTL 3), true).
Proof. by vm_compute. Qed.

Definition some_rec : rec (D := Sample.dns) := mkRec (D := Sample.dns) www 0 0 true true.
Definition rec2 (i : nat) : rec (D := Sample.dns) := default some_rec (f_records file2 !! i).

Lemma edit_respects_inheritance_witness :
  ~ line_targeted file2 (dels "ftp.example.") (r_start (rec2 1)).
Proof.
  assert (H1 : Parse implied "example." = Ok file2) by (apply from_ok_ok; vm_compute; reflexivity).
  assert (H2 : Edit today file2 (dels "ftp.example.") =
               Ok (from_ok "" (Edit today file2 (dels "ftp.example."))))
    by (apply from_ok_ok; vm_compute; reflexivity).
  assert (H3 : f_records file2 !! 1%nat = Some (rec2 1)) by (apply default_some; vm_compute; reflexivity).
  assert (H4 : f_records file2 !! 2%nat = Some (rec2 2)) by (apply default_some; vm_compute; reflexivity).
  assert (H5 : r_explicit (rec2 2) = false) by (vm_compute; reflexivity).
  exact (edit_respects_inheritance today implied "example." file2 _ _ 1 (rec2 1) (rec2 2)
           H1 H2 H3 H4 (or_introl H5)).
Defined.

Lemma serial_bump_retokenizes_witness :
  let lines' := bump_lines tok 2026010200 (f_lines file) in
  exists k e' st' l u,
    f_soa file = Some k /\
    Forall2 (same_entry (t_line tok) u (format_uint 2026010200)) (tokenizeEntries (f_lines file))
      (tokenizeEntries lines') /\
    f_lines file !! t_line tok = Some l /\ u ∈ (scan 0 l).1 /\ t_start u = t_start tok /\
    List.filter is_record (tokenizeEntries lines') !! k = Some e' /\
    locateSerial (e_tokens e') = Some st' /\ parse_uint 32 (t_text st') = Some 2026010200.
Proof.
  assert (H1 : Parse zone "example." = Ok file) by (apply from_ok_ok; vm_compute; reflexivity).
  assert (H2 : Surgical file = true) by (vm_compute; reflexivity).
  assert (H3 : f_serialTok file = Some tok) by (vm_compute; reflexivity).
  assert (H4 : is_u32 2026010200) by (unfold is_u32, two32; lia).
  exact (serial_bump_retokenizes zone "example." file tok 2026010200 H1 H2 H3 H4).
Defined.

Definition floored : string := from_ok "" (SerialFloor today file 2026010205).

Lemma serial_floor_exceeds_witness :
  exists st next, f_serialTok file = Some st /\ SOASerial file < next /\ 2026010205 < next /\ is_u32 next /\
    split newline floored = bump_lines st next (split newline zone).
Proof.
  assert (H1 : Parse zone "example." = Ok file) by (apply from_ok_ok; vm_compute; reflexivity).
  assert (H2 : SerialFloor today file 2026010205 = Ok floored) by (apply from_ok_ok; vm_compute; reflexivity).
  assert (Hs : SOASerial file = 2024010100) by (vm_compute; reflexivity).
  assert (H3 : 0 <= SOASerial file < two32 - 1) by (rewrite Hs; unfold two32; lia).
  assert (H4 : 0 <= 2026010205 < two32 - 1) by (unfold two32; lia).
  exact (serial_floor_exceeds today zone "example." file 2026010205 floored H1 H2 H3 H4).
Defined.

Lemma nextSerial_regresses_at_max_witness :
  nextSerial today (two32 - 1) = serial_base today /\ nextSerial today (two32 - 1) < two32 - 1.
Proof.
  assert (H : serial_base today < two32 - 1) by (vm_compute; reflexivity).
  exact (nextSerial_regresses_at_max today H).
Defined.

End ZoneFileExample.
