(* ===== verification/Store.v ===== *)
(** * Store: bearer tokens, zone snapshots and proxy traffic

    [internal/store]. The database is the content of its three tables; a
    method is the SQL statements it runs, in its order. [fault k] is the error
    the engine reports for the k-th statement of a call, if any: a statement
    that fails, or violates a UNIQUE column, changes nothing. Times are Unix
    seconds; the clock, the random bytes of a token and SQLite's [date('now',
    ...)] are arguments. Counters are integers: SQLite's 64-bit sums do not
    wrap within any reachable traffic. *)

From Stdlib Require Import String Ascii.
From S2P Require Import Prelude GoStrings Encoding.

(** ** Tables *)

Record Record' := mkRecord {
  ID : Z; FQDN_ : string; Zone_ : string; TTL_ : Z; TokenHash : string;
  LastIP : string; LastUpdate : Z; LastSeen : Z; Disabled : bool
}.

Record Snapshot := mkSnap {
  sn_ID : Z; sn_Zone : string; sn_Serial : Z; sn_TakenAt : Z; sn_Content : string
}.

Record TrafficRow := mkTraffic {
  tr_Host : string; tr_Period : string; tr_Requests : Z; tr_BytesIn : Z; tr_BytesOut : Z
}.

(** Rows in insertion order; [AUTOINCREMENT] never reuses an id. *)
Record db := mkDb {
  records : list Record'; next_record : Z;
  snapshots : list Snapshot; next_snapshot : Z;
  traffic : list TrafficRow
}.

Definition empty_db : db := mkDb [] 1 [] 1 [].

Inductive store_error := ErrNotFound | ErrUnique | ErrEngine (what : string).

Definition with_records (s : db) (rs : list Record') (next : Z) : db :=
  mkDb rs next (snapshots s) (next_snapshot s) (traffic s).
Definition with_snapshots (s : db) (sn : list Snapshot) (next : Z) : db :=
  mkDb (records s) (next_record s) sn next (traffic s).
Definition with_traffic (s : db) (t : list TrafficRow) : db :=
  mkDb (records s) (next_record s) (snapshots s) (next_snapshot s) t.

(** [FQDN]: lower-cased, trimmed and dot-terminated. *)
Definition FQDN (s : string) : string :=
  let s := trim_space (to_lower s) in
  if has_suffix "." s then s else s +:+ ".".

Definition snapZone (zone : string) : string := trim_suffix "." (to_lower (trim_space zone)).

(** [newToken] from its 32 random bytes. *)
Definition newToken (b : string) : string := b64_encode b.

Lemma FQDN_lower name : to_lower (FQDN name) = FQDN name.
Proof.
  assert (H : to_lower (trim_space (to_lower name)) = trim_space (to_lower name)).
  { apply lower_fixed, trim_forall, lower_fixed, to_lower_idem. }
  unfold FQDN. destruct (has_suffix _ _); [done|]. by rewrite to_lower_app, H.
Qed.

Lemma FQDN_dotted name : has_suffix "." (FQDN name) = true.
Proof. unfold FQDN. destruct (has_suffix "." (trim_space _)) eqn:E; [done|]. apply has_suffix_spec. by eexists. Qed.

Section store.
Context {C : Crypto}.

Definition hashToken (tok : string) : string := hex_encode (sha256 tok).

Section calls.
Context (fault : nat -> option string).

(** [stmt k r]: the k-th statement of the call, when the engine runs it. *)
Definition stmt {A} (k : nat) (r : result store_error A) : result store_error A :=
  match fault k with Some e => Err (ErrEngine e) | None => r end.

(** A method leaves the state alone on an error. *)
Definition commit {A} (s : db) (r : result store_error (A * db)) : result store_error A * db :=
  match r with Ok (a, s') => (Ok a, s') | Err e => (Err e, s) end.

(** ** Token records *)

(** INSERT INTO records: both UNIQUE columns are checked. *)
Definition insert_record (s : db) (fqdn zone : string) (ttl : Z) (hash : string)
  : result store_error (Z * db) :=
  if existsb (fun r => String.eqb (FQDN_ r) fqdn || String.eqb (TokenHash r) hash) (records s)
  then Err ErrUnique
  else let id := next_record s in
       Ok (id, with_records s (records s ++ [mkRecord id fqdn zone ttl hash "" 0 0 false]) (id + 1)).

Definition Add (random : string) (name zone : string) (ttl : Z) (s : db)
  : result store_error (Record' * string) * db :=
  let tok := newToken random in
  commit s ('(id, s') ← stmt 0 (insert_record s (FQDN name) (FQDN zone) ttl (hashToken tok));
    Ok ((mkRecord id (FQDN name) (FQDN zone) ttl (hashToken tok) "" 0 0 false, tok), s')).

(** SELECT ... WHERE p: the first row, [sql.ErrNoRows] when there is none. *)
Definition select_record (k : nat) (s : db) (p : Record' -> bool) : result store_error Record' :=
  stmt k (match find_first p (records s) with Some r => Ok r | None => Err ErrNotFound end).

Definition Lookup (s : db) (tok : string) : result store_error Record' :=
  select_record 0 s (fun r => String.eqb (TokenHash r) (hashToken tok) && negb (Disabled r)).

Definition List (s : db) : result store_error (list Record') :=
  stmt 0 (Ok (sort_by (fun a b => String.ltb (FQDN_ a) (FQDN_ b)) (records s))).

Definition Del (name : string) (s : db) : result store_error unit * db :=
  commit s (stmt 0 (
    let keep := List.filter (fun r => negb (String.eqb (FQDN_ r) (FQDN name))) (records s) in
    if (length keep =? length (records s))%nat then Err ErrNotFound
    else Ok (tt, with_records s keep (next_record s)))).

(** UPDATE records SET token_hash=? WHERE fqdn=?, with the rows it changed. *)
Definition set_hash (hash : string) (r : Record') : Record' :=
  mkRecord (ID r) (FQDN_ r) (Zone_ r) (TTL_ r) hash (LastIP r) (LastUpdate r) (LastSeen r) (Disabled r).

Definition rehash (fqdn hash : string) (r : Record') : Record' :=
  if String.eqb (FQDN_ r) fqdn then set_hash hash r else r.

Definition update_hash (s : db) (fqdn hash : string) : result store_error (nat * db) :=
  let hit := fun r => String.eqb (FQDN_ r) fqdn in
  let n := length (List.filter hit (records s)) in
  if (0 <? n)%nat && existsb (fun r => negb (hit r) && String.eqb (TokenHash r) hash) (records s)
  then Err ErrUnique
  else Ok (n, with_records s (rehash fqdn hash <$> records s) (next_record s)).

(** The update is its own transaction: when the row cannot be read back the
    new hash stays, and the caller has no token. *)
Definition Rotate (random name : string) (s : db) : result store_error (Record' * string) * db :=
  let tok := newToken random in
  match stmt 0 (update_hash s (FQDN name) (hashToken tok)) with
  | Err e => (Err e, s)
  | Ok (n, s') =>
      if (n =? 0)%nat then (Err ErrNotFound, s')
      else match select_record 1 s' (fun r => String.eqb (FQDN_ r) (FQDN name)) with
           | Ok r => (Ok (r, tok), s')
           | Err e => (Err e, s')
           end
  end.

Definition Get (s : db) (name : string) : result store_error Record' :=
  select_record 0 s (fun r => String.eqb (FQDN_ r) (FQDN name)).

Definition stamp (id : Z) (f : Record' -> Record') (s : db) : result store_error unit * db :=
  commit s (stmt 0 (Ok (tt,
    with_records s ((fun r => if ID r =? id then f r else r) <$> records s) (next_record s)))).

Definition MarkUpdated (now : Z) (id : Z) (ip : string) : db -> result store_error unit * db :=
  stamp id (fun r => mkRecord (ID r) (FQDN_ r) (Zone_ r) (TTL_ r) (TokenHash r) ip now now (Disabled r)).

Definition MarkSeen (now : Z) (id : Z) : db -> result store_error unit * db :=
  stamp id (fun r =>
    mkRecord (ID r) (FQDN_ r) (Zone_ r) (TTL_ r) (TokenHash r) (LastIP r) (LastUpdate r) now (Disabled r)).

(** ** Snapshots *)

Definition zone_rows (z : string) (l : list Snapshot) : list Snapshot :=
  List.filter (fun sn => String.eqb (sn_Zone sn) z) l.

(** ORDER BY id DESC. *)
Definition newest_first (l : list Snapshot) : list Snapshot :=
  sort_by (fun a b => sn_ID b <? sn_ID a) l.

Definition SnapshotLatest (s : db) (zone : string) : result store_error (option Snapshot) :=
  stmt 0 (Ok (head (newest_first (zone_rows (snapZone zone) (snapshots s))))).

Definition SnapshotByID (s : db) (id : Z) : result store_error (option Snapshot) :=
  stmt 0 (Ok (find_first (fun sn => sn_ID sn =? id) (snapshots s))).

(** DELETE ... WHERE zone=? AND id NOT IN (SELECT id ... ORDER BY id DESC LIMIT keep). *)
Definition prune_snapshots (z : string) (keep : Z) (l : list Snapshot) : list Snapshot :=
  let kept := sn_ID <$> take (Z.to_nat keep) (newest_first (zone_rows z l)) in
  List.filter (fun sn => negb (String.eqb (sn_Zone sn) z) || existsb (Z.eqb (sn_ID sn)) kept) l.

(** One transaction: begin, insert, prune, commit (statements 0 to 3). *)
Definition SnapshotPut (now : Z) (zone : string) (serial : Z) (content : string) (keep : Z) (s : db)
  : result store_error Z * db :=
  let z := snapZone zone in
  commit s (
    _ ← stmt 0 (Ok tt);
    let id := next_snapshot s in
    rows ← stmt 1 (Ok (snapshots s ++ [mkSnap id z serial now content]));
    rows' ← (if 0 <? keep then stmt 2 (Ok (prune_snapshots z keep rows)) else Ok rows);
    _ ← stmt 3 (Ok tt);
    Ok (id, with_snapshots s rows' (id + 1))).

(** LIMIT only for a positive [limit]; the content column is not read. *)
Definition SnapshotList (s : db) (zone : string) (limit : Z) : result store_error (list Snapshot) :=
  let all := newest_first (zone_rows (snapZone zone) (snapshots s)) in
  let rows := if 0 <? limit then take (Z.to_nat limit) all else all in
  stmt 0 (Ok ((fun sn => mkSnap (sn_ID sn) (sn_Zone sn) (sn_Serial sn) (sn_TakenAt sn) "") <$> rows)).

(** ** Traffic *)

Definition same_day (host day : string) (t : TrafficRow) : bool :=
  String.eqb (tr_Host t) host && String.eqb (tr_Period t) day.

Definition add_counts (dReq dIn dOut : Z) (t : TrafficRow) : TrafficRow :=
  mkTraffic (tr_Host t) (tr_Period t) (tr_Requests t + dReq) (tr_BytesIn t + dIn) (tr_BytesOut t + dOut).

(** INSERT ... ON CONFLICT(host, day) DO UPDATE SET x = x + excluded.x. *)
Definition upsert (host period : string) (dReq dIn dOut : Z) (rows : list TrafficRow) : list TrafficRow :=
  if existsb (same_day host period) rows
  then (fun t => if same_day host period t then add_counts dReq dIn dOut t else t) <$> rows
  else rows ++ [mkTraffic host period dReq dIn dOut].

Definition AddTraffic (host day : string) (dReq dIn dOut : Z) (s : db) : result store_error unit * db :=
  commit s (stmt 0 (Ok (tt, with_traffic s (upsert host day dReq dIn dOut (traffic s))))).

(** ORDER BY period DESC, host ASC. *)
Definition traffic_before (a b : TrafficRow) : bool :=
  String.ltb (tr_Period b) (tr_Period a) ||
  (String.eqb (tr_Period a) (tr_Period b) && String.ltb (tr_Host a) (tr_Host b)).

(** [cutoff] is the value of SQLite's date expression. *)
Definition TrafficDaily (cutoff : string) (s : db) : result store_error (list TrafficRow) :=
  stmt 0 (Ok (sort_by traffic_before
    (List.filter (fun t => negb (String.ltb (tr_Period t) cutoff)) (traffic s)))).

(** GROUP BY host, m: one row per group, with the sums of its rows. *)
Definition month (t : TrafficRow) : string := str_take 7 (tr_Period t).

Fixpoint group_months (l : list TrafficRow) (acc : list TrafficRow) : list TrafficRow :=
  match l with
  | [] => acc
  | t :: l' =>
      group_months l' (upsert (tr_Host t) (month t) (tr_Requests t) (tr_BytesIn t) (tr_BytesOut t) acc)
  end.

Definition TrafficMonthly (cutoff : string) (s : db) : result store_error (list TrafficRow) :=
  stmt 0 (Ok (sort_by traffic_before
    (group_months (List.filter (fun t => negb (String.ltb (tr_Period t) cutoff)) (traffic s)) []))).

Definition PruneTraffic (cutoff : string) (s : db) : result store_error unit * db :=
  commit s (stmt 0 (Ok (tt, with_traffic s
    (List.filter (fun t => negb (String.ltb (tr_Period t) cutoff)) (traffic s))))).

End calls.

(** ** Any use of the store *)

Inductive call :=
| CAdd (random name zone : string) (ttl : Z)
| CDel (name : string)
| CRotate (random name : string)
| CMarkUpdated (now id : Z) (ip : string)
| CMarkSeen (now id : Z)
| CSnapshotPut (now : Z) (zone : string) (serial : Z) (content : string) (keep : Z)
| CAddTraffic (host day : string) (dReq dIn dOut : Z)
| CPruneTraffic (cutoff : string).

Definition run (s : db) (c : (nat -> option string) * call) : db :=
  match c.2 with
  | CAdd r n z t => (Add c.1 r n z t s).2
  | CDel n => (Del c.1 n s).2
  | CRotate r n => (Rotate c.1 r n s).2
  | CMarkUpdated now id ip => (MarkUpdated c.1 now id ip s).2
  | CMarkSeen now id => (MarkSeen c.1 now id s).2
  | CSnapshotPut now z ser ct k => (SnapshotPut c.1 now z ser ct k s).2
  | CAddTraffic h d r i o => (AddTraffic c.1 h d r i o s).2
  | CPruneTraffic c' => (PruneTraffic c.1 c' s).2
  end.

(** ** The schema's constraints, and that ids ascend *)

Definition row_key (t : TrafficRow) : string * string := (tr_Host t, tr_Period t).

Definition ascending (ids : list Z) (next : Z) : Prop :=
  StronglySorted Z.lt ids /\ Forall (fun i => i < next) ids.

Record wf (s : db) : Prop := {
  wf_fqdn : NoDup (FQDN_ <$> records s);
  wf_hash : NoDup (TokenHash <$> records s);
  wf_ids : ascending (ID <$> records s) (next_record s);
  wf_snaps : ascending (sn_ID <$> snapshots s) (next_snapshot s);
  wf_traffic : NoDup (row_key <$> traffic s);
}.

Lemma ascending_snoc ids next : ascending ids next -> ascending (ids ++ [next]) (next + 1).
Proof.
  intros [Hs Hf]. split.
  - apply StronglySorted_app_2; [|done|by repeat constructor].
    intros x y Hx ->%list_elem_of_singleton. rewrite Forall_forall in Hf. by apply Hf.
  - apply Forall_app. split; [|repeat constructor; lia].
    eapply Forall_impl; [exact Hf|]. cbn. lia.
Qed.

Lemma sublist_forall {A} (P : A -> Prop) l1 l2 : sublist l1 l2 -> Forall P l2 -> Forall P l1.
Proof.
  induction 1 as [|x l1 l2 _ IH|x l1 l2 _ IH]; [done|..]; rewrite ?Forall_cons; naive_solver.
Qed.

Lemma ascending_sublist ids' ids next : sublist ids' ids -> ascending ids next -> ascending ids' next.
Proof.
  intros Hsub [Hs Hf]. split; [|by eapply sublist_forall].
  clear Hf. induction Hsub as [|x l1 l2 Hsub IH|x l1 l2 Hsub IH]; [done|..]; inversion_clear Hs.
  - constructor; [by apply IH|]. eapply sublist_forall; [exact Hsub|done].
  - by apply IH.
Qed.

Lemma ascending_bfilter {A} (f : A -> Z) (p : A -> bool) (l : list A) next :
  ascending (f <$> l) next -> ascending (f <$> List.filter p l) next.
Proof. apply ascending_sublist, fmap_sublist, bfilter_sublist. Qed.

(** A row-wise update that keeps a column keeps what is known of it. *)
Lemma fmap_col {A B} (f : A -> B) (g : A -> A) (l : list A) :
  (forall x, f (g x) = f x) -> f <$> (g <$> l) = f <$> l.
Proof. intros H. rewrite <- list_fmap_compose. apply list_fmap_ext. intros. apply H. Qed.

Lemma wf_stamp fault id f s :
  (forall r, FQDN_ (f r) = FQDN_ r /\ TokenHash (f r) = TokenHash r /\ ID (f r) = ID r) ->
  wf s -> wf (stamp fault id f s).2.
Proof.
  intros Hf [? ? ? ? ?]. unfold stamp, stmt. destruct (fault 0%nat); cbn; [done|].
  split; cbn; rewrite ?fmap_col; try done;
    intros r; destruct (ID r =? id); [apply Hf|done|apply Hf|done|apply Hf|done].
Qed.

Lemma wf_empty : wf empty_db.
Proof. split; cbn; repeat constructor. Qed.

Lemma wf_Add fault random name zone ttl s : wf s -> wf (Add fault random name zone ttl s).2.
Proof.
  intros [Hq Hh Hi Hs Ht]. unfold Add, stmt. destruct (fault 0%nat); cbn; [done|].
  unfold insert_record. destruct (existsb _ _) eqn:E; cbn; [done|].
  assert (Hn : forall r, r ∈ records s -> FQDN_ r <> FQDN name /\ TokenHash r <> hashToken (newToken random)).
  { intros r Hr. pose proof (existsb_none _ _ _ E Hr) as Hx. cbn in Hx. bsplit. done. }
  split; cbn; rewrite ?fmap_app; try done.
  - apply NoDup_app. split; [done|]. split; [|apply NoDup_singleton].
    intros x (r & -> & Hr)%list_elem_of_fmap ?%list_elem_of_singleton. by destruct (Hn r Hr).
  - apply NoDup_app. split; [done|]. split; [|apply NoDup_singleton].
    intros x (r & -> & Hr)%list_elem_of_fmap ?%list_elem_of_singleton. by destruct (Hn r Hr).
  - by apply ascending_snoc.
Qed.

Lemma wf_Del fault name s : wf s -> wf (Del fault name s).2.
Proof.
  intros [Hq Hh Hi Hs Ht]. unfold Del, stmt. destruct (fault 0%nat); cbn; [done|].
  destruct (_ =? _)%nat; cbn; [done|]. split; cbn; try done; first [by apply nodup_bfilter|by apply ascending_bfilter].
Qed.

(** The update of one row's hash keeps hashes distinct: at most one row has
    the name, and no other row has the hash. *)
Lemma update_hash_wf s fqdn hash n s' :
  wf s -> update_hash s fqdn hash = Ok (n, s') -> wf s'.
Proof.
  intros [Hq Hh Hi Hs Ht]. unfold update_hash.
  destruct ((0 <? _)%nat && _) eqn:E; [done|]. intros [= _ <-].
  split; cbn; try done; try (rewrite fmap_col; [done|intros r; unfold rehash; by destruct (String.eqb _ _)]).
  assert (Hno : forall r, r ∈ records s -> FQDN_ r <> fqdn -> TokenHash r = hash ->
            forall q, q ∈ records s -> FQDN_ q <> fqdn).
  { intros r Hr Hne Hhash q Hqin Hqe. apply andb_false_iff in E as [E|E].
    - apply Nat.ltb_ge in E.
      assert (Hin : q ∈ List.filter (fun r => String.eqb (FQDN_ r) fqdn) (records s))
        by (apply elem_of_bfilter; by rewrite Hqe, String.eqb_refl).
      destruct (List.filter _ _); [by apply elem_of_nil in Hin|cbn in E; lia].
    - apply (existsb_none _ _ _ E) in Hr. apply String.eqb_neq in Hne. rewrite Hne in Hr. cbn in Hr.
      rewrite Hhash, String.eqb_refl in Hr. done. }
  clear E Hi Hs Ht. revert Hq Hh Hno. induction (records s) as [|r l IH]; intros Hq Hh Hno; [constructor|].
  cbn in Hq, Hh |- *. apply NoDup_cons in Hq as [Hq1 Hq2], Hh as [Hh1 Hh2].
  assert (IH' : NoDup (TokenHash <$> (rehash fqdn hash <$> l))).
  { apply IH; [done..|]. intros x Hx ? ? y Hy. apply (Hno x); try done; by right. }
  apply NoDup_cons. split; [|done].
  intros (q & Hqe & (q0 & -> & Hq0)%list_elem_of_fmap)%list_elem_of_fmap.
  unfold rehash in Hqe.
  destruct (String.eqb_spec (FQDN_ r) fqdn) as [Er|Er], (String.eqb_spec (FQDN_ q0) fqdn) as [Eq|Eq];
    cbn in Hqe.
  - apply Hq1. rewrite Er, <- Eq. by apply list_elem_of_fmap_2.
  - refine (Hno q0 _ Eq _ r _ Er); [by right|by rewrite <- Hqe|by left].
  - refine (Hno r _ Er Hqe q0 _ Eq); [by left|by right].
  - apply Hh1. rewrite Hqe. by apply list_elem_of_fmap_2.
Qed.

Lemma wf_Rotate fault random name s : wf s -> wf (Rotate fault random name s).2.
Proof.
  intros Hwf. unfold Rotate, stmt. destruct (fault 0%nat); cbn; [done|].
  destruct (update_hash _ _ _) as [[n s']|] eqn:E; [|done].
  apply update_hash_wf in E; [|done].
  destruct (n =? 0)%nat; [done|]. by destruct (select_record _ _ _ _).
Qed.

Lemma wf_SnapshotPut fault now zone serial content keep s :
  wf s -> wf (SnapshotPut fault now zone serial content keep s).2.
Proof.
  intros [Hq Hh Hi Hs Ht]. unfold SnapshotPut, stmt.
  destruct (fault 0%nat); cbn; [done|]. destruct (fault 1%nat); cbn; [done|].
  assert (Hs' : ascending (sn_ID <$> snapshots s ++
     [mkSnap (next_snapshot s) (snapZone zone) serial now content]) (next_snapshot s + 1))
    by (rewrite fmap_app; by apply ascending_snoc).
  destruct (0 <? keep); [destruct (fault 2%nat); cbn; [done|]|cbn]; (destruct (fault 3%nat); cbn; [done|]);
    split; cbn; try done. by apply ascending_bfilter.
Qed.

Lemma same_day_spec h p t : same_day h p t = true <-> row_key t = (h, p).
Proof.
  unfold same_day, row_key. rewrite andb_true_iff, !String.eqb_eq.
  split; [intros [-> ->]; done|by intros [= -> ->]].
Qed.

Lemma nodup_upsert h p r i o l : NoDup (row_key <$> l) -> NoDup (row_key <$> upsert h p r i o l).
Proof.
  intros Hl. unfold upsert. destruct (existsb _ _) eqn:E.
  - rewrite fmap_col; [done|]. intros t. by destruct (same_day h p t).
  - rewrite fmap_app. apply NoDup_app. split; [done|]. split; [|apply NoDup_singleton].
    intros x (t & -> & Hin)%list_elem_of_fmap Hk%list_elem_of_singleton.
    apply (existsb_none _ _ _ E) in Hin. assert (same_day h p t = true) by (by apply same_day_spec).
    congruence.
Qed.

Lemma wf_AddTraffic fault host day r i o s : wf s -> wf (AddTraffic fault host day r i o s).2.
Proof.
  intros [Hq Hh Hi Hs Ht]. unfold AddTraffic, stmt. destruct (fault 0%nat); cbn; [done|].
  split; cbn; try done. by apply nodup_upsert.
Qed.

Lemma wf_PruneTraffic fault cutoff s : wf s -> wf (PruneTraffic fault cutoff s).2.
Proof.
  intros [Hq Hh Hi Hs Ht]. unfold PruneTraffic, stmt. destruct (fault 0%nat); cbn; [done|].
  split; cbn; try done. by apply nodup_bfilter.
Qed.

Hint Resolve wf_Add wf_Del wf_Rotate wf_SnapshotPut wf_AddTraffic wf_PruneTraffic : goddns.

Lemma run_wf s c : wf s -> wf (run s c).
Proof.
  destruct c as [fault []]; intros H; unfold run, MarkUpdated, MarkSeen; cbn;
    auto with goddns; by apply wf_stamp.
Qed.

Lemma runs_wf calls s : wf s -> wf (foldl run s calls).
Proof. revert s. induction calls as [|c calls IH]; intros s H; cbn; [done|]. by apply IH, run_wf. Qed.

(** ** Tokens *)

Definition no_fault : nat -> option string := fun _ => None.

Lemma lookup_unique s tok r :
  wf s -> r ∈ records s -> TokenHash r = hashToken tok -> Disabled r = false ->
  Lookup no_fault s tok = Ok r.
Proof.
  intros Hwf Hr Hh Hd. unfold Lookup, select_record, stmt, no_fault.
  rewrite (find_first_unique _ _ r); [done|done|by rewrite Hh, String.eqb_refl, Hd|].
  intros y Hy Hp. bsplit. eapply (key_inj TokenHash); [apply Hwf|done..|]. congruence.
Qed.

Lemma lookup_none s tok :
  (forall r, r ∈ records s -> TokenHash r <> hashToken tok) -> Lookup no_fault s tok = Err ErrNotFound.
Proof.
  intros H. unfold Lookup, select_record, stmt, no_fault.
  destruct (find_first _ _) as [r|] eqn:E; [|done].
  apply find_first_Some in E as [Hr Hp]. bsplit. by destruct (H r Hr).
Qed.

(** C16: whatever calls are made, in whatever order and with whatever engine
    faults, names and token hashes stay unique, ids keep ascending and there
    is one traffic row per host and day. *)
Theorem store_invariant calls : wf (foldl run empty_db calls).
Proof. apply runs_wf, wf_empty. Qed.

(** The token [Add] returns authenticates exactly the record it created,
    and no other token's answer changes. *)
Theorem add_then_lookup fault random name zone ttl s r tok s' :
  wf s -> Add fault random name zone ttl s = (Ok (r, tok), s') ->
  Lookup no_fault s' tok = Ok r /\ FQDN_ r = FQDN name /\
  forall t, hashToken t <> hashToken tok -> Lookup no_fault s' t = Lookup no_fault s t.
Proof.
  intros Hwf H. pose proof (wf_Add fault random name zone ttl s Hwf) as Hwf'. rewrite H in Hwf'.
  revert H. unfold Add, stmt, insert_record. destruct (fault 0%nat); [done|].
  destruct (existsb _ _); [done|]. cbn. intros [= <- <- <-]. split; [|split; [done|]].
  - apply lookup_unique; [done| |done|done]. cbn. apply elem_of_app. right. by left.
  - intros t Ht. unfold Lookup, select_record, stmt, no_fault. cbn.
    rewrite find_first_app. destruct (find_first _ (records s)); [done|]. cbn.
    apply String.eqb_neq in Ht. by rewrite String.eqb_sym, Ht.
Qed.

Lemma lookup_rehash g l old hash t :
  g old = set_hash hash old -> hashToken t <> hash ->
  (forall q, q ∈ l -> g q = q \/ q = old) -> hashToken t <> TokenHash old ->
  find_first (fun r => String.eqb (TokenHash r) (hashToken t) && negb (Disabled r)) (g <$> l) =
  find_first (fun r => String.eqb (TokenHash r) (hashToken t) && negb (Disabled r)) l.
Proof.
  intros Hg Ht Hall Et. induction l as [|q l IH]; [done|]. cbn.
  assert (Hrest : forall q, q ∈ l -> g q = q \/ q = old) by (intros; apply Hall; by right).
  destruct (Hall q) as [->| ->]; [by left| |].
  - destruct (_ && _); [done|by apply IH].
  - rewrite Hg. cbn. apply not_eq_sym, String.eqb_neq in Ht, Et. rewrite Ht, Et. cbn. by apply IH.
Qed.

(** C17: [Rotate] gives the record a new token and kills the old one: the new
    token authenticates it, the tokens that did no longer authenticate
    anything, and every other token's answer is unchanged. *)
Theorem rotate_replaces_token fault random name s r tok s' :
  wf s -> Rotate fault random name s = (Ok (r, tok), s') ->
  exists old, old ∈ records s /\ FQDN_ old = FQDN name /\ r = set_hash (hashToken tok) old /\
    (Disabled old = false -> Lookup no_fault s' tok = Ok r) /\
    forall t, hashToken t <> hashToken tok ->
      Lookup no_fault s' t =
      (if String.eqb (hashToken t) (TokenHash old) then Err ErrNotFound else Lookup no_fault s t).
Proof.
  intros Hwf H. pose proof (wf_Rotate fault random name s Hwf) as Hwf'. rewrite H in Hwf'.
  revert H. unfold Rotate, stmt. destruct (fault 0%nat); [done|].
  destruct (update_hash _ _ _) as [[n s1]|] eqn:E; [|done]. destruct (n =? 0)%nat eqn:Hn; [done|].
  unfold select_record, stmt. destruct (fault 1%nat); [done|].
  destruct (find_first _ (records s1)) as [r0|] eqn:Hf; [|done]. intros [= <- <- <-].
  unfold update_hash in E. destruct ((0 <? _)%nat && _); [done|]. injection E as _ <-.
  apply find_first_Some in Hf as [Hr0 Hname]. cbn in Hr0, Hwf'.
  apply list_elem_of_fmap in Hr0 as (old & -> & Hold).
  set (g := rehash (FQDN name) (hashToken (newToken random))) in *.
  assert (Hfq : forall r, FQDN_ (g r) = FQDN_ r) by (intros q; unfold g, rehash; by case_match).
  rewrite Hfq in Hname. apply String.eqb_eq in Hname.
  assert (Hg : g old = set_hash (hashToken (newToken random)) old) by (unfold g, rehash; by rewrite Hname, String.eqb_refl).
  assert (Hother : forall q, q ∈ records s -> q <> old -> g q = q).
  { intros q Hq Hne. unfold g, rehash. destruct (String.eqb_spec (FQDN_ q) (FQDN name)); [|done].
    destruct Hne. eapply (key_inj FQDN_); [apply Hwf|done..|]. congruence. }
  exists old. repeat split; [done..| |].
  - intros Hd. apply lookup_unique; [done| |by rewrite Hg|by rewrite Hg]. cbn. by apply list_elem_of_fmap_2.
  - intros t Ht. destruct (String.eqb_spec (hashToken t) (TokenHash old)) as [Et|Et].
    + apply lookup_none. cbn. intros q (q0 & -> & Hq0)%list_elem_of_fmap.
      destruct (String.eqb_spec (FQDN_ q0) (FQDN name)) as [Eq|Eq].
      * unfold g, rehash. rewrite Eq, String.eqb_refl. cbn. congruence.
      * rewrite Hother by (done || congruence). rewrite Et. intros Heq.
        apply Eq. rewrite <- Hname. f_equal. eapply (key_inj TokenHash); [apply Hwf|done..].
    + unfold Lookup, select_record, stmt, no_fault. cbn [records with_records].
      rewrite (lookup_rehash g (records s) old (hashToken (newToken random))); [done|by rewrite Hg|done| |done].
      intros q Hq. destruct (decide (TokenHash q = TokenHash old)) as [Hq'|Hq'];
        [right; eapply (key_inj TokenHash); [apply Hwf|done..]|left; apply Hother; congruence].
Qed.

(** ** Snapshots *)

Lemma newest_first_reverse l next : ascending (sn_ID <$> l) next -> newest_first l = reverse l.
Proof.
  intros [Hs _]. unfold newest_first. induction l as [|x l IH]; [done|].
  rewrite fmap_cons in Hs. inversion_clear Hs as [|? ? Hs' Hx].
  cbn [sort_by foldr]. fold (sort_by (fun a b => sn_ID b <? sn_ID a) l).
  rewrite IH by done. rewrite reverse_cons. apply insert_by_end.
  intros y Hy. apply Z.ltb_lt. rewrite Forall_forall in Hx. apply Hx.
  apply list_elem_of_fmap_2. by apply elem_of_reverse.
Qed.

Lemma zone_rows_prune_other z z' keep l :
  z' <> z -> zone_rows z' (prune_snapshots z keep l) = zone_rows z' l.
Proof.
  intros Hne. unfold zone_rows, prune_snapshots. rewrite bfilter_filter. apply bfilter_ext.
  intros x _. destruct (String.eqb_spec (sn_Zone x) z') as [->|]; [|by rewrite andb_false_r].
  apply String.eqb_neq in Hne. by rewrite Hne.
Qed.

Lemma ascending_nodup ids next : ascending ids next -> NoDup ids.
Proof.
  intros [Hs _]. induction Hs as [|x l _ IH Hx]; constructor; [|done].
  intros Hin. rewrite Forall_forall in Hx. specialize (Hx _ Hin). lia.
Qed.

(** What the DELETE leaves of the zone: the newest [keep] rows. *)
Lemma zone_rows_prune z keep l next :
  ascending (sn_ID <$> l) next ->
  newest_first (zone_rows z (prune_snapshots z keep l)) =
  take (Z.to_nat keep) (newest_first (zone_rows z l)).
Proof.
  intros Ha. pose proof (ascending_bfilter sn_ID (fun sn => String.eqb (sn_Zone sn) z) l next Ha) as Hz.
  fold (zone_rows z l) in Hz.
  assert (Heq : zone_rows z (prune_snapshots z keep l) =
    List.filter (fun sn => existsb (Z.eqb (sn_ID sn))
       (sn_ID <$> take (Z.to_nat keep) (newest_first (zone_rows z l)))) (zone_rows z l)).
  { unfold prune_snapshots. generalize (sn_ID <$> take (Z.to_nat keep) (newest_first (zone_rows z l))).
    intros kept. unfold zone_rows. rewrite !bfilter_filter. apply bfilter_ext. intros x _.
    destruct (String.eqb (sn_Zone x) z); cbn; by rewrite ?andb_true_r. }
  rewrite Heq. clear Heq. rewrite (newest_first_reverse _ next) by (by apply ascending_bfilter).
  rewrite !(newest_first_reverse _ next) by done.
  revert Hz. generalize (zone_rows z l). clear l Ha. intros l Hl. set (k := Z.to_nat keep).
  pose proof (ascending_nodup _ _ Hl) as Hnd.
  assert (Hl2 : l = reverse (drop k (reverse l)) ++ reverse (take k (reverse l)))
    by (by rewrite <- reverse_app, take_drop, reverse_involutive).
  revert Hnd Hl2. generalize (take k (reverse l)) as new, (drop k (reverse l)) as old.
  intros new old Hnd ->. rewrite fmap_app in Hnd. apply NoDup_app in Hnd as (_ & Hdis & _).
  rewrite bfilter_app, bfilter_none, bfilter_all; [apply reverse_involutive|..].
  - intros x Hx. rewrite elem_of_reverse in Hx. apply existsb_elem. exists (sn_ID x). rewrite Z.eqb_refl.
    split; [by apply list_elem_of_fmap_2|done].
  - intros x Hx. destruct (existsb _ _) eqn:E; [|done]. apply existsb_elem in E as (i & Hi & Heq).
    apply Z.eqb_eq in Heq. subst i. destruct (Hdis (sn_ID x)).
    + by apply list_elem_of_fmap_2.
    + apply list_elem_of_fmap in Hi as (y & -> & Hy). apply list_elem_of_fmap_2. by rewrite elem_of_reverse.
Qed.

Lemma SnapshotPut_history fault now zone serial content keep s res s' :
  wf s -> SnapshotPut fault now zone serial content keep s = (res, s') ->
  match res with
  | Err _ => s' = s
  | Ok id =>
      let z := snapZone zone in
      let all := mkSnap id z serial now content :: newest_first (zone_rows z (snapshots s)) in
      newest_first (zone_rows z (snapshots s')) = (if 0 <? keep then take (Z.to_nat keep) all else all) /\
      (forall z', z' <> z -> zone_rows z' (snapshots s') = zone_rows z' (snapshots s)) /\
      records s' = records s /\ traffic s' = traffic s
  end.
Proof.
  intros Hwf. pose proof (wf_snaps s Hwf) as Ha.
  set (z := snapZone zone). set (row := mkSnap (next_snapshot s) z serial now content).
  assert (Ha' : ascending (sn_ID <$> snapshots s ++ [row]) (next_snapshot s + 1))
    by (rewrite fmap_app; by apply ascending_snoc).
  assert (Hall : newest_first (zone_rows z (snapshots s ++ [row])) =
                 row :: newest_first (zone_rows z (snapshots s))).
  { rewrite !(newest_first_reverse _ (next_snapshot s + 1)).
    - unfold zone_rows. rewrite bfilter_app. cbn. rewrite String.eqb_refl. by rewrite reverse_snoc.
    - apply (ascending_sublist _ (sn_ID <$> snapshots s ++ [row])); [|done].
      apply fmap_sublist. etrans; [apply bfilter_sublist|]. by apply sublist_inserts_r.
    - by apply ascending_bfilter. }
  assert (Hoth : forall z', z' <> z -> zone_rows z' (snapshots s ++ [row]) = zone_rows z' (snapshots s)).
  { intros z' Hne. unfold zone_rows. rewrite bfilter_app. cbn.
    apply not_eq_sym, String.eqb_neq in Hne. rewrite Hne. apply app_nil_r. }
  unfold SnapshotPut, stmt.
  destruct (fault 0%nat); [by intros [= <- <-]|]. destruct (fault 1%nat); [by intros [= <- <-]|].
  destruct (0 <? keep) eqn:Hk; [destruct (fault 2%nat); [by intros [= <- <-]|]|];
    (destruct (fault 3%nat); [by intros [= <- <-]|]); intros [= <- <-]; fold z row;
    (split; [cbn [snapshots with_snapshots]|split; [intros z' Hne; cbn [snapshots with_snapshots]|done]]).
  - rewrite (zone_rows_prune z keep _ _ Ha'). by rewrite Hall.
  - rewrite zone_rows_prune_other by done. by apply Hoth.
  - done.
  - by apply Hoth.
Qed.

(** [SnapshotPut] is all or nothing. When it fails the database is
    unchanged; when it succeeds the zone's history is the new snapshot
    followed by the old history, cut to the newest [keep] rows when [keep] is
    positive, and no other zone's history changes. *)
Theorem snapshot_put_prunes fault now zone serial content keep s res s' :
  wf s -> SnapshotPut fault now zone serial content keep s = (res, s') ->
  match res with
  | Err _ => s' = s
  | Ok id =>
      let z := snapZone zone in
      let all := mkSnap id z serial now content :: newest_first (zone_rows z (snapshots s)) in
      newest_first (zone_rows z (snapshots s')) = (if 0 <? keep then take (Z.to_nat keep) all else all) /\
      (forall z', z' <> z -> zone_rows z' (snapshots s') = zone_rows z' (snapshots s)) /\
      records s' = records s /\ traffic s' = traffic s
  end.
Proof. apply SnapshotPut_history. Qed.

(** ** Traffic totals *)

(** The sum of a column over the rows that satisfy [p]. *)
Fixpoint total (f : TrafficRow -> Z) (p : TrafficRow -> bool) (l : list TrafficRow) : Z :=
  match l with [] => 0 | t :: l' => (if p t then f t else 0) + total f p l' end.

Lemma total_app f p l1 l2 : total f p (l1 ++ l2) = total f p l1 + total f p l2.
Proof. induction l1 as [|t l1 IH]; cbn; [done|]. rewrite IH. lia. Qed.

Lemma total_perm f p l1 l2 : l1 ≡ₚ l2 -> total f p l1 = total f p l2.
Proof. induction 1; cbn; lia. Qed.

Lemma total_filter f p q l : total f p (List.filter q l) = total f (fun t => q t && p t) l.
Proof. induction l as [|t l IH]; cbn; [done|]. destruct (q t); cbn; rewrite IH; done. Qed.

Section column.
Context (f : TrafficRow -> Z).
Hypothesis f_add : forall r i o t, f (add_counts r i o t) = f t + f (mkTraffic "" "" r i o).
Hypothesis f_key : forall h p r i o, f (mkTraffic h p r i o) = f (mkTraffic "" "" r i o).

(** A test that looks at the key only. *)
Definition on_key (p : TrafficRow -> bool) : Prop :=
  forall t t', row_key t = row_key t' -> p t = p t'.

Lemma total_upsert p h d r i o l :
  on_key p -> NoDup (row_key <$> l) ->
  total f p (upsert h d r i o l) =
  total f p l + (if p (mkTraffic h d r i o) then f (mkTraffic "" "" r i o) else 0).
Proof.
  intros Hp Hl. unfold upsert. destruct (existsb _ _) eqn:E.
  2: { rewrite total_app. cbn. rewrite (f_key h d). lia. }
  revert E Hl. induction l as [|t l IH]; cbn; [done|]. intros E [Hk Hl]%NoDup_cons.
  destruct (same_day h d t) eqn:Et.
  - apply same_day_spec in Et. assert (Hsame : (fun t => if same_day h d t then add_counts r i o t else t) <$> l = l).
    { rewrite <- (list_fmap_id l) at 2. apply list_fmap_ext. intros j q Hq.
      destruct (same_day h d q) eqn:Eq; [|done]. apply same_day_spec in Eq. destruct Hk.
      rewrite Et, <- Eq. apply list_elem_of_fmap_2. by apply list_elem_of_lookup_2 in Hq. }
    rewrite Hsame, f_add, (Hp (add_counts r i o t) t), (Hp (mkTraffic h d r i o) t) by done.
    destruct (p t); lia.
  - cbn in E. rewrite IH by done. lia.
Qed.

Definition in_month (h m : string) (t : TrafficRow) : bool :=
  String.eqb (tr_Host t) h && String.eqb (month t) m.

Lemma total_months h m l acc :
  NoDup (row_key <$> acc) ->
  total f (same_day h m) (group_months l acc) = total f (same_day h m) acc + total f (in_month h m) l.
Proof.
  revert acc. induction l as [|t l IH]; intros acc Hacc; cbn; [lia|].
  rewrite IH by (by apply nodup_upsert). rewrite total_upsert; [|by intros ? ? [= Hh Hd]; unfold same_day; rewrite Hh, Hd|done].
  unfold same_day at 2, in_month at 2. cbn. destruct t as [th tp tr ti to]. cbn.
  rewrite (f_key th tp). unfold month. cbn. lia.
Qed.

Lemma monthly_column h m host day r i o cutoff l :
  NoDup (row_key <$> l) ->
  let monthly l := sort_by traffic_before
     (group_months (List.filter (fun t => negb (String.ltb (tr_Period t) cutoff)) l) []) in
  total f (same_day h m) (monthly (upsert host day r i o l)) =
  total f (same_day h m) (monthly l) +
  (if negb (String.ltb day cutoff) && String.eqb host h && String.eqb (str_take 7 day) m
   then f (mkTraffic "" "" r i o) else 0).
Proof.
  intros Hl monthly. unfold monthly. rewrite !(total_perm _ _ _ _ (sort_by_perm _ _)).
  rewrite !total_months by constructor. rewrite !total_filter, total_upsert; [|..|done].
  - cbn. by rewrite <- andb_assoc.
  - intros t t' [= Hh Hd]. unfold in_month, month. by rewrite Hh, Hd.
Qed.
End column.

Lemma group_months_nodup l acc : NoDup (row_key <$> acc) -> NoDup (row_key <$> group_months l acc).
Proof. revert acc. induction l as [|t l IH]; intros acc H; cbn; [done|]. by apply IH, nodup_upsert. Qed.

(** No traffic is lost or counted twice. The monthly report has one row
    per host and month, and recording a delta moves each of its three sums by
    exactly that delta in the host's row of the day's month (when the day is
    within the report's range) and by nothing anywhere else. *)
Theorem monthly_traffic_accumulates host day r i o cutoff s s' rows rows' h m :
  wf s -> AddTraffic no_fault host day r i o s = (Ok tt, s') ->
  TrafficMonthly no_fault cutoff s = Ok rows -> TrafficMonthly no_fault cutoff s' = Ok rows' ->
  let hit := negb (String.ltb day cutoff) && String.eqb host h && String.eqb (str_take 7 day) m in
  NoDup (row_key <$> rows') /\
  total tr_Requests (same_day h m) rows' = total tr_Requests (same_day h m) rows + (if hit then r else 0) /\
  total tr_BytesIn (same_day h m) rows' = total tr_BytesIn (same_day h m) rows + (if hit then i else 0) /\
  total tr_BytesOut (same_day h m) rows' = total tr_BytesOut (same_day h m) rows + (if hit then o else 0).
Proof.
  intros Hwf. unfold AddTraffic, TrafficMonthly, stmt, no_fault. cbn. intros [= <-] [= <-] [= <-].
  pose proof (wf_traffic s Hwf) as Ht. split; [|split; [|split]].
  - rewrite sort_by_perm. apply group_months_nodup. constructor.
  - by rewrite (monthly_column tr_Requests).
  - by rewrite (monthly_column tr_BytesIn).
  - by rewrite (monthly_column tr_BytesOut).
Qed.

End store.

(** ** Witnesses *)

Module StoreExample.

#[local] Instance plain : Crypto := {| sha256 s := s; hmac_sha256 k m := k +:+ m |}.

Definition calls : list ((nat -> option string) * call) :=
  (fun c => (no_fault, c)) <$>
  [CAdd "aaa" "Home.Example" "example" 60; CAdd "bbb" "nas.example." "example" 60;
   CSnapshotPut 10 "example." 1 "v1" 2; CSnapshotPut 20 "example" 2 "v2" 2; CSnapshotPut 25 "other" 9 "o" 2;
   CAddTraffic "h" "2026-01-02" 5 50 500; CAddTraffic "h" "2026-01-03" 1 10 100].
Definition s0 : db := foldl run empty_db calls.

Lemma s0_wf : wf s0.
Proof. apply runs_wf, wf_empty. Qed.

Definition nofile : Record' * string := (mkRecord 0 "" "" 0 "" "" 0 0 false, "").

Definition added := Add no_fault "ccc" "tv" "example" 60 s0.
Lemma add_then_lookup_witness :
  let r := (from_ok nofile added.1).1 in let tok := (from_ok nofile added.1).2 in
  Lookup no_fault added.2 tok = Ok r /\ FQDN_ r = FQDN "tv" /\
  forall t, hashToken t <> hashToken tok -> Lookup no_fault added.2 t = Lookup no_fault s0 t.
Proof.
  assert (H : Add no_fault "ccc" "tv" "example" 60 s0 =
    (Ok ((from_ok nofile added.1).1, (from_ok nofile added.1).2), added.2)) by (vm_compute; reflexivity).
  exact (add_then_lookup no_fault "ccc" "tv" "example" 60 s0 _ _ _ s0_wf H).
Defined.

Definition rotated := Rotate no_fault "ddd" "home.example" s0.
Lemma rotate_replaces_token_witness :
  let r := (from_ok nofile rotated.1).1 in let tok := (from_ok nofile rotated.1).2 in
  exists old, old ∈ records s0 /\ FQDN_ old = FQDN "home.example" /\ r = set_hash (hashToken tok) old /\
    (Disabled old = false -> Lookup no_fault rotated.2 tok = Ok r) /\
    forall t, hashToken t <> hashToken tok ->
      Lookup no_fault rotated.2 t =
      (if String.eqb (hashToken t) (TokenHash old) then Err ErrNotFound else Lookup no_fault s0 t).
Proof.
  assert (H : Rotate no_fault "ddd" "home.example" s0 =
    (Ok ((from_ok nofile rotated.1).1, (from_ok nofile rotated.1).2), rotated.2)) by (vm_compute; reflexivity).
  exact (rotate_replaces_token no_fault "ddd" "home.example" s0 _ _ _ s0_wf H).
Defined.

Definition put := SnapshotPut no_fault 30 "Example" 3 "v3" 2 s0.
Definition row3 : Snapshot := mkSnap 4 "example" 3 30 "v3".
Lemma snapshot_put_prunes_witness :
  newest_first (zone_rows "example" (snapshots put.2)) =
    take 2 (row3 :: newest_first (zone_rows "example" (snapshots s0))).
Proof.
  assert (H : SnapshotPut no_fault 30 "Example" 3 "v3" 2 s0 = (Ok 4, put.2)) by (vm_compute; reflexivity).
  exact (proj1 (snapshot_put_prunes no_fault 30 "Example" 3 "v3" 2 s0 (Ok 4) put.2 s0_wf H)).
Defined.

Definition counted : db := (AddTraffic no_fault "h" "2026-01-31" 7 70 700 s0).2.
Definition report (s : db) : list TrafficRow := from_ok [] (TrafficMonthly no_fault "2026-01-01" s).
Lemma monthly_traffic_accumulates_witness :
  let hit := negb (String.ltb "2026-01-31" "2026-01-01") && String.eqb "h" "h" &&
             String.eqb (str_take 7 "2026-01-31") "2026-01" in
  NoDup (row_key <$> report counted) /\
  total tr_Requests (same_day "h" "2026-01") (report counted) =
    total tr_Requests (same_day "h" "2026-01") (report s0) + (if hit then 7 else 0) /\
  total tr_BytesIn (same_day "h" "2026-01") (report counted) =
    total tr_BytesIn (same_day "h" "2026-01") (report s0) + (if hit then 70 else 0) /\
  total tr_BytesOut (same_day "h" "2026-01") (report counted) =
    total tr_BytesOut (same_day "h" "2026-01") (report s0) + (if hit then 700 else 0).
Proof.
  assert (H1 : AddTraffic no_fault "h" "2026-01-31" 7 70 700 s0 = (Ok tt, counted)) by (vm_compute; reflexivity).
  assert (H2 : TrafficMonthly no_fault "2026-01-01" s0 = Ok (report s0)) by (vm_compute; reflexivity).
  assert (H3 : TrafficMonthly no_fault "2026-01-01" counted = Ok (report counted)) by (vm_compute; reflexivity).
  exact (monthly_traffic_accumulates "h" "2026-01-31" 7 70 700 "2026-01-01" s0 counted _ _ "h" "2026-01"
           s0_wf H1 H2 H3).
Defined.

Example january : total tr_Requests (same_day "h" "2026-01") (report counted) = 13.
Proof. vm_compute. reflexivity. Qed.

End StoreExample.
