(* ===== verification/Tsig.v ===== *)
(** * Tsig: goddns's own keyring file

    [internal/tsig]: the key blocks, as [Parse] reads and [Render] writes
    them, the lookup by name, and the atomic rewrite of the file. *)

From Stdlib Require Import String Ascii.
From S2P Require Import Prelude GoStrings Regex FS.

Record Key := mkKey { Name : string; Algo : string; Secret : string }.

#[export] Instance key_eq_dec : EqDecision Key.
Proof. solve_decision. Defined.

(** ** The expressions *)

Definition algo_char (c : ascii) : bool :=
  is_upper c || is_lower c || is_digit c || Ascii.eqb c "-".

(** A quoted, non-empty text. *)
Definition quoted (rest : re) : re := Seq Quote (Seq (Group (Plus not_quote)) (Seq Quote rest)).

Definition reBlock_tail : re := Seq Blanks (Seq (Lit1 "{") (Seq (Group (Star false any)) (Lit1 "}"))).
Definition reBlock : re := Lit "key" (Seq Blanks1 (quoted reBlock_tail)).
Definition reAlgo : re :=
  Lit "algorithm" (Seq Blanks1 (Seq OptQuote (Seq (Group (Plus algo_char)) (Seq OptQuote (Seq Blanks (Lit1 ";")))))).
Definition reSecret : re := Lit "secret" (Seq Blanks1 (Seq Quote (Seq (Group (Plus not_quote)) Quote))).

Definition Parse_block (m : rmatch) : Key :=
  let cap i := default "" (m_caps m !! i) in
  mkKey (trim_suffix "." (cap 0%nat)) (default "" (submatch reAlgo (cap 1%nat)))
        (default "" (submatch reSecret (cap 1%nat))).

Definition Parse (data : string) : list Key := Parse_block <$> find_all reBlock data.

(** The index of the key, as the caller's pointer into the slice. *)
Fixpoint find_index (i : nat) (p : Key -> bool) (keys : list Key) : option nat :=
  match keys with
  | [] => None
  | k :: ks => if p k then Some i else find_index (S i) p ks
  end.

Definition Find_index (keys : list Key) (name : string) : option nat :=
  find_index 0 (fun k => String.eqb (trim_suffix "." (Name k)) (trim_suffix "." name)) keys.

Definition Find (keys : list Key) (name : string) : option Key :=
  i ← Find_index keys name; keys !! i.

(** ** Rendering *)

Definition q1 : string := String quote "".
Definition tab1 : string := String tab "".

Definition header : string :=
  "// Managed by goddns (rotate with `goddns rotate-key`). Included once by named.conf." +:+ nl.

Definition algo_of (k : Key) : string := if String.eqb (Algo k) "" then "hmac-sha256" else Algo k.

Definition render_key (k : Key) : string :=
  "key " +:+ q1 +:+ trim_suffix "." (Name k) +:+ q1 +:+ " {" +:+ nl +:+
  tab1 +:+ "algorithm " +:+ algo_of k +:+ ";" +:+ nl +:+
  tab1 +:+ "secret " +:+ q1 +:+ Secret k +:+ q1 +:+ ";" +:+ nl +:+ "};" +:+ nl.

Definition Render (keys : list Key) : string :=
  header +:+ foldr (fun k s => render_key k +:+ s) "" keys.

(** ** The file *)

Section files.
Context (fault : nat -> option string) (tempname : nat -> string -> string) (euid egid : Z).

Definition LoadFile (path : string) : io io_error (list Key) :=
  data ← ReadFile fault path; mret (Parse data).

Definition WriteFile (path : string) (keys : list Key) : io io_error unit :=
  tmp ← CreateTemp fault tempname euid egid (Dir path);
  deferred (
    _ ← or_close fault tmp (write_at fault tmp (Render keys));
    _ ← or_close fault tmp (Sync fault tmp);
    _ ← Close fault tmp;
    st ← attempt (Stat fault path);
    mode ← match st with
           | Ok (Reg _ m u g) => _ ← ignore (Chown fault tmp u g); mret m
           | _ => mret 416
           end;
    _ ← Chmod fault tmp mode;
    Rename fault tmp path)
  (fun w => (Remove fault tmp w).2).

End files.

Example parse_ex :
  Parse (header +:+ "key " +:+ q1 +:+ "a." +:+ q1 +:+ "{ algorithm hmac-md5; secret " +:+ q1 +:+ "xyz=" +:+ q1 +:+ "; };") =
  [mkKey "a" "hmac-md5" "xyz="].
Proof. vm_compute. reflexivity. Qed.

(** ** Lemmas: what the expressions match *)

Lemma not_quote_free w : free_of quote w = true -> str_forall not_quote w = true.
Proof.
  apply str_forall_impl. intros c Hc. unfold not_quote, none_of. cbn. by rewrite orb_false_r.
Qed.

Lemma lit1_none (cur : cursor) c r :
  match c_rest cur with String d _ => Ascii.eqb c d | "" => false end = false ->
  run (Seq (Lit1 c) r) cur = [].
Proof.
  intros H. cbn. unfold step_chr. destruct (c_rest cur) as [|d s]; [done|]. by rewrite H.
Qed.

Lemma lit1_last_none (cur : cursor) c :
  match c_rest cur with String d _ => Ascii.eqb c d | "" => false end = false -> run (Lit1 c) cur = [].
Proof. intros H. cbn. unfold step_chr. destruct (c_rest cur) as [|d s]; [done|]. by rewrite H. Qed.

Lemma lit1_some c r prev s pos caps :
  run (Seq (Lit1 c) r) (mkCur prev (String c s) pos caps) = run r (mkCur (Some c) s (S pos) caps).
Proof. cbn. rewrite step_chr_app by apply Ascii.eqb_refl. cbn. by rewrite app_nil_r. Qed.

(** One blank, then something that is not one. *)
Lemma blanks1_run c r prev s pos caps :
  re_space c = true -> starts_with re_space s = false ->
  (forall cur, starts_with re_space (c_rest cur) = true -> run r cur = []) ->
  run (Seq Blanks1 r) (mkCur prev (String c s) pos caps) = run r (mkCur (Some c) s (S pos) caps).
Proof.
  intros Hc Hs Hr. cbn [run]. pose proof (plus_then re_space (run r) prev (String c "") s pos caps) as H.
  cbn [str_forall String.append last_char String.length] in H. rewrite Hc in H.
  replace (pos + 1)%nat with (S pos) in H by lia. by apply H.
Qed.

Lemma blanks_run w r prev s pos caps :
  str_forall re_space w = true -> starts_with re_space s = false ->
  (forall cur, starts_with re_space (c_rest cur) = true -> run r cur = []) ->
  run (Seq Blanks r) (mkCur prev (w +:+ s) pos caps) = run r (mkCur (last_char prev w) s (pos + String.length w) caps).
Proof. intros. cbn [run]. by apply (star_then re_space (run r)). Qed.

Lemma blank_run c r prev s pos caps :
  re_space c = true -> starts_with re_space s = false ->
  (forall cur, starts_with re_space (c_rest cur) = true -> run r cur = []) ->
  run (Seq Blanks r) (mkCur prev (String c s) pos caps) = run r (mkCur (Some c) s (pos + 1) caps).
Proof.
  intros Hc Hs Hr. apply (blanks_run (String c "") r prev s pos caps); [|done..]. cbn. by rewrite Hc.
Qed.

(** A captured run of a class, then something outside it. *)
Lemma group_plus_run p r prev w s pos caps :
  str_forall p w = true -> w <> "" -> starts_with p s = false ->
  (forall cur, starts_with p (c_rest cur) = true -> run r cur = []) ->
  run (Seq (Group (Plus p)) r) (mkCur prev (w +:+ s) pos caps) =
  run r (mkCur (last_char prev w) s (pos + String.length w) (caps ++ [w])).
Proof.
  intros Hw Hne Hs Hr.
  set (g := fun c : cursor => mkCur (c_prev c) (c_rest c) (c_pos c)
              (c_caps c ++ [str_take (c_pos c - pos) (w +:+ s)])).
  change (run (Seq (Group (Plus p)) r) (mkCur prev (w +:+ s) pos caps)) with
    (mbind (run r) (g <$> run (Plus p) (mkCur prev (w +:+ s) pos caps))).
  rewrite bind_after_fmap. rewrite (plus_then p (fun c => run r (g c))); [|done..|].
  - unfold g. cbn. replace (pos + String.length w - pos)%nat with (String.length w) by lia.
    by rewrite str_take_app.
  - intros cur Hcur. by apply Hr.
Qed.

Lemma search_step r prev c s pos :
  run r (mkCur prev (String c s) pos []) = [] ->
  search r prev (String c s) pos = search r (Some c) s (S pos).
Proof. intros H. cbn [search]. by rewrite H. Qed.

Ltac skip_search := repeat (rewrite search_step by reflexivity).

Lemma free_suffix c u v : free_of c (u +:+ v) = true -> free_of c v = true.
Proof. unfold free_of. rewrite str_forall_app. intros H. by bsplit. Qed.

Lemma run_quote_none r cur : starts_with not_quote (c_rest cur) = true -> run (Seq (Lit1 quote) r) cur = [].
Proof.
  intros H. apply lit1_none. destruct (c_rest cur) as [|d s]; [done|]. unfold not_quote, none_of in H.
  cbn in H. rewrite orb_false_r in H. bsplit. by rewrite Ascii.eqb_sym.
Qed.

(** *** One block *)

Definition name_of (k : Key) : string := trim_suffix "." (Name k).

(** What is between the braces. *)
Definition body_of (k : Key) : string :=
  nl +:+ tab1 +:+ "algorithm " +:+ algo_of k +:+ ";" +:+ nl +:+
  tab1 +:+ "secret " +:+ q1 +:+ Secret k +:+ q1 +:+ ";" +:+ nl.

#[global] Arguments body_of : simpl never.
#[global] Arguments name_of : simpl never.

Lemma render_key_body k rest :
  render_key k +:+ rest =
  String "k" (String "e" (String "y" (String " " (String quote
    (name_of k +:+ String quote (String " " (String "{" (body_of k +:+ String "}" (String ";" (String newline rest)))))))))).
Proof.
  unfold render_key, body_of, name_of, q1, nl, tab1. cbn. rewrite !str_app_assoc. cbn.
  rewrite !str_app_assoc. cbn. rewrite !str_app_assoc. done.
Qed.

(** A key [Render] can write and [Parse] can read: the quoted texts are not
    empty and hold no quote, the secret no closing brace, and the name does not
    end in two dots. *)
Record wf_key (k : Key) : Prop := {
  wk_name : name_of k <> "" /\ free_of quote (name_of k) = true /\ trim_suffix "." (name_of k) = name_of k;
  wk_algo : str_forall algo_char (algo_of k) = true /\ algo_of k <> "";
  wk_secret : Secret k <> "" /\ free_of quote (Secret k) = true /\ free_of "}" (Secret k) = true;
}.

Lemma algo_char_not c : algo_char c = true -> Ascii.eqb c "}" = false /\ Ascii.eqb c ";" = false /\
  Ascii.eqb c quote = false /\ re_space c = false.
Proof.
  intros H. repeat split; try (apply Ascii.eqb_neq; intros ->; discriminate).
  unfold re_space. repeat (apply orb_false_iff; split); apply Ascii.eqb_neq; intros ->; discriminate.
Qed.

Lemma body_free k : wf_key k -> free_of "}" (body_of k) = true.
Proof.
  intros [_ [Ha _] (_ & _ & Hs)]. unfold body_of, free_of.
  rewrite !str_forall_app. cbn. unfold free_of in Hs. rewrite Hs. cbn.
  rewrite (str_forall_impl algo_char _ (algo_of k)); [done| |done].
  intros c Hc. destruct (algo_char_not c Hc) as (-> & _). done.
Qed.

(** [reBlock] at the start of a rendered block: the name, then everything up
    to the first closing brace. *)
Lemma run_block k prev rest pos :
  wf_key k ->
  exists c, head (run reBlock (mkCur prev (render_key k +:+ rest) pos [])) = Some c /\
    c_caps c = [name_of k; body_of k] /\ c_rest c = String ";" (String newline rest).
Proof.
  intros Hk. destruct (wk_name k Hk) as (Hne & Hq & _). rewrite render_key_body.
  unfold reBlock, quoted, Quote.
  match goal with |- context [mkCur prev (String _ (String _ (String _ ?s))) pos _] =>
    rewrite (run_Lit "key" _ prev s pos [] : run _ (mkCur _ (String "k" (String "e" (String "y" s))) _ _) = _) end.
  rewrite blanks1_run; [|done..|].
  2: { intros cur Hcur. apply run_quote_none. destruct (c_rest cur) as [|d s]; [done|]. cbn in Hcur |- *.
       unfold not_quote, none_of. cbn. rewrite orb_false_r. apply negb_true_iff, Ascii.eqb_neq. by intros ->. }
  rewrite lit1_some. rewrite group_plus_run; [|by apply not_quote_free|done|done|].
  2: { intros cur Hcur. by apply run_quote_none. }
  rewrite lit1_some. unfold reBlock_tail.
  rewrite blank_run; [|done..|].
  2: { intros cur Hcur. apply lit1_none. destruct (c_rest cur) as [|d s]; [done|]. cbn in Hcur.
       apply Ascii.eqb_neq. by intros <-. }
  rewrite lit1_some. match goal with |- context [run _ (mkCur _ _ ?p _)] => generalize p; intros p0 end. set (text := body_of k +:+ _).
  set (g := fun c : cursor => mkCur (c_prev c) (c_rest c) (c_pos c)
              (c_caps c ++ [str_take (c_pos c - p0) text])).
  match goal with |- context [run _ (mkCur ?pv _ _ ?cs)] => set (pv0 := pv); set (caps := cs) end.
  change (run (Seq (Group (Star false any)) (Lit1 "}")) (mkCur pv0 text p0 caps)) with
    (mbind (run (Lit1 "}")) (g <$> star_at false any pv0 text p0 caps)).
  rewrite bind_after_fmap. unfold text at 1. rewrite lazy_then.
  - unfold g. cbn. rewrite step_chr_app by done. eexists. split; [done|]. cbn. split; [|done].
    replace (p0 + String.length (body_of k) - p0)%nat with (String.length (body_of k)) by lia.
    unfold text. by rewrite str_take_app.
  - intros u v prev' pos' Hbody Hv. apply lit1_last_none.
    destruct v as [|d v]; [done|]. change (Ascii.eqb "}" d = false). pose proof (body_free k Hk) as Hf. rewrite Hbody in Hf.
    apply free_suffix in Hf. cbn in Hf. bsplit. by rewrite Ascii.eqb_sym.
  - unfold g. cbn. by rewrite step_chr_app.
Qed.

(** *** The two fields of a block *)

Lemma opt_run p r cur : starts_with p (c_rest cur) = false -> run (Seq (Opt p) r) cur = run r cur.
Proof.
  intros H. cbn. unfold step_chr. destruct (c_rest cur) as [|d s]; cbn in *; [by rewrite app_nil_r|].
  rewrite H. cbn. by rewrite app_nil_r.
Qed.

Lemma blanks_none r cur : starts_with re_space (c_rest cur) = false -> run (Seq Blanks r) cur = run r cur.
Proof.
  intros H. cbn. destruct cur as [pv s pos caps]. cbn in *. destruct s as [|d s]; cbn in *; [by rewrite app_nil_r|].
  rewrite H. cbn. by rewrite app_nil_r.
Qed.

Lemma group_plus_none p r cur : starts_with p (c_rest cur) = false -> run (Seq (Group (Plus p)) r) cur = [].
Proof. intros H. cbn. unfold step_chr. destruct (c_rest cur) as [|d s]; [done|]. cbn in H. by rewrite H. Qed.

Lemma starts_excl (p q : ascii -> bool) s :
  (forall c, p c = true -> q c = false) -> starts_with p s = true -> starts_with q s = false.
Proof. intros H. destruct s; [done|]. apply H. Qed.

Lemma space_cases c : re_space c = true ->
  Ascii.eqb quote c = false /\ algo_char c = false /\ not_quote c = true /\ Ascii.eqb "{" c = false.
Proof.
  unfold re_space. intros H. repeat (apply orb_true_iff in H as [H|H]); apply Ascii.eqb_eq in H as ->; done.
Qed.

Lemma submatch_head r prev s pos c :
  head (run r (mkCur prev s pos [])) = Some c ->
  search r prev s pos = Some (mkMatch pos (c_pos c) (c_caps c) (c_prev c) (c_rest c)).
Proof. intros H. destruct s; cbn [search]; destruct (run _ _); cbn in H; by simplify_eq. Qed.

Lemma run_algo k prev rest pos :
  wf_key k ->
  exists c, run reAlgo (mkCur prev ("algorithm" +:+ String " " (algo_of k +:+ String ";" rest)) pos []) = [c] /\
    c_caps c = [algo_of k].
Proof.
  intros Hk. destruct (wk_algo k Hk) as [Ha Hne]. unfold reAlgo, OptQuote. rewrite run_Lit.
  destruct (algo_of k) as [|a w] eqn:Ek; [done|]. rewrite <- Ek in *.
  assert (Hac : algo_char a = true) by (rewrite Ek in Ha; cbn in Ha; by bsplit).
  destruct (algo_char_not a Hac) as (_ & _ & Hq & Hsp).
  rewrite blanks1_run; [|done|by rewrite Ek|].
  2: { intros cur Hc. rewrite opt_run, group_plus_none; [done|eapply starts_excl; [|done]..];
       intros c Hsc; by destruct (space_cases c Hsc) as (? & ? & _). }
  rewrite opt_run by (cbn [c_rest]; rewrite Ek; cbn [starts_with String.append]; by rewrite Ascii.eqb_sym).
  rewrite group_plus_run; [|done|by rewrite Ek|done|].
  2: { intros cur Hc. destruct (c_rest cur) as [|d s] eqn:Er; [done|].
       destruct (algo_char_not d Hc) as (_ & Hsemi & Hqd & Hspd).
       rewrite opt_run, blanks_none by (rewrite Er; cbn [starts_with]; by rewrite 1?Ascii.eqb_sym).
       apply lit1_last_none. rewrite Er. by rewrite Ascii.eqb_sym. }
  rewrite opt_run, blanks_none by done. eexists. split; [by apply step_chr_app|done].
Qed.

Lemma run_secret k prev rest pos :
  wf_key k ->
  exists c, run reSecret (mkCur prev ("secret" +:+ String " " (String quote (Secret k +:+ String quote rest))) pos []) = [c] /\
    c_caps c = [Secret k].
Proof.
  intros Hk. destruct (wk_secret k Hk) as (Hne & Hq & _). unfold reSecret, Quote. rewrite run_Lit.
  rewrite blanks1_run; [|done..|].
  2: { intros cur Hc. apply run_quote_none. destruct (c_rest cur) as [|d s]; [done|].
       cbn in Hc |- *. by destruct (space_cases d Hc) as (_ & _ & ? & _). }
  rewrite lit1_some. rewrite group_plus_run; [|by apply not_quote_free|done|done|].
  2: { intros cur Hc. apply lit1_last_none. destruct (c_rest cur) as [|d s]; [done|].
       cbn [starts_with] in Hc. unfold not_quote, none_of in Hc. apply negb_true_iff in Hc.
       cbn [str_exists] in Hc. rewrite orb_false_r in Hc. by rewrite Ascii.eqb_sym. }
  eexists. split; [by apply step_chr_app|done].
Qed.

(** [word\s+...] does not start inside an algorithm name. *)
Lemma lit_blanks_none w r v t prev pos caps :
  str_forall algo_char w = true -> str_forall algo_char v = true ->
  run (Lit w (Seq Blanks1 r)) (mkCur prev (v +:+ String ";" t) pos caps) = [].
Proof.
  revert v prev pos. induction w as [|c w IH]; intros v prev pos Hw Hv.
  - assert (Hs : starts_with re_space (v +:+ String ";" t) = false).
    { destruct v as [|d v]; [done|]. cbn in Hv. bsplit. cbn. by destruct (algo_char_not d) as (_ & _ & _ & ?). }
    cbn. unfold step_chr. destruct (v +:+ String ";" t) as [|d s]; [done|]. cbn in Hs |- *. by rewrite Hs.
  - cbn in Hw. bsplit. change (Lit (String c w) (Seq Blanks1 r)) with (Seq (Lit1 c) (Lit w (Seq Blanks1 r))).
    destruct v as [|d v].
    + apply lit1_none. cbn [c_rest String.append]. by destruct (algo_char_not c) as (_ & ? & _).
    + cbn in Hv. bsplit. destruct (Ascii.eqb_spec c d) as [->|Hne].
      * rewrite str_app_cons, lit1_some. by apply IH.
      * apply lit1_none. cbn [c_rest]. by apply Ascii.eqb_neq.
Qed.

Lemma body_text k :
  body_of k = String newline (String tab ("algorithm" +:+ String " " (algo_of k +:+
    String ";" (String newline (String tab ("secret" +:+ String " " (String quote
      (Secret k +:+ String quote (String ";" (String newline "")))))))))).
Proof.
  unfold body_of, q1, nl, tab1. cbn. rewrite ?str_app_assoc. cbn. rewrite ?str_app_assoc. done.
Qed.

Lemma submatch_algo k : wf_key k -> submatch reAlgo (body_of k) = Some (algo_of k).
Proof.
  intros Hk. unfold submatch, find. rewrite body_text. do 2 rewrite search_step by reflexivity.
  destruct (run_algo k (Some tab) (String newline (String tab ("secret" +:+ String " " (String quote
      (Secret k +:+ String quote (String ";" (String newline ""))))))) 2 Hk) as (c & Hr & Hc).
  rewrite (submatch_head _ _ _ _ c) by (by rewrite Hr). cbn. by rewrite Hc.
Qed.

Lemma submatch_secret k : wf_key k -> submatch reSecret (body_of k) = Some (Secret k).
Proof.
  intros Hk. unfold submatch, find. rewrite body_text. change ("algorithm" +:+ ?s) with (String "a" ("lgorithm" +:+ s)).
  cbn [String.append]. do 12 rewrite search_step by reflexivity.
  destruct (wk_algo k Hk) as [Ha _].
  rewrite search_skip; [rewrite search_step by reflexivity|].
  2: { intros u v prev pos Hw Hv. apply lit_blanks_none; [done|]. rewrite Hw, str_forall_app in Ha. by bsplit. }
  do 2 rewrite search_step by reflexivity.
  match goal with |- context [search reSecret ?pv _ ?p] =>
    destruct (run_secret k pv (String ";" (String newline "")) p Hk) as (c & Hr & Hc) end.
  pose proof (submatch_head _ _ _ _ c (f_equal head Hr)) as Hs. cbn [String.append] in Hs.
  rewrite Hs. cbn. by rewrite Hc.
Qed.

(** *** The whole file *)

Definition normal (k : Key) : Key := mkKey (name_of k) (algo_of k) (Secret k).

Definition render_blocks (keys : list Key) : string := foldr (fun k s => render_key k +:+ s) "" keys.

Lemma find_all_skip r prev w s pos fuel :
  search r prev (w +:+ s) pos = search r (last_char prev w) s (pos + String.length w) ->
  find_all_from (S fuel) r prev (w +:+ s) pos =
  find_all_from (S fuel) r (last_char prev w) s (pos + String.length w).
Proof. intros H. cbn [find_all_from]. by rewrite H. Qed.

Lemma Parse_block_caps k m : wf_key k -> m_caps m = [name_of k; body_of k] -> Parse_block m = normal k.
Proof.
  intros Hk Hm. unfold Parse_block. rewrite Hm.
  change (mkKey (trim_suffix "." (name_of k)) (default "" (submatch reAlgo (body_of k)))
            (default "" (submatch reSecret (body_of k))) = normal k). unfold normal.
  rewrite submatch_algo, submatch_secret by done. cbn. by destruct (wk_name k Hk) as (_ & _ & ->).
Qed.

Lemma find_blocks keys prev pos fuel :
  Forall wf_key keys -> (length keys < fuel)%nat ->
  Parse_block <$> find_all_from fuel reBlock prev (render_blocks keys) pos = normal <$> keys.
Proof.
  intros Hk. revert prev pos fuel. induction Hk as [|k keys Hk _ IH]; intros prev pos fuel Hf;
    (destruct fuel as [|fuel]; [cbn in Hf; lia|]); [done|].
  destruct (run_block k prev (render_blocks keys) pos Hk) as (c & Hc & Hcaps & Hrest).
  cbn [find_all_from render_blocks foldr]. fold (render_blocks keys).
  rewrite (submatch_head _ _ _ _ c Hc). cbn [m_prev m_rest m_end]. rewrite Hrest, !fmap_cons. f_equal.
  - by apply Parse_block_caps.
  - destruct fuel as [|fuel]; [cbn in Hf; lia|].
    change (String ";" (String newline ?s)) with (String ";" (String newline "") +:+ s).
    rewrite find_all_skip by (cbn [String.append last_char String.length]; rewrite Nat.add_comm;
      do 2 rewrite search_step by reflexivity; done).
    apply IH. cbn in Hf. lia.
Qed.

Lemma length_blocks keys : (length keys <= String.length (render_blocks keys))%nat.
Proof.
  induction keys as [|k keys IH]; [done|]. cbn [render_blocks foldr length]. fold (render_blocks keys).
  rewrite str_length_app. unfold render_key. cbn [String.append String.length]. lia.
Qed.

Lemma parse_render_lemma keys : Forall wf_key keys -> Parse (Render keys) = normal <$> keys.
Proof.
  intros Hk. unfold Parse, find_all, Render. fold (render_blocks keys).
  rewrite find_all_skip by (unfold header, nl; cbn [String.append last_char String.length];
    rewrite ?Nat.add_succ_r; skip_search; f_equal; lia).
  apply find_blocks; [done|]. pose proof (length_blocks keys). rewrite str_length_app. lia.
Qed.

(** C23: reading back a rendered keyring gives the same keys, in order:
    names without their trailing dot, the default algorithm written out. The
    keys are ones the file can hold ([wf_key]): no part of a key is empty, names and
    secrets hold no quote, secrets no closing brace, algorithms only the
    characters of the parser's pattern, and a name does not end in two
    dots. *)
Theorem parse_render keys : Forall wf_key keys -> Parse (Render keys) = normal <$> keys.
Proof. apply parse_render_lemma. Qed.

(** ** The rewrite of the file *)

Section write.
Context (fault : nat -> option string) (tempname : nat -> string -> string) (euid egid : Z) (path : string).
Hypothesis temp_fresh : forall t dir, tempname t dir <> path.

(** A regular file keeps its mode, or gets 0640 when it could not be read. *)
Definition keeps_mode (fs0 : files) (m : Z) : Prop :=
  forall d m0 u0 g0, fs0 !! path = Some (Reg d m0 u0 g0) -> m = m0 \/ m = 416.

Definition written (fs0 : files) (keys : list Key) (fs : files) : Prop :=
  (exists m u g, fs !! path = Some (Reg (Render keys) m u g) /\ keeps_mode fs0 m) /\
  exists tmp, forall p, p <> tmp -> p <> path -> fs !! p = fs0 !! p.

Lemma hoare_Stat_staged {E} fs0 tmp data Attr X :
  tmp <> path ->
  hoare (staged fs0 tmp data Attr) (attempt (E' := E) (Stat fault path))
    (fun r fs => match r with
                 | Ok n => forall d m u g, fs0 !! path = Some (Reg d m u g) -> n = Reg d m u g
                 | Err _ => True
                 end /\ staged fs0 tmp data Attr fs) X.
Proof.
  intros Hne. eapply hoare_conseq; [apply (hoare_attempt _ _
    (fun n fs => (forall d m u g, fs0 !! path = Some (Reg d m u g) -> n = Reg d m u g) /\ staged fs0 tmp data Attr fs)
    (fun _ => staged fs0 tmp data Attr) X)|done| |done].
  - apply hoare_syscall; [done|]. intros fs n fs' Hs H. destruct (resolve_link fs path) eqn:E0; simplify_eq.
    split; [|done]. intros d m u g Hreg. unfold resolve_link in E0. rewrite (proj1 Hs path), Hreg in E0 by done.
    by injection E0.
  - intros [n|e] fs; [done|]. by split.
Qed.

Lemma hoare_WriteFile keys fs0 :
  hoare (fun fs => fs = fs0) (WriteFile fault tempname euid egid path keys)
    (fun _ => written fs0 keys) (fun _ => untouched_but_tmp path fs0).
Proof.
  unfold WriteFile. eapply hoare_bind; [by apply (hoare_CreateTemp_for _ _ _ _ _ path)|]. cbn beta.
  intros tmp. apply hoare_pure. intros Hne.
  apply (hoare_deferred _ _ _
    (fun _ fs => (exists m u g, fs !! path = Some (Reg (Render keys) m u g) /\ keeps_mode fs0 m) /\
                 (forall p, p <> tmp -> p <> path -> fs !! p = fs0 !! p)) _ (fun _ => framed fs0 tmp)).
  - eapply hoare_bind; [apply hoare_or_close, hoare_write_at|]. intros ?; cbn beta.
    eapply hoare_bind; [apply hoare_or_close, hoare_read; [intros; by simplify_eq|intros e; apply staged_framed]|]. intros ?; cbn beta.
    eapply hoare_bind; [apply hoare_read; [intros; by simplify_eq|intros e; apply staged_framed]|]. intros ?; cbn beta.
    eapply hoare_bind; [by apply hoare_Stat_staged|]. intros st. apply hoare_pure. intros Hst.
    eapply (hoare_bind _ _ _ (fun mode fs => keeps_mode fs0 mode /\ staged fs0 tmp (Render keys) (fun _ _ _ => True) fs)).
    + assert (Hany : forall Attr fs, staged fs0 tmp ("" +:+ Render keys) Attr fs ->
                staged fs0 tmp (Render keys) (fun _ _ _ => True) fs)
        by (intros Attr fs [? (m & u & g & ? & ?)]; split; eauto 10).
      assert (Hdef : forall fs Attr, staged fs0 tmp ("" +:+ Render keys) Attr fs ->
                keeps_mode fs0 416 /\ staged fs0 tmp (Render keys) (fun _ _ _ => True) fs)
        by (intros fs Attr H; split; [by right|by eapply Hany]).
      destruct st as [[d m u g|t]|e]; [|by intros w Hw; eapply Hdef..].
      eapply hoare_bind; [apply (hoare_ignore _ _ (staged fs0 tmp (Render keys) (fun _ _ _ => True)))|].
      * intros w Hw. pose proof (hoare_Chown fault fs0 tmp _ u g _ w Hw) as H.
        destruct (Chown fault tmp u g w) as [[[]|e] w1] eqn:E; [by eapply Hany|].
        unfold Chown, syscall in E. destruct (fault (w_tick w)); [injection E as _ <-; by eapply Hany|].
        destruct Hw as [_ (m1 & u1 & g1 & Hn & _)]. cbn in E. rewrite Hn in E. done.
      * intros ?. apply hoare_conseq with (P' := fun fs => keeps_mode fs0 m /\ staged fs0 tmp (Render keys) (fun _ _ _ => True) fs)
          (Q' := fun mode fs => keeps_mode fs0 mode /\ staged fs0 tmp (Render keys) (fun _ _ _ => True) fs) (X' := fun _ => framed fs0 tmp);
          [apply (hoare_ret m (fun mode fs => keeps_mode fs0 mode /\ staged fs0 tmp (Render keys) (fun _ _ _ => True) fs))| |done..].
        intros fs H. split; [|done]. intros d0 m0 u0 g0 H0. left. by injection (Hst _ _ _ _ H0).
    + intros mode. apply hoare_pure. intros Hmode.
      eapply hoare_bind; [apply hoare_Chmod|]. intros ?; cbn beta.
      eapply hoare_conseq; [by apply hoare_Rename_staged|done| |done].
      intros _ fs [(m & u & g & Hn & -> & _) Hoth]. split; [|done]. by eauto 10.
  - intros w [] [(m & u & g & Hn & Hm) Hoth]. split.
    + exists m, u, g. rewrite remove_tmp by done. done.
    + exists tmp. intros p Hp1 Hp2. rewrite remove_tmp by done. by apply Hoth.
  - intros w e Hf. exists tmp. split; [done|]. intros p Hp. rewrite remove_tmp by done. by apply Hf.
Qed.

(** C19: rewriting the keyring is atomic, whatever system call fails: on
    success the file holds exactly the rendered keys, with the mode it had
    (or 0640); on an error it is the file there was before. No other file
    changes, but for the temporary one. *)
Theorem WriteFile_atomic keys w r w' :
  WriteFile fault tempname euid egid path keys w = (r, w') ->
  match r with
  | Ok _ => written (w_files w) keys (w_files w')
  | Err _ => w_files w' !! path = w_files w !! path /\ untouched_but_tmp path (w_files w) (w_files w')
  end.
Proof.
  intros H. pose proof (hoare_WriteFile keys (w_files w) w eq_refl) as Hh. rewrite H in Hh.
  destruct r; [done|]. split; [|done]. destruct Hh as (tmp & Hne & Hf). by apply Hf.
Qed.

End write.

(** ** Witnesses *)

Module TsigExample.

Definition keys : list Key := [mkKey "ddns-update." "" "c2VjcmV0"; mkKey "acme" "hmac-sha512" "eHl6"].
Definition no_fault : nat -> option string := fun _ => None.
Definition temp (t : nat) (dir : string) : string := "/etc/goddns/.tsig-1.tmp".
Definition path : string := "/etc/goddns/tsig.key".
Definition w0 : world := mkWorld {[path := Reg "old" 288 1 2]} 0 [] no_open.
Definition out := WriteFile no_fault temp 0 0 path keys w0.

Lemma parse_render_witness : Parse (Render keys) = normal <$> keys.
Proof.
  assert (H : Forall wf_key keys) by (repeat constructor; vm_compute; congruence).
  exact (parse_render keys H).
Defined.

Lemma WriteFile_atomic_witness : written path (w_files w0) keys (w_files out.2).
Proof.
  assert (Hfresh : forall t dir, temp t dir <> path) by (intros; discriminate).
  assert (H : WriteFile no_fault temp 0 0 path keys w0 = (Ok tt, out.2)) by (vm_compute; reflexivity).
  exact (WriteFile_atomic no_fault temp 0 0 path Hfresh keys w0 (Ok tt) out.2 H).
Defined.

End TsigExample.
