(* ===== verification/Config.v ===== *)
(** * Config: loading and validating goddns.conf

    [internal/config]. The TOML decoder and Go's URL parser are parameters;
    what is modelled is everything [Load] does with what they return: the
    environment overrides, the TSIG keyring, the merge of the proxy.d
    fragments, normalisation and validation, and the two questions the serve
    loop asks of a loaded configuration. *)

From Stdlib Require Import String Ascii.
From S2P Require Import Prelude GoStrings NetIP Regex FS.
From S2P Require Tsig.

(** [proxy."host"] rules. *)
Record ProxyRule := mkRule {
  Upstream : string; UpstreamVerify : bool; PreserveHost : bool; BMCCompat : bool;
  ConsolePorts : list Z; Allow : list string; RateLimit : Z; BasicAuth : list string
}.

Record AdminConfig := mkAdmin {
  Enabled : bool; Host : string; AdminAllow : list string; AdminBasicAuth : list string;
  Users : list string; SessionTTL : Z; allowNets : list ipnet
}.

Record Config := mkConfig {
  Listen : string; DBPath : string; ReloadInterval : Z; LogFile : string; AccessLog : string;
  PublicHost : string; NamedConf : string; HistoryInterval : Z; HistoryKeep : Z; TLSMode : string;
  CertFile : string; KeyFile : string; ACMEDomain : string; ACMEEmail : string; ACMECA : string;
  ACMEStorage : string; ACMETSIGName : string; ACMETSIGAlgo : string; ACMETSIGSecret : string;
  DNSServer : string; TSIGName : string; TSIGAlgo : string; TSIGSecret : string; TSIGKeysFile : string;
  TrustedProxies : list string; EditableZones : list string; ZonedSocket : string; ProxyEnabled : bool;
  ProxyListen : string; ProxyRedirectListen : string; Proxy : gmap string ProxyRule;
  Admin : AdminConfig; trustedNets : list ipnet; tsigKeys : list Tsig.Key
}.

#[export] Instance rule_eq_dec : EqDecision ProxyRule.
Proof. solve_decision. Defined.

(** ** Field updates *)

Definition set_TSIGSecret (v : string) (c : Config) : Config :=
  mkConfig c.(Listen) c.(DBPath) c.(ReloadInterval) c.(LogFile) c.(AccessLog) c.(PublicHost)
    c.(NamedConf) c.(HistoryInterval) c.(HistoryKeep) c.(TLSMode) c.(CertFile) c.(KeyFile)
    c.(ACMEDomain) c.(ACMEEmail) c.(ACMECA) c.(ACMEStorage) c.(ACMETSIGName) c.(ACMETSIGAlgo)
    c.(ACMETSIGSecret) c.(DNSServer) c.(TSIGName) c.(TSIGAlgo) v c.(TSIGKeysFile) c.(TrustedProxies)
    c.(EditableZones) c.(ZonedSocket) c.(ProxyEnabled) c.(ProxyListen) c.(ProxyRedirectListen) c.(Proxy)
    c.(Admin) c.(trustedNets) c.(tsigKeys).

Definition set_ACMETSIGSecret (v : string) (c : Config) : Config :=
  mkConfig c.(Listen) c.(DBPath) c.(ReloadInterval) c.(LogFile) c.(AccessLog) c.(PublicHost)
    c.(NamedConf) c.(HistoryInterval) c.(HistoryKeep) c.(TLSMode) c.(CertFile) c.(KeyFile)
    c.(ACMEDomain) c.(ACMEEmail) c.(ACMECA) c.(ACMEStorage) c.(ACMETSIGName) c.(ACMETSIGAlgo) v
    c.(DNSServer) c.(TSIGName) c.(TSIGAlgo) c.(TSIGSecret) c.(TSIGKeysFile) c.(TrustedProxies)
    c.(EditableZones) c.(ZonedSocket) c.(ProxyEnabled) c.(ProxyListen) c.(ProxyRedirectListen) c.(Proxy)
    c.(Admin) c.(trustedNets) c.(tsigKeys).

Definition set_keyring (keys : list Tsig.Key) (secret : string) (algo : string) (c : Config) : Config :=
  mkConfig c.(Listen) c.(DBPath) c.(ReloadInterval) c.(LogFile) c.(AccessLog) c.(PublicHost)
    c.(NamedConf) c.(HistoryInterval) c.(HistoryKeep) c.(TLSMode) c.(CertFile) c.(KeyFile)
    c.(ACMEDomain) c.(ACMEEmail) c.(ACMECA) c.(ACMEStorage) c.(ACMETSIGName) c.(ACMETSIGAlgo)
    c.(ACMETSIGSecret) c.(DNSServer) c.(TSIGName) algo secret c.(TSIGKeysFile) c.(TrustedProxies)
    c.(EditableZones) c.(ZonedSocket) c.(ProxyEnabled) c.(ProxyListen) c.(ProxyRedirectListen) c.(Proxy)
    c.(Admin) c.(trustedNets) keys.

Definition set_acme_key (name : string) (algo : string) (secret : string) (c : Config) : Config :=
  mkConfig c.(Listen) c.(DBPath) c.(ReloadInterval) c.(LogFile) c.(AccessLog) c.(PublicHost)
    c.(NamedConf) c.(HistoryInterval) c.(HistoryKeep) c.(TLSMode) c.(CertFile) c.(KeyFile)
    c.(ACMEDomain) c.(ACMEEmail) c.(ACMECA) c.(ACMEStorage) name algo secret c.(DNSServer) c.(TSIGName)
    c.(TSIGAlgo) c.(TSIGSecret) c.(TSIGKeysFile) c.(TrustedProxies) c.(EditableZones) c.(ZonedSocket)
    c.(ProxyEnabled) c.(ProxyListen) c.(ProxyRedirectListen) c.(Proxy) c.(Admin) c.(trustedNets)
    c.(tsigKeys).

Definition set_key_names (name : string) (acme : string) (c : Config) : Config :=
  mkConfig c.(Listen) c.(DBPath) c.(ReloadInterval) c.(LogFile) c.(AccessLog) c.(PublicHost)
    c.(NamedConf) c.(HistoryInterval) c.(HistoryKeep) c.(TLSMode) c.(CertFile) c.(KeyFile)
    c.(ACMEDomain) c.(ACMEEmail) c.(ACMECA) c.(ACMEStorage) acme c.(ACMETSIGAlgo) c.(ACMETSIGSecret)
    c.(DNSServer) name c.(TSIGAlgo) c.(TSIGSecret) c.(TSIGKeysFile) c.(TrustedProxies) c.(EditableZones)
    c.(ZonedSocket) c.(ProxyEnabled) c.(ProxyListen) c.(ProxyRedirectListen) c.(Proxy) c.(Admin)
    c.(trustedNets) c.(tsigKeys).

Definition set_trustedNets (v : list ipnet) (c : Config) : Config :=
  mkConfig c.(Listen) c.(DBPath) c.(ReloadInterval) c.(LogFile) c.(AccessLog) c.(PublicHost)
    c.(NamedConf) c.(HistoryInterval) c.(HistoryKeep) c.(TLSMode) c.(CertFile) c.(KeyFile)
    c.(ACMEDomain) c.(ACMEEmail) c.(ACMECA) c.(ACMEStorage) c.(ACMETSIGName) c.(ACMETSIGAlgo)
    c.(ACMETSIGSecret) c.(DNSServer) c.(TSIGName) c.(TSIGAlgo) c.(TSIGSecret) c.(TSIGKeysFile)
    c.(TrustedProxies) c.(EditableZones) c.(ZonedSocket) c.(ProxyEnabled) c.(ProxyListen)
    c.(ProxyRedirectListen) c.(Proxy) c.(Admin) v c.(tsigKeys).

Definition set_ProxyListen (v : string) (c : Config) : Config :=
  mkConfig c.(Listen) c.(DBPath) c.(ReloadInterval) c.(LogFile) c.(AccessLog) c.(PublicHost)
    c.(NamedConf) c.(HistoryInterval) c.(HistoryKeep) c.(TLSMode) c.(CertFile) c.(KeyFile)
    c.(ACMEDomain) c.(ACMEEmail) c.(ACMECA) c.(ACMEStorage) c.(ACMETSIGName) c.(ACMETSIGAlgo)
    c.(ACMETSIGSecret) c.(DNSServer) c.(TSIGName) c.(TSIGAlgo) c.(TSIGSecret) c.(TSIGKeysFile)
    c.(TrustedProxies) c.(EditableZones) c.(ZonedSocket) c.(ProxyEnabled) v c.(ProxyRedirectListen)
    c.(Proxy) c.(Admin) c.(trustedNets) c.(tsigKeys).

Definition set_Proxy (v : gmap string ProxyRule) (c : Config) : Config :=
  mkConfig c.(Listen) c.(DBPath) c.(ReloadInterval) c.(LogFile) c.(AccessLog) c.(PublicHost)
    c.(NamedConf) c.(HistoryInterval) c.(HistoryKeep) c.(TLSMode) c.(CertFile) c.(KeyFile)
    c.(ACMEDomain) c.(ACMEEmail) c.(ACMECA) c.(ACMEStorage) c.(ACMETSIGName) c.(ACMETSIGAlgo)
    c.(ACMETSIGSecret) c.(DNSServer) c.(TSIGName) c.(TSIGAlgo) c.(TSIGSecret) c.(TSIGKeysFile)
    c.(TrustedProxies) c.(EditableZones) c.(ZonedSocket) c.(ProxyEnabled) c.(ProxyListen)
    c.(ProxyRedirectListen) v c.(Admin) c.(trustedNets) c.(tsigKeys).

Definition set_Admin (v : AdminConfig) (c : Config) : Config :=
  mkConfig c.(Listen) c.(DBPath) c.(ReloadInterval) c.(LogFile) c.(AccessLog) c.(PublicHost)
    c.(NamedConf) c.(HistoryInterval) c.(HistoryKeep) c.(TLSMode) c.(CertFile) c.(KeyFile)
    c.(ACMEDomain) c.(ACMEEmail) c.(ACMECA) c.(ACMEStorage) c.(ACMETSIGName) c.(ACMETSIGAlgo)
    c.(ACMETSIGSecret) c.(DNSServer) c.(TSIGName) c.(TSIGAlgo) c.(TSIGSecret) c.(TSIGKeysFile)
    c.(TrustedProxies) c.(EditableZones) c.(ZonedSocket) c.(ProxyEnabled) c.(ProxyListen)
    c.(ProxyRedirectListen) c.(Proxy) v c.(trustedNets) c.(tsigKeys).

(** ** Parameters and errors *)

(** What the program reads of a parsed URL; [u_User]: it names a user. *)
Record url := mkUrl {
  u_Scheme : string; u_Host : string; u_User : bool;
  u_Path : string; u_RawQuery : string; u_Fragment : string
}.

(** Third-party and environment: the TOML decoder (into a configuration that
    already holds the defaults, with the keys it did not recognise; and of a
    fragment's proxy table), [url.Parse], the environment, and the files. *)
Class Env := {
  toml_config : string -> Config -> result string (Config * list string);
  toml_proxy : string -> result string (gmap string ProxyRule * list string);
  url_parse : string -> option url;
  getenv : string -> string;
  read_file : string -> result io_error string;
  glob_conf : string -> list string;
}.

Inductive config_error :=
| ErrRead (path : string) (e : io_error)
| ErrToml (path why : string)
| ErrUnknownKeys (path : string) (keys : list string)
| ErrKeysFile (e : io_error)
| ErrNoKey (name : string)
| ErrNoSecret (name : string)
| ErrTLS (mode : string)
| ErrTrusted (cidr : string)
| ErrFragmentKeys (path : string) (keys : list string)
| ErrFragmentDup (path host : string)
| ErrHostKey (host : string)
| ErrHostDup (host : string)
| ErrUpstream (host : string)
| ErrAllow (host cidr : string)
| ErrBasicAuth (host : string)
| ErrConsolePort (host : string) (port : Z)
| ErrAdmin (why : string).

Definition TLSFiles : string := "files".
Definition TLSACME : string := "acme".
Definition TLSHybrid : string := "hybrid".

Definition defaults : Config :=
  mkConfig ":8245" "/var/lib/goddns/goddns.db" 20 "" "" "" "/etc/named.conf" 300 50 TLSFiles "" ""
    "" "" "" "/var/lib/goddns/acme" "" "" "" "127.0.0.1:53" "ddns-update" "hmac-sha256" "" ""
    [] [] "" false "" "" ∅ (mkAdmin false "" [] [] [] 0 []) [] [].

Section load.
Context {E : Env}.

Definition canonKeyName (s : string) : string :=
  let s := trim_space s in
  if negb (String.eqb s "") && negb (has_suffix "." s) then s +:+ "." else s.

(** Fold a list of checks, stopping at the first error. *)
Fixpoint each {A} (f : A -> result config_error unit) (l : list A) : result config_error unit :=
  match l with [] => Ok tt | x :: l' => _ ← f x; each f l' end.

Fixpoint parse_nets (err : string -> config_error) (l : list string) : result config_error (list ipnet) :=
  match l with
  | [] => Ok []
  | cidr :: l' =>
      match ParseCIDR (trim_space cidr) with
      | None => Err (err cidr)
      | Some n => ns ← parse_nets err l'; Ok (n :: ns)
      end
  end.

(** The file (missing: pure defaults), with unrecognised keys refused. *)
Definition load_file (path : string) : result config_error Config :=
  if String.eqb path "" then Ok defaults
  else match read_file path with
       | Err ENOENT => Ok defaults
       | Err e => Err (ErrRead path e)
       | Ok text =>
           match toml_config text defaults with
           | Err e => Err (ErrToml path e)
           | Ok (c, undec) => _ ← guard_or (length undec =? 0)%nat (ErrUnknownKeys path undec); Ok c
           end
       end.

Definition load_env (c : Config) : Config :=
  let c := if String.eqb (getenv "GODDNS_TSIG_SECRET") "" then c
           else set_TSIGSecret (getenv "GODDNS_TSIG_SECRET") c in
  if String.eqb (getenv "GODDNS_ACME_TSIG_SECRET") "" then c
  else set_ACMETSIGSecret (getenv "GODDNS_ACME_TSIG_SECRET") c.

(** The keyring is the source of truth when it is configured. *)
Definition load_keys (c : Config) : result config_error Config :=
  if String.eqb c.(TSIGKeysFile) "" then Ok c
  else match read_file c.(TSIGKeysFile) with
       | Err e => Err (ErrKeysFile e)
       | Ok data =>
           let keys := Tsig.Parse data in
           match Tsig.Find keys c.(TSIGName) with
           | None => Err (ErrNoKey c.(TSIGName))
           | Some k =>
               _ ← guard_or (negb (String.eqb (Tsig.Secret k) "")) (ErrNoSecret c.(TSIGName));
               Ok (set_keyring keys (Tsig.Secret k)
                     (if String.eqb (Tsig.Algo k) "" then c.(TSIGAlgo) else Tsig.Algo k) c)
           end
       end.

Definition or_else (a b : string) : string := if String.eqb a "" then b else a.

Definition acme_defaults (c : Config) : Config :=
  let c := set_acme_key (or_else c.(ACMETSIGName) c.(TSIGName)) (or_else c.(ACMETSIGAlgo) c.(TSIGAlgo))
             (or_else c.(ACMETSIGSecret) c.(TSIGSecret)) c in
  set_key_names (canonKeyName c.(TSIGName)) (canonKeyName c.(ACMETSIGName)) c.

Definition check_tls (c : Config) : result config_error unit :=
  let pair := negb (String.eqb c.(CertFile) "" || String.eqb c.(KeyFile) "") in
  if String.eqb c.(TLSMode) TLSFiles then guard_or pair (ErrTLS c.(TLSMode))
  else if String.eqb c.(TLSMode) TLSACME then
    guard_or (negb (String.eqb c.(ACMEDomain) "")) (ErrTLS c.(TLSMode))
  else if String.eqb c.(TLSMode) TLSHybrid then guard_or pair (ErrTLS c.(TLSMode))
  else Err (ErrTLS c.(TLSMode)).

(** *** proxy.d fragments *)

Fixpoint merge_rules (path : string) (rules : list (string * ProxyRule)) (acc : gmap string ProxyRule)
  : result config_error (gmap string ProxyRule) :=
  match rules with
  | [] => Ok acc
  | (host, rule) :: rules' =>
      match acc !! host with
      | Some _ => Err (ErrFragmentDup path host)
      | None => merge_rules path rules' (<[host := rule]> acc)
      end
  end.

Fixpoint merge_files (fs : list string) (acc : gmap string ProxyRule)
  : result config_error (gmap string ProxyRule) :=
  match fs with
  | [] => Ok acc
  | f :: fs' =>
      match read_file f with
      | Err e => Err (ErrRead f e)
      | Ok text =>
          match toml_proxy text with
          | Err e => Err (ErrToml f e)
          | Ok (rules, undec) =>
              _ ← guard_or (length undec =? 0)%nat (ErrFragmentKeys f undec);
              acc' ← merge_rules f (map_to_list rules) acc;
              merge_files fs' acc'
          end
      end
  end.

Definition mergeProxyFragments (c : Config) (dir : string) : result config_error Config :=
  p ← merge_files (sort_strings (glob_conf (Join [dir; "proxy.d"]))) c.(Proxy);
  Ok (set_Proxy p c).

(** *** Validation of the rules *)

Definition host_chars_ok (h : string) : bool :=
  negb (String.eqb h "") && negb (contains_any h ("/: " +:+ String tab "")).

Definition upstream_ok (s : string) : bool :=
  match url_parse s with
  | None => false
  | Some u => negb (String.eqb (u_Host u) "") && negb (u_User u) &&
              (String.eqb (u_Scheme u) "http" || String.eqb (u_Scheme u) "https")
  end.

Definition cidr_ok (s : string) : bool :=
  match ParseCIDR (trim_space s) with Some _ => true | None => false end.

(** user:bcrypt-hash *)
Definition cred_ok (s : string) : bool :=
  match cut ":" s with
  | Some (user, hash) => negb (String.eqb user "") && has_prefix "$2" hash
  | None => false
  end.

Definition listen_port (listen : string) : string :=
  match SplitHostPort listen with Some (_, p) => p | None => "" end.

Definition port_ok (pl_port : string) (p : Z) : bool :=
  (1 <=? p) && (p <=? 65535) && negb (String.eqb (format_int p) pl_port).

Definition check_rule (listen h : string) (r : ProxyRule) : result config_error unit :=
  _ ← guard_or (upstream_ok (Upstream r)) (ErrUpstream h);
  _ ← each (fun cidr => guard_or (cidr_ok cidr) (ErrAllow h cidr)) (Allow r);
  _ ← each (fun cred => guard_or (cred_ok cred) (ErrBasicAuth h)) (BasicAuth r);
  each (fun p => guard_or (port_ok (listen_port listen) p) (ErrConsolePort h p)) (ConsolePorts r).

Fixpoint normalise_rules (listen : string) (rules : list (string * ProxyRule)) (norm : gmap string ProxyRule)
  : result config_error (gmap string ProxyRule) :=
  match rules with
  | [] => Ok norm
  | (host, rule) :: rules' =>
      let h := norm_name host in
      _ ← guard_or (host_chars_ok h) (ErrHostKey host);
      match norm !! h with
      | Some _ => Err (ErrHostDup h)
      | None => _ ← check_rule listen h rule; normalise_rules listen rules' (<[h := rule]> norm)
      end
  end.

(** *** The admin vhost *)

Definition admin_cred_ok (s : string) : bool :=
  match cut ":" s with
  | Some (user, hash) =>
      negb (String.eqb user "") && has_prefix "$2" hash && negb (contains_any user ("| " +:+ String tab ""))
  | None => false
  end.

Definition check_admin (c : Config) : result config_error Config :=
  let a := c.(Admin) in
  if negb (Enabled a) then Ok c
  else
    _ ← guard_or c.(ProxyEnabled) (ErrAdmin "proxy_enabled");
    let host := norm_name (Host a) in
    _ ← guard_or (host_chars_ok host) (ErrAdmin "host");
    _ ← guard_or (match c.(Proxy) !! host with Some _ => false | None => true end) (ErrAdmin "dup");
    _ ← guard_or (negb (length (Users a) =? 0)%nat) (ErrAdmin "users");
    _ ← each (fun cred => guard_or (admin_cred_ok cred) (ErrAdmin "cred")) (Users a ++ AdminBasicAuth a);
    nets ← parse_nets (fun _ => ErrAdmin "allow") (AdminAllow a);
    Ok (set_Admin (mkAdmin true host (AdminAllow a) (AdminBasicAuth a) (Users a)
          (if SessionTTL a <=? 0 then 8 else SessionTTL a) (allowNets a ++ nets)) c).

Definition Load (path : string) : result config_error Config :=
  c ← load_file path;
  c ← load_keys (load_env c);
  let c := acme_defaults c in
  _ ← check_tls c;
  nets ← parse_nets ErrTrusted c.(TrustedProxies);
  let c := set_trustedNets (c.(trustedNets) ++ nets) c in
  let c := set_ProxyListen (or_else c.(ProxyListen) ":443") c in
  c ← (if String.eqb path "" then Ok c else mergeProxyFragments c (Dir path));
  p ← normalise_rules c.(ProxyListen) (map_to_list c.(Proxy)) ∅;
  check_admin (set_Proxy p c).

End load.

(** ** Questions to a loaded configuration *)

Definition IsTrusted (c : Config) (ip : addr) : bool := existsb (fun n => Contains n ip) c.(trustedNets).

Definition IsAllowed (a : AdminConfig) (ip : option addr) : bool :=
  match allowNets a with
  | [] => true
  | ns => existsb (fun n => match ip with Some i => Contains n i | None => false end) ns
  end.

Definition all_console_ports (c : Config) : list Z :=
  p ← map_to_list c.(Proxy); ConsolePorts p.2.

(** The distinct ports, ascending. *)
Definition console_ports (c : Config) : list Z :=
  sort_by Z.ltb (elements (list_to_set (all_console_ports c) : gset Z)).

Definition ProxyHosts (c : Config) : list string := sort_strings (fst <$> map_to_list c.(Proxy)).

Definition NeedsRestart (c old : Config) : list string :=
  let ne a b := negb (String.eqb a b) in
  let files := String.eqb c.(TLSMode) TLSFiles || String.eqb c.(TLSMode) TLSHybrid in
  let acme := String.eqb c.(TLSMode) TLSACME || String.eqb c.(TLSMode) TLSHybrid in
  (if ne c.(Listen) old.(Listen) then ["listen"] else []) ++
  (if ne c.(TLSMode) old.(TLSMode) then ["tls_mode"] else []) ++
  (if files && (ne c.(CertFile) old.(CertFile) || ne c.(KeyFile) old.(KeyFile)) then ["cert_file/key_file"] else []) ++
  (if acme && (ne c.(ACMEDomain) old.(ACMEDomain) || ne c.(ACMECA) old.(ACMECA) ||
               ne c.(ACMEEmail) old.(ACMEEmail) || ne c.(ACMEStorage) old.(ACMEStorage) ||
               ne c.(ACMETSIGName) old.(ACMETSIGName) || ne c.(ACMETSIGAlgo) old.(ACMETSIGAlgo) ||
               ne c.(ACMETSIGSecret) old.(ACMETSIGSecret)) then ["acme_*"] else []) ++
  (if ne c.(DBPath) old.(DBPath) then ["db_path"] else []) ++
  (if negb (eqb c.(ProxyEnabled) old.(ProxyEnabled)) || ne c.(ProxyListen) old.(ProxyListen) ||
      ne c.(ProxyRedirectListen) old.(ProxyRedirectListen) then ["proxy_enabled/proxy_listen"] else []) ++
  (if negb (eqb (Enabled c.(Admin)) (Enabled old.(Admin))) || ne (Host c.(Admin)) (Host old.(Admin))
   then ["admin.enabled/host"] else []).

(** ** What a loaded configuration satisfies *)

Definition key_name_ok (s : string) : Prop := s = "" \/ has_suffix "." s = true.

Section valid.
Context {E : Env}.

Record rule_ok (listen h : string) (r : ProxyRule) : Prop := {
  ro_host : host_chars_ok h = true;
  ro_upstream : upstream_ok (Upstream r) = true;
  ro_allow : forall cidr, cidr ∈ Allow r -> cidr_ok cidr = true;
  ro_auth : forall cred, cred ∈ BasicAuth r -> cred_ok cred = true;
  ro_ports : forall p, p ∈ ConsolePorts r -> port_ok (listen_port listen) p = true;
}.

Definition tls_ok (c : Config) : Prop :=
  ((c.(TLSMode) = TLSFiles \/ c.(TLSMode) = TLSHybrid) /\ c.(CertFile) <> "" /\ c.(KeyFile) <> "") \/
  (c.(TLSMode) = TLSACME /\ c.(ACMEDomain) <> "").

(** The admin vhost never shadows a proxied host, has a login, only bcrypt
    credentials, and a configured allow list is never an empty filter. *)
Record admin_ok (c : Config) : Prop := {
  ao_proxy : c.(ProxyEnabled) = true;
  ao_host : host_chars_ok (Host c.(Admin)) = true /\ c.(Proxy) !! Host c.(Admin) = None;
  ao_users : Users c.(Admin) <> [];
  ao_creds : forall s, s ∈ Users c.(Admin) ++ AdminBasicAuth c.(Admin) -> admin_cred_ok s = true;
  ao_allow : AdminAllow c.(Admin) <> [] -> allowNets c.(Admin) <> [];
  ao_ttl : 0 < SessionTTL c.(Admin);
}.

Record valid (c : Config) : Prop := {
  va_names : key_name_ok c.(TSIGName) /\ key_name_ok c.(ACMETSIGName);
  va_tls : tls_ok c;
  va_listen : c.(ProxyListen) <> "";
  va_rules : forall h r, c.(Proxy) !! h = Some r -> rule_ok c.(ProxyListen) h r;
  va_admin : Enabled c.(Admin) = true -> admin_ok c;
}.

Lemma each_ok {A} (p : A -> bool) (e : A -> config_error) l u :
  each (fun x => guard_or (p x) (e x)) l = Ok u -> forall x, x ∈ l -> p x = true.
Proof.
  induction l as [|y l IH]; cbn; intros H x Hx; [by apply elem_of_nil in Hx|].
  inv_ok. apply elem_of_cons in Hx as [->|Hx]; [done|by apply IH].
Qed.

Lemma parse_nets_ok err l ns :
  parse_nets err l = Ok ns -> Forall2 (fun cidr n => ParseCIDR (trim_space cidr) = Some n) l ns.
Proof.
  revert ns. induction l as [|cidr l IH]; cbn; intros ns H; [by simplify_eq; constructor|].
  destruct (ParseCIDR _) eqn:Ep; [|done]. inv_ok. subst. constructor; [done|by apply IH].
Qed.

Lemma check_rule_ok listen h r u :
  host_chars_ok h = true -> check_rule listen h r = Ok u -> rule_ok listen h r.
Proof.
  intros Hh H. unfold check_rule in H. inv_ok. split; [done|done|..].
  - apply (each_ok cidr_ok (ErrAllow h) _ _ Hstep0).
  - apply (each_ok cred_ok (fun _ => ErrBasicAuth h) _ _ Hstep1).
  - apply (each_ok (port_ok (listen_port listen)) (ErrConsolePort h) _ _ Hrest).
Qed.

Lemma normalise_ok listen rules norm p :
  normalise_rules listen rules norm = Ok p ->
  (forall h r, norm !! h = Some r -> rule_ok listen h r) -> forall h r, p !! h = Some r -> rule_ok listen h r.
Proof.
  revert norm. induction rules as [|[host rule] rules IH]; cbn; intros norm H Hn; [by simplify_eq|].
  inv_ok. destruct (norm !! norm_name host) eqn:En; [done|]. inv_ok.
  eapply IH; [done|]. intros h r [[<- <-]|[_ Hr]]%lookup_insert_Some; [by eapply check_rule_ok|by apply Hn].
Qed.

Lemma canonKeyName_ok s : key_name_ok (canonKeyName s).
Proof.
  unfold canonKeyName, key_name_ok. destruct (String.eqb_spec (trim_space s) ""); cbn; [by left|right].
  destruct (has_suffix "." (trim_space s)) eqn:Es; cbn; [done|]. apply has_suffix_spec. by exists (trim_space s).
Qed.

Lemma check_tls_ok c u : check_tls c = Ok u -> tls_ok c.
Proof.
  unfold check_tls, tls_ok, guard_or. destruct (String.eqb_spec (TLSMode c) TLSFiles);
    [|destruct (String.eqb_spec (TLSMode c) TLSACME); [|destruct (String.eqb_spec (TLSMode c) TLSHybrid)]];
    [destruct (negb (_ || _)) eqn:Eb|destruct (negb _) eqn:Eb|destruct (negb (_ || _)) eqn:Eb|]; intros H;
    [|done|by right; split; [|bsplit]|done| |done..]; bsplit; left; tauto.
Qed.

Lemma check_admin_ok c c' :
  check_admin c = Ok c' ->
  (Enabled c'.(Admin) = true -> admin_ok c') /\ c'.(Proxy) = c.(Proxy) /\ c'.(ProxyListen) = c.(ProxyListen) /\
  c'.(TSIGName) = c.(TSIGName) /\ c'.(ACMETSIGName) = c.(ACMETSIGName) /\ (tls_ok c -> tls_ok c').
Proof.
  unfold check_admin. destruct (Enabled (Admin c)) eqn:Ea; cbn [negb]; intros H; [|injection H as <-; repeat split; congruence || done].
  inv_ok. subst c'. split; [|repeat split; done]. intros _. split; cbn.
  - done.
  - split; [done|].
    match goal with H : match ?x with _ => _ end = true |- ?x = None => by destruct x end.
  - intros Hu. rewrite Hu in *. done.
  - match goal with H : each _ _ = Ok _ |- _ => exact (each_ok admin_cred_ok (fun _ => ErrAdmin "cred") _ _ H) end.
  - intros Hal Hnil. apply app_eq_nil in Hnil as [_ ->].
    match goal with H : parse_nets _ _ = Ok [] |- _ => apply parse_nets_ok in H; by inversion H end.
  - destruct (Z.leb_spec (SessionTTL (Admin c)) 0); lia.
Qed.

Lemma load_sound path c : Load path = Ok c -> valid c.
Proof.
  intros H. unfold Load in H. inv_ok.
  match goal with H : check_admin _ = Ok _ |- _ => apply check_admin_ok in H as (Ha & Hp & Hl & Hn & Hm & Ht) end.
  match goal with H : normalise_rules _ _ _ = Ok _ |- _ => pose proof (normalise_ok _ _ _ _ H) as Hr end.
  match goal with H : check_tls _ = Ok _ |- _ => apply check_tls_ok in H as Htls end.
  match goal with H : (if String.eqb path "" then _ else _) = Ok ?x |- _ =>
    assert (Hsame : tls_ok x /\ x.(ProxyListen) <> "" /\ key_name_ok x.(TSIGName) /\ key_name_ok x.(ACMETSIGName));
    [destruct (String.eqb path ""); [|unfold mergeProxyFragments in H]; inv_ok; subst x|] end.
  1-2: split; [done|split; [cbn; unfold or_else; by destruct (String.eqb_spec (ProxyListen a0) "")|
       split; cbn; apply canonKeyName_ok]].
  destruct Hsame as (Hs1 & Hs2 & Hs3 & Hs4). split.
  - rewrite Hn, Hm. done.
  - by apply Ht.
  - by rewrite Hl.
  - rewrite Hp, Hl. cbn. apply Hr. intros h r. by rewrite lookup_empty.
  - done.
Qed.

(** C22: a configuration [Load] accepts is valid: key names are absolute, the
    TLS mode has what it needs, every proxy rule has a plain hostname, an
    http(s) upstream, parsable CIDRs, bcrypt credentials and console ports off
    the main listener, and the admin vhost is safe. *)
Theorem load_valid path c : Load path = Ok c -> valid c.
Proof. apply load_sound. Qed.

End valid.

(** ** The fragments *)

Section fragments.
Context {E : Env}.

(** File [f] is a fragment that holds the rules [m] and nothing else. *)
Definition fragment (f : string) (m : gmap string ProxyRule) : Prop :=
  exists text, read_file f = Ok text /\ toml_proxy text = Ok (m, []).

Lemma merge_rules_ok path rules acc acc' :
  merge_rules path rules acc = Ok acc' ->
  acc ⊆ acc' /\ Forall (fun kr => acc' !! kr.1 = Some kr.2 /\ acc !! kr.1 = None) rules /\
  forall h r, acc' !! h = Some r -> acc !! h = Some r \/ (h, r) ∈ rules.
Proof.
  revert acc. induction rules as [|[host rule] rules IH]; intros acc; cbn; intros H.
  { simplify_eq. repeat split; [done|by constructor|by left]. }
  destruct (acc !! host) eqn:Eh; [done|]. apply IH in H as (Hsub & Hall & Hback).
  repeat split.
  - etrans; [|exact Hsub]. by apply insert_subseteq.
  - constructor; [split; [|done]|].
    + eapply lookup_weaken; [|exact Hsub]. apply lookup_insert_eq.
    + eapply Forall_impl; [exact Hall|]. cbn. intros [h r] [H1 H2]. split; [done|]. cbn in *.
      destruct (decide (h = host)) as [->|Hne]; [done|]. by rewrite lookup_insert_ne in H2.
  - intros h r Hr. apply Hback in Hr as [[[<- <-]|[_ Hr]]%lookup_insert_Some|Hr];
      [right; by left|by left|right; by right].
Qed.

(** Merging the fragments never overrides a vhost: every rule of the base
    configuration and of each fragment is in the result, a host of a fragment
    was not defined before it, and the result has no other host. *)
Theorem fragments_disjoint fs acc acc' :
  merge_files fs acc = Ok acc' ->
  acc ⊆ acc' /\
  (forall f, f ∈ fs -> exists m, fragment f m /\ m ⊆ acc' /\ m ##ₘ acc) /\
  (forall h r, acc' !! h = Some r -> acc !! h = Some r \/ exists f m, f ∈ fs /\ fragment f m /\ m !! h = Some r).
Proof.
  revert acc. induction fs as [|f fs IH]; intros acc; cbn; intros H.
  { simplify_eq. repeat split; [done|by intros ? ?%elem_of_nil|by left]. }
  destruct (read_file f) as [text|] eqn:Er; [|done].
  destruct (toml_proxy text) as [[m undec]|] eqn:Et; [|done]. inv_ok.
  assert (undec = []) as -> by (destruct undec; [done|bsplit; done]).
  apply merge_rules_ok in Hstep0 as (Hsub1 & Hall & Hback1). apply IH in Hrest0 as (Hsub2 & Hf & Hback2).
  assert (Hm : forall h r, m !! h = Some r -> a0 !! h = Some r /\ acc !! h = None).
  { intros h r Hr%elem_of_map_to_list. rewrite Forall_forall in Hall. by apply (Hall (h, r)). }
  repeat split; [by etrans|..].
  - intros g [->|Hg]%elem_of_cons.
    + exists m. split; [by exists text|]. split.
      * etrans; [|exact Hsub2]. apply map_subseteq_spec. intros h r Hr. by apply Hm.
      * apply map_disjoint_spec. intros h r1 r2 H1 H2. apply Hm in H1 as [_ H1]. congruence.
    + destruct (Hf g Hg) as (m' & Hfr & Hsub & Hdis). exists m'. repeat split; [done..|].
      apply map_disjoint_spec. intros h r1 r2 H1 H2. rewrite map_disjoint_spec in Hdis.
      eapply Hdis; [exact H1|]. eapply lookup_weaken; [exact H2|exact Hsub1].
  - intros h r Hr. apply Hback2 in Hr as [Hr|(g & m' & Hg & Hfr & Hr)].
    + apply Hback1 in Hr as [Hr|Hr%elem_of_map_to_list]; [by left|right].
      exists f, m. repeat split; [by left|by exists text|done].
    + right. exists g, m'. repeat split; [by right|done..].
Qed.

End fragments.

(** ** Restart and console ports *)

Lemma if_nil {A} (b : bool) (x : A) : (if b then [x] else []) = [] <-> b = false.
Proof. by destruct b. Qed.

Lemma ne_false a b : negb (String.eqb a b) = false <-> a = b.
Proof. rewrite negb_false_iff. apply String.eqb_eq. Qed.

Lemma eqb_bool_false a b : negb (eqb a b) = false <-> a = b.
Proof. rewrite negb_false_iff. apply eqb_true_iff. Qed.

(** [NeedsRestart] is empty exactly when everything that is fixed when the
    process starts is unchanged, so a live swap never leaves a listener, a
    certificate source or the database on old settings. *)
Theorem needs_restart_complete c old :
  NeedsRestart c old = [] <->
  c.(Listen) = old.(Listen) /\ c.(TLSMode) = old.(TLSMode) /\
  (c.(TLSMode) = TLSFiles \/ c.(TLSMode) = TLSHybrid ->
     c.(CertFile) = old.(CertFile) /\ c.(KeyFile) = old.(KeyFile)) /\
  (c.(TLSMode) = TLSACME \/ c.(TLSMode) = TLSHybrid ->
     c.(ACMEDomain) = old.(ACMEDomain) /\ c.(ACMECA) = old.(ACMECA) /\ c.(ACMEEmail) = old.(ACMEEmail) /\
     c.(ACMEStorage) = old.(ACMEStorage) /\ c.(ACMETSIGName) = old.(ACMETSIGName) /\
     c.(ACMETSIGAlgo) = old.(ACMETSIGAlgo) /\ c.(ACMETSIGSecret) = old.(ACMETSIGSecret)) /\
  c.(DBPath) = old.(DBPath) /\ c.(ProxyEnabled) = old.(ProxyEnabled) /\ c.(ProxyListen) = old.(ProxyListen) /\
  c.(ProxyRedirectListen) = old.(ProxyRedirectListen) /\
  Enabled c.(Admin) = Enabled old.(Admin) /\ Host c.(Admin) = Host old.(Admin).
Proof.
  unfold NeedsRestart. cbn beta zeta. split.
  - intros H. rewrite !app_nil, !if_nil in H. destruct H as (H1 & H2 & H3 & H4 & H5 & H6 & H7).
    apply ne_false in H1, H2, H5. bsplit.
    rewrite !andb_false_iff, !orb_false_iff in H3, H4. repeat match goal with
      | H : String.eqb _ _ = true |- _ => apply String.eqb_eq in H
      | H : eqb _ _ = true |- _ => apply eqb_prop in H end.
    repeat split; try congruence;
      (destruct H3 as [[Hf1 Hf2]|H3]; [|try (destruct H3; bsplit; congruence)]);
      (destruct H4 as [[Ha1 Ha2]|H4]; [|try (destruct_and? H4; bsplit; congruence)]);
      bsplit; naive_solver.
  - intros (H1 & H2 & H3 & H4 & H5 & H6 & H7 & H8 & H9 & H10).
    rewrite !app_nil, !if_nil.
    rewrite H1, H2, H5, H6, H7, H8, H9, H10, !String.eqb_refl, !eqb_reflx. repeat split.
    + apply andb_false_iff. destruct (String.eqb_spec (TLSMode old) TLSFiles), (String.eqb_spec (TLSMode old) TLSHybrid);
        [right|right|right|by left]; destruct H3 as [-> ->]; rewrite ?String.eqb_refl; intuition congruence.
    + apply andb_false_iff. destruct (String.eqb_spec (TLSMode old) TLSACME), (String.eqb_spec (TLSMode old) TLSHybrid);
        [right|right|right|by left]; destruct H4 as (-> & -> & -> & -> & -> & -> & ->); rewrite ?String.eqb_refl;
        intuition congruence.
Qed.

(** The console listeners are the ports some rule asks for, each once, in
    ascending order. *)
Theorem console_ports_spec c :
  (forall p, p ∈ console_ports c <-> exists h r, c.(Proxy) !! h = Some r /\ p ∈ ConsolePorts r) /\
  NoDup (console_ports c) /\ StronglySorted (not_after Z.ltb) (console_ports c).
Proof.
  unfold console_ports. split; [|split].
  - intros p. rewrite elem_of_sort_by, elem_of_elements, elem_of_list_to_set.
    unfold all_console_ports. rewrite list_elem_of_bind. split.
    + intros ([h r] & Hp & Hr%elem_of_map_to_list). by exists h, r.
    + intros (h & r & Hr & Hp). exists (h, r). split; [done|by apply elem_of_map_to_list].
  - rewrite sort_by_perm. apply NoDup_elements.
  - apply sort_by_sorted; intros; unfold not_after in *; bsplit; apply Z.ltb_ge; lia.
Qed.

(** ** Witnesses *)

Module ConfigExample.

Definition bmc : ProxyRule := mkRule "https://10.0.0.5" false false true [5900] ["10.0.0.0/8"] 5 ["op:$2a$10$x"].
Definition web : ProxyRule := mkRule "http://10.0.0.6" false false false [] [] 0 [].

(** A decoder of two fixed texts, and a URL parser of scheme://host. *)
#[local] Instance env : Env := {|
  toml_config text c :=
    if String.eqb text "main"
    then Ok (set_Admin (mkAdmin true "Admin.example." ["10.0.0.0/8"] [] ["root:$2y$05$abc"] 0 [])
          (mkConfig c.(Listen) c.(DBPath) 20 "" "" "" c.(NamedConf) 300 50 TLSFiles "/c.pem" "/k.pem"
             "" "" "" c.(ACMEStorage) "" "" "" c.(DNSServer) c.(TSIGName) c.(TSIGAlgo) "" "" ["127.0.0.1/32"] [] ""
             true "" "" {["BMC.example." := bmc]} c.(Admin) [] []), [])
    else Err "syntax";
  toml_proxy text := if String.eqb text "frag" then Ok ({["web.example" := web]}, []) else Err "syntax";
  url_parse s := if has_prefix "https://" s then Some (mkUrl "https" (trim_prefix "https://" s) false "" "" "")
                 else if has_prefix "http://" s then Some (mkUrl "http" (trim_prefix "http://" s) false "" "" "") else None;
  getenv _ := "";
  read_file p := if String.eqb p "/etc/goddns.conf" then Ok "main"
                 else if String.eqb p "/etc/proxy.d/web.conf" then Ok "frag" else Err ENOENT;
  glob_conf _ := ["/etc/proxy.d/web.conf"];
|}.

Definition cfg : Config := from_ok defaults (Load "/etc/goddns.conf").

Example loaded : (ProxyHosts cfg, Host cfg.(Admin), console_ports cfg) =
  (["bmc.example"; "web.example"], "admin.example", [5900]).
Proof. vm_compute. reflexivity. Qed.

Lemma load_valid_witness : valid cfg.
Proof.
  assert (H : Load "/etc/goddns.conf" = Ok cfg) by (apply from_ok_ok; vm_compute; reflexivity).
  exact (load_valid "/etc/goddns.conf" cfg H).
Defined.

Lemma fragments_disjoint_witness :
  let base := {["bmc.example" := bmc]} in let fs := ["/etc/proxy.d/web.conf"] in
  let merged := from_ok ∅ (merge_files fs base) in
  base ⊆ merged /\
  (forall f, f ∈ fs -> exists m, fragment f m /\ m ⊆ merged /\ m ##ₘ base) /\
  (forall h r, merged !! h = Some r -> base !! h = Some r \/ exists f m, f ∈ fs /\ fragment f m /\ m !! h = Some r).
Proof.
  intros base fs merged.
  assert (H : merge_files fs base = Ok merged) by (apply from_ok_ok; vm_compute; reflexivity).
  exact (fragments_disjoint fs base merged H).
Defined.

End ConfigExample.
