(* ===== verification/Named.v ===== *)
(** * Named: the read-only view of BIND

    [internal/named] but for the parser of its configuration dump: the
    inventory, zone transfers and their keys, the canonical text of a zone,
    the delegation and nameserver checks, and the consistency check of keys.
    The network is a parameter: a transfer answers a list of envelopes, a
    query a message or an error. *)

From Stdlib Require Import String Ascii.
From S2P Require Import Prelude GoStrings DnsLib NetIP Ddns FS.

(** ** The inventory *)

Record Zone := mkZone {
  z_Name : string; z_View : string; z_Type : string; z_File : string; z_Path : string;
  z_Dynamic : bool; z_UpdateKeys : list string; z_AllowUpdate : string
}.

Definition Kind (z : Zone) : string :=
  if String.eqb (z_Type z) "master" || String.eqb (z_Type z) "primary" then
    (if z_Dynamic z then "dynamic" else "static file")
  else if String.eqb (z_Type z) "slave" || String.eqb (z_Type z) "secondary" then "slave"
  else z_Type z.

Record Key := mkKey { k_Name : string; k_Algorithm : string; k_Secret : string }.

Record Inventory := mkInv { i_Directory : string; i_Zones : list Zone; i_Keys : list Key }.

Definition builtinEmpty (z : Zone) : bool :=
  String.eqb (z_Type z) "master" &&
  (String.eqb (z_File z) "named.empty" || has_suffix "/named.empty" (z_File z)).

Definition UserZones (inv : Inventory) : list Zone :=
  List.filter (fun z => negb (builtinEmpty z)) (i_Zones inv).

Definition ZoneByName (inv : Inventory) (name : string) : option Zone :=
  find_first (fun z => String.eqb (to_lower (z_Name z)) (norm_name name)) (i_Zones inv).

Definition keySet (inv : Inventory) : list string := k_Name <$> i_Keys inv.
Definition mem (k : string) (l : list string) : bool := existsb (String.eqb k) l.

(** [FileStatus] of the zone file and its journal. *)
Section status.
Context (fault : nat -> option string).

Definition FileStatus (path : string) (dynamic : bool) : io io_error string :=
  if String.eqb path "" then mret ""
  else
    st ← attempt (Stat fault path);
    match st with
    | Err ENOENT => mret "missing"
    | Err _ => mret ""
    | Ok _ =>
        if dynamic then
          jnl ← attempt (Stat fault (path +:+ ".jnl"));
          mret (if is_ok jnl then "+journal" else "no journal yet")
        else mret "ok"
    end.
End status.

(** ** Findings *)

Inductive Severity := OK | Info | Warn | Error.

Definition severity_string (s : Severity) : string :=
  match s with OK => "ok" | Info => "info" | Warn => "warn" | Error => "error" end.

(** Messages as data: the text is built from these fields alone. *)
Inductive message :=
| MsgUndefinedKey (key : string)
| MsgAddressesOnly
| MsgJournalDir (dir : string)
| MsgNotGranted (key : string)
| MsgNoSuchKey (name : string)
| MsgSecretDiffers (name : string)
| MsgKeyNotGranted (name : string)
| MsgKeyOK (name : string)
| MsgNoNS
| MsgPrimaryListed (mname : string)
| MsgPrimaryHidden (mname : string)
| MsgNoGlue (ns : string).

Record Finding := mkFinding { f_Severity : Severity; f_Zone : string; f_Message : message }.

(** *** The key check *)

Definition dirOf (p : string) : string :=
  match last_index "/" 0 p with Some i => str_take i p | None => "" end.

Definition trim_right_slash : string -> string := trim_right_by (fun c => Ascii.eqb c "/").

Definition zone_findings (inv : Inventory) (z : Zone) : list Finding :=
  ((fun k => mkFinding Error (z_Name z) (MsgUndefinedKey k)) <$>
     List.filter (fun k => negb (mem k (keySet inv))) (z_UpdateKeys z)) ++
  (if z_Dynamic z && (length (z_UpdateKeys z) =? 0)%nat && String.eqb (z_AllowUpdate z) "addresses/keys"
   then [mkFinding Warn (z_Name z) MsgAddressesOnly] else []) ++
  (if z_Dynamic z && (String.eqb (z_Type z) "master" || String.eqb (z_Type z) "primary") &&
      negb (String.eqb (z_Path z) "") && negb (String.eqb (i_Directory inv) "") &&
      String.eqb (dirOf (z_Path z)) (trim_right_slash (i_Directory inv))
   then [mkFinding Warn (z_Name z) (MsgJournalDir (i_Directory inv))] else []).

Definition granted (inv : Inventory) : list string := z ← UserZones inv; z_UpdateKeys z.

(** One trailing dot is dropped from the configured name. *)
Definition goddns_finding (inv : Inventory) (tsigName secret : string) : Finding :=
  let name := trim_suffix "." tsigName in
  match find_first (fun k => String.eqb (k_Name k) name) (i_Keys inv) with
  | None => mkFinding Error "" (MsgNoSuchKey name)
  | Some k =>
      if negb (String.eqb secret "") && negb (String.eqb (k_Secret k) secret)
      then mkFinding Error "" (MsgSecretDiffers name)
      else if negb (mem name (granted inv)) then mkFinding Warn "" (MsgKeyNotGranted name)
      else mkFinding OK "" (MsgKeyOK name)
  end.

Definition Check (inv : Inventory) (tsigName secret : string) : list Finding :=
  (z ← UserZones inv; zone_findings inv z) ++
  ((fun k => mkFinding Info "" (MsgNotGranted (k_Name k))) <$>
     List.filter (fun k => negb (String.eqb (k_Name k) "rndc-key" || String.eqb (k_Name k) "session-key") &&
                           negb (mem (k_Name k) (granted inv))) (i_Keys inv)) ++
  (if String.eqb tsigName "" then [] else [goddns_finding inv tsigName secret]).

(** ** Keys for a transfer *)

Record TSIGKey := mkTSIG { t_Name : string; t_Algo : string; t_Secret : string }.

Definition algoToDNS (a : string) : Hmac :=
  let a := to_lower (trim_suffix "." a) in
  if String.eqb a "hmac-sha512" then HmacSHA512
  else if String.eqb a "hmac-sha1" then HmacSHA1
  else if String.eqb a "hmac-md5" then HmacMD5
  else HmacSHA256.

(** The closure [add]: a defined key is appended once. *)
Definition add_key (inv : Inventory) (out : list TSIGKey) (name : string) : list TSIGKey :=
  let name := trim_suffix "." name in
  if String.eqb name "" || mem name (t_Name <$> out) then out
  else match find_first (fun k => String.eqb (k_Name k) name) (i_Keys inv) with
       | Some k => out ++ [mkTSIG (k_Name k) (k_Algorithm k) (k_Secret k)]
       | None => out
       end.

Definition AXFRKeys (inv : Inventory) (z : option Zone) (goddnsName : string) : list TSIGKey :=
  let out := add_key inv [] (trim_suffix "." goddnsName) in
  let out := match z with Some z => foldl (add_key inv) out (z_UpdateKeys z) | None => out end in
  foldl (add_key inv) out (k_Name <$> i_Keys inv).

(** ** Records *)

Section records.
Context {D : Dns}.

Record Row := mkRow { row_Name : string; row_TTL : Z; row_Type : string; row_Data : string }.

Definition Rows (rrs : list RR) : list Row :=
  (fun rr => mkRow (rr_name rr) (rr_ttl rr) (TypeToString (rr_type rr)) (rdata_text rr)) <$> rrs.

Definition reverseLabels (name : string) : list string :=
  rev (split "." (to_lower (trim_suffix "." name))).

Definition sameName (a b : string) : bool := equal_fold (trim_suffix "." a) (trim_suffix "." b).

Fixpoint labels_lt (a b : list string) : bool :=
  match a, b with
  | x :: a', y :: b' => if String.eqb x y then labels_lt a' b' else String.ltb x y
  | [], _ :: _ => true
  | _, [] => false
  end.

Definition lessName (a b : string) : bool := labels_lt (reverseLabels a) (reverseLabels b).

Definition rank (rr : RR) : Z :=
  if rr_type rr =? TypeSOA then 0 else if rr_type rr =? TypeNS then 1 else if rr_type rr =? TypeMX then 2 else 3.

Definition zone_less (a b : RR) : bool :=
  if negb (sameName (rr_name a) (rr_name b)) then lessName (rr_name a) (rr_name b)
  else if negb (rank a =? rank b) then rank a <? rank b
  else String.ltb (rr_string a) (rr_string b).

Definition SortZone (rrs : list RR) : list RR := sort_by zone_less rrs.

Definition Canonical (rrs : list RR) : string :=
  foldr (fun rr s => rr_string rr +:+ nl +:+ s) "" (SortZone rrs).

Definition SOAOf (rrs : list RR) : option SOA :=
  find_first (fun rr => match as_soa rr with Some _ => true | None => false end) rrs ≫= as_soa.

Definition dnssec_types : list Z :=
  [TypeRRSIG; TypeDNSKEY; TypeNSEC; TypeNSEC3; TypeNSEC3PARAM; TypeCDS; TypeCDNSKEY].

Definition Signed (rrs : list RR) : bool * nat :=
  let n := length (List.filter (fun rr => existsb (Z.eqb (rr_type rr)) dnssec_types) rrs) in
  ((0 <? n)%nat, n).

(** *** Delegation *)

Fixpoint apex_from (apex : string) (rrs : list RR) (out : list string) : list string :=
  match rrs with
  | [] => out
  | rr :: rrs' =>
      match as_ns rr with
      | Some ns =>
          let t := trim_suffix "." (to_lower ns) in
          apex_from apex rrs' (if equal_fold (rr_name rr) apex && negb (mem t out) then out ++ [t] else out)
      | None => apex_from apex rrs' out
      end
  end.

Definition apexNS (zone : string) (rrs : list RR) : list string := apex_from (Fqdn zone) rrs [].

(** The addresses of the index at one name. *)
Definition addressIndex (rrs : list RR) (n : string) : list string :=
  omap (fun rr => if String.eqb (trim_suffix "." (to_lower (rr_name rr))) n then as_addr rr else None) rrs.

Definition CheckDelegation (zone : string) (rrs : list RR) : list Finding :=
  let apex := trim_suffix "." (Fqdn zone) in
  let ns := apexNS zone rrs in
  match ns with
  | [] => [mkFinding Error apex MsgNoNS]
  | _ =>
      (match SOAOf rrs with
       | Some soa =>
           let mname := trim_suffix "." (to_lower (soa_ns soa)) in
           if mem mname ns then [mkFinding OK apex (MsgPrimaryListed mname)]
           else [mkFinding Info apex (MsgPrimaryHidden mname)]
       | None => []
       end) ++
      ((fun n => mkFinding Warn apex (MsgNoGlue n)) <$>
         List.filter (fun n => (String.eqb n apex || has_suffix ("." +:+ apex) n) &&
                               (length (addressIndex rrs n) =? 0)%nat) ns)
  end.

End records.

(** ** The network *)

Definition withPort (server : string) : string :=
  match SplitHostPort server with Some _ => server | None => JoinHostPort server "53" end.

(** What the program reads of a response. *)
Record response `{Dns} := mkResponse {
  m_Answer : list RR; m_Ns : list RR; m_Extra : list RR; m_Authoritative : bool; m_Truncated : bool
}.

(** The third-party client. [xfr_in zone server key]: the error of
    [Transfer.In], or the envelopes its channel carries; [query tcp name type
    rd server]: the answer of [Client.Exchange], if any. *)
Class Net `{Dns} := {
  xfr_in : string -> string -> option (string * Hmac * string) -> result string (list (result string (list RR)));
  query : bool -> string -> Z -> bool -> string -> option response;
}.

Section network.
Context {D : Dns} {N : Net}.

Definition maxRecords : Z := 1000000.

Definition axfr_err (zone server why : string) : string :=
  "axfr " +:+ zone +:+ " from " +:+ server +:+ ": " +:+ why.

Fixpoint collect (zone server : string) (env : list (result string (list RR))) (rrs : list RR)
  : result string (list RR) :=
  match env with
  | [] => Ok rrs
  | Err e :: _ => Err (axfr_err zone server e)
  | Ok more :: env' =>
      let rrs := rrs ++ more in
      if maxRecords <? Z.of_nat (length rrs)
      then Err (axfr_err zone server "zone exceeds 1000000 records - refusing to buffer")
      else collect zone server env' rrs
  end.

Definition is_soa (rr : RR) : bool := match as_soa rr with Some _ => true | None => false end.

(** The closing SOA of the transfer's framing. *)
Definition drop_closing_soa (rrs : list RR) : list RR :=
  match rrs with
  | first :: _ :: _ =>
      if is_soa first && match last rrs with Some l => is_soa l | None => false end
      then take (length rrs - 1) rrs else rrs
  | _ => rrs
  end.

Definition Transfer (zone server : string) (key : option TSIGKey) : result string (list RR) :=
  let zone := Fqdn zone in
  if (255 <? String.length zone)%nat
  then Err ("axfr: zone name too long (" +:+ format_uint (Z.of_nat (String.length zone)) +:+ " > 255 octets)")
  else
    let server := withPort server in
    let auth := match key with
                | Some k => if String.eqb (t_Secret k) "" then None
                            else Some (Fqdn (t_Name k), algoToDNS (t_Algo k), t_Secret k)
                | None => None
                end in
    match xfr_in zone server auth with
    | Err e => Err (axfr_err zone server e)
    | Ok env =>
        rrs ← collect zone server env [];
        if (length rrs =? 0)%nat then Err (axfr_err zone server "empty transfer")
        else Ok (drop_closing_soa rrs)
    end.

Definition serverRefused (err : string) : bool := contains "rcode" err.

(** [late i]: the deadline has passed before the i-th key is tried. *)
Fixpoint try_keys (late : nat -> bool) (i : nat) (zone server : string) (keys : list TSIGKey)
  : option (list RR * string) :=
  match keys with
  | [] => None
  | k :: keys' =>
      if late i then None
      else match Transfer zone server (Some k) with
           | Ok rrs => Some (rrs, "key " +:+ String quote (trim_suffix "." (t_Name k)) +:+ String quote "")
           | Err _ => try_keys late (S i) zone server keys'
           end
  end.

Definition TransferAuto (late : nat -> bool) (zone server : string) (keys : list TSIGKey)
  : result string (list RR * string) :=
  match Transfer zone server None with
  | Ok rrs => Ok (rrs, "unauthenticated")
  | Err e =>
      if negb (serverRefused e) then Err e
      else match try_keys late 0 zone server keys with
           | Some r => Ok r
           | None => Err e
           end
  end.

(** *** Nameserver probes *)

(** A truncated answer is asked again over TCP. *)
Definition exchange_retry (name : string) (qtype : Z) (server : string) : option response :=
  match query false name qtype false server with
  | None => None
  | Some resp =>
      if m_Truncated resp then
        match query true name qtype false server with Some r2 => Some r2 | None => Some resp end
      else Some resp
  end.

(** The serial of the last SOA of the answer. *)
Definition answer_serial (rrs : list RR) : Z :=
  foldl (fun s rr => match as_soa rr with Some soa => soa_serial soa | None => s end) 0 rrs.

Definition probeSOA (zone addr : string) : option (Z * bool) :=
  resp ← exchange_retry (Fqdn zone) TypeSOA (withPort addr);
  Some (answer_serial (m_Answer resp), m_Authoritative resp).

Definition resolveHost (name resolver : string) : list string :=
  qt ← [TypeA; TypeAAAA];
  match query false (Fqdn name) qt true (withPort resolver) with
  | Some resp => omap as_addr (m_Answer resp)
  | None => []
  end.

Record NSCheck := mkNSCheck {
  c_Name : string; c_Addrs : list string; c_Serial : Z; c_AA : bool; c_OK : bool; c_Note : string
}.

(** The first of the addresses that answers decides. *)
Fixpoint probe_addrs (zone : string) (addrs : list string) (c : NSCheck) : NSCheck :=
  match addrs with
  | [] => c
  | a :: addrs' =>
      match probeSOA zone a with
      | None => probe_addrs zone addrs' (mkNSCheck (c_Name c) (c_Addrs c) (c_Serial c) (c_AA c) (c_OK c) "unreachable")
      | Some (serial, aa) =>
          let c' ok note := mkNSCheck (c_Name c) (c_Addrs c) serial aa ok note in
          if negb aa then c' false "not authoritative (lame delegation?)"
          else if serial =? 0 then c' false "no SOA in answer"
          else c' true ""
      end
  end.

Definition probeNS (zone nsName : string) (glue : list string) (resolver : string) : NSCheck :=
  let addrs := if (length glue =? 0)%nat && negb (String.eqb resolver "") then resolveHost nsName resolver else glue in
  match addrs with
  | [] => mkNSCheck nsName addrs 0 false false "no address (couldn't resolve)"
  | _ => probe_addrs zone (take 3 addrs) (mkNSCheck nsName addrs 0 false false "")
  end.

(** One goroutine per nameserver, each writing its own slot. *)
Definition CheckNameservers (zone : string) (rrs : list RR) (resolver : string) : list NSCheck :=
  (fun ns => probeNS zone ns (addressIndex rrs ns) resolver) <$> apexNS zone rrs.

Inductive SerialStatus := SerialNoNS | SerialAgree | SerialMismatch | SerialUnreachable.

Definition ZoneNS (zone server : string) : list RR :=
  match exchange_retry (Fqdn zone) TypeNS (withPort server) with
  | Some resp => m_Answer resp ++ m_Ns resp ++ m_Extra resp
  | None => []
  end.

(** The serials of the answering nameservers, with their counts. *)
Fixpoint seen_serials (checks : list NSCheck) (seen : gmap Z nat) : gmap Z nat :=
  match checks with
  | [] => seen
  | c :: cs => seen_serials cs (if c_OK c then <[c_Serial c := S (default 0%nat (seen !! c_Serial c))]> seen else seen)
  end.

Definition SerialsAgree (checks : list NSCheck) : bool * gmap Z nat :=
  let seen := seen_serials checks ∅ in ((size seen <=? 1)%nat, seen).

Definition serial_verdict (checks : list NSCheck) : SerialStatus * Z :=
  match checks with
  | [] => (SerialNoNS, 0)
  | _ =>
      let '(agree, seen) := SerialsAgree checks in
      if (size seen =? 0)%nat then (SerialUnreachable, 0)
      else if agree && (size seen =? 1)%nat then
        match map_to_list seen with (s, _) :: _ => (SerialAgree, s) | [] => (SerialMismatch, 0) end
      else (SerialMismatch, 0)
  end.

Definition ZoneSerialCheck (zone server : string) : SerialStatus * Z :=
  serial_verdict (CheckNameservers zone (ZoneNS zone server) server).

Definition CurrentSerial (zone server : string) : option Z :=
  match probeSOA zone server with Some (s, _) => if s =? 0 then None else Some s | None => None end.

End network.

(** ** The order of a zone *)

Lemma labels_lt_asym a b : labels_lt a b = true -> labels_lt b a = false.
Proof.
  revert b. induction a as [|x a IH]; intros [|y b]; cbn; try done.
  destruct (String.eqb_spec x y) as [->|Hne]; [rewrite String.eqb_refl; apply IH|].
  apply not_eq_sym, String.eqb_neq in Hne. rewrite Hne. apply str_lt_asym.
Qed.

Lemma labels_lt_tricho a b : labels_lt a b = false -> labels_lt b a = false -> a = b.
Proof.
  revert b. induction a as [|x a IH]; intros [|y b]; cbn; try done.
  destruct (String.eqb_spec x y) as [->|Hne].
  - rewrite String.eqb_refl. intros. f_equal. by apply IH.
  - pose proof (not_eq_sym Hne) as Hne'. apply String.eqb_neq in Hne'. rewrite Hne'.
    intros H1 H2. by destruct (Hne (str_lt_tricho x y H1 H2)).
Qed.

Lemma labels_ge_trans a b c : labels_lt a b = false -> labels_lt b c = false -> labels_lt a c = false.
Proof.
  revert b c. induction a as [|x a IH]; intros [|y b] [|z c]; cbn; try done.
  destruct (String.eqb_spec x y) as [->|Hxy], (String.eqb_spec y z) as [->|Hyz].
  - apply IH.
  - done.
  - apply String.eqb_neq in Hxy. by rewrite Hxy.
  - intros H1 H2. destruct (String.eqb_spec x z) as [->|Hxz].
    + destruct Hyz. by apply str_lt_tricho.
    + by eapply str_ge_trans.
Qed.

Definition zkey : Type := list string * Z * string.

Definition key_less (a b : zkey) : bool :=
  labels_lt a.1.1 b.1.1 ||
  (negb (labels_lt b.1.1 a.1.1) && ((a.1.2 <? b.1.2) || ((a.1.2 =? b.1.2) && String.ltb a.2 b.2))).

Lemma key_less_spec a b :
  key_less a b = true <->
  labels_lt a.1.1 b.1.1 = true \/
  (a.1.1 = b.1.1 /\ (a.1.2 < b.1.2 \/ (a.1.2 = b.1.2 /\ String.ltb a.2 b.2 = true))).
Proof.
  unfold key_less. rewrite orb_true_iff, andb_true_iff, negb_true_iff, orb_true_iff, andb_true_iff, Z.ltb_lt, Z.eqb_eq.
  split; intros [H|[H1 H2]]; [by left| |by left|].
  - destruct (labels_lt a.1.1 b.1.1) eqn:E; [by left|right]. split; [by apply labels_lt_tricho|done].
  - right. rewrite H1. split; [|done]. destruct (labels_lt b.1.1 b.1.1) eqn:E; [|done].
    pose proof (labels_lt_asym _ _ E). congruence.
Qed.

Lemma key_ge_spec a b :
  key_less a b = false <->
  labels_lt b.1.1 a.1.1 = true \/
  (a.1.1 = b.1.1 /\ (b.1.2 < a.1.2 \/ (a.1.2 = b.1.2 /\ String.ltb a.2 b.2 = false))).
Proof.
  unfold key_less. rewrite orb_false_iff, andb_false_iff, negb_false_iff, orb_false_iff, andb_false_iff,
    Z.ltb_ge, Z.eqb_neq. split.
  - intros [H1 [H2|H2]]; [by left|]. destruct (labels_lt b.1.1 a.1.1) eqn:E; [by left|right].
    split; [by apply labels_lt_tricho|]. destruct (decide (a.1.2 = b.1.2)); [right|left]; intuition lia.
  - intros [H|[H1 H2]].
    + split; [by apply labels_lt_asym|by left].
    + rewrite H1. assert (Hirr : labels_lt b.1.1 b.1.1 = false).
      { destruct (labels_lt b.1.1 b.1.1) eqn:E; [|done]. pose proof (labels_lt_asym _ _ E). congruence. }
      split; [done|right]. intuition lia.
Qed.

Section canonical.
Context {D : Dns}.

Definition key_of (rr : RR) : zkey := (reverseLabels (rr_name rr), rank rr, rr_string rr).

Lemma sameName_labels a b : sameName a b = true <-> reverseLabels a = reverseLabels b.
Proof.
  unfold sameName, reverseLabels. rewrite equal_fold_eq. split; [by intros ->|].
  intros H%(f_equal (@rev string)). rewrite !rev_involutive in H. by apply split_inj in H.
Qed.

Lemma zone_less_key a b : zone_less a b = key_less (key_of a) (key_of b).
Proof.
  destruct (key_less (key_of a) (key_of b)) eqn:E; unfold zone_less, lessName.
  - apply key_less_spec in E as [E|[E1 E2]]; cbn in *.
    + destruct (sameName _ _) eqn:Es; [|done]. apply sameName_labels in Es. rewrite Es in E.
      pose proof (labels_lt_asym _ _ E). congruence.
    + apply sameName_labels in E1. rewrite E1. cbn. destruct (Z.eqb_spec (rank a) (rank b)); cbn;
        [|apply Z.ltb_lt]; intuition lia.
  - apply key_ge_spec in E as [E|[E1 E2]]; cbn in *.
    + destruct (sameName _ _) eqn:Es; [|by apply labels_lt_asym]. apply sameName_labels in Es. rewrite Es in E.
      pose proof (labels_lt_asym _ _ E). congruence.
    + apply sameName_labels in E1. rewrite E1. cbn. destruct (Z.eqb_spec (rank a) (rank b)); cbn;
        [|apply Z.ltb_ge]; intuition lia.
Qed.

Lemma sort_by_ext {A} (f g : A -> A -> bool) l : (forall a b, f a b = g a b) -> sort_by f l = sort_by g l.
Proof.
  intros H. assert (Hi : forall x l, insert_by f x l = insert_by g x l).
  { intros x l0. induction l0 as [|y l0 IH]; cbn; [done|]. by rewrite H, IH. }
  induction l as [|x l IH]; [done|]. cbn. rewrite Hi. by f_equal.
Qed.

Lemma key_sort_perm (l1 l2 : list zkey) : l1 ≡ₚ l2 -> sort_by key_less l1 = sort_by key_less l2.
Proof.
  apply sort_by_perm_eq.
  - intros x y z. rewrite !key_ge_spec. intros [H1|[H1 H1']] [H2|[H2 H2']].
    + left. destruct (labels_lt z.1.1 x.1.1) eqn:E; [done|].
      pose proof (labels_ge_trans _ _ _ E (labels_lt_asym _ _ H1)). congruence.
    + left. congruence.
    + left. congruence.
    + right. split; [congruence|]. destruct H1' as [?|[? ?]], H2' as [?|[? ?]]; try (left; lia).
      right. split; [congruence|by eapply str_ge_trans].
  - intros x y. rewrite key_less_spec, key_ge_spec. intros [H|[H1 H2]]; [by left|right].
    split; [done|]. destruct H2 as [?|[? H2]]; [by left|right]. split; [done|by apply str_lt_asym].
  - intros x y. rewrite !key_ge_spec. intros [H1|[H1 H1']] [H2|[H2 H2']].
    + pose proof (labels_lt_asym _ _ H1). congruence.
    + rewrite H2 in H1. pose proof (labels_lt_asym _ _ H1). congruence.
    + rewrite H1 in H2. pose proof (labels_lt_asym _ _ H2). congruence.
    + destruct x as [[lx rx] sx], y as [[ly ry] sy]. cbn in *. subst.
      destruct H1' as [?|[? Ha]], H2' as [?|[? Hb]]; try lia. subst. by rewrite (str_lt_tricho _ _ Ha Hb).
Qed.

Lemma Canonical_keys rrs :
  Canonical rrs = foldr (fun k s => snd k +:+ nl +:+ s) "" (sort_by key_less (key_of <$> rrs)).
Proof.
  unfold Canonical, SortZone. rewrite (sort_by_ext _ _ _ zone_less_key), <- sort_by_fmap.
  induction (sort_by _ rrs) as [|r l IH]; [done|]. cbn [foldr fmap list_fmap]. by f_equal; f_equal.
Qed.

(** The canonical text depends on the records only, not on the order in
    which the server sent them: two snapshots of one zone are equal texts. *)
Theorem Canonical_permutation (l1 l2 : list RR) : l1 ≡ₚ l2 -> Canonical l1 = Canonical l2.
Proof. intros Hp. rewrite !Canonical_keys. f_equal. apply key_sort_perm. by rewrite Hp. Qed.

End canonical.

(** ** Transfer keys *)

Section keys.
Context (inv : Inventory).

Definition defined (name : string) : option Key :=
  find_first (fun k => String.eqb (k_Name k) name) (i_Keys inv).

(** The candidate for a defined key: its first definition. *)
Definition candidate (t : TSIGKey) : Prop :=
  exists k, defined (t_Name t) = Some k /\ t = mkTSIG (k_Name k) (k_Algorithm k) (k_Secret k).

Lemma mem_spec k l : mem k l = true <-> k ∈ l.
Proof.
  unfold mem. rewrite existsb_elem. split; [|intros H; exists k; by rewrite String.eqb_refl].
  by intros (x & Hx & ->%String.eqb_eq).
Qed.

Lemma mem_false k l : mem k l = false <-> k ∉ l.
Proof. rewrite <- mem_spec. by destruct (mem k l). Qed.

Definition keys_ok (out : list TSIGKey) : Prop := NoDup (t_Name <$> out) /\ Forall candidate out.

Lemma add_key_ok out name : keys_ok out -> keys_ok (add_key inv out name).
Proof.
  intros [Hnd Hc]. unfold add_key. destruct (_ || _) eqn:E; [done|].
  destruct (find_first _ _) as [k|] eqn:Hf; [|done]. bsplit.
  pose proof Hf as Hf'. apply find_first_Some in Hf' as [_ Hk]. apply String.eqb_eq in Hk. split.
  - rewrite fmap_app. apply NoDup_app. split; [done|]. split; [|apply NoDup_singleton].
    intros x Hx ->%list_elem_of_singleton. cbn in Hx. rewrite Hk in Hx. by apply mem_false in Hx.
  - apply Forall_app. split; [done|]. repeat constructor. exists k. cbn. rewrite Hk. done.
Qed.

Lemma add_key_prefix out name : exists l, add_key inv out name = out ++ l.
Proof.
  unfold add_key. destruct (_ || _); [by exists []; rewrite app_nil_r|].
  destruct (find_first _ _); [by eexists|by exists []; rewrite app_nil_r].
Qed.

Lemma add_key_has out name k :
  defined (trim_suffix "." name) = Some k -> trim_suffix "." name <> "" ->
  trim_suffix "." name ∈ t_Name <$> add_key inv out name.
Proof.
  intros Hd Hne. unfold add_key. apply String.eqb_neq in Hne. rewrite Hne. cbn.
  destruct (mem _ _) eqn:Em; [by apply mem_spec|]. unfold defined in Hd. rewrite Hd.
  apply find_first_Some in Hd as [_ Hk]. apply String.eqb_eq in Hk.
  rewrite fmap_app, elem_of_app. right. cbn. rewrite Hk. by left.
Qed.

Lemma fold_add_ok names out : keys_ok out -> keys_ok (foldl (add_key inv) out names).
Proof. revert out. induction names as [|n ns IH]; intros out H; [done|]. cbn. by apply IH, add_key_ok. Qed.

Lemma fold_add_prefix names out : exists l, foldl (add_key inv) out names = out ++ l.
Proof.
  revert out. induction names as [|n ns IH]; intros out; cbn; [exists []; by rewrite app_nil_r|].
  destruct (add_key_prefix out n) as [l1 H1]. destruct (IH (add_key inv out n)) as [l2 H2].
  exists (l1 ++ l2). by rewrite H2, H1, app_assoc.
Qed.

Lemma fold_add_has names out n k :
  n ∈ names -> defined (trim_suffix "." n) = Some k -> trim_suffix "." n <> "" ->
  trim_suffix "." n ∈ t_Name <$> foldl (add_key inv) out names.
Proof.
  revert out. induction names as [|m ns IH]; intros out Hn Hd Hne; [by apply elem_of_nil in Hn|]. cbn.
  apply elem_of_cons in Hn as [<-|Hn]; [|by apply IH].
  destruct (fold_add_prefix ns (add_key inv out n)) as [l Hl]. rewrite Hl, fmap_app, elem_of_app. left.
  by eapply add_key_has.
Qed.

Lemma defined_in n : n ∈ (k_Name <$> i_Keys inv) -> exists k, defined n = Some k.
Proof.
  intros (k & -> & Hk)%list_elem_of_fmap. unfold defined.
  destruct (find_first _ _) as [k'|] eqn:E; [by eexists|].
  pose proof (find_first_None _ _ _ E Hk) as H. cbn in H. by rewrite String.eqb_refl in H.
Qed.

(** The keys tried for a transfer are each tried once, with the secret of
    the key's first definition; every defined key is a candidate (a name with
    a trailing dot or an empty one is not looked up under that spelling), and
    goddns's own key, when defined, is the first. *)
Theorem AXFRKeys_spec z goddnsName :
  let out := AXFRKeys inv z goddnsName in
  let own := trim_suffix "." (trim_suffix "." goddnsName) in
  NoDup (t_Name <$> out) /\
  Forall candidate out /\
  (forall n, n ∈ k_Name <$> i_Keys inv -> n <> "" -> trim_suffix "." n = n -> n ∈ t_Name <$> out) /\
  (forall k, defined own = Some k -> own <> "" ->
     head out = Some (mkTSIG (k_Name k) (k_Algorithm k) (k_Secret k))).
Proof.
  intros out own. unfold out, AXFRKeys.
  set (out0 := add_key inv [] (trim_suffix "." goddnsName)).
  set (out1 := match z with Some z => _ | None => _ end).
  assert (H0 : keys_ok out0) by (apply add_key_ok; split; constructor).
  assert (H1 : keys_ok out1) by (unfold out1; destruct z; [by apply fold_add_ok|done]).
  assert (Hpre : exists l, foldl (add_key inv) out1 (k_Name <$> i_Keys inv) = out0 ++ l).
  { destruct (fold_add_prefix (k_Name <$> i_Keys inv) out1) as [l2 H2]. rewrite H2.
    unfold out1. destruct z as [z|]; [|by eexists].
    destruct (fold_add_prefix (z_UpdateKeys z) out0) as [l1 Hl1]. rewrite Hl1. exists (l1 ++ l2). by rewrite app_assoc. }
  split; [by apply fold_add_ok|]. split; [by apply fold_add_ok|]. split.
  - intros n Hn Hne Htr. destruct (defined_in n Hn) as [k Hk]. rewrite <- Htr in Hk, Hne |- *.
    by eapply fold_add_has.
  - intros k Hk Hne. destruct Hpre as [l ->]. unfold out0, add_key. fold own.
    apply String.eqb_neq in Hne. rewrite Hne. cbn. unfold defined in Hk. by rewrite Hk.
Qed.

End keys.

(** ** Transfers *)

Section transfer.
Context {D : Dns} {N : Net}.

Lemma try_keys_Some late i zone server keys rrs label :
  try_keys late i zone server keys = Some (rrs, label) ->
  exists pre k post, keys = pre ++ k :: post /\ Transfer zone server (Some k) = Ok rrs /\
    label = "key " +:+ String quote (trim_suffix "." (t_Name k)) +:+ String quote "" /\
    late (i + length pre)%nat = false /\
    Forall (fun k' => is_ok (Transfer zone server (Some k')) = false) pre.
Proof.
  revert i. induction keys as [|k keys IH]; intros i; cbn [try_keys]; [done|].
  destruct (late i) eqn:El; [done|]. destruct (Transfer zone server (Some k)) as [r|e] eqn:Et.
  - intros [= -> <-]. exists [], k, keys. rewrite Nat.add_0_r. repeat split; [done..|constructor].
  - intros (pre & k' & post & -> & ? & ? & ? & ?)%IH. exists (k :: pre), k', post.
    cbn. rewrite <- plus_n_Sm. repeat split; [done..|]. constructor; [by rewrite Et|done].
Qed.

Lemma try_keys_None late i zone server keys :
  (forall j, late j = false) -> try_keys late i zone server keys = None ->
  Forall (fun k => is_ok (Transfer zone server (Some k)) = false) keys.
Proof.
  intros Hl. revert i. induction keys as [|k keys IH]; intros i; cbn [try_keys]; [constructor|].
  rewrite Hl. destruct (Transfer zone server (Some k)) as [r|e] eqn:Et; [done|]. intros H.
  constructor; [by rewrite Et|by eapply IH].
Qed.

(** [TransferAuto] never authenticates needlessly. Its answer is that of
    the unauthenticated transfer, or, when that one was refused, of the first
    key that works; when nothing works the error is the unauthenticated one,
    and with time left every key was tried. *)
Theorem TransferAuto_spec late zone server keys :
  match TransferAuto late zone server keys with
  | Ok (rrs, label) =>
      (Transfer zone server None = Ok rrs /\ label = "unauthenticated") \/
      (exists e pre k post, Transfer zone server None = Err e /\ serverRefused e = true /\
         keys = pre ++ k :: post /\ Transfer zone server (Some k) = Ok rrs /\
         label = "key " +:+ String quote (trim_suffix "." (t_Name k)) +:+ String quote "" /\
         Forall (fun k' => is_ok (Transfer zone server (Some k')) = false) pre)
  | Err e =>
      Transfer zone server None = Err e /\
      (serverRefused e = true -> (forall i, late i = false) ->
         Forall (fun k => is_ok (Transfer zone server (Some k)) = false) keys)
  end.
Proof.
  unfold TransferAuto. destruct (Transfer zone server None) as [rrs|e]; [by left|].
  destruct (serverRefused e) eqn:Er; cbn [negb]; [|split; [done|congruence]].
  destruct (try_keys late 0 zone server keys) as [[rrs label]|] eqn:Et.
  - right. apply try_keys_Some in Et as (pre & k & post & -> & ? & ? & _ & ?).
    exists e, pre, k, post. done.
  - split; [done|]. intros _ Hl. by eapply try_keys_None.
Qed.

(** The test for a refusal reads the whole message, which names the zone
    and the server, so a transfer of a zone whose name contains the text
    rcode is taken for refused whatever went wrong, a lost connection
    included. *)
Theorem refused_by_name zone server why :
  contains "rcode" zone = true -> serverRefused (axfr_err zone server why) = true.
Proof.
  unfold serverRefused, axfr_err. rewrite !contains_spec. intros (a & b & ->).
  exists ("axfr " +:+ a), (b +:+ " from " +:+ server +:+ ": " +:+ why).
  by rewrite !str_app_assoc.
Qed.

(** ** Nameserver agreement *)

Lemma seen_serials_elem checks seen s :
  is_Some (seen_serials checks seen !! s) <->
  is_Some (seen !! s) \/ exists c, c ∈ checks /\ c_OK c = true /\ c_Serial c = s.
Proof.
  revert seen. induction checks as [|c cs IH]; intros seen; cbn.
  - split; [by left|]. intros [H|(c & Hc & _)]; [done|by apply elem_of_nil in Hc].
  - rewrite IH. destruct (c_OK c) eqn:E.
    + rewrite lookup_insert_is_Some. split.
      * intros [[<-|[_ H]]|(c' & Hc & ? & ?)]; [right; exists c; split; [left|done]|by left|].
        right. exists c'. split; [by right|done].
      * intros [H|(c' & [->|Hc]%elem_of_cons & Hok & <-)].
        -- left. destruct (decide (c_Serial c = s)); [by left|by right].
        -- left. by left.
        -- right. by exists c'.
    + split; (intros [H|(c' & Hc & ? & ?)]; [by left|right; exists c']).
      * split; [by right|done].
      * apply elem_of_cons in Hc as [->|Hc]; [congruence|done].
Qed.

(** The verdict of a serial check. Agreement on [s] means some nameserver
    answered with authority and every one that did serves [s]; unreachable
    means none did; anything else with nameservers is a mismatch. *)
Theorem serial_verdict_spec checks s :
  (serial_verdict checks = (SerialAgree, s) <->
     (exists c, c ∈ checks /\ c_OK c = true) /\ forall c, c ∈ checks -> c_OK c = true -> c_Serial c = s) /\
  ((serial_verdict checks).1 = SerialUnreachable <->
     checks <> [] /\ forall c, c ∈ checks -> c_OK c = false).
Proof.
  pose proof (seen_serials_elem checks ∅) as Hel. setoid_rewrite lookup_empty in Hel.
  assert (Hne : forall t, is_Some (seen_serials checks ∅ !! t) <->
                exists c, c ∈ checks /\ c_OK c = true /\ c_Serial c = t).
  { intros t. rewrite (Hel t). split; [intros [[? ?]|?]; done|by right]. }
  clear Hel. unfold serial_verdict, SerialsAgree.
  destruct checks as [|c0 cs] eqn:Ec.
  { split; [split; [done|intros [(c & Hc & _) _]; by apply elem_of_nil in Hc]|].
    split; [done|intros [H _]; by destruct H]. }
  rewrite <- Ec in *. assert (Hcs : checks <> []) by (by rewrite Ec). clear Ec.
  set (seen := seen_serials checks ∅) in *. rewrite <- (length_map_to_list seen).
  assert (Hl : forall t, t ∈ (map_to_list seen).*1 <-> exists c, c ∈ checks /\ c_OK c = true /\ c_Serial c = t).
  { intros t. rewrite <- Hne. rewrite list_elem_of_fmap. split.
    - intros ([t' n] & -> & Hn%elem_of_map_to_list). by exists n.
    - intros [n Hn]. exists (t, n). split; [done|by apply elem_of_map_to_list]. }
  pose proof (NoDup_fst_map_to_list seen) as Hnd. revert Hl Hnd.
  destruct (map_to_list seen) as [|[t n] [|[t' n'] l]]; cbn; intros Hl Hnd.
  - assert (Hno : forall c, c ∈ checks -> c_OK c = false).
    { intros c Hc. destruct (c_OK c) eqn:E; [|done].
      assert (Hin : c_Serial c ∈ []) by (apply Hl; eauto). by apply elem_of_nil in Hin. }
    split; [|done]. split; [done|]. intros [(c & Hc & Hok) _]. by rewrite (Hno c Hc) in Hok.
  - destruct (proj1 (Hl t)) as (c & Hc & Hok & Hs); [by left|]. split; split.
    + intros [= <-]. split; [eauto|]. intros c' Hc' Hok'. apply list_elem_of_singleton, Hl. eauto.
    + intros [_ Hall]. by rewrite <- Hs, (Hall c).
    + done.
    + intros [_ Hno]. by rewrite (Hno c Hc) in Hok.
  - destruct (proj1 (Hl t)) as (c & Hc & Hok & Hs); [by left|].
    destruct (proj1 (Hl t')) as (c' & Hc' & Hok' & Hs'); [right; by left|]. split; split.
    + done.
    + intros [_ Hall]. apply NoDup_cons in Hnd as [Hnd _]. destruct Hnd.
      rewrite <- Hs, <- Hs', (Hall c), (Hall c') by done. by left.
    + done.
    + intros [_ Hno]. by rewrite (Hno c Hc) in Hok.
Qed.

End transfer.

(** ** The verdict on goddns's own key *)

(** The check reports goddns's key as good exactly when named.conf
    defines it, the configured secret (if given) is the defined one, and some
    zone of the operator lists it among its update keys. *)
Theorem check_own_key inv tsigName secret n :
  mkFinding OK "" (MsgKeyOK n) ∈ Check inv tsigName secret <->
  tsigName <> "" /\ n = trim_suffix "." tsigName /\
  (exists k, defined inv n = Some k /\ (secret = "" \/ k_Secret k = secret)) /\
  exists z, z ∈ UserZones inv /\ n ∈ z_UpdateKeys z.
Proof.
  assert (Hg : forall m, mem m (granted inv) = true <-> exists z, z ∈ UserZones inv /\ m ∈ z_UpdateKeys z).
  { intros m. rewrite mem_spec. unfold granted. rewrite list_elem_of_bind. naive_solver. }
  rewrite <- Hg. unfold Check. rewrite !elem_of_app. split.
  - intros [H|[H|H]].
    + apply list_elem_of_bind in H as (z & H & _). unfold zone_findings in H. rewrite !elem_of_app in H.
      destruct H as [(k & ? & _)%list_elem_of_fmap|[H|H]]; [done|..];
        destruct (_ && _); (by apply list_elem_of_singleton in H) || by apply elem_of_nil in H.
    + by apply list_elem_of_fmap in H as (k & ? & _).
    + destruct (String.eqb_spec tsigName "") as [|Hne]; [by apply elem_of_nil in H|].
      apply list_elem_of_singleton in H. unfold goddns_finding in H. fold (defined inv (trim_suffix "." tsigName)) in H.
      destruct (defined inv (trim_suffix "." tsigName)) as [k|] eqn:Ed; [|done].
      destruct (negb (String.eqb secret "") && _) eqn:Es; [done|].
      destruct (mem _ (granted inv)) eqn:Em; [|done]. cbn in H. injection H as ->.
      repeat split; [done| |done]. exists k. split; [done|]. apply andb_false_iff in Es as [Es|Es]; bsplit; auto.
  - intros (Hne & -> & (k & Hk & Hs) & Hm). right. right. apply String.eqb_neq in Hne. rewrite Hne.
    apply list_elem_of_singleton. unfold goddns_finding. fold (defined inv (trim_suffix "." tsigName)).
    rewrite Hk, Hm. cbn. destruct Hs as [->| ->]; rewrite String.eqb_refl; cbn; [done|].
    by rewrite andb_false_r.
Qed.

(** ** Witnesses *)

Module NamedExample.

#[local] Existing Instance Sample.dns.

Definition soa : Sample.srr := Sample.mkRR "example." 300 TypeSOA "ns.example. root.example. 7 1 2 3 4".
Definition a : Sample.srr := Sample.mkRR "www.example." 300 TypeA "192.0.2.1".
Definition ns : Sample.srr := Sample.mkRR "example." 300 TypeNS "ns.example.".

Lemma Canonical_permutation_witness : Canonical (D := Sample.dns) [a; soa; ns] = Canonical (D := Sample.dns) [soa; ns; a].
Proof.
  assert (H : [a; soa; ns] ≡ₚ [soa; ns; a]) by exact (Permutation_cons_append [soa; ns] a).
  exact (Canonical_permutation (D := Sample.dns) [a; soa; ns] [soa; ns; a] H).
Defined.

Example sorted : Canonical (D := Sample.dns) [a; ns; soa] =
  Sample.print soa +:+ nl +:+ Sample.print ns +:+ nl +:+ Sample.print a +:+ nl.
Proof. vm_compute. reflexivity. Qed.

Lemma refused_by_name_witness : serverRefused (axfr_err "my-rcode.example." "192.0.2.1:53" "i/o timeout") = true.
Proof.
  assert (H : contains "rcode" "my-rcode.example." = true) by (vm_compute; reflexivity).
  exact (refused_by_name "my-rcode.example." "192.0.2.1:53" "i/o timeout" H).
Defined.

End NamedExample.
