(* ===== verification/NamedParse.v ===== *)
(** * NamedParse: reading a named-checkconf dump

    [internal/named/parse.go]: zone, key and view blocks are found by regular
    expression, their bodies by counting braces outside quoted text, and each
    zone is classified from the options in its body. *)

From Stdlib Require Import String Ascii.
From S2P Require Import Prelude GoStrings NetIP Regex FS Named.

(** ** The expressions *)

Definition word_re (w : string) (rest : re) : re := Seq WordB (Lit w rest).
Definition type_char (c : ascii) : bool := is_lower c || Ascii.eqb c "-".
Definition alg_char (c : ascii) : bool := is_upper c || is_lower c || is_digit c || Ascii.eqb c "-".
Definition id_char (stops : string) (c : ascii) : bool :=
  none_of (String quote stops) c && negb (re_space c).

Definition quoted_any : re := Seq Quote (Seq (Group (Star true not_quote)) Quote).

Definition reType : re := word_re "type" (Seq Blanks1 (Seq (Group (Plus type_char)) (Seq Blanks (Lit1 ";")))).
Definition reFile : re := word_re "file" (Seq Blanks1 quoted_any).
Definition reAlgo : re :=
  word_re "algorithm" (Seq Blanks1 (Seq OptQuote (Seq (Group (Plus alg_char)) (Seq OptQuote (Seq Blanks (Lit1 ";")))))).
Definition reSecret : re := word_re "secret" (Seq Blanks1 quoted_any).

Definition ident (stops : string) : re :=
  Seq Blanks1 (Seq OptQuote (Seq (Group (Plus (id_char stops))) OptQuote)).
Definition reGrant : re := Seq WordB (Alt (Lit "grant" (ident "")) (Lit "deny" (ident ""))).
Definition reAllowKey : re := word_re "key" (ident ";{}").
Definition reDirectory : re :=
  Seq LineStart (Seq Blanks (Lit "directory" (Seq Blanks1 (Seq quoted_any (Seq Blanks (Lit1 ";")))))).
Definition rePolicyLcl : re := word_re "update-policy" (Seq Blanks1 (Lit "local" (Seq Blanks (Lit1 ";")))).

Definition firstSubmatch (r : re) (s : string) : string := default "" (submatch r s).

Definition resolvePath (dir file : string) : string :=
  if String.eqb file "" || has_prefix "/" file || String.eqb dir "" then file
  else trim_right_slash dir +:+ "/" +:+ file.

(** ** Braces *)

Inductive mode := Plain | Quoted | Escaped.

(** The number of bytes before the brace that closes [depth] open ones. *)
Fixpoint balanced (m : mode) (depth : nat) (s : string) : option nat :=
  match s with
  | "" => None
  | String c s' =>
      match m with
      | Plain =>
          if Ascii.eqb c quote then S <$> balanced Quoted depth s'
          else if Ascii.eqb c "{" then S <$> balanced Plain (S depth) s'
          else if Ascii.eqb c "}" then
            match depth with
            | S (S d) => S <$> balanced Plain (S d) s'
            | _ => Some 0%nat
            end
          else S <$> balanced Plain depth s'
      | Quoted =>
          if Ascii.eqb c quote then S <$> balanced Plain depth s'
          else if Ascii.eqb c "\" then S <$> balanced Escaped depth s'
          else S <$> balanced Quoted depth s'
      | Escaped => S <$> balanced Quoted depth s'
      end
  end.

Definition readBalanced (src : string) (start : nat) : option (string * nat) :=
  n ← balanced Plain 1 (str_drop start src);
  Some (str_take n (str_drop start src), (start + n)%nat).

(** ** Blocks *)

Record block := mkBlock { b_name : string; b_body : string; b_start : nat; b_end : nat }.

Definition reBlock (keyword : string) : re :=
  Seq LineStart (Seq Blanks (Lit keyword (Seq Blanks1 (Seq Quote (Seq (Group (Plus not_quote)) Quote))))).

Definition block_at (src : string) (m : rmatch) : option block :=
  br ← str_index "{" 0 (str_drop (m_end m) src);
  '(body, e) ← readBalanced src (m_end m + br + 1);
  Some (mkBlock (default "" (head (m_caps m))) body (m_start m) e).

Definition extractBlocks (src keyword : string) : list block :=
  omap (block_at src) (find_all (reBlock keyword) src).

Definition viewOf (offset : nat) (views : list block) : string :=
  match find_first (fun v => (b_start v <? offset)%nat && (offset <? b_end v)%nat) views with
  | Some v => if String.eqb (b_name v) "_default" then "" else b_name v
  | None => ""
  end.

Definition namedBlock (body name : string) : option string :=
  m ← find (word_re name (Seq Blanks (Lit1 "{"))) body;
  fst <$> readBalanced body (m_end m).

(** ** Zones *)

Definition appendUniq (xs : list string) (x : string) : list string := if mem x xs then xs else xs ++ [x].

Definition captured (r : re) (s : string) : list string :=
  (fun m => trim_suffix "." (default "" (head (m_caps m)))) <$> find_all r s.

Definition trim_chars (chars : string) : string -> string := trim_by (fun c => str_exists (Ascii.eqb c) chars).

Definition isNone (body : string) : bool :=
  let q := String quote "" in
  let b := to_lower (trim_chars (q +:+ ";") (trim_space body)) in
  let b := trim_space (trim_chars q b) in
  String.eqb b "none" || String.eqb b (q +:+ "none" +:+ q).

(** The dynamic flag, the keys and the kind of update a body configures. *)
Definition update_policy (body : string) : bool * list string * string :=
  match namedBlock body "update-policy" with
  | Some up => (true, foldl appendUniq [] (captured reGrant up), "policy")
  | None =>
      match find rePolicyLcl body with
      | Some _ => (true, [], "policy (local)")
      | None => (false, [], "")
      end
  end.

Definition allow_update (body : string) (st : bool * list string * string) : bool * list string * string :=
  let '(dynamic, keys, allow) := st in
  match namedBlock body "allow-update" with
  | None => st
  | Some au =>
      if isNone au then (dynamic, keys, if String.eqb allow "" then "none" else allow)
      else (true, foldl appendUniq keys (captured reAllowKey au),
            if String.eqb allow "" then "addresses/keys" else allow)
  end.

Definition parse_zone (dir : string) (views : list block) (b : block) : Zone :=
  let name := trim_suffix "." (b_name b) in
  let file := firstSubmatch reFile (b_body b) in
  let '(dynamic, keys, allow) := allow_update (b_body b) (update_policy (b_body b)) in
  mkZone (if String.eqb name "" then "." else name) (viewOf (b_start b) views)
    (firstSubmatch reType (b_body b)) file (resolvePath dir file) dynamic keys allow.

Definition parse_key (b : block) : Key :=
  mkKey (b_name b) (firstSubmatch reAlgo (b_body b)) (firstSubmatch reSecret (b_body b)).

Definition Parse (dump : string) : Inventory :=
  let dir := firstSubmatch reDirectory dump in
  let views := extractBlocks dump "view" in
  mkInv dir (parse_zone dir views <$> extractBlocks dump "zone") (parse_key <$> extractBlocks dump "key").

(** ** What a zone records *)

(** A zone is dynamic exactly when some way to update it was recorded; only
    then can it have keys, and no key is listed twice. *)
Record zone_ok (z : Zone) : Prop := {
  zo_name : z_Name z <> "";
  zo_dynamic : z_Dynamic z = true <-> z_AllowUpdate z <> "" /\ z_AllowUpdate z <> "none";
  zo_keys : z_UpdateKeys z <> [] -> z_Dynamic z = true;
  zo_nodup : NoDup (z_UpdateKeys z);
}.

Lemma nodup_appendUniq xs x : NoDup xs -> NoDup (appendUniq xs x).
Proof.
  intros H. unfold appendUniq. destruct (mem x xs) eqn:E; [done|]. apply mem_false in E.
  apply NoDup_app. split; [done|]. split; [|apply NoDup_singleton].
  by intros y Hy ->%list_elem_of_singleton.
Qed.

Lemma nodup_appendUniqs l xs : NoDup xs -> NoDup (foldl appendUniq xs l).
Proof. revert xs. induction l as [|x l IH]; intros xs H; [done|]. cbn. by apply IH, nodup_appendUniq. Qed.

Definition update_ok (st : bool * list string * string) : Prop :=
  (st.1.1 = true <-> st.2 <> "" /\ st.2 <> "none") /\ (st.1.2 <> [] -> st.1.1 = true) /\ NoDup st.1.2.

Lemma update_policy_ok body : update_ok (update_policy body) /\ (update_policy body).2 <> "none".
Proof.
  unfold update_policy. destruct (namedBlock _ _).
  - repeat split; try done. apply nodup_appendUniqs. constructor.
  - destruct (find _ _); repeat split; try done; try constructor; naive_solver.
Qed.

Lemma allow_update_ok body st : update_ok st -> st.2 <> "none" -> update_ok (allow_update body st).
Proof.
  destruct st as [[dyn keys] allow]. intros (Hd & Hk & Hn) Hne. cbn in *. unfold allow_update.
  destruct (namedBlock _ _); [|done]. destruct (isNone _).
  - destruct (String.eqb_spec allow "") as [->|Ha]; [|done]. repeat split; cbn; try done; naive_solver.
  - repeat split; cbn; try done; [..|by apply nodup_appendUniqs];
      destruct (String.eqb_spec allow ""); naive_solver.
Qed.

(** C32: every zone [Parse] reports is coherent: it has a name, it is dynamic
    exactly when its update setting is one that accepts updates, only dynamic
    zones list update keys, and no key is listed twice. *)
Theorem parsed_zones_coherent dump z : z ∈ i_Zones (Parse dump) -> zone_ok z.
Proof.
  intros (b & -> & _)%list_elem_of_fmap. unfold parse_zone.
  destruct (update_policy_ok (b_body b)) as [Hp Hne].
  pose proof (allow_update_ok (b_body b) _ Hp Hne) as (Hd & Hk & Hn).
  destruct (allow_update _ _) as [[dyn keys] allow]. cbn in *. split; cbn; [|done..].
  destruct (String.eqb_spec (trim_suffix "." (b_name b)) ""); done.
Qed.

(** ** Balanced bodies *)

(** Inside quotes, up to the closing one: a backslash takes the next byte. *)
Inductive in_quotes : string -> Prop :=
| iq_nil : in_quotes ""
| iq_char c s : c <> quote -> c <> "\"%char -> in_quotes s -> in_quotes (String c s)
| iq_escape c s : in_quotes s -> in_quotes (String "\" (String c s)).

(** Text whose braces match, braces inside quotes not counted. *)
Inductive balanced_text : string -> Prop :=
| bt_nil : balanced_text ""
| bt_char c s : c <> quote -> c <> "{"%char -> c <> "}"%char -> balanced_text s -> balanced_text (String c s)
| bt_quote q s : in_quotes q -> balanced_text s -> balanced_text (String quote (q +:+ String quote s))
| bt_braces b s : balanced_text b -> balanced_text s -> balanced_text (String "{" (b +:+ String "}" s)).

Ltac opt_offset o := destruct o; cbn; rewrite ?str_length_app; cbn; [f_equal; lia|done].

Lemma balanced_quotes d q s :
  in_quotes q -> balanced Quoted d (q +:+ String quote s) = Nat.add (S (String.length q)) <$> balanced Plain d s.
Proof.
  induction 1 as [|c q Hc Hb Hq IH|c q Hq IH]; cbn.
  - opt_offset (balanced Plain d s).
  - apply Ascii.eqb_neq in Hc, Hb. rewrite Hc, Hb, IH. opt_offset (balanced Plain d s).
  - rewrite IH. opt_offset (balanced Plain d s).
Qed.

Lemma balanced_complete body d s :
  balanced_text body -> balanced Plain (S d) (body +:+ s) = Nat.add (String.length body) <$> balanced Plain (S d) s.
Proof.
  intros Hb. revert d s. induction Hb as [|c t Hq Ho Hc Ht IH|q t Hq Ht IH|b t Hb IHb Ht IHt]; intros d s.
  - cbn [String.append]. opt_offset (balanced Plain (S d) s).
  - apply Ascii.eqb_neq in Hq, Ho, Hc. rewrite str_app_cons. cbn [balanced]. rewrite Hq, Ho, Hc, IH.
    opt_offset (balanced Plain (S d) s).
  - rewrite str_app_cons. cbn [balanced]. rewrite Ascii.eqb_refl, str_app_assoc, str_app_cons, balanced_quotes by done.
    rewrite IH. opt_offset (balanced Plain (S d) s).
  - rewrite str_app_cons, str_app_assoc, str_app_cons. cbn [balanced]. change (Ascii.eqb "{" quote) with false.
    change (Ascii.eqb "{" "{") with true. cbn match. rewrite IHb. cbn [balanced].
    change (Ascii.eqb "}" quote) with false. change (Ascii.eqb "}" "{") with false. change (Ascii.eqb "}" "}") with true.
    cbn match. rewrite IHt. opt_offset (balanced Plain (S d) s).
Qed.

(** [d] closing braces, each preceded by balanced text, then balanced text. *)
Fixpoint closes (d : nat) (t : string) : Prop :=
  match d with
  | O => balanced_text t
  | S d' => exists b t', t = b +:+ String "}" t' /\ balanced_text b /\ closes d' t'
  end.

Lemma closes_prepend w d t :
  (forall u, balanced_text u -> balanced_text (w +:+ u)) -> closes d t -> closes d (w +:+ t).
Proof.
  intros Hw. destruct d as [|d]; cbn; [apply Hw|]. intros (b & t' & -> & Hb & Ht').
  exists (w +:+ b), t'. by rewrite str_app_assoc; auto.
Qed.

Definition closed_by (d : nat) (m : mode) (t : string) : Prop :=
  match m with
  | Plain => closes d t
  | Quoted => exists q t', t = q +:+ String quote t' /\ in_quotes q /\ closes d t'
  | Escaped => exists c q t', t = String c (q +:+ String quote t') /\ in_quotes q /\ closes d t'
  end.

Lemma balanced_sound m d s n :
  balanced m (S d) s = Some n -> exists t post, s = t +:+ String "}" post /\ String.length t = n /\ closed_by d m t.
Proof.
  revert m d n. induction s as [|c s IH]; intros m d n; [done|]. destruct m; cbn [balanced].
  - destruct (Ascii.eqb_spec c quote) as [->|Hq]; [|destruct (Ascii.eqb_spec c "{") as [->|Ho];
      [|destruct (Ascii.eqb_spec c "}") as [->|Hc]]].
    + intros (k & (t & post & -> & <- & q & t' & -> & Hiq & Hcl)%IH & ->)%fmap_Some.
      exists (String quote (q +:+ String quote t')), post. split; [done|]. split; [done|]. cbn.
      change (closes d (String quote (q +:+ String quote t'))).
      replace (String quote (q +:+ String quote t')) with ((String quote (q +:+ String quote "")) +:+ t')
        by (cbn; by rewrite str_app_assoc).
      apply closes_prepend; [|done]. intros u Hu. cbn. rewrite str_app_assoc. by apply bt_quote.
    + intros (k & (t & post & -> & <- & Hcl)%IH & ->)%fmap_Some. destruct Hcl as (b & t' & -> & Hb & Hcl).
      exists (String "{" (b +:+ String "}" t')), post. split; [done|]. split; [done|]. cbn.
      replace (String "{" (b +:+ String "}" t')) with ((String "{" (b +:+ String "}" "")) +:+ t')
        by (cbn; by rewrite str_app_assoc).
      apply closes_prepend; [|done]. intros u Hu. cbn. rewrite str_app_assoc. by apply bt_braces.
    + destruct d as [|d]; [intros [= <-]; exists "", s; by repeat constructor|].
      intros (k & (t & post & -> & <- & Hcl)%IH & ->)%fmap_Some.
      exists (String "}" t), post. split; [done|]. split; [done|]. exists "", t. by repeat constructor.
    + intros (k & (t & post & -> & <- & Hcl)%IH & ->)%fmap_Some.
      exists (String c t), post. split; [done|]. split; [done|].
      apply (closes_prepend (String c "")); [|done]. intros u Hu. by apply bt_char.
  - destruct (Ascii.eqb_spec c quote) as [->|Hq]; [|destruct (Ascii.eqb_spec c "\") as [->|Hb]].
    + intros (k & (t & post & -> & <- & Hcl)%IH & ->)%fmap_Some.
      exists (String quote t), post. split; [done|]. split; [done|]. exists "", t. by repeat constructor.
    + intros (k & (t & post & -> & <- & c & q & t' & -> & Hiq & Hcl)%IH & ->)%fmap_Some.
      exists (String "\" (String c (q +:+ String quote t'))), post. split; [done|]. split; [done|].
      exists (String "\" (String c q)), t'. by repeat constructor.
    + intros (k & (t & post & -> & <- & q & t' & -> & Hiq & Hcl)%IH & ->)%fmap_Some.
      exists (String c (q +:+ String quote t')), post. split; [done|]. split; [done|].
      exists (String c q), t'. by repeat constructor.
  - intros (k & (t & post & -> & <- & q & t' & -> & Hiq & Hcl)%IH & ->)%fmap_Some.
    exists (String c (q +:+ String quote t')), post. split; [done|]. split; [done|]. by exists c, q, t'.
Qed.

(** [readBalanced] finds the matching brace, and nothing else: it answers
    a body exactly when balanced text followed by a closing brace starts
    there, and that text is the body. *)
Theorem readBalanced_spec src start body e :
  readBalanced src start = Some (body, e) <->
  e = (start + String.length body)%nat /\ balanced_text body /\
  exists post, str_drop start src = body +:+ String "}" post.
Proof.
  unfold readBalanced. split.
  - intros (n & Hn & [= <- <-])%bind_Some. apply balanced_sound in Hn as (t & post & Hs & <- & Ht).
    rewrite Hs, str_take_app. by eauto.
  - intros (-> & Hb & post & Hs). rewrite Hs, balanced_complete by done. cbn.
    rewrite Nat.add_0_r, str_take_app. done.
Qed.

(** ** An example dump *)

Module NamedParseExample.

Definition q (s : string) : string := String quote s +:+ String quote "".

Definition dump : string := join nl
  ["options {"; " directory " +:+ q "/var/named" +:+ ";"; "};"; "view " +:+ q "_default" +:+ " {";
   " zone " +:+ q "myip.gr" +:+ " {"; "  type master;"; "  file " +:+ q "dyn/myip.hosts" +:+ ";";
   "  update-policy {"; "   grant " +:+ q "ddns-update." +:+ " wildcard " +:+ q "*.myip.gr." +:+ " A;";
   "   deny " +:+ q "old-key" +:+ " name " +:+ q "x.myip.gr." +:+ " A;"; "  };"; " };";
   " zone " +:+ q "static.gr" +:+ " {"; "  type master;"; "  file " +:+ q "/z/static" +:+ ";";
   "  allow-update { " +:+ q "none" +:+ "; };"; " };"; "};";
   "key " +:+ q "ddns-update" +:+ " {"; " algorithm hmac-sha256;"; " secret " +:+ q "c2VjcmV0" +:+ ";"; "};"; ""].

(** The denied key is listed with the granted one: [reGrant] matches both
    verbs. *)
Example parsed : Parse dump =
  mkInv "/var/named"
    [mkZone "myip.gr" "" "master" "dyn/myip.hosts" "/var/named/dyn/myip.hosts" true ["ddns-update"; "old-key"] "policy";
     mkZone "static.gr" "" "master" "/z/static" "/z/static" false [] "none"]
    [mkKey "ddns-update" "hmac-sha256" "c2VjcmV0"].
Proof. vm_compute. reflexivity. Qed.

Definition first_zone : Zone := default (mkZone "" "" "" "" "" false [] "") (head (i_Zones (Parse dump))).

Lemma parsed_zones_coherent_witness : zone_ok first_zone.
Proof.
  assert (H : first_zone ∈ i_Zones (Parse dump)) by (vm_compute; left).
  exact (parsed_zones_coherent dump first_zone H).
Defined.

End NamedParseExample.
