(* ===== verification/FileZone.v ===== *)
(** * FileZone: editing a static zone's file in place

    [internal/filezone]: which zones may be edited, the screens on the
    content, the lock, the surgical or raw new content, and the write tail
    (checkzone, re-read, backup, atomic write, reload or restore, verify). The
    validator, the reload and the verification are the editor's injectable
    functions, as in the code; so is the hook before the write, which stands
    for whatever another process does up to the comparison of the bytes. From
    there to the end of a call nobody else writes here; [Editors] takes the
    calls apart and lets others in between any two lines. *)

From Stdlib Require Import String Ascii.
From S2P Require Import Prelude GoStrings DnsLib NetIP Ddns ZoneTok ZoneFile FS Named.

Record Result := mkResult {
  res_Zone : string; res_File : string; res_Backup : string; res_Serial : Z;
  res_Added : list string; res_Removed : list string
}.

Inductive fz_error :=
| ErrInventory (why : string)
| ErrNotInConf
| ErrNotMaster (kind : string)
| ErrDynamic
| ErrNotEnabled
| ErrNoPath
| ErrStat (e : io_error)
| ErrSymlink
| ErrPanelPath (panel : string)
| ErrPanel (panel : string)
| ErrUnsigned (reason : string)
| ErrLock (e : io_error)
| ErrRead (e : io_error)
| ErrNoRecord
| ErrOutside (name : string)
| ErrZoneFile (e : zf_error)
| ErrCheckzone (why : string)
| ErrChanged
| ErrHook (why : string)
| ErrBackup (e : io_error)
| ErrWrite (e : write_error)
| ErrRestored (res : Result) (why : string)
| ErrNotRestored (res : Result) (why : string) (e : write_error)
| ErrVerify (res : Result) (why : string)
| ErrSerial (new floor : Z)
with write_error :=
| WIO (e : io_error)
| WSymlink
| WOwner (uid : Z).

Definition norm : string -> string := norm_name.

(** ** Content screens *)

Section content.
Context {D : Dns}.

(** The first record of the line; later ones are not read. *)
Definition ParseRR (line zone : string) : result string RR :=
  match zone_parse line (Fqdn zone) with
  | (rr :: _, _) => Ok rr
  | ([], Some e) => Err e
  | ([], None) => Err "no record"
  end.

Definition panelNames : list string := ["cpanel"; "directadmin"; "virtualmin"; "plesk"; "ispconfig"].
Definition panelMarker (content : string) : option string :=
  find_first (fun m => contains m (to_lower content)) panelNames.

Definition panelTrees : list string :=
  ["/var/cpanel/"; "/usr/local/directadmin/"; "/usr/local/psa/"; "/etc/virtualmin"; "/var/lib/virtualmin"].
Definition panelPath (path : string) : option string :=
  find_first (fun p => contains p (to_lower path)) panelTrees.

Definition unsignedConcern (content zone : string) : option string :=
  let '(rrs, err) := zone_parse content (Fqdn zone) in
  if (Signed rrs).1 then Some "is signed in the file"
  else match err with Some e => Some ("can't be fully parsed: " +:+ e) | None => None end.

Definition screen (content zone : string) : result fz_error unit :=
  match panelMarker content with
  | Some m => Err (ErrPanel m)
  | None => match unsignedConcern content zone with
            | Some reason => Err (ErrUnsigned reason)
            | None => Ok tt
            end
  end.

(** The serial of the first SOA read, even if the parse stops later. *)
Definition currentSerial (content zone : string) : option Z :=
  soa_serial <$> SOAOf (zone_parse content (Fqdn zone)).1.

Definition normalizeRawSerial (today : date) (zone cur newBytes : string) : result fz_error string :=
  let floor := default 0 (currentSerial cur zone) in
  let raised := match Parse newBytes zone with
                | Ok f => if Surgical f then match SerialFloor today f floor with Ok b => Some b | Err _ => None end
                          else None
                | Err _ => None
                end in
  match raised with
  | Some b => Ok b
  | None =>
      let new := currentSerial newBytes zone in
      match new with
      | Some n => if n <=? floor then Err (ErrSerial n floor) else Ok newBytes
      | None => Err (ErrSerial 0 floor)
      end
  end.

(** In-bailiwick operations only, then the surgical edit. *)
Fixpoint ops_inside (origin : string) (ops : list Op) : result fz_error unit :=
  match ops with
  | [] => Ok tt
  | op :: ops' =>
      match op_rr op with
      | None => Err ErrNoRecord
      | Some rr => if IsSubDomain origin (rr_name rr) then ops_inside origin ops' else Err (ErrOutside (rr_name rr))
      end
  end.

Definition lift_zf {A} (r : result zf_error A) : result fz_error A :=
  match r with Ok a => Ok a | Err e => Err (ErrZoneFile e) end.

Definition compute (today : date) (zone orig : string) (ops : list Op) : result fz_error string :=
  _ ← ops_inside (Fqdn zone) ops;
  f ← lift_zf (Parse orig zone);
  lift_zf (Edit today f ops).

(** *** The record-level difference *)

Definition parseRecords (data origin : string) : list RR := (zone_parse data (Fqdn origin)).1.

Definition canonSet (rrs : list RR) : gset string :=
  list_to_set (rr_string <$> List.filter (fun rr => negb (rr_type rr =? TypeSOA)) rrs).

Definition diff (zone file orig newBytes : string) : Result :=
  let old := canonSet (parseRecords orig zone) in
  let new := canonSet (parseRecords newBytes zone) in
  mkResult (norm zone) file "" (match Parse newBytes zone with Ok f => SOASerial f | Err _ => 0 end)
    (sort_strings (elements (new ∖ old))) (sort_strings (elements (old ∖ new))).

Definition with_backup (r : Result) (path : string) : Result :=
  mkResult (res_Zone r) (res_File r) path (res_Serial r) (res_Added r) (res_Removed r).

(** The check after the reload: the first SOA served has at least the serial
    written. [served] is the answer of the name server. *)
Definition verifySerial (served : result string (list RR)) (wantSerial : Z) : result string unit :=
  match served with
  | Err e => Err e
  | Ok answer =>
      match SOAOf answer with
      | Some soa => if soa_serial soa <? wantSerial then Err "reload didn't take" else Ok tt
      | None => Err "no SOA in the response"
      end
  end.

End content.

(** ** The editor *)

Record Editor := mkEditor {
  e_Editable : list string; e_LockDir : string; e_BackupDir : string; e_Keep : Z;
  e_Inv : io string Inventory;
  e_CheckZone : string -> string -> io string unit;
  e_Reload : string -> io string unit;
  e_Verify : string -> Z -> io string unit;
  e_beforeWrite : io string unit
}.

Definition keep (e : Editor) : Z := if 0 <? e_Keep e then e_Keep e else 50.
Definition lockDir (e : Editor) : string :=
  if String.eqb (e_LockDir e) "" then "/var/lib/goddns/zonelocks" else e_LockDir e.
Definition backupDir (e : Editor) : string :=
  if String.eqb (e_BackupDir e) "" then "/var/lib/goddns/zonebackups" else e_BackupDir e.

Definition editable (e : Editor) (zone : string) : bool :=
  existsb (fun x => String.eqb (norm x) (norm zone)) (e_Editable e).

Definition is_master (z : Zone) : bool := String.eqb (z_Type z) "master" || String.eqb (z_Type z) "primary".

Definition CanEdit (e : Editor) (z : option Zone) : bool :=
  match z with
  | Some z => is_master z && negb (z_Dynamic z) && editable e (z_Name z)
  | None => false
  end.

Section editor.
Context {D : Dns} (fault : nat -> option string) (tempname : nat -> string -> string) (euid egid : Z).
(** The date of the serial, and [time.Now().UnixNano()] at a system call. *)
Context (today : date) (now_ns : nat -> Z).

Definition pure {A} (r : result fz_error A) : io fz_error A := fun w => (r, w).

Definition lookup (e : Editor) (name : string) : io fz_error (option Zone) :=
  inv ← attempt (e_Inv e);
  mret (match inv with Ok i => ZoneByName i name | Err _ => None end).

Definition check_zone (e : Editor) (z : option Zone) (zone : string) : result fz_error Zone :=
  match z with
  | None => Err ErrNotInConf
  | Some z =>
      if negb (is_master z) then Err (ErrNotMaster (Kind z))
      else if z_Dynamic z then Err ErrDynamic
      else if negb (editable e zone) then Err ErrNotEnabled
      else if String.eqb (z_Path z) "" then Err ErrNoPath
      else Ok z
  end.

Definition resolve (e : Editor) (zone : string) : io fz_error Zone :=
  inv ← wrap ErrInventory (e_Inv e);
  z ← pure (check_zone e (ZoneByName inv zone) zone);
  st ← wrap ErrStat (Lstat fault (z_Path z));
  match st with
  | Link _ => fail ErrSymlink
  | Reg _ _ _ _ =>
      match panelPath (z_Path z) with
      | Some p => fail (ErrPanelPath p)
      | None => mret z
      end
  end.

(** An open file: which one it is, and the path it was found at. *)
Record file_desc := mkFD { fd_id : nat; fd_path : string }.

(** [os.OpenFile] with [O_CREATE|O_RDWR]: a link is followed. *)
Definition open_create (p : string) (mode : Z) : io io_error file_desc := fun w =>
  match syscall fault (fun fs =>
    let q := follow fs p in
    match fs !! q with
    | Some (Reg _ _ _ _) => Ok (q, fs)
    | Some (Link _) => Err ELOOP
    | None => Ok (q, <[q := Reg "" mode euid egid]> fs)
    end) w with
  | (Ok q, w') => let o := w_open w' in (Ok (mkFD (o_next o) q), with_open w' (mkOpen (S (o_next o)) (o_locked o)))
  | (Err err, w') => (Err err, w')
  end.

(** [flock] with [LOCK_EX], and with [LOCK_UN]; the first waits while another
    open file has the lock ([flock_waits]), and what is given here is what it
    does when it no longer has to. *)
Definition flock_waits (w : world) (p : string) : Prop := is_Some (o_locked (w_open w) !! follow (w_files w) p).

Definition Flock (fd : file_desc) : io io_error unit := fun w =>
  match Sync fault (fd_path fd) w with
  | (Ok _, w') => let o := w_open w' in (Ok tt, with_open w' (mkOpen (o_next o) (<[fd_path fd := fd_id fd]> (o_locked o))))
  | (Err err, w') => (Err err, w')
  end.

Definition drop_lock (fd : file_desc) (o : open_files) : open_files :=
  if decide (o_locked o !! fd_path fd = Some (fd_id fd)) then mkOpen (o_next o) (delete (fd_path fd) (o_locked o)) else o.

Definition Funlock (fd : file_desc) : io io_error unit := fun w =>
  match Sync fault (fd_path fd) w with
  | (Ok _, w') => (Ok tt, with_open w' (drop_lock fd (w_open w')))
  | (Err err, w') => (Err err, w')
  end.

(** Closing gives up the lock, also when [close] reports an error. *)
Definition CloseFD (fd : file_desc) : io io_error unit := fun w =>
  let '(r, w') := Close fault (fd_path fd) w in (r, with_open w' (drop_lock fd (w_open w'))).

(** The lock file and its exclusive lock. *)
Definition lock_path (e : Editor) (zone : string) : string := Join [lockDir e; norm zone +:+ ".lock"].

Definition lock (e : Editor) (zone : string) : io fz_error file_desc :=
  _ ← wrap ErrLock (MkdirAll fault (lockDir e));
  fd ← wrap ErrLock (open_create (lock_path e zone) 416);
  _ ← wrap ErrLock (fun w => match Flock fd w with
                             | (Ok a, w') => (Ok a, w')
                             | (Err err, w') => (Err err, (CloseFD fd w').2)
                             end);
  mret fd.

(** What [lock] gives the caller to defer. *)
Definition unlock (fd : file_desc) (w : world) : world := (CloseFD fd (Funlock fd w).2).2.

Fixpoint remove_all (dir : string) (names : list string) : io io_error unit :=
  match names with
  | [] => mret tt
  | n :: ns => _ ← ignore (Remove fault (Join [dir; n])); remove_all dir ns
  end.

Definition pruneBackups (dir : string) (keep : Z) : io io_error unit :=
  ents ← attempt (ReadDir fault dir);
  match ents with
  | Err _ => mret tt
  | Ok names =>
      let zones := sort_strings (List.filter (has_suffix ".zone") names) in
      remove_all dir (take (length zones - Z.to_nat keep) zones)
  end.

(** A computation that reads the clock. *)
Definition at_tick {E A} (f : nat -> io E A) : io E A := fun w => f (w_tick w) w.

Definition backup (e : Editor) (zone content : string) : io io_error string :=
  let dir := Join [backupDir e; norm zone] in
  _ ← MkdirAll fault dir;
  at_tick (fun t =>
    let path := Join [dir; format_int (now_ns t) +:+ ".zone"] in
    _ ← WriteFile fault euid egid path content 416;
    _ ← pruneBackups dir (keep e);
    mret path).

(** The temporary file, written, with the mode and the owner of the original:
    an owner that cannot be kept is an error unless it is the caller. *)
Definition stage (tmp content : string) (mode uid gid : Z) : io write_error unit :=
  _ ← or_close fault tmp (wrap WIO (write_at fault tmp content));
  _ ← or_close fault tmp (wrap WIO (Chmod fault tmp mode));
  own ← attempt (Chown fault tmp uid gid);
  _ ← (if negb (is_ok own) && negb (uid =? euid) then or_close fault tmp (fail (WOwner uid)) else mret tt);
  _ ← or_close fault tmp (wrap WIO (Sync fault tmp));
  wrap WIO (Close fault tmp).

(** Stage in the same directory, and rename over the original. *)
Definition writePreserving (path content : string) : io write_error unit :=
  fi ← wrap WIO (Lstat fault path);
  match fi with
  | Link _ => fail WSymlink
  | Reg _ mode uid gid =>
      let dir := Dir path in
      tmp ← wrap WIO (CreateTemp fault tempname euid egid dir);
      deferred (
        _ ← stage tmp content mode uid gid;
        _ ← wrap WIO (Rename fault tmp path);
        ignore (Sync fault dir))
      (fun w => (Remove fault tmp w).2)
  end.

Definition commit (e : Editor) (z : Zone) (zone expected newBytes : string) : io fz_error Result :=
  _ ← wrap ErrCheckzone (e_CheckZone e zone newBytes);
  _ ← wrap ErrHook (e_beforeWrite e);
  cur ← wrap ErrRead (readNoFollow fault (z_Path z));
  if negb (String.eqb cur expected) then fail ErrChanged
  else
    bk ← wrap ErrBackup (backup e zone expected);
    _ ← wrap ErrWrite (writePreserving (z_Path z) newBytes);
    let res := with_backup (diff zone (z_Path z) expected newBytes) bk in
    reloaded ← attempt (e_Reload e zone);
    match reloaded with
    | Err why =>
        restored ← attempt (writePreserving (z_Path z) expected);
        match restored with
        | Ok _ => fail (ErrRestored res why)
        | Err we => fail (ErrNotRestored res why we)
        end
    | Ok _ =>
        _ ← wrap (ErrVerify res) (e_Verify e zone (res_Serial res));
        mret res
    end.

(** [rndc] found on the path, or not, and run. *)
Definition rndcReload (rndc : option string) (zone : string) : io string unit :=
  match rndc with
  | None => fail "rndc missing"
  | Some bin => wrap (fun _ => "rndc reload") (exec fault [bin; "reload"; zone])
  end.

(** ** Entry points *)

Definition read_screened (z : Zone) (zone : string) : io fz_error string :=
  orig ← wrap ErrRead (readNoFollow fault (z_Path z));
  _ ← pure (screen orig zone);
  mret orig.

Definition Preview (e : Editor) (zone : string) (ops : list Op) : io fz_error Result :=
  z ← resolve e zone;
  orig ← read_screened z zone;
  new ← pure (compute today zone orig ops);
  mret (diff zone (z_Path z) orig new).

Definition locked {A} (e : Editor) (zone : string) (body : io fz_error A) : io fz_error A :=
  fd ← lock e zone; deferred body (unlock fd).

Definition Apply (e : Editor) (zone : string) (ops : list Op) : io fz_error Result :=
  z ← resolve e zone;
  locked e zone (
    orig ← read_screened z zone;
    new ← pure (compute today zone orig ops);
    commit e z zone orig new).

Definition ReadRaw (e : Editor) (zone : string) : io fz_error string :=
  z ← resolve e zone; wrap ErrRead (readNoFollow fault (z_Path z)).

Definition ReplaceRaw (e : Editor) (zone newBytes : string) (base : option string) : io fz_error Result :=
  z ← resolve e zone;
  locked e zone (
    cur ← read_screened z zone;
    if match base with Some b => negb (String.eqb cur b) | None => false end then fail ErrChanged
    else
      normalized ← pure (normalizeRawSerial today zone cur newBytes);
      commit e z zone cur normalized).

Definition PreviewRaw (e : Editor) (zone newBytes : string) : io fz_error (Result * string) :=
  z ← resolve e zone;
  cur ← read_screened z zone;
  new ← pure (normalizeRawSerial today zone cur newBytes);
  _ ← wrap ErrCheckzone (e_CheckZone e zone new);
  mret (diff zone (z_Path z) cur new, cur).

(** The editor of [PreflightEnable] lists the zone itself as editable. *)
Definition PreflightEnable (e : Editor) (zone : string) : io fz_error string :=
  let e' := mkEditor [zone] (e_LockDir e) (e_BackupDir e) (e_Keep e) (e_Inv e) (e_CheckZone e) (e_Reload e)
              (e_Verify e) (e_beforeWrite e) in
  z ← resolve e' zone;
  orig ← read_screened z zone;
  _ ← pure (lift_zf (Parse orig zone));
  mret (z_Path z).

End editor.

(** Raw content never lowers the serial: what is written is the new
    content with its serial raised above the current one (and its own), or,
    where the serial can't be rewritten, the new content as it is, and then
    only if its serial is already higher. *)
Theorem raw_serial_rises {D : Dns} today zone cur new out :
  normalizeRawSerial today zone cur new = Ok out ->
  let floor := default 0 (currentSerial cur zone) in
  0 <= floor < two32 - 1 ->
  (forall f, Parse new zone = Ok f -> 0 <= SOASerial f < two32 - 1) ->
  (exists f st next, Parse new zone = Ok f /\ Surgical f = true /\ f_serialTok f = Some st /\ is_u32 next /\
     floor < next /\ SOASerial f < next /\ split newline out = bump_lines st next (split newline new)) \/
  (out = new /\ exists n, currentSerial new zone = Some n /\ floor < n).
Proof.
  intros H floor Hfl Hnew. unfold normalizeRawSerial in H. fold floor in H.
  destruct (match Parse new zone with Ok f => _ | Err _ => _ end) as [b|] eqn:E.
  - left. injection H as <-. destruct (Parse new zone) as [f|] eqn:Ep; [|done].
    destruct (Surgical f) eqn:Es; [|done]. destruct (SerialFloor today f floor) as [o|] eqn:Ef; [|done].
    injection E as ->. destruct (SerialFloor_lines _ _ _ _ _ _ Ep Ef) as (st & Hst & Hl).
    specialize (Hnew f eq_refl). exists f, st, (nextSerial today (Z.max (SOASerial f) floor)).
    pose proof (nextSerial_above today (Z.max (SOASerial f) floor) ltac:(lia)).
    repeat split; try done; try lia; apply nextSerial_range.
  - right. destruct (currentSerial new zone) as [n|]; [|done].
    destruct (Z.leb_spec n floor); [done|]. injection H as <-. eauto.
Qed.

(** ** The atomic write *)

Section writes.
Context (fault : nat -> option string) (tempname : nat -> string -> string) (euid egid : Z).

(** The owner of the original, or the caller's own when it could not be
    changed and the original was the caller's. *)
Definition owner_kept (uid gid u g : Z) : Prop :=
  (u = own euid uid /\ g = own egid gid) \/ (uid = euid /\ u = euid /\ g = egid).

Definition replaced (path content : string) (fs0 fs : files) : Prop :=
  (exists d m uid gid u g, fs0 !! path = Some (Reg d m uid gid) /\
     fs !! path = Some (Reg content m u g) /\ owner_kept uid gid u g) /\
  forall p, p <> path -> is_Some (fs0 !! p) -> fs !! p = fs0 !! p.

Lemma hoare_stage content fs0 mode uid gid tmp :
  hoare (staged fs0 tmp "" (fun m u' g' => m = 384 /\ u' = euid /\ g' = egid))
    (stage fault euid tmp content mode uid gid)
    (fun _ => staged fs0 tmp content (fun m u g => m = mode /\ owner_kept uid gid u g))
    (fun _ => framed fs0 tmp).
Proof.
  unfold stage. eapply hoare_bind; [apply hoare_or_close, hoare_wrap, hoare_write_at|]. intros ?; cbn beta.
  eapply hoare_bind; [apply hoare_or_close, hoare_wrap, hoare_Chmod|]. intros ?; cbn beta.
  set (A1 := fun m u g : Z => m = mode /\ (exists m0 : Z, m0 = 384 /\ u = euid /\ g = egid)).
  set (S1 := staged fs0 tmp content A1).
  eapply (hoare_bind _ _ _ (fun r fs => match r with
     | Ok _ => staged fs0 tmp content (fun m u g => m = mode /\ u = own euid uid /\ g = own egid gid) fs
     | Err _ => S1 fs end)).
  { apply (hoare_attempt _ _ (fun _ => staged fs0 tmp content (fun m u g => m = mode /\ u = own euid uid /\ g = own egid gid))
             (fun _ => S1)).
    apply hoare_syscall; [by intros|]. intros fs [] fs' [Hf (m & u & g & Hn & -> & m0 & -> & -> & ->)] H.
    rewrite Hn in H. simplify_eq. split; [by apply framed_insert|]. do 3 eexists. rewrite lookup_insert_eq.
    split; [done|]. done. }
  intros r. eapply (hoare_bind _ _ _ (fun _ => staged fs0 tmp content (fun m u g => m = mode /\ owner_kept uid gid u g))).
  { destruct r as [[]|e]; cbn.
    - intros w [Hf (m & u & g & Hn & ? & ? & ?)]. split; [done|]. do 3 eexists. split; [done|]. split; [done|]. by left.
    - destruct (Z.eqb_spec uid euid) as [->|Hne]; cbn.
      + intros w [Hf (m & u & g & Hn & ? & m0 & ? & ? & ?)]. split; [done|]. do 3 eexists. split; [done|].
        split; [done|]. by right.
      + apply hoare_or_close. intros w [Hf _]. done. }
  intros _. eapply hoare_bind.
  { apply hoare_or_close, hoare_wrap, hoare_read; [intros; by simplify_eq|intros e; apply staged_framed]. }
  intros ?; cbn beta. apply hoare_wrap, hoare_read; [intros; by simplify_eq|intros e; apply staged_framed].
Qed.

(** Whatever call fails, the file has the old node or the whole new content,
    and no other existing file changes. *)
Lemma hoare_writePreserving path content fs0 :
  hoare (fun fs => fs = fs0) (writePreserving fault tempname euid egid path content)
    (fun _ => replaced path content fs0) (fun _ => preserved fs0).
Proof.
  unfold writePreserving. eapply (hoare_bind _ _ _ (fun n fs => fs0 !! path = Some n /\ fs = fs0)).
  { apply hoare_wrap, hoare_syscall; [by intros e fs ->; apply preserved_refl|].
    intros fs n fs' -> H. destruct (fs0 !! path) eqn:E; by simplify_eq. }
  intros n. apply hoare_pure. intros Hpath. destruct n as [d mode uid gid|t].
  2: { intros w Hw. cbn. rewrite Hw. apply preserved_refl. }
  eapply (hoare_bind _ _ _ (fun tmp fs => fs0 !! tmp = None /\
     staged fs0 tmp "" (fun m u' g' => m = 384 /\ u' = euid /\ g' = egid) fs)).
  { apply hoare_wrap. eapply hoare_conseq;
      [apply (hoare_CreateTemp_new fault tempname euid egid (Dir path) fs0)|by intros|by intros|].
    intros e fs ->. apply preserved_refl. }
  intros tmp. apply hoare_pure. intros Hnew. assert (Hne : tmp <> path) by congruence.
  apply (hoare_deferred _ _ _ (fun _ fs => (exists m u g, fs !! path = Some (Reg content m u g) /\ m = mode /\ owner_kept uid gid u g) /\
         (forall p, p <> tmp -> p <> path -> fs !! p = fs0 !! p)) _ (fun _ => framed fs0 tmp)).
  - eapply hoare_bind; [apply hoare_stage|]. intros ?; cbn beta.
    eapply hoare_bind; [apply hoare_wrap; by apply hoare_Rename_staged|]. intros ?; cbn beta.
    apply hoare_ignore, hoare_read; [intros; by simplify_eq|done].
  - intros w a [(m & u & g & Hn & -> & Ho) Hoth]. split.
    + exists d, mode, uid, gid, u, g. rewrite remove_tmp by done. done.
    + intros p Hp [n' Hn']. rewrite remove_tmp by congruence. apply Hoth; congruence.
  - intros w e Hf. apply (framed_preserved _ tmp); [done|]. intros p Hp. rewrite remove_tmp by done. by apply Hf.
Qed.

(** It makes and removes no link, and leaves no file open. *)
Lemma stage_links tmp content mode uid gid : keeps_links (stage fault euid tmp content mode uid gid).
Proof.
  unfold stage. apply keeps_links_bind; [auto with goddns|]. intros _. apply keeps_links_bind; [auto with goddns|]. intros _.
  apply keeps_links_bind; [auto with goddns|]. intros own. apply keeps_links_bind; [case_match; auto with goddns|]. intros _.
  auto with goddns.
Qed.

Lemma writePreserving_links path content : keeps_links (writePreserving fault tempname euid egid path content).
Proof.
  intros w. unfold writePreserving, mbind at 1, io_bind at 1, wrap at 1, Lstat, syscall at 1.
  destruct (fault _); [done|]. destruct (w_files w !! path) as [[d mode uid gid|t]|] eqn:Ep; [|done..].
  set (w1 := tick _). change (w_files w) with (w_files w1). unfold mbind at 1, io_bind at 1, wrap at 1, CreateTemp, syscall at 1.
  destruct (fault _); [done|]. set (tmp := tempname _ _). destruct (w_files w1 !! tmp) eqn:Et; [done|].
  set (w2 := tick (with_files w1 _)).
  assert (H2 : same_links (w_files w1) (w_files w2)) by (apply same_links_insert; [done|intros t; by rewrite Et]).
  assert (Hp : no_link (w_files w1) path) by (intros t; cbn; by rewrite Ep).
  assert (Ht : no_link (w_files w1) tmp) by (intros t; by rewrite Et).
  unfold deferred. set (body := mbind _ _).
  assert (Hb : same_links (w_files w1) (w_files (body w2).2)).
  { unfold body, mbind at 1, io_bind at 1. pose proof (stage_links tmp content mode uid gid w2) as Hs.
    destruct (stage fault euid tmp content mode uid gid w2) as [[[]|err] w3]; cbn [fst snd] in *; [|by eapply same_links_trans].
    assert (H3 : same_links (w_files w1) (w_files w3)) by by eapply same_links_trans.
    pose proof (links_Rename fault tmp path w3 (proj1 (same_links_no_link _ _ _ H3) Ht) (proj1 (same_links_no_link _ _ _ H3) Hp)) as Hr.
    unfold mbind, io_bind, wrap. destruct (Rename fault tmp path w3) as [[[]|err] w4]; cbn [fst snd] in *; [|by eapply same_links_trans].
    unfold ignore. cbn [snd]. rewrite (touches_nothing _ w4 (touches_Sync _ fault (Dir path))). by eapply same_links_trans. }
  destruct (body w2) as [r w3]. cbn [fst snd] in *. eapply same_links_trans; [exact Hb|]. apply links_Remove.
  by apply (same_links_no_link _ _ _ Hb).
Qed.

Lemma writePreserving_open path content : keeps_open (writePreserving fault tempname euid egid path content).
Proof.
  assert (Hs : forall A (f : files -> result io_error (A * files)), keeps_open (syscall fault f)) by (intros; apply keeps_open_syscall).
  unfold writePreserving, Lstat. apply keeps_open_bind; [auto with goddns|]. intros [d mode uid gid|t]; [|auto with goddns].
  apply keeps_open_bind; [auto with goddns|]. intros tmp. apply (keeps_open_deferred _ (Remove fault tmp)); [|apply Hs].
  apply keeps_open_bind; [|intros _; apply keeps_open_bind; [apply keeps_open_wrap, Hs|intros _; apply keeps_open_ignore, Hs]].
  unfold stage. do 2 (apply keeps_open_bind; [apply keeps_open_or_close, keeps_open_wrap, Hs|intros _]).
  apply keeps_open_bind; [apply keeps_open_attempt, Hs|]. intros own.
  apply keeps_open_bind; [case_match; auto with goddns|intros _].
  apply keeps_open_bind; [apply keeps_open_or_close, keeps_open_wrap, Hs|intros _]. apply keeps_open_wrap, Hs.
Qed.

End writes.

(** ** The write tail *)

Section commit.
Context {D : Dns} (fault : nat -> option string) (tempname : nat -> string -> string) (euid egid : Z).
Context (now_ns : nat -> Z) (e : Editor) (z : Zone) (zone : string).

(** The validator, the reload and the verification work on their own files. *)
Hypothesis checkzone_preserving : forall zn c, preserving (e_CheckZone e zn c).
Hypothesis reload_preserving : forall zn, preserving (e_Reload e zn).
Hypothesis verify_preserving : forall zn n, preserving (e_Verify e zn n).

(** The names in the zone's backup directory, and what they lead to. *)
Definition backup_name (q : string) : Prop :=
  exists n, free_of "/" n = true /\ q = Join [Join [backupDir e; norm zone]; n].
Definition is_backup (fs : files) (q : string) : Prop := exists n, backup_name n /\ (q = n \/ q = follow fs n).

Lemma not_a_backup fs p : (forall n, free_of "/" n = true -> Join [Join [backupDir e; norm zone]; n] <> p) ->
  (forall q, backup_name q -> no_link fs q) -> ~ is_backup fs p.
Proof.
  intros He Hc (q & Hq & Hf). assert (Hne : q <> p) by (destruct Hq as (n & Hn & ->); by apply He).
  destruct Hf as [->|Hf]; [done|]. unfold follow in Hf. destruct (fs !! q) as [[|t]|] eqn:E; [congruence| |congruence].
  by apply (Hc q Hq) in E.
Qed.

Lemma remove_all_touches names :
  Forall (fun n => free_of "/" n = true) names ->
  touches backup_name (remove_all fault (Join [backupDir e; norm zone]) names).
Proof. induction 1; cbn; [auto with goddns|]. unfold backup_name. eauto 10 with goddns. Qed.

Lemma pruneBackups_touches n : touches backup_name (pruneBackups fault (Join [backupDir e; norm zone]) n).
Proof.
  intros w p Hp. unfold pruneBackups, mbind, io_bind, attempt, ReadDir, syscall.
  destruct (fault (w_tick w)); [done|]. cbn. refine (remove_all_touches _ _ _ p Hp).
  apply Forall_take, Forall_forall. intros x. rewrite sort_strings_perm.
  intros [Hx _]%list_elem_of_In%filter_In. apply list_elem_of_In in Hx. revert x Hx. apply Forall_forall, names_in_free.
Qed.

Lemma backup_name_free t : free_of "/" (format_int t +:+ ".zone") = true.
Proof.
  unfold free_of. rewrite str_forall_app. apply andb_true_iff. split; [|done].
  assert (H : forall k, str_forall (fun c => negb (Ascii.eqb c "/")) (format_uint k) = true).
  { intros k. eapply str_forall_impl; [|apply format_uint_digits]. intros c. by destruct c as [[] [] [] [] [] [] [] []]. }
  unfold format_int. destruct (t <? 0); cbn; apply H.
Qed.

Lemma backup_touches content w p : ~ is_backup (w_files w) p ->
  w_files (backup fault euid egid now_ns e zone content w).2 !! p = w_files w !! p.
Proof.
  intros Hp. unfold backup.
  pose proof (touches_nothing _ w (touches_MkdirAll _ fault (Join [backupDir e; norm zone]))) as Hm. unfold mbind at 1, io_bind at 1. destruct (MkdirAll fault _ w) as [[[]|err] w1]; cbn in Hm; [|cbn; by rewrite Hm].
  unfold at_tick, mbind at 1, io_bind at 1. set (path := Join [_; _ +:+ ".zone"]).
  assert (Hn : backup_name path) by (eexists; split; [apply backup_name_free|done]).
  assert (H1 : w_files (WriteFile fault euid egid path content 416 w1).2 !! p = w_files w !! p).
  { rewrite WriteFile_elsewhere; [by rewrite Hm|]. rewrite Hm. intros ->. apply Hp. exists path. auto. }
  destruct (WriteFile fault euid egid path content 416 w1) as [[[]|err] w2]; cbn in H1; [|done]. rewrite <- H1.
  assert (H2 : touches backup_name (_ ← pruneBackups fault (Join [backupDir e; norm zone]) (keep e); (mret path : io io_error string)))
    by (apply touches_bind; [apply pruneBackups_touches|auto with goddns]).
  apply H2. intros Hb. apply Hp. exists p. auto.
Qed.

(** Where no name of the backup directory is a link, a backup leaves all links
    alone. *)
Lemma remove_all_links names w : Forall (fun n => free_of "/" n = true) names -> (forall q, backup_name q -> no_link (w_files w) q) ->
  same_links (w_files w) (w_files (remove_all fault (Join [backupDir e; norm zone]) names w).2).
Proof.
  intros Hns. revert w. induction Hns as [|n ns Hn _ IH]; intros w Hc; cbn [remove_all]; [done|].
  unfold mbind, io_bind, ignore. cbn [fst snd].
  assert (H1 := links_Remove fault (Join [Join [backupDir e; norm zone]; n]) w (Hc _ ltac:(by eexists))).
  eapply same_links_trans; [exact H1|]. apply IH. intros q Hq. by apply (same_links_no_link _ _ _ H1), Hc.
Qed.

Lemma pruneBackups_links n w : (forall q, backup_name q -> no_link (w_files w) q) ->
  same_links (w_files w) (w_files (pruneBackups fault (Join [backupDir e; norm zone]) n w).2).
Proof.
  intros Hc. unfold pruneBackups, mbind, io_bind, attempt, ReadDir, syscall.
  destruct (fault (w_tick w)); [done|]. cbn [fst snd]. refine (remove_all_links _ (tick (with_files w (w_files w))) _ Hc).
  apply Forall_take, Forall_forall. intros x. rewrite sort_strings_perm.
  intros [Hx _]%list_elem_of_In%filter_In. apply list_elem_of_In in Hx. revert x Hx. apply Forall_forall, names_in_free.
Qed.

Lemma backup_links content w : (forall q, backup_name q -> no_link (w_files w) q) ->
  same_links (w_files w) (w_files (backup fault euid egid now_ns e zone content w).2).
Proof.
  intros Hc. unfold backup. pose proof (touches_nothing _ w (touches_MkdirAll _ fault (Join [backupDir e; norm zone]))) as Hm.
  unfold mbind at 1, io_bind at 1. destruct (MkdirAll fault _ w) as [[[]|err] w1]; cbn [fst snd] in *; [|by rewrite Hm].
  rewrite <- Hm in Hc |- *. unfold at_tick, mbind at 1, io_bind at 1.
  pose proof (keeps_links_WriteFile fault euid egid (Join [Join [backupDir e; norm zone]; format_int (now_ns (w_tick w1)) +:+ ".zone"]) content 416 w1) as H2.
  destruct (WriteFile _ _ _ _ _ _ w1) as [[[]|err] w2]; cbn [fst snd] in *; [|done]. eapply same_links_trans; [exact H2|].
  assert (Hc2 : forall q, backup_name q -> no_link (w_files w2) q) by (intros q Hq; by apply (same_links_no_link _ _ _ H2), Hc).
  unfold mbind, io_bind. pose proof (pruneBackups_links (keep e) w2 Hc2) as H3. by destruct (pruneBackups _ _ _ w2) as [[[]|err] w3].
Qed.

Lemma backup_open content : keeps_open (backup fault euid egid now_ns e zone content).
Proof.
  unfold backup. apply keeps_open_bind; [apply keeps_open_syscall|]. intros _ w. unfold at_tick. apply keeps_open_bind.
  - apply keeps_open_bind; [apply keeps_open_syscall|]. intros q. apply keeps_open_syscall.
  - intros _. apply keeps_open_bind; [|intros; apply keeps_open_ret]. unfold pruneBackups.
    apply keeps_open_bind; [apply keeps_open_attempt, keeps_open_syscall|]. intros [names|]; [|apply keeps_open_ret].
    generalize (take (length (sort_strings (List.filter (has_suffix ".zone") names)) - Z.to_nat (keep e)) (sort_strings (List.filter (has_suffix ".zone") names))).
    intros l. induction l as [|n l IH]; cbn [remove_all]; [apply keeps_open_ret|].
    apply keeps_open_bind; [apply keeps_open_ignore, keeps_open_syscall|]. auto.
Qed.

(** [path] held [expected] before, and holds [content] now, with the mode and
    the owner it had. *)
Definition rewritten (expected content : string) (fs1 fs : files) : Prop :=
  exists m uid gid u g, fs1 !! z_Path z = Some (Reg expected m uid gid) /\
    fs !! z_Path z = Some (Reg content m u g) /\ owner_kept euid egid uid gid u g.

Definition outcome (expected new : string) (r : result fz_error Result) (fs1 fs : files) : Prop :=
  match r with
  | Ok _ | Err (ErrVerify _ _) | Err (ErrNotRestored _ _ _) => rewritten expected new fs1 fs
  | Err (ErrRestored _ _) => exists m uid gid m' u g,
      fs1 !! z_Path z = Some (Reg expected m uid gid) /\ fs !! z_Path z = Some (Reg expected m' u g)
  | Err _ => fs !! z_Path z = fs1 !! z_Path z
  end.

(** After the backup: the write, the reload and its undo, the verification. *)
Lemma commit_tail expected new bk fs1 w r w' :
  (exists m u g, fs1 !! z_Path z = Some (Reg expected m u g)) -> w_files w !! z_Path z = fs1 !! z_Path z ->
  (_ ← wrap ErrWrite (writePreserving fault tempname euid egid (z_Path z) new);
   let res := with_backup (diff zone (z_Path z) expected new) bk in
   reloaded ← attempt (e_Reload e zone);
   match reloaded with
   | Err why =>
       restored ← attempt (writePreserving fault tempname euid egid (z_Path z) expected);
       match restored with
       | Ok _ => fail (ErrRestored res why)
       | Err we => fail (ErrNotRestored res why we)
       end
   | Ok _ => _ ← wrap (ErrVerify res) (e_Verify e zone (res_Serial res)); mret res
   end) w = (r, w') ->
  outcome expected new r fs1 (w_files w').
Proof.
  intros (m & uid & gid & Hfs1) Hw. set (res := with_backup _ bk). unfold mbind, io_bind, wrap at 1.
  pose proof (hoare_writePreserving fault tempname euid egid (z_Path z) new (w_files w) w eq_refl) as Hwp.
  destruct (writePreserving _ _ _ _ _ new w) as [[[]|we] w1].
  2: { intros [= <- <-]. cbn. rewrite <- Hw. apply Hwp. rewrite Hw, Hfs1. done. }
  destruct Hwp as [(d & m1 & uid1 & gid1 & u & g & H0 & H1 & Ho) _].
  rewrite Hw, Hfs1 in H0. injection H0 as <- <- <- <-.
  unfold attempt at 1. pose proof (reload_preserving zone w1) as Hrl.
  destruct (e_Reload e zone w1) as [[[]|why] w2]; cbn in Hrl;
    assert (H2 : w_files w2 !! z_Path z = Some (Reg new m u g)) by (rewrite Hrl by (by rewrite H1); done).
  - unfold wrap. pose proof (verify_preserving zone (res_Serial res) w2) as Hv.
    destruct (e_Verify e zone (res_Serial res) w2) as [[[]|vw] w3]; cbn in Hv; intros [= <- <-]; cbn;
      (exists m, uid, gid, u, g; split; [done|]; split; [|done]; rewrite Hv by (by rewrite H2); done).
  - unfold attempt. pose proof (hoare_writePreserving fault tempname euid egid (z_Path z) expected (w_files w2) w2 eq_refl) as Hwr.
    destruct (writePreserving _ _ _ _ _ expected w2) as [[[]|we] w3]; intros [= <- <-]; cbn.
    + destruct Hwr as [(d & m3 & uid3 & gid3 & u3 & g3 & H3 & H4 & _) _]. eauto 10.
    + exists m, uid, gid, u, g. split; [done|]. split; [|done]. rewrite Hwr by (by rewrite H2). done.
Qed.

(** C6: the write tail, whatever system call fails and whatever another process
    does to the file until it is read again and compared, nobody else writing
    it from that comparison on (the gap the code leaves there is the subject of
    [Editors]), the injected functions keeping to their own files and no name in
    the backup directory leading to the zone file. Nothing happens unless the validator accepts the new
    content. After that the zone file is either untouched, or it held exactly
    the bytes the edit was computed from and was replaced as a whole: by the
    new content on success (and when only the verification, or the undo of a
    failed reload, went wrong), by the old bytes again when the reload failed
    and was undone. *)
Theorem commit_spec expected new w r w' :
  commit fault tempname euid egid now_ns e z zone expected new w = (r, w') ->
  (exists why wc, e_CheckZone e zone new w = (Err why, wc) /\ r = Err (ErrCheckzone why) /\ w' = wc) \/
  (exists wc, e_CheckZone e zone new w = (Ok tt, wc) /\
     let fs := w_files (e_beforeWrite e wc).2 in
     (~ is_backup fs (z_Path z) -> outcome expected new r fs (w_files w'))).
Proof.
  unfold commit. intros H. apply io_bind_ok in H as [([] & wc & H1 & H)|(ec & H1 & ->)]; unfold wrap in H1.
  2: { left. destruct (e_CheckZone e zone new w) as [[|why] wc] eqn:E; [done|]. injection H1 as <- <-. eauto. }
  right. exists wc. destruct (e_CheckZone e zone new w) as [[[]|] wc'] eqn:E; [|done]. injection H1 as <-. split; [done|]. cbv zeta. intros Hnb.
  apply io_bind_ok in H as [([] & wh & H1 & H)|(eh & H1 & ->)]; unfold wrap in H1;
    destruct (e_beforeWrite e wc') as [[[]|why] wh'] eqn:Eh; simplify_eq; [|done]. cbn in Hnb |- *.
  apply io_bind_ok in H as [(cur & wr & H1 & H)|(er & H1 & ->)]; unfold wrap in H1;
    pose proof (touches_nothing _ wh (touches_readNoFollow _ fault (z_Path z))) as Hrt;
    destruct (readNoFollow fault (z_Path z) wh) as [[c|er'] wr'] eqn:Er; simplify_eq; cbn in Hrt;
    [|cbn; by rewrite Hrt].
  destruct (String.eqb_spec cur expected) as [->|Hne]; cbn [negb] in H.
  2: { injection H as <- <-. cbn. by rewrite Hrt. }
  assert (Hexp : exists m u g, w_files wh !! z_Path z = Some (Reg expected m u g)).
  { unfold readNoFollow, syscall in Er. destruct (fault _); [done|].
    destruct (w_files wh !! z_Path z) as [[d m u g|t]|]; simplify_eq. eauto. }
  rewrite <- Hrt in Hnb. pose proof (backup_touches expected wr (z_Path z) Hnb) as Hb.
  apply io_bind_ok in H as [(bk & wb & H1 & H)|(eb & H1 & ->)]; unfold wrap in H1;
    destruct (backup _ _ _ _ _ _ _ wr) as [[b|eb'] wb'] eqn:Eb; simplify_eq; cbn in Hb.
  - eapply commit_tail; [done| |exact H]. by rewrite Hb, Hrt.
  - cbn. by rewrite Hb, Hrt.
Qed.

End commit.

(** ** Which zones, and which files, are ever written *)

(** What the lookup and the screens promise of a zone [z] whose file is [p]
    and held [d] then. *)
Record admitted {D : Dns} (e : Editor) (zone p : string) (z : Zone) (d : string) : Prop := {
  ad_master : is_master z = true;
  ad_static : z_Dynamic z = false;
  ad_listed : editable e zone = true;
  ad_path : p = z_Path z /\ p <> "" /\ panelPath p = None;
  ad_content : screen d zone = Ok tt
}.

Section gate.
Context {D : Dns} (fault : nat -> option string) (tempname : nat -> string -> string) (euid egid : Z).
Context (today : date) (now_ns : nat -> Z) (e : Editor) (zone : string).
Hypothesis inv_external : external (e_Inv e).
Hypothesis checkzone_external : forall zn c, external (e_CheckZone e zn c).
Hypothesis reload_external : forall zn, external (e_Reload e zn).
Hypothesis verify_external : forall zn n, external (e_Verify e zn n).
Hypothesis hook_external : external (e_beforeWrite e).

Definition none (q : string) : Prop := False.

Lemma inv_preserving : preserving (e_Inv e).
Proof. by apply external_preserving. Qed.

Lemma spares_none {E A} (m : io E A) : spares none m <-> preserving m.
Proof. split; intros H w p; [intros Hs; by apply H; [intros []|]|intros _; apply H]. Qed.

Lemma spares_pure {A} P (r : result fz_error A) : spares P (pure r).
Proof. by intros w p _ _. Qed.

Lemma spares_syscalls P :
  (forall p, spares P (Lstat fault p)) /\ (forall p, spares P (readNoFollow fault p)) /\
  (forall p, spares P (MkdirAll fault p)) /\ (forall p, spares P (Sync fault p)).
Proof.
  split_and!; intros p; apply spares_touches;
    [apply touches_Lstat|apply touches_readNoFollow|apply touches_MkdirAll|apply touches_Sync].
Qed.

Lemma Flock_files fd w : w_files (Flock fault fd w).2 = w_files w.
Proof. unfold Flock, Sync, syscall. by destruct (fault _). Qed.

Lemma CloseFD_files fd w : w_files (CloseFD fault fd w).2 = w_files w.
Proof. unfold CloseFD, Close, syscall. by destruct (fault _). Qed.

Lemma open_create_keeps p mode : preserving (open_create fault euid egid p mode) /\ keeps_links (open_create fault euid egid p mode).
Proof.
  split; intros w; unfold open_create, syscall; destruct (fault _); cbn; try done;
    destruct (w_files w !! follow (w_files w) p) as [[]|] eqn:E; cbn; try done.
  - intros q Hq. apply lookup_insert_ne. intros <-. rewrite E in Hq. by destruct Hq.
  - apply same_links_insert; [done|]. intros t. by rewrite E.
Qed.

Lemma lock_files : preserving (lock fault euid egid e zone) /\ keeps_links (lock fault euid egid e zone).
Proof.
  assert (H : forall w, preserved (w_files w) (w_files (lock fault euid egid e zone w).2) /\
                        same_links (w_files w) (w_files (lock fault euid egid e zone w).2)); [|by split; intros w; apply H].
  intros w. unfold lock, mbind, io_bind, wrap. pose proof (touches_nothing _ w (touches_MkdirAll _ fault (lockDir e))) as Hm.
  destruct (MkdirAll fault (lockDir e) w) as [[[]|] w1]; cbn in Hm |- *; rewrite ?Hm; [|by split; [apply preserved_refl|]].
  destruct (open_create_keeps (lock_path e zone) 416) as [H1 H2]. specialize (H1 w1). specialize (H2 w1). rewrite Hm in H1, H2.
  destruct (open_create fault euid egid (lock_path e zone) 416 w1) as [[fd|] w2]; cbn in *; [|done].
  pose proof (Flock_files fd w2) as Hf. destruct (Flock fault fd w2) as [[[]|] w3]; cbn in *; rewrite ?CloseFD_files, Hf; done.
Qed.

(** *** The lock, in the kernel's table *)

Definition lock_file (w : world) : string := follow (w_files w) (lock_path e zone).

(** Open files have been given a number. *)
Definition numbered (w : world) (p : string) : Prop := forall id, o_locked (w_open w) !! p = Some id -> (id < o_next (w_open w))%nat.

Lemma lock_table w r w' : lock fault euid egid e zone w = (r, w') ->
  match r with
  | Ok fd => fd_path fd = lock_file w /\ o_locked (w_open w') = <[lock_file w := fd_id fd]> (o_locked (w_open w)) /\
      (fd_id fd < o_next (w_open w'))%nat
  | Err _ => numbered w (lock_file w) ->
      o_locked (w_open w') !! lock_file w = o_locked (w_open w) !! lock_file w /\ (o_next (w_open w) <= o_next (w_open w'))%nat
  end.
Proof.
  unfold lock, mbind, io_bind, wrap. pose proof (touches_nothing _ w (touches_MkdirAll _ fault (lockDir e))) as Hm.
  pose proof (keeps_open_syscall fault (fun fs => Ok (tt, fs)) w) as Ho. change (syscall fault (fun fs => Ok (tt, fs)) w) with (MkdirAll fault (lockDir e) w) in Ho.
  destruct (MkdirAll fault (lockDir e) w) as [[[]|] w1]; cbn [fst snd] in *; [|intros [= <- <-] _; by rewrite Ho].
  unfold lock_file, numbered. rewrite <- Hm, <- Ho. clear Hm Ho. unfold open_create. set (q := follow (w_files w1) (lock_path e zone)).
  pose proof (keeps_open_syscall fault (fun fs => let q := follow fs (lock_path e zone) in
    match fs !! q with Some (Reg _ _ _ _) => Ok (q, fs) | Some (Link _) => Err ELOOP | None => Ok (q, <[q := Reg "" 416 euid egid]> fs) end) w1) as Ho.
  destruct (syscall fault _ w1) as [[q'|] w2] eqn:Es; cbn [fst snd] in *; [|intros [= <- <-] _; by rewrite Ho].
  assert (q' = q) as ->.
  { unfold syscall in Es. destruct (fault _); [done|]. destruct (w_files w1 !! follow (w_files w1) (lock_path e zone)) as [[]|]; by simplify_eq. }
  unfold Flock, Sync, syscall. destruct (fault _); cbn; intros [= <- <-].
  - intros Hn. unfold CloseFD, Close, syscall. destruct (fault _); cbn; unfold drop_lock; cbn; rewrite Ho;
      (case_decide as Hd; [apply Hn in Hd; lia|]); cbn; auto with lia.
  - cbn. rewrite Ho. auto with lia.
Qed.

Lemma unlock_table fd w : o_locked (w_open w) !! fd_path fd = Some (fd_id fd) ->
  o_locked (w_open (unlock fault fd w)) !! fd_path fd = None.
Proof.
  intros H. assert (Hd : forall o, o_locked o !! fd_path fd = Some (fd_id fd) \/ o_locked o !! fd_path fd = None ->
                    o_locked (drop_lock fd o) !! fd_path fd = None).
  { intros o Ho. unfold drop_lock. case_decide; [apply lookup_delete_eq|]. by destruct Ho. }
  unfold unlock, CloseFD, Close, Funlock, Sync, syscall. destruct (fault (w_tick w)); cbn; destruct (fault _); cbn; auto.
Qed.

Lemma lock_preserving : preserving (lock fault euid egid e zone).
Proof. apply lock_files. Qed.

Lemma unlock_files fd w : w_files (unlock fault fd w) = w_files w.
Proof.
  unfold unlock. rewrite CloseFD_files. unfold Funlock, Sync, syscall. by destruct (fault _).
Qed.

Lemma read_screened_preserving z : preserving (read_screened fault z zone).
Proof.
  apply spares_none. unfold read_screened. apply spares_bind; [apply spares_wrap, spares_syscalls|]. intros c.
  apply spares_bind; [apply spares_pure|]. by intros _ w p _ _.
Qed.

(** As [spares], with files given up that depend on where the links lead. *)
Definition spares_in {E A} (P : files -> string -> Prop) (m : io E A) : Prop :=
  forall w p, ~ P (w_files w) p -> is_Some (w_files w !! p) -> w_files (m w).2 !! p = w_files w !! p.

Definition by_links (P : files -> string -> Prop) : Prop := forall fs fs' p, same_links fs fs' -> P fs' p -> P fs p.

Lemma spares_in_bind {E A B} P (m : io E A) (f : A -> io E B) : by_links P ->
  keeps_links m -> spares_in P m -> (forall a, spares_in P (f a)) -> spares_in P (mbind f m).
Proof.
  intros HP Hl Hm Hf w p Hp Hs. specialize (Hl w). specialize (Hm w p Hp Hs). unfold mbind, io_bind.
  destruct (m w) as [[a|err] w1]; cbn in *; [|done]. rewrite Hf; [done| |by rewrite Hm]. intros Hp1. by apply Hp, (HP _ (w_files w1)).
Qed.

(** The last part may give up some of these wherever the links lead. *)
Lemma spares_in_then {E A B} (P : files -> string -> Prop) (P0 : string -> Prop) (m : io E A) (f : A -> io E B) :
  (forall fs p, P0 p -> P fs p) -> spares_in P m -> (forall a, spares P0 (f a)) -> spares_in P (mbind f m).
Proof.
  intros HP Hm Hf w p Hp Hs. specialize (Hm w p Hp Hs). unfold mbind, io_bind.
  destruct (m w) as [[a|err] w1]; cbn in *; [|done]. rewrite Hf; [done| |by rewrite Hm]. intros Hp0. by apply Hp, HP.
Qed.

Lemma spares_spares_in {E A} P (m : io E A) : spares none m -> spares_in P m.
Proof. intros Hm w p _ Hs. by apply Hm; [intros []|]. Qed.

Definition given_up (z : Zone) (fs : files) (q : string) : Prop := q = z_Path z \/ is_backup e zone fs q.

Lemma given_up_links z : by_links (given_up z).
Proof.
  intros fs fs' p Hl [Hp|(n & Hn & Hp)]; [by left|right]. exists n. split; [done|].
  by rewrite <- (same_links_follow _ _ n Hl).
Qed.

Lemma spares_in_external {E E' A B} z (g : E -> E') (m : io E A) (f : A -> io E' B) : external m ->
  (forall a, spares_in (given_up z) (f a)) -> spares_in (given_up z) (mbind f (wrap g m)).
Proof.
  intros Hm. apply spares_in_bind; [apply given_up_links|by apply keeps_links_wrap, external_links|].
  by apply spares_spares_in, spares_wrap, spares_none, external_preserving.
Qed.

Lemma commit_spares z expected new :
  spares_in (given_up z) (commit fault tempname euid egid now_ns e z zone expected new).
Proof.
  assert (Hw : forall c, spares (fun q => q = z_Path z) (writePreserving fault tempname euid egid (z_Path z) c)).
  { intros c w p Hp Hs. pose proof (hoare_writePreserving fault tempname euid egid (z_Path z) c _ w eq_refl) as H.
    destruct (writePreserving _ _ _ _ _ _ _) as [[|] w']; by apply H. }
  unfold commit. apply spares_in_external; [done|]. intros _. apply spares_in_external; [done|]. intros _.
  apply spares_in_bind; [apply given_up_links|auto with goddns|apply spares_spares_in, spares_wrap, spares_syscalls|].
  intros cur. destruct (negb _); [by intros w p _ _|].
  apply (spares_in_then _ (fun q => q = z_Path z)); [by left| |].
  { intros w p Hp _. rewrite wrap_world. apply backup_touches. intros Hb. apply Hp. by right. }
  intros bk. apply spares_bind; [apply spares_wrap, Hw|]. intros _.
  apply spares_bind; [by apply spares_attempt, spares_preserving, external_preserving|]. intros [[]|why].
  - apply spares_bind; [by apply spares_wrap, spares_preserving, external_preserving|]. by intros _ w p _ _.
  - apply spares_bind; [apply spares_attempt, Hw|]. by intros [|] w p _ _.
Qed.

Lemma check_zone_ok ed z z' : check_zone ed z zone = Ok z' ->
  z = Some z' /\ is_master z' = true /\ z_Dynamic z' = false /\ editable ed zone = true /\ z_Path z' <> "".
Proof.
  unfold check_zone. destruct z as [z|]; [|done]. destruct (is_master z) eqn:E1; [|done].
  destruct (z_Dynamic z) eqn:E2; [done|]. destruct (editable ed zone) eqn:E3; [|done].
  destruct (String.eqb_spec (z_Path z) ""); [done|]. intros [= <-]. done.
Qed.

Lemma resolve_ok ed z w w' : resolve fault ed zone w = (Ok z, w') ->
  exists inv w1, e_Inv ed w = (Ok inv, w1) /\ ZoneByName inv zone = Some z /\ w_files w' = w_files w1 /\
    is_master z = true /\ z_Dynamic z = false /\ editable ed zone = true /\
    z_Path z <> "" /\ panelPath (z_Path z) = None /\ (exists d m u g, w_files w1 !! z_Path z = Some (Reg d m u g)).
Proof.
  unfold resolve, wrap, mbind, io_bind, pure. destruct (e_Inv ed w) as [[inv|] w1]; [|done].
  destruct (check_zone ed _ zone) as [z1|] eqn:Ec; [|done]. apply check_zone_ok in Ec as (E1 & E2 & E3 & E4 & E5).
  unfold Lstat, syscall. destruct (fault _); [done|].
  destruct (w_files w1 !! z_Path z1) as [[d m u g|t]|] eqn:El; [|done..]. cbn -[panelPath].
  destruct (panelPath (z_Path z1)) eqn:Ep; [done|]. intros [= <- <-]. exists inv, w1. eauto 15.
Qed.

Lemma resolve_preserving ed : e_Inv ed = e_Inv e -> preserving (resolve fault ed zone).
Proof.
  intros Hed. apply spares_none. unfold resolve. apply spares_bind; [apply spares_wrap, spares_none; rewrite Hed; by apply external_preserving|].
  intros inv. apply spares_bind; [apply spares_pure|]. intros z.
  apply spares_bind; [apply spares_wrap, spares_syscalls|]. intros [|]; [|by intros w p _ _].
  case_match; by intros w p _ _.
Qed.

Lemma resolve_links ed : e_Inv ed = e_Inv e -> keeps_links (resolve fault ed zone).
Proof.
  intros Hed. apply keeps_links_bind; [rewrite Hed; by apply keeps_links_wrap, external_links|]. intros inv.
  apply keeps_links_bind; [by intros w|]. intros z. apply keeps_links_bind; [auto with goddns|].
  intros []; [|by intros w]. case_match; by intros w.
Qed.

Lemma read_screened_links z : keeps_links (read_screened fault z zone).
Proof. apply keeps_links_bind; [auto with goddns|]. intros c. apply keeps_links_bind; [by intros w|auto with goddns]. Qed.

(** After the lookup: the lock, the file as it was at the lookup, the screens. *)
Lemma locked_writes {A} z (k : string -> io fz_error A) p w w' r d m u g :
  (forall c, spares_in (given_up z) (k c)) ->
  locked fault euid egid e zone (orig ← read_screened fault z zone; k orig) w = (r, w') ->
  w_files w !! z_Path z = Some (Reg d m u g) ->
  is_Some (w_files w !! p) -> ~ is_backup e zone (w_files w) p -> w_files w' !! p <> w_files w !! p ->
  p = z_Path z /\ screen d zone = Ok tt.
Proof.
  intros Hk H Hd Hp Hnb Hch. unfold locked, mbind at 1, io_bind in H.
  pose proof (lock_preserving w) as Hl. pose proof (proj2 lock_files w) as Hk1.
  destruct (lock _ _ _ e zone w) as [[lp|] w1]; cbn in Hl, Hk1; [|exfalso; simplify_eq; by rewrite Hl in Hch].
  unfold deferred in H. destruct ((orig ← read_screened fault z zone; k orig) w1) as [r1 w2] eqn:E.
  injection H as <- <-. rewrite unlock_files in Hch.
  assert (Hd1 : w_files w1 !! z_Path z = Some (Reg d m u g)) by (rewrite Hl; eauto).
  unfold mbind, io_bind in E. pose proof (read_screened_preserving z w1) as Hr. pose proof (read_screened_links z w1) as Hk3.
  destruct (read_screened fault z zone w1) as [[c|] w3] eqn:Er; cbn in Hr, Hk3.
  2: { injection E as <- <-. rewrite Hr, Hl in Hch by (rewrite ?Hl; done). done. }
  split.
  - destruct (decide (p = z_Path z)) as [|Hne]; [done|]. exfalso. apply Hch.
    pose proof (Hk c w3 p) as Hs. rewrite E in Hs. cbn in Hs. assert (Hg : ~ given_up z (w_files w3) p).
    { intros Hg. destruct (given_up_links z (w_files w) (w_files w3) p) as [?|?]; [by eapply same_links_trans|done..]. }
    rewrite Hs, Hr, Hl; rewrite ?Hr, ?Hl; rewrite ?Hl; done.
  - unfold read_screened, mbind, io_bind, wrap, readNoFollow, syscall, pure in Er.
    destruct (fault _); [done|]. rewrite Hd1 in Er. cbn in Er. by destruct (screen d zone) as [[]|].
Qed.

Lemma edit_admitted w call p :
  (exists ops, call = Apply fault tempname euid egid today now_ns e zone ops) \/
    (exists new base, call = ReplaceRaw fault tempname euid egid today now_ns e zone new base) ->
  is_Some (w_files w !! p) -> ~ is_backup e zone (w_files w) p -> w_files (call w).2 !! p <> w_files w !! p ->
  exists inv w1 z d, e_Inv e w = (Ok inv, w1) /\ ZoneByName inv zone = Some z /\ admitted e zone p z d /\
    exists m u g, w_files w1 !! p = Some (Reg d m u g).
Proof.
  intros Hcall Hp Hnb Hch.
  assert (exists k, call = (z ← resolve fault e zone; locked fault euid egid e zone (orig ← read_screened fault z zone; k z orig)) /\
            forall z c, spares_in (given_up z) (k z c)) as (k & -> & Hk).
  { destruct Hcall as [[ops ->]|(new & base & ->)]; eexists; (split; [reflexivity|]); intros z c; cbn beta.
    - apply spares_in_bind; [apply given_up_links|by intros w0|apply spares_spares_in, spares_pure|]. intros. apply commit_spares.
    - case_match; [by intros w0 q _ _|].
      apply spares_in_bind; [apply given_up_links|by intros w0|apply spares_spares_in, spares_pure|]. intros. apply commit_spares. }
  unfold mbind at 1, io_bind in Hch. pose proof (resolve_preserving e eq_refl w) as Hr. pose proof (resolve_links e eq_refl w) as Hlk.
  destruct (resolve fault e zone w) as [[z|] w1] eqn:Er; cbn in Hr, Hlk; [|by rewrite Hr in Hch].
  destruct (resolve_ok _ _ _ _ Er) as (inv & wi & Hi & Hz & Hw & Hm & Hdyn & Hed & Hpath & Hpan & d & m & u & g & Hd).
  destruct (locked _ _ _ _ _ _ w1) as [r w'] eqn:El. cbn in Hch.
  assert (p = z_Path z /\ screen d zone = Ok tt) as [-> Hsc]; [|exists inv, wi, z, d; split_and!; try done; eauto].
  eapply locked_writes; [apply Hk|exact El|by rewrite Hw|by rewrite Hr| |by rewrite Hr].
  intros (n & Hn & Hb). apply Hnb. exists n. by rewrite <- (same_links_follow _ _ n Hlk).
Qed.

(** A replacement computed from other bytes than the file holds is refused. *)
Lemma replace_stale w w1 inv z d m u g new base :
  e_Inv e w = (Ok inv, w1) -> ZoneByName inv zone = Some z -> w_files w !! z_Path z = Some (Reg d m u g) -> d <> base ->
  let '(r, w') := ReplaceRaw fault tempname euid egid today now_ns e zone new (Some base) w in
  (exists err, r = Err err) /\ preserved (w_files w) (w_files w').
Proof.
  intros Hi Hz Hf Hne. unfold ReplaceRaw, mbind at 1, io_bind at 1.
  pose proof (resolve_preserving e eq_refl w) as Hr.
  destruct (resolve fault e zone w) as [[z1|e1] w2] eqn:Er; cbn in Hr; [|by split; [eexists|]].
  destruct (resolve_ok _ _ _ _ Er) as (inv' & w1' & Hi' & Hz' & _). rewrite Hi in Hi'. injection Hi' as <- <-.
  rewrite Hz in Hz'. injection Hz' as <-. unfold locked, mbind at 1, io_bind at 1.
  pose proof (lock_preserving w2) as Hl. destruct (lock _ _ _ e zone w2) as [[lp|e2] w3]; cbn in Hl;
    [|split; [by eexists|by eapply preserved_trans]].
  assert (H3 : preserved (w_files w) (w_files w3)) by by eapply preserved_trans.
  unfold deferred, mbind at 1, io_bind at 1. pose proof (read_screened_preserving z w3) as Hs.
  destruct (read_screened fault z zone w3) as [[c|e3] w4] eqn:Ec; cbn in Hs;
    [|rewrite unlock_files; split; [by eexists|by eapply preserved_trans]].
  assert (c = d) as ->.
  { unfold read_screened, mbind, io_bind, wrap, readNoFollow, syscall, pure in Ec. destruct (fault _); [done|].
    rewrite (H3 _ (ex_intro _ _ Hf)), Hf in Ec. cbn -[screen] in Ec. destruct (screen d zone) as [[]|]; [|done]. by injection Ec. }
  destruct (String.eqb_spec d base) as [|_]; [done|]. cbn. rewrite unlock_files. split; [by eexists|by eapply preserved_trans].
Qed.

(** The reading entry points change no file that was there. *)
Lemma reading_preserves :
  (forall ops, preserving (Preview fault today e zone ops)) /\ preserving (ReadRaw fault e zone) /\
  (forall new, preserving (PreviewRaw fault today e zone new)) /\ preserving (PreflightEnable fault e zone).
Proof.
  assert (Hret : forall A (a : A), spares none (mret a : io fz_error A)) by (by intros A a w0 p _ _).
  assert (Hread : forall ed, e_Inv ed = e_Inv e -> forall A (f : Zone -> string -> io fz_error A),
            (forall z c, spares none (f z c)) ->
            spares none (z ← resolve fault ed zone; c ← read_screened fault z zone; f z c)).
  { intros ed Hed A f Hf. apply spares_bind; [by apply spares_none, resolve_preserving|]. intros z.
    apply spares_bind; [apply spares_none, read_screened_preserving|]. apply Hf. }
  split_and!.
  - intros ops. apply spares_none, Hread; [done|]. intros z c. apply spares_bind; [apply spares_pure|]. intros; apply Hret.
  - apply spares_none. apply spares_bind; [by apply spares_none, resolve_preserving|]. intros z.
    apply spares_wrap, spares_syscalls.
  - intros new. apply spares_none, Hread; [done|]. intros z c. apply spares_bind; [apply spares_pure|]. intros n.
    apply spares_bind; [by apply spares_wrap, spares_none, external_preserving|]. intros; apply Hret.
  - apply spares_none, Hread; [done|]. intros z c. apply spares_bind; [apply spares_pure|]. intros; apply Hret.
Qed.

Lemma reading_links :
  (forall ops, keeps_links (Preview fault today e zone ops)) /\ keeps_links (ReadRaw fault e zone) /\
  (forall new, keeps_links (PreviewRaw fault today e zone new)) /\ keeps_links (PreflightEnable fault e zone).
Proof.
  assert (Hpure : forall A (r : result fz_error A), keeps_links (pure r)) by (by intros A r w).
  split_and!; [intros ops| |intros new|]; (apply keeps_links_bind; [by apply resolve_links|]); intros z; [| auto with goddns| |];
    (apply keeps_links_bind; [apply read_screened_links|]); intros c; (apply keeps_links_bind; [apply Hpure|]); intros n; [auto with goddns| |auto with goddns].
  apply keeps_links_bind; [by apply keeps_links_wrap, external_links|auto with goddns].
Qed.

(** C12: the reading entry points change no file. A call that edits, or
    replaces the whole content, changes a file that was there only if it is
    the file of the zone that was asked for, as the name server's inventory
    gives it: a static primary zone on the list of editable zones, whose path
    is a regular file outside the trees of the control panels and whose
    content passed the panel and signature screens. Every other file, but the
    zone's own backups (what the names in their directory lead to), is as it
    was, whatever call fails. *)
Theorem writes_only_admitted w :
  (forall ops, preserved (w_files w) (w_files (Preview fault today e zone ops w).2)) /\
  preserved (w_files w) (w_files (ReadRaw fault e zone w).2) /\
  (forall new, preserved (w_files w) (w_files (PreviewRaw fault today e zone new w).2)) /\
  preserved (w_files w) (w_files (PreflightEnable fault e zone w).2) /\
  forall call p, (exists ops, call = Apply fault tempname euid egid today now_ns e zone ops) \/
                 (exists new base, call = ReplaceRaw fault tempname euid egid today now_ns e zone new base) ->
    is_Some (w_files w !! p) -> ~ is_backup e zone (w_files w) p -> w_files (call w).2 !! p <> w_files w !! p ->
    exists inv w1 z d, e_Inv e w = (Ok inv, w1) /\ ZoneByName inv zone = Some z /\ admitted e zone p z d /\
      exists m u g, w_files w1 !! p = Some (Reg d m u g).
Proof.
  destruct reading_preserves as (H1 & H2 & H3 & H4). split_and!; [intros; apply H1|apply H2|intros; apply H3|apply H4|].
  intros call p. apply edit_admitted.
Qed.

End gate.

(** ** Witnesses *)

Module FileZoneExample.

#[local] Existing Instance Sample.dns.

Definition no_fault : nat -> option string := fun _ => None.
Definition temp (t : nat) (dir : string) : string := "/etc/bind/.tmp".
Definition today : date := mkDate 2026 1 2.
Definition clock (t : nat) : Z := 1767312000000000000 + Z.of_nat t.
Definition path : string := "/etc/bind/db.example".
Definition content : string :=
  join nl ["$TTL 300"; "@ 300 IN SOA ns.example. root.example. 2024010100 1 2 3 4";
           "@ 300 IN NS ns.example."; "www 300 IN A 192.0.2.1"; ""].
Definition example_zone : Zone := mkZone "example" "" "master" path path false [] "".
Definition inv : Inventory := mkInv "/etc/bind" [example_zone] [].
Definition e : Editor := mkEditor ["example."] "/locks" "/backups" 0 (mret inv) (fun _ _ => mret tt) (fun _ => mret tt)
  (fun _ _ => mret tt) (mret tt).
Definition w0 : world := mkWorld {[path := Reg content 420 7 8]} 0 [] no_open.
Definition raw : string :=
  join nl ["@ 300 IN SOA ns.example. root.example. 2020010100 1 2 3 4"; "@ 300 IN NS ns.example."; ""].
Definition raised : string := from_ok "" (normalizeRawSerial today "example" content raw).

Example raised_value : raised =
  join nl ["@ 300 IN SOA ns.example. root.example. 2026010200 1 2 3 4"; "@ 300 IN NS ns.example."; ""].
Proof. by vm_compute. Qed.

Definition api : Sample.srr := Sample.mkRR "api.example." 60 TypeA "192.0.2.9".
Definition ops : list (Op (H := Sample.dns)) := [mkOp AddRR (Some (api : RR))].
Definition call : io fz_error Result := Apply no_fault temp 0 0 today clock e "example" ops.
Definition edited : string := from_ok "" (compute today "example" content ops).
Definition committed := commit no_fault temp 0 0 clock e example_zone "example" content edited w0.

Example apply_value :
  match (call w0).1 with
  | Ok r => (res_Backup r, res_Serial r, length (res_Added r)) = ("/backups/example/1767312000000000007.zone", 2026010200, 1%nat)
  | Err _ => False
  end /\
  w_files (call w0).2 !! path = Some (Reg edited 420 7 8) /\
  w_files (call w0).2 !! "/backups/example/1767312000000000007.zone" = Some (Reg content 416 0 0).
Proof. by vm_compute. Qed.

Lemma elsewhere n : free_of "/" n = true -> Join [Join [backupDir e; norm "example"]; n] <> path.
Proof.
  intros Hn. change (Join [backupDir e; norm "example"]) with "/backups/example". unfold Join. cbn [List.filter].
  destruct (String.eqb n "") eqn:E0; cbn [negb]; [discriminate|].
  change (Clean ("" +:+ String "/" ("backups" +:+ String "/" ("example" +:+ String "/" n))) <> path).
  unfold Clean. rewrite !split_app by done. rewrite split_free_id by done. cbn [clean_parts]. rewrite E0.
  destruct (String.eqb n "."); [discriminate|]. by destruct (String.eqb n "..").
Qed.

Lemma not_backup : ~ is_backup e "example" (w_files w0) path.
Proof.
  apply not_a_backup; [exact elsewhere|]. intros q (n & Hn & ->) t. cbn [w0 w_files].
  rewrite lookup_singleton_ne; [done|]. intros H. by apply (elsewhere n).
Qed.

Lemma ret_external {E A} (a : A) : external (mret a : io E A).
Proof. intros w. split_and!; [apply preserved_refl|done|done]. Qed.

Lemma ret_preserving {E A} (a : A) : preserving (mret a : io E A).
Proof. apply external_preserving, ret_external. Qed.

Lemma raw_serial_rises_witness :
  (exists f st next, Parse raw "example" = Ok f /\ Surgical f = true /\ f_serialTok f = Some st /\ is_u32 next /\
     2024010100 < next /\ SOASerial f < next /\ split newline raised = bump_lines st next (split newline raw)) \/
  (raised = raw /\ exists n, currentSerial raw "example" = Some n /\ 2024010100 < n).
Proof.
  assert (H1 : normalizeRawSerial today "example" content raw = Ok raised) by (apply from_ok_ok; vm_compute; reflexivity).
  assert (Hf : default 0 (currentSerial content "example") = 2024010100) by (vm_compute; reflexivity).
  assert (H2 : 0 <= default 0 (currentSerial content "example") < two32 - 1) by (rewrite Hf; unfold two32; lia).
  assert (H3 : forall f, Parse raw "example" = Ok f -> 0 <= SOASerial f < two32 - 1).
  { intros f Hp. assert (Hs : match Parse raw "example" with Ok f => SOASerial f | Err _ => 0 end = 2020010100)
      by (vm_compute; reflexivity). rewrite Hp in Hs. rewrite Hs. unfold two32. lia. }
  rewrite <- Hf. exact (raw_serial_rises today "example" content raw raised H1 H2 H3).
Defined.

Lemma commit_spec_witness :
  (exists why wc, e_CheckZone e "example" edited w0 = (Err why, wc) /\ committed.1 = Err (ErrCheckzone why) /\ committed.2 = wc) \/
  (exists wc, e_CheckZone e "example" edited w0 = (Ok tt, wc) /\
     outcome 0 0 example_zone content edited committed.1 (w_files (e_beforeWrite e wc).2) (w_files committed.2)).
Proof.
  assert (H : commit no_fault temp 0 0 clock e example_zone "example" content edited w0 = (committed.1, committed.2))
    by apply surjective_pairing.
  destruct (commit_spec no_fault temp 0 0 clock e example_zone "example" (fun _ => ret_preserving _)
           (fun _ _ => ret_preserving _) content edited w0 committed.1 committed.2 H) as [Hc|(wc & Hc & Ho)]; [by left|right].
  assert (wc = w0) as -> by (by injection Hc). exists w0. exact (conj Hc (Ho not_backup)).
Defined.

Lemma writes_only_admitted_witness :
  exists inv w1 z d, e_Inv e w0 = (Ok inv, w1) /\ ZoneByName inv "example" = Some z /\ admitted e "example" path z d /\
    exists m u g, w_files w1 !! path = Some (Reg d m u g).
Proof.
  assert (Hp : is_Some (w_files w0 !! path)) by (eexists; vm_compute; reflexivity).
  assert (Hc : w_files (call w0).2 !! path <> w_files w0 !! path) by (by vm_compute).
  exact (proj2 (proj2 (proj2 (proj2 (writes_only_admitted no_fault temp 0 0 today clock e "example"
    (ret_external _) (fun _ _ => ret_external _) (fun _ => ret_external _) (fun _ _ => ret_external _)
    (ret_external _) w0)))) call path (or_introl (ex_intro _ ops eq_refl)) Hp not_backup Hc).
Defined.

End FileZoneExample.
