(* ===== verification/Editors.v ===== *)
(** * Editors: several edits of one zone file at the same time

    The daemon, the helper and the command line each call [Apply] and
    [ReplaceRaw] of [internal/filezone], and the operator has the file open in
    an editor that knows of no lock. [FileZone] runs a call from its first to
    its last line; here every call is at some line of its own, and the file is
    saved from outside between any two lines. What keeps the calls apart is
    the lock they take: [step] has no rule of its own for it, but for the one
    of the kernel, that [flock] waits while another open file has the lock;
    who has it is in the kernel's table, which [FileZone.lock] and
    [FileZone.unlock] write. [serial_step] is the specification, a system that
    has one call at a time under the lock and nothing else to hold; that each
    [step] is one of its steps is [step_serial]. *)

From Stdlib Require Import String Ascii.
From S2P Require Import Prelude GoStrings DnsLib NetIP Ddns ZoneTok ZoneFile FS Named FileZone.

Section data.
Context {D : Dns}.

(** What is asked for. *)
Inductive req := RApply (ops : list Op) | RReplace (new : string) (base : option string).

(** Where a call that holds the lock is: with the bytes it read and the ones
    it means to write, once it has them. *)
Inductive phase :=
| Holding
| Planned (orig new : string)
| Checked (orig new : string)
| Guarded (orig new : string)
| Backed (orig new bk : string)
| Written (orig new bk : string) (res : Result)
| Undoing (orig new bk : string) (res : Result) (why : string)
| Reloaded (res : Result)
| Leaving (r : result fz_error Result).

(** From the comparison of the bytes to the answer of the reload: where a file
    saved from outside is not noticed. *)
Definition window (ph : phase) : bool :=
  match ph with Guarded _ _ | Backed _ _ _ | Written _ _ _ _ | Undoing _ _ _ _ _ => true | _ => false end.

(** Where a call is: on its way to the lock, or behind it, with the lock file
    it has open. *)
Inductive place := Waiting | Inside (fd : file_desc) (ph : phase).

(** The log: calls made and answered, changes of the zone file by a call and
    from outside. *)
Inductive event :=
| Asked (i : nat) (rq : req)
| Committed (i : nat) (rq : req) (orig new : string)
| Saved (content : option string)
| Answered (i : nat) (r : result fz_error Result).

Record state := mkState { st_world : world; st_calls : gmap nat (req * Zone * place); st_log : list event }.

(** The specification's states: at most one call behind the lock. *)
Record holder := mkHolder { h_id : nat; h_req : req; h_zone : Zone; h_lock : file_desc; h_phase : phase }.
Record serial := mkSerial {
  s_world : world; s_holder : option holder; s_waiting : gmap nat (req * Zone); s_log : list event
}.

End data.

Section editors.
Context {D : Dns} (fault : nat -> option string) (tempname : nat -> string -> string) (euid egid : Z).
Context (today : date) (now_ns : nat -> Z) (e : Editor) (zone file : string).

(** ** The lines under the lock *)

(** The new content, from the one read. *)
Definition plan (rq : req) (cur : string) : result fz_error string :=
  match rq with
  | RApply ops => compute today zone cur ops
  | RReplace new base =>
      if match base with Some b => negb (String.eqb cur b) | None => false end then Err ErrChanged
      else normalizeRawSerial today zone cur new
  end.

(** From one call of the system, or of an injected function, to the next. *)
Definition work (z : Zone) (rq : req) (ph : phase) : io fz_error phase :=
  match ph with
  | Holding =>
      orig ← read_screened fault z zone;
      new ← pure (plan rq orig);
      mret (Planned orig new)
  | Planned orig new => _ ← wrap ErrCheckzone (e_CheckZone e zone new); mret (Checked orig new)
  | Checked orig new =>
      cur ← wrap ErrRead (readNoFollow fault (z_Path z));
      if negb (String.eqb cur orig) then fail ErrChanged else mret (Guarded orig new)
  | Guarded orig new => bk ← wrap ErrBackup (backup fault euid egid now_ns e zone orig); mret (Backed orig new bk)
  | Backed orig new bk =>
      _ ← wrap ErrWrite (writePreserving fault tempname euid egid (z_Path z) new);
      mret (Written orig new bk (with_backup (diff zone (z_Path z) orig new) bk))
  | Written orig new bk res =>
      reloaded ← attempt (e_Reload e zone);
      mret (match reloaded with Ok _ => Reloaded res | Err why => Undoing orig new bk res why end)
  | Undoing orig new bk res why =>
      restored ← attempt (writePreserving fault tempname euid egid (z_Path z) orig);
      fail (match restored with Ok _ => ErrRestored res why | Err we => ErrNotRestored res why we end)
  | Reloaded res => _ ← wrap (ErrVerify res) (e_Verify e zone (res_Serial res)); mret (Leaving (Ok res))
  | Leaving r => mret (Leaving r)
  end.

(** An error leaves, through the deferred unlock. *)
Definition advance (z : Zone) (rq : req) (ph : phase) (w : world) : phase * world :=
  match work z rq ph w with (Ok ph', w') => (ph', w') | (Err er, w') => (Leaving (Err er), w') end.

(** What the log is told: the new content has taken effect, because the reload
    took it or because it could not be undone. *)
Definition noted (i : nat) (rq : req) (ph ph' : phase) : list event :=
  match ph, ph' with
  | Written orig new _ _, Reloaded _ => [Committed i rq orig new]
  | Undoing orig new _ _ _, Leaving (Err (ErrNotRestored _ _ _)) => [Committed i rq orig new]
  | _, _ => []
  end.

(** ** All calls together *)

Definition content (w : world) : option string :=
  match w_files w !! file with Some (Reg d _ _ _) => Some d | _ => None end.

Definition exists_file (w : world) : Prop := is_Some (w_files w !! file).

(** [polite]: whether an editor that takes no lock waits while a call is
    between its comparison and its reload, as nothing makes it. The file
    named.conf gives for the zone stays the same; who saves the file makes no
    link and has nothing to do with the lock. *)
Inductive step (polite : bool) : state -> state -> Prop :=
| arrive i rq z w w' cs log :
    (forall rq', Asked i rq' ∉ log) -> resolve fault e zone w = (Ok z, w') -> z_Path z = file ->
    step polite (mkState w cs log) (mkState w' (<[i := (rq, z, Waiting)]> cs) (log ++ [Asked i rq]))
| refuse i rq er w w' cs log :
    (forall rq', Asked i rq' ∉ log) -> resolve fault e zone w = (Err er, w') ->
    step polite (mkState w cs log) (mkState w' cs (log ++ [Asked i rq; Answered i (Err er)]))
| acquire i rq z fd w w' cs log :
    cs !! i = Some (rq, z, Waiting) -> ~ flock_waits w (lock_path e zone) -> lock fault euid egid e zone w = (Ok fd, w') ->
    step polite (mkState w cs log) (mkState w' (<[i := (rq, z, Inside fd Holding)]> cs) log)
| no_lock i rq z er w w' cs log :
    cs !! i = Some (rq, z, Waiting) -> lock fault euid egid e zone w = (Err er, w') ->
    step polite (mkState w cs log) (mkState w' (delete i cs) (log ++ [Answered i (Err er)]))
| proceed i rq z fd ph ph' w w' cs log :
    cs !! i = Some (rq, z, Inside fd ph) -> (forall r, ph <> Leaving r) -> advance z rq ph w = (ph', w') ->
    step polite (mkState w cs log) (mkState w' (<[i := (rq, z, Inside fd ph')]> cs) (log ++ noted i rq ph ph'))
| release i rq z fd r w cs log :
    cs !! i = Some (rq, z, Inside fd (Leaving r)) ->
    step polite (mkState w cs log) (mkState (unlock fault fd w) (delete i cs) (log ++ [Answered i r]))
| save w w' cs log :
    exists_file w' -> same_links (w_files w) (w_files w') -> w_open w' = w_open w ->
    (polite = true -> forall i rq z fd ph, cs !! i = Some (rq, z, Inside fd ph) -> window ph = false) ->
    step polite (mkState w cs log) (mkState w' cs (log ++ [Saved (content w')])).

(** The specification: the same, for one holder. *)
Inductive serial_step (polite : bool) : serial -> serial -> Prop :=
| s_arrive i rq z w w' h ts log :
    (forall rq', Asked i rq' ∉ log) -> resolve fault e zone w = (Ok z, w') -> z_Path z = file ->
    serial_step polite (mkSerial w h ts log) (mkSerial w' h (<[i := (rq, z)]> ts) (log ++ [Asked i rq]))
| s_refuse i rq er w w' h ts log :
    (forall rq', Asked i rq' ∉ log) -> resolve fault e zone w = (Err er, w') ->
    serial_step polite (mkSerial w h ts log) (mkSerial w' h ts (log ++ [Asked i rq; Answered i (Err er)]))
| s_acquire i rq z fd w w' ts log :
    ts !! i = Some (rq, z) -> lock fault euid egid e zone w = (Ok fd, w') ->
    serial_step polite (mkSerial w None ts log) (mkSerial w' (Some (mkHolder i rq z fd Holding)) (delete i ts) log)
| s_no_lock i rq z er w w' h ts log :
    ts !! i = Some (rq, z) -> lock fault euid egid e zone w = (Err er, w') ->
    serial_step polite (mkSerial w h ts log) (mkSerial w' h (delete i ts) (log ++ [Answered i (Err er)]))
| s_proceed i rq z fd ph ph' w w' ts log :
    (forall r, ph <> Leaving r) -> advance z rq ph w = (ph', w') ->
    serial_step polite (mkSerial w (Some (mkHolder i rq z fd ph)) ts log)
      (mkSerial w' (Some (mkHolder i rq z fd ph')) ts (log ++ noted i rq ph ph'))
| s_release i rq z fd r w ts log :
    serial_step polite (mkSerial w (Some (mkHolder i rq z fd (Leaving r))) ts log)
      (mkSerial (unlock fault fd w) None ts (log ++ [Answered i r]))
| s_save w w' h ts log :
    exists_file w' -> same_links (w_files w) (w_files w') ->
    (polite = true -> match h with Some h => window (h_phase h) = false | None => True end) ->
    serial_step polite (mkSerial w h ts log) (mkSerial w' h ts (log ++ [Saved (content w')])).

(** ** One after the other *)

(** The log, carried out: each committed edit is computed from the content
    that is there at its turn, and whatever was saved replaces it. *)
Fixpoint replay (cur : option string) (log : list event) : option (option string) :=
  match log with
  | [] => Some cur
  | Committed _ rq orig new :: log' =>
      match cur, plan rq orig with
      | Some c, Ok n => if String.eqb c orig && String.eqb n new then replay (Some new) log' else None
      | _, _ => None
      end
  | Saved c :: log' => replay c log'
  | (Asked _ _ | Answered _ _) :: log' => replay cur log'
  end.

(** The edit an answer reports as made: also when only the verification, or
    the undoing of a failed reload, went wrong. *)
Definition claimed (r : result fz_error Result) : option Result :=
  match r with
  | Ok res | Err (ErrVerify res _) | Err (ErrNotRestored res _ _) => Some res
  | Err _ => None
  end.

(** What an answer says of the file is so: an edit that is reported took
    effect, with the difference reported, and one that is refused or reported
    undone did not. *)
Definition truthful (log : list event) (i : nat) (r : result fz_error Result) : Prop :=
  match claimed r with
  | Some res => exists rq orig new bk, Asked i rq ∈ log /\ Committed i rq orig new ∈ log /\
      res = with_backup (diff zone file orig new) bk
  | None => forall rq orig new, Committed i rq orig new ∉ log
  end.

Definition commits (log : list event) : list nat :=
  omap (fun ev => match ev with Committed i _ _ _ => Some i | _ => None end) log.

End editors.

#[global] Arguments commits {D} log : simpl never.

(** ** Logs *)

Section logs.
Context {D : Dns} (today : date) (zone file : string).

Lemma replay_app cur l1 l2 :
  replay today zone cur (l1 ++ l2) = match replay today zone cur l1 with Some k => replay today zone k l2 | None => None end.
Proof.
  revert cur. induction l1 as [|ev l1 IH]; intros cur; [done|]. destruct ev; cbn; auto.
  destruct cur, (plan today zone rq orig); try done. by destruct (_ && _).
Qed.

Lemma elem_of_commits log i : i ∈ commits log <-> exists rq orig new, Committed i rq orig new ∈ log.
Proof.
  unfold commits. rewrite list_elem_of_omap. split.
  - intros (ev & Hin & He). destruct ev; try done. injection He as ->. eauto.
  - intros (rq & orig & new & Hin). eexists. split; [exact Hin|done].
Qed.

Lemma commits_app l1 l2 : commits (l1 ++ l2) = commits l1 ++ commits l2.
Proof. apply omap_app. Qed.

(** What was told stays true, as long as the call commits nothing more. *)
Lemma truthful_app log evs i r : truthful zone file log i r -> i ∉ commits evs -> truthful zone file (log ++ evs) i r.
Proof.
  unfold truthful. intros H Hi. destruct (claimed r) as [res|].
  - destruct H as (rq & o & n & bk & Ha & Hc & ->). exists rq, o, n, bk. rewrite !elem_of_app. auto.
  - intros rq o n [Hin|Hin]%elem_of_app; [by eapply H|]. apply Hi, elem_of_commits. eauto.
Qed.

Lemma truthful_none log i r : claimed r = None -> i ∉ commits log -> truthful zone file log i r.
Proof. unfold truthful. intros -> Hi rq o n Hin. apply Hi, elem_of_commits. eauto. Qed.

End logs.

(** ** The calls, one line at a time *)

Section lines.
Context {D : Dns} (fault : nat -> option string) (tempname : nat -> string -> string) (euid egid : Z).
Context (today : date) (now_ns : nat -> Z) (e : Editor) (zone file : string).
Hypothesis inv_external : external (e_Inv e).
Hypothesis checkzone_external : forall zn c, external (e_CheckZone e zn c).
Hypothesis reload_external : forall zn, external (e_Reload e zn).
Hypothesis verify_external : forall zn n, external (e_Verify e zn n).
Hypothesis backup_elsewhere : forall n, free_of "/" n = true -> Join [Join [backupDir e; norm zone]; n] <> file.

(** No name of the backup directory is a link. *)
Definition clear (w : world) : Prop := forall q, backup_name e zone q -> no_link (w_files w) q.

Lemma clear_links w w' : same_links (w_files w) (w_files w') -> clear w -> clear w'.
Proof. intros Hl Hc q Hq. by apply (same_links_no_link _ _ _ Hl), Hc. Qed.

Lemma clear_backup w : clear w -> ~ is_backup e zone (w_files w) file.
Proof.
  intros Hc. by apply not_a_backup.
Qed.

#[local] Abbreviation advance' := (advance fault tempname euid egid today now_ns e zone).
#[local] Abbreviation plan' := (plan today zone).
#[local] Abbreviation content' := (content file).

(** Nothing else than the zone file can be in the way. *)
Definition left_alone (w w' : world) : Prop := content' w' = content' w /\ (exists_file file w -> exists_file file w').

Lemma left_same w w' : w_files w' !! file = w_files w !! file -> left_alone w w'.
Proof. unfold left_alone, content, exists_file. by intros ->. Qed.

Lemma preserving_left {E A} (m : io E A) w r w' : preserving m -> m w = (r, w') -> exists_file file w -> left_alone w w'.
Proof. intros Hm H He. apply left_same. pose proof (Hm w file He) as Hp. by rewrite H in Hp. Qed.

Lemma write_content c w r w' : writePreserving fault tempname euid egid file c w = (r, w') -> exists_file file w ->
  match r with Ok _ => content' w' = Some c /\ exists_file file w' | Err _ => left_alone w w' end.
Proof.
  intros H He. pose proof (hoare_writePreserving fault tempname euid egid file c (w_files w) w eq_refl) as Hw. rewrite H in Hw.
  destruct r as [[]|er]; [|by apply left_same, Hw]. destruct Hw as [(d & m & uid & gid & u & g & _ & Hn & _) _].
  unfold content, exists_file. rewrite Hn. eauto.
Qed.

Lemma reread_content w c w' : readNoFollow fault file w = (Ok c, w') -> content' w = Some c.
Proof.
  unfold readNoFollow, syscall, content. destruct (fault _); [done|].
  destruct (w_files w !! file) as [[]|]; intros; by simplify_eq.
Qed.

(** Where a call is, what the file holds by the log and what it holds. *)
Definition agrees (k : option string) (rq : req) (ph : phase) (w : world) : Prop :=
  match ph with
  | Holding | Leaving _ | Reloaded _ => content' w = k
  | Planned o n | Checked o n => content' w = k /\ plan' rq o = Ok n
  | Guarded o n | Backed o n _ => content' w = k /\ k = Some o /\ plan' rq o = Ok n
  | Written o n bk res | Undoing o n bk res _ =>
      content' w = Some n /\ k = Some o /\ plan' rq o = Ok n /\ res = with_backup (diff zone file o n) bk
  end.

(** Most lines leave the file alone. *)
Definition writes (ph : phase) : bool := match ph with Backed _ _ _ | Undoing _ _ _ _ _ => true | _ => false end.

#[local] Abbreviation work' := (work fault tempname euid egid today now_ns e zone).

Lemma work_left z rq ph w r w' :
  z_Path z = file -> clear w -> writes ph = false -> work' z rq ph w = (r, w') -> exists_file file w -> left_alone w w'.
Proof.
  intros Hz Hcl Hph Hw He. apply left_same. set (other := fun q => q <> file).
  assert (Hret : forall A (a : A), spares other (mret a : io fz_error A)) by (by intros A a v p _ _).
  assert (Hs : spares other (work' z rq ph) \/ exists o n, ph = Guarded o n).
  { destruct ph; cbn [work]; try discriminate Hph; [left..|right; eauto|left|left|left].
    - apply spares_bind; [apply spares_preserving, read_screened_preserving|]. intros o.
      apply spares_bind; [apply spares_pure|auto].
    - apply spares_bind; [by apply spares_wrap, spares_preserving, external_preserving|]; auto.
    - apply spares_bind; [apply spares_wrap, spares_touches, touches_readNoFollow|]. intros c.
      destruct (negb _); [by intros v p _ _|auto].
    - apply spares_bind; [by apply spares_attempt, spares_preserving, external_preserving|]; auto.
    - apply spares_bind; [by apply spares_wrap, spares_preserving, external_preserving|]; auto.
    - auto. }
  destruct Hs as [Hs|(o & n & ->)].
  - pose proof (Hs w file (fun H => H eq_refl) He) as Hf. by rewrite Hw in Hf.
  - cbn [work] in Hw. unfold mbind, io_bind, wrap in Hw.
    pose proof (backup_touches fault euid egid now_ns e zone o w file (clear_backup w Hcl)) as Hb.
    by destruct (backup _ _ _ _ _ _ _ w) as [[bk|er] w1]; injection Hw as _ <-.
Qed.

(** No line makes or removes a link, and none opens or closes a file for good. *)
Lemma work_links z rq ph w : clear w -> same_links (w_files w) (w_files (work' z rq ph w).2).
Proof.
  intros Hcl. assert (Hl : keeps_links (work' z rq ph) \/ exists o n, ph = Guarded o n).
  { destruct ph as [|o n|o n|o n|o n bk|o n bk res|o n bk res why|res|r0]; cbn [work]; [left..|right; eauto|left|left|left|left|left].
    - apply keeps_links_bind; [apply read_screened_links|]. intros o. apply keeps_links_bind; [by intros v|auto with goddns].
    - apply keeps_links_bind; [by apply keeps_links_wrap, external_links|auto with goddns].
    - apply keeps_links_bind; [auto with goddns|]. intros c. case_match; auto with goddns.
    - apply keeps_links_bind; [apply keeps_links_wrap, writePreserving_links|auto with goddns].
    - apply keeps_links_bind; [by apply keeps_links_attempt, external_links|auto with goddns].
    - apply keeps_links_bind; [apply keeps_links_attempt, writePreserving_links|auto with goddns].
    - apply keeps_links_bind; [by apply keeps_links_wrap, external_links|auto with goddns].
    - auto with goddns. }
  destruct Hl as [Hl|(o & n & ->)]; [apply Hl|]. cbn [work]. unfold mbind, io_bind, wrap.
  pose proof (backup_links fault euid egid now_ns e zone o w Hcl) as Hb. by destruct (backup _ _ _ _ _ _ _ w) as [[bk|er] w1].
Qed.

Lemma work_open z rq ph : keeps_open (work' z rq ph).
Proof.
  assert (Hread : forall p, keeps_open (readNoFollow fault p)) by (intros; apply keeps_open_syscall).
  destruct ph as [|o n|o n|o n|o n bk|o n bk res|o n bk res why|res|r0]; cbn [work]; [..|auto with goddns]; apply keeps_open_bind;
    try (intros; apply keeps_open_ret).
  - apply keeps_open_bind; [apply keeps_open_wrap, Hread|]. intros c. apply keeps_open_bind; [by intros v|auto with goddns].
  - intros o. apply keeps_open_bind; [by intros v|auto with goddns].
  - by apply keeps_open_wrap, external_open.
  - apply keeps_open_wrap, Hread.
  - intros c. case_match; auto with goddns.
  - apply keeps_open_wrap, backup_open.
  - apply keeps_open_wrap, writePreserving_open.
  - by apply keeps_open_attempt, external_open.
  - apply keeps_open_attempt, writePreserving_open.
  - intros r. by intros v.
  - by apply keeps_open_wrap, external_open.
Qed.

Lemma advance_world z rq ph w ph' w' : advance' z rq ph w = (ph', w') -> w' = (work' z rq ph w).2.
Proof. unfold advance. by destruct (work' z rq ph w) as [[]]; intros [= <- <-]. Qed.

(** What such a line goes on with. *)
Lemma work_next z rq ph w ph' w' :
  z_Path z = file -> work' z rq ph w = (Ok ph', w') ->
  match ph with
  | Holding => exists o n, ph' = Planned o n /\ plan' rq o = Ok n
  | Planned o n => ph' = Checked o n
  | Checked o n => ph' = Guarded o n /\ content' w = Some o
  | Guarded o n => exists bk, ph' = Backed o n bk
  | Backed o n bk => ph' = Written o n bk (with_backup (diff zone file o n) bk) /\
      exists w1, writePreserving fault tempname euid egid file n w = (Ok tt, w1) /\ w' = w1
  | Written o n bk res => ph' = Reloaded res \/ exists why, ph' = Undoing o n bk res why
  | Undoing _ _ _ _ _ => False
  | Reloaded res => ph' = Leaving (Ok res)
  | Leaving r => ph' = Leaving r
  end.
Proof.
  intros Hz. destruct ph as [|o n|o n|o n|o n bk|o n bk res|o n bk res why|res|r0]; cbn [work]; rewrite ?Hz; intros H;
    try (apply io_bind_ok in H as [(x & w1 & H1 & H)|(er & _ & H)]; [|done]).
  - apply io_bind_ok in H as [(n & w2 & H2 & H)|(er & _ & H)]; [|done]. injection H2 as Hp _. injection H as <- _. eauto.
  - by injection H as <-.
  - destruct (String.eqb_spec x o) as [->|]; [|done]. injection H as <- _. split; [done|].
    unfold wrap in H1. destruct (readNoFollow fault file w) as [[c|] w2] eqn:Er; [|done]. injection H1 as -> _.
    by apply reread_content in Er.
  - injection H as <- _. eauto.
  - injection H as <- <-. split; [done|]. unfold wrap in H1.
    destruct (writePreserving _ _ _ _ _ _ w) as [[[]|] w2]; [|done]. injection H1 as <-. eauto.
  - injection H as <- _. destruct x; eauto.
  - by destruct x.
  - by injection H as <-.
  - by injection H as <-.
Qed.

(** The two lines that do write. *)
Lemma work_write z rq o n bk w r w' :
  z_Path z = file -> work' z rq (Backed o n bk) w = (r, w') -> exists_file file w ->
  match r with Ok _ => content' w' = Some n /\ exists_file file w' | Err _ => left_alone w w' end.
Proof.
  cbn [work]. intros -> H He. unfold mbind, io_bind, wrap in H.
  destruct (writePreserving _ _ _ _ file n w) as [rw w1] eqn:Ew. apply write_content in Ew; [|done].
  by destruct rw; injection H as <- <-.
Qed.

Lemma work_undo z rq o n bk res why w r w' :
  z_Path z = file -> work' z rq (Undoing o n bk res why) w = (r, w') -> exists_file file w ->
  (r = Err (ErrRestored res why) /\ content' w' = Some o /\ exists_file file w') \/
  (exists we, r = Err (ErrNotRestored res why we) /\ left_alone w w').
Proof.
  cbn [work]. intros -> H He. unfold mbind, io_bind, attempt in H.
  destruct (writePreserving _ _ _ _ file o w) as [rw w1] eqn:Ew. apply write_content in Ew; [|done].
  destruct rw as [[]|we]; injection H as <- <-; [by left|right; eauto].
Qed.

Lemma replay_commit i rq o n : plan' rq o = Ok n -> replay today zone (Some o) [Committed i rq o n] = Some (Some n).
Proof. intros Hp. cbn. rewrite Hp. by rewrite !String.eqb_refl. Qed.

(** One line of the call keeps this, with what the log is told. *)
Lemma advance_agrees k i z rq ph w ph' w' :
  z_Path z = file -> clear w -> agrees k rq ph w -> exists_file file w -> advance' z rq ph w = (ph', w') ->
  exists_file file w' /\ exists k', replay today zone k (noted i rq ph ph') = Some k' /\ agrees k' rq ph' w'.
Proof.
  intros Hz Hcl Ha He. unfold advance. destruct (work' z rq ph w) as [r w1] eqn:Hw. intros H.
  assert (w1 = w') as -> by (by destruct r; simplify_eq).
  destruct (writes ph) eqn:Ewr; [destruct ph as [|o n|o n|o n|o n bk|o n bk res|o n bk res why|res|r0]; try done|].
  - pose proof (work_write _ _ _ _ _ _ _ _ Hz Hw He) as Hf. destruct Ha as (Hc & -> & Hp). destruct r as [ph1|er].
    + apply work_next in Hw as (-> & _); [|done]. injection H as <-. cbn. destruct Hf. eauto 10.
    + injection H as <-. destruct Hf as [Hf Hx]. cbn. rewrite Hf. eauto.
  - destruct Ha as (Hc & -> & Hp & Hr). apply work_undo in Hw as [(-> & Hf & Hx)|(we & -> & Hf & Hx)]; [..|done|done]; injection H as <-.
    + cbn. eauto.
    + split; [auto|]. exists (Some n). split; [by apply replay_commit|]. cbn. by rewrite Hf.
  - pose proof (work_left _ _ _ _ _ _ Hz Hcl Ewr Hw He) as [Hf Hx]. split; [auto|]. destruct r as [ph1|er].
    + injection H as <-. apply work_next in Hw; [|done]. destruct ph as [|o n|o n|o n|o n bk|o n bk res|o n bk res why|res|r0]; try done; cbn in *.
      * destruct Hw as (o & n & -> & Hp). cbn. rewrite Hf. eauto.
      * subst ph1. cbn. rewrite Hf. eauto.
      * destruct Hw as (-> & Ho), Ha as (Hc & Hp). cbn. rewrite Hf. rewrite Hc in Ho. eauto 10.
      * destruct Hw as (bk & ->), Ha as (Hc & Hp). cbn. rewrite Hf. eauto 10.
      * destruct Ha as (Hc & -> & Hp & Hr). destruct Hw as [-> |(why & ->)]; [|cbn; rewrite Hf; eauto 10].
        exists (Some n). split; [by apply replay_commit|]. cbn. by rewrite Hf.
      * subst ph1. cbn. rewrite Hf. eauto.
      * subst ph1. cbn. rewrite Hf. eauto.
    + injection H as <-. exists k. cbn [agrees]. rewrite Hf.
      destruct ph as [|o n|o n|o n|o n bk|o n bk res|o n bk res why|res|r0]; try done; cbn [agrees] in Ha;
        try (by destruct Ha as [-> _]).
      cbn [work] in Hw. unfold mbind, io_bind, attempt in Hw. by destruct (e_Reload e zone w).
Qed.

(** ** Errors, and what is owed to the caller *)

Lemma wrap_err {E A} (f : E -> fz_error) (m : io E A) w er w' :
  wrap f m w = (Err er, w') -> exists e0, er = f e0.
Proof. unfold wrap. destruct (m w) as [[|e0] w1]; intros H; [done|]. injection H as <- _. eauto. Qed.

Lemma plan_error rq cur er : plan' rq cur = Err er -> claimed (Err er) = None.
Proof.
  assert (Hlift : forall A (r : result zf_error A) e0, lift_zf r = Err e0 -> claimed (Err e0) = None).
  { intros A [|z0] e0 H; [done|]. by injection H as <-. }
  destruct rq as [ops|new base]; cbn [plan].
  - unfold compute. destruct (ops_inside (Fqdn zone) ops) as [[]|e0] eqn:Eo; cbn.
    + destruct (lift_zf (Parse cur zone)) as [f|e1] eqn:El; cbn; [by apply Hlift|]. intros [= <-]. by apply Hlift in El.
    + intros [= <-]. revert Eo. generalize (Fqdn zone). intros origin.
      induction ops as [|op ops IH]; cbn; [done|]. destruct (op_rr op) as [rr|]; [|by intros [= <-]].
      destruct (IsSubDomain _ _); [done|by intros [= <-]].
  - destruct (match base with Some b => _ | None => _ end); [by intros [= <-]|]. unfold normalizeRawSerial.
    destruct (match Parse new zone with Ok f => _ | Err _ => _ end); [done|].
    destruct (currentSerial new zone) as [n|]; [|by intros [= <-]]. destruct (_ <=? _); [by intros [= <-]|done].
Qed.

Lemma read_error z w er w' : read_screened fault z zone w = (Err er, w') -> claimed (Err er) = None.
Proof.
  unfold read_screened. intros [(x & w1 & _ & H)|(e1 & H1 & [= ->])]%io_bind_ok; [|by apply wrap_err in H1 as [? ->]].
  apply io_bind_ok in H as [(n & w2 & _ & H)|(e2 & H2 & [= ->])]; [done|]. unfold pure, screen in H2.
  destruct (panelMarker x); [by injection H2 as <- _|]. destruct (unsignedConcern x zone); [by injection H2 as <- _|done].
Qed.

Lemma lock_error w er w' : lock fault euid egid e zone w = (Err er, w') -> claimed (Err er) = None.
Proof.
  unfold lock. intros H. do 3 (apply io_bind_ok in H as [(? & ? & _ & H)|(? & H & [= ->])]; [|by apply wrap_err in H as [? ->]]).
  done.
Qed.

Lemma resolve_error w er w' : resolve fault e zone w = (Err er, w') -> claimed (Err er) = None.
Proof.
  unfold resolve. intros [(inv & ? & _ & H)|(? & H & [= ->])]%io_bind_ok; [|by apply wrap_err in H as [? ->]].
  apply io_bind_ok in H as [(z & ? & _ & H)|(? & H & [= ->])].
  - apply io_bind_ok in H as [(st & ? & _ & H)|(? & H & [= ->])]; [|by apply wrap_err in H as [? ->]].
    destruct st; [|by injection H as <- _]. destruct (panelPath (z_Path z)); [by injection H as <- _|done].
  - injection H as H _. unfold check_zone in H. destruct (ZoneByName inv zone) as [z|]; [|by injection H as <-].
    repeat (destruct (_ : bool) in H; [by injection H as <-|]). done.
Qed.

Lemma work_error z rq ph w er w' : work' z rq ph w = (Err er, w') ->
  match ph with
  | Written _ _ _ _ | Leaving _ => False
  | Undoing _ _ _ res why => er = ErrRestored res why \/ exists we, er = ErrNotRestored res why we
  | Reloaded res => claimed (Err er) = Some res
  | _ => claimed (Err er) = None
  end.
Proof.
  destruct ph as [|o n|o n|o n|o n bk|o n bk res|o n bk res why|res|r0]; cbn [work]; intros H;
    try (apply io_bind_ok in H as [(x & w1 & H1 & H)|(er' & H1 & [= ->])]; [try done|]); try done.
  all: try (by apply wrap_err in H1 as [? ->]).
  - apply io_bind_ok in H as [(n & w2 & _ & H)|(e2 & H2 & [= ->])]; [done|]. injection H2 as H2 _. by apply plan_error in H2.
  - by apply read_error in H1.
  - destruct (negb _); [|done]. by injection H as <- _.
  - unfold attempt in H1. by destruct (e_Reload e zone w).
  - destruct x; injection H as <- _; eauto.
  - unfold attempt in H1. by destruct (writePreserving _ _ _ _ _ _ w).
Qed.

(** A call that is past its reload has an answer that is true already; one
    that is not has committed nothing. *)
Definition owes (log : list event) (i : nat) (ph : phase) : Prop :=
  match ph with
  | Reloaded res => truthful zone file log i (Ok res)
  | Leaving r => truthful zone file log i r
  | _ => i ∉ commits log
  end.

Lemma truthful_claim log i r r' : claimed r = claimed r' -> truthful zone file log i r -> truthful zone file log i r'.
Proof. unfold truthful. by intros ->. Qed.

Lemma truthful_committed log i rq o n bk r :
  claimed r = Some (with_backup (diff zone file o n) bk) -> Asked i rq ∈ log -> truthful zone file (log ++ [Committed i rq o n]) i r.
Proof.
  unfold truthful. intros -> Ha. exists rq, o, n, bk. rewrite !elem_of_app. split_and!; [by left|right; by left|done].
Qed.

Lemma advance_owes log k i z rq ph w ph' w' :
  z_Path z = file -> (forall r, ph <> Leaving r) -> agrees k rq ph w -> Asked i rq ∈ log -> owes log i ph ->
  advance' z rq ph w = (ph', w') -> owes (log ++ noted i rq ph ph') i ph'.
Proof.
  intros Hz Hnl Ha Hin Ho. unfold advance. destruct (work' z rq ph w) as [[ph1|er] w1] eqn:Hw; intros [= <- <-].
  - apply work_next in Hw; [|done].
    destruct ph as [|o n|o n|o n|o n bk|o n bk res|o n bk res why|res|r0]; cbn [owes agrees] in *; try done.
    + destruct Hw as (o & n & -> & _). cbn. by rewrite app_nil_r.
    + subst ph1. cbn. by rewrite app_nil_r.
    + destruct Hw as [-> _]. cbn. by rewrite app_nil_r.
    + destruct Hw as [bk ->]. cbn. by rewrite app_nil_r.
    + destruct Hw as [-> _]. cbn. by rewrite app_nil_r.
    + destruct Hw as [-> |[why ->]]; [|cbn; by rewrite app_nil_r].
      destruct Ha as (_ & _ & _ & ->). by apply truthful_committed with (bk := bk).
    + subst ph1. cbn. by rewrite app_nil_r.
    + by destruct (Hnl r0).
  - apply work_error in Hw.
    destruct ph as [|o n|o n|o n|o n bk|o n bk res|o n bk res why|res|r0]; cbn [owes agrees noted] in *; try done;
      try (rewrite app_nil_r; by apply truthful_none).
    + destruct Hw as [-> |[we ->]]; cbn [owes noted]; [rewrite app_nil_r; by apply truthful_none|].
      destruct Ha as (_ & _ & _ & ->). by apply truthful_committed with (bk := bk).
    + rewrite app_nil_r. by apply (truthful_claim _ _ (Ok res)).
Qed.

Lemma noted_commits i rq ph ph' j : j ∈ commits (noted i rq ph ph') -> j = i.
Proof.
  destruct ph, ph' as [| | | | | | |?|[|[]]]; cbn; try (by intros ?%elem_of_nil); by intros ->%list_elem_of_singleton.
Qed.

(** Who is in the log, and as what. *)
Definition in_flight (log : list event) (i : nat) (rq : req) (z : Zone) : Prop :=
  Asked i rq ∈ log /\ z_Path z = file /\ forall r, Answered i r ∉ log.

Record ledger (st : serial) : Prop := {
  l_nodup : NoDup (commits (s_log st));
  l_committed i rq o n : Committed i rq o n ∈ s_log st -> exists rq', Asked i rq' ∈ s_log st;
  l_waiting i rq z : s_waiting st !! i = Some (rq, z) -> in_flight (s_log st) i rq z /\ i ∉ commits (s_log st);
  l_holder hd : s_holder st = Some hd ->
    in_flight (s_log st) (h_id hd) (h_req hd) (h_zone hd) /\ s_waiting st !! h_id hd = None /\ owes (s_log st) (h_id hd) (h_phase hd);
  l_answered i r : Answered i r ∈ s_log st -> truthful zone file (s_log st) i r /\ exists rq, Asked i rq ∈ s_log st
}.

Lemma owes_app log evs i ph : owes log i ph -> i ∉ commits evs -> owes (log ++ evs) i ph.
Proof.
  intros H Hi. destruct ph; cbn [owes] in *; try (by apply truthful_app); rewrite commits_app, elem_of_app; tauto.
Qed.

Lemma in_flight_app log evs i rq z : in_flight log i rq z -> (forall r, Answered i r ∉ evs) -> in_flight (log ++ evs) i rq z.
Proof.
  intros (Ha & Hz & Hn) He. split_and!; [apply elem_of_app; by left|done|]. intros r [?|?]%elem_of_app; [by eapply Hn|by eapply He].
Qed.

(** News that commit nothing. *)
Lemma ledger_tell w w' h ts log evs : ledger (mkSerial w h ts log) -> commits evs = [] ->
  (forall j r, Answered j r ∈ evs -> ts !! j = None /\ (forall hd, h = Some hd -> h_id hd <> j) /\
     truthful zone file log j r /\ exists rq, Asked j rq ∈ log ++ evs) ->
  ledger (mkSerial w' h ts (log ++ evs)).
Proof.
  intros [H1 H2 H3 H4 H5] Hc Ha. cbn in *. assert (Hno : forall j, j ∉ commits evs) by (intros j; rewrite Hc; apply not_elem_of_nil).
  split; cbn.
  - by rewrite commits_app, Hc, app_nil_r.
  - intros i rq o n [Hin|Hin]%elem_of_app.
    + destruct (H2 _ _ _ _ Hin) as [rq' ?]. exists rq'. apply elem_of_app. by left.
    + destruct (Hno i). apply elem_of_commits. eauto.
  - intros i rq z Hi. destruct (H3 i rq z Hi) as [Hf Hn]. split.
    + apply in_flight_app; [done|]. intros r (Hts & _)%Ha. congruence.
    + by rewrite commits_app, Hc, app_nil_r.
  - intros hd Hh. destruct (H4 hd Hh) as (Hf & Hts & Ho). split_and!; [|done|by apply owes_app].
    apply in_flight_app; [done|]. intros r (_ & Hne & _)%Ha. by apply (Hne hd).
  - intros i r [Hin|Hin]%elem_of_app.
    + destruct (H5 i r Hin) as (Ht & rq & Hr). split; [by apply truthful_app|]. exists rq. apply elem_of_app. by left.
    + destruct (Ha i r Hin) as (_ & _ & Ht & Hr). split; [by apply truthful_app|done].
Qed.

Lemma ledger_leave w w' h ts log i : ledger (mkSerial w h ts log) -> ledger (mkSerial w' h (delete i ts) log).
Proof.
  intros [H1 H2 H3 H4 H5]. split; cbn in *; [done..| | |done].
  - intros j rq z [_ Hj]%lookup_delete_Some. eauto.
  - intros hd Hh. destruct (H4 hd Hh) as (Hf & Hts & Ho). split_and!; [done| |done]. apply lookup_delete_None. auto.
Qed.

(** A call not heard of before is not in the books. *)
Lemma ledger_fresh w h ts log i : ledger (mkSerial w h ts log) -> (forall rq, Asked i rq ∉ log) ->
  ts !! i = None /\ (forall hd, h = Some hd -> h_id hd <> i) /\ i ∉ commits log /\ forall r, Answered i r ∉ log.
Proof.
  intros Hl Hf. split_and!.
  - destruct (ts !! i) as [[rq z]|] eqn:E; [|done]. destruct (l_waiting _ Hl _ _ _ E) as [(Ha & _) _]. by destruct (Hf rq).
  - intros hd -> <-. destruct (l_holder _ Hl _ eq_refl) as ((Ha & _) & _). by apply Hf in Ha.
  - intros (rq & o & n & Hin)%elem_of_commits. destruct (l_committed _ Hl _ _ _ _ Hin) as [rq' Ha]. by destruct (Hf rq').
  - intros r Hin. destruct (l_answered _ Hl _ _ Hin) as (_ & rq & Ha). by destruct (Hf rq).
Qed.

Lemma ledger_arrive w w' h ts log i rq z : ledger (mkSerial w h ts log) -> (forall rq', Asked i rq' ∉ log) -> z_Path z = file ->
  ledger (mkSerial w' h (<[i := (rq, z)]> ts) (log ++ [Asked i rq])).
Proof.
  intros Hl Hf Hz. destruct (ledger_fresh _ _ _ _ _ Hl Hf) as (Hnw & Hnh & Hnc & Hna).
  assert (Hl' : ledger (mkSerial w' h ts (log ++ [Asked i rq]))).
  { apply (ledger_tell w); [done|done|]. by intros j r ?%list_elem_of_singleton. }
  destruct Hl' as [H1 H2 H3 H4 H5]. split; cbn in *; [done..| | |done].
  - intros j rq' z' [[<- [= <- <-]]|[_ Hj]]%lookup_insert_Some; [|eauto]. split.
    + split_and!; [apply elem_of_app; right; by left|done|].
      intros r [Hin|Hin]%elem_of_app; [by eapply Hna|by apply list_elem_of_singleton in Hin].
    + by rewrite commits_app, app_nil_r.
  - intros hd Hh. destruct (H4 hd Hh) as (Hfl & Hts & Ho). split_and!; [done| |done].
    apply lookup_insert_None. split; [done|]. intros Hi. by apply (Hnh hd).
Qed.

Lemma noted_cases i rq ph ph' : noted i rq ph ph' = [] \/ exists o n, noted i rq ph ph' = [Committed i rq o n].
Proof. destruct ph, ph' as [| | | | | | |?|[|[]]]; cbn; eauto. Qed.

Lemma ledger_proceed k w w' i rq z lp ph ph' ts log :
  ledger (mkSerial w (Some (mkHolder i rq z lp ph)) ts log) -> agrees k rq ph w -> (forall r, ph <> Leaving r) ->
  advance' z rq ph w = (ph', w') ->
  ledger (mkSerial w' (Some (mkHolder i rq z lp ph')) ts (log ++ noted i rq ph ph')).
Proof.
  intros Hl Hk Hnl Had. destruct (l_holder _ Hl _ eq_refl) as (Hfl & Hts & Ho). cbn in *.
  destruct Hfl as (Ha & Hz & Hna).
  pose proof (advance_owes log k i z rq ph w ph' w' Hz Hnl Hk Ha Ho Had) as Ho'.
  assert (Hfl : in_flight log i rq z) by done.
  destruct Hl as [H1 H2 H3 H4 H5]. destruct (noted_cases i rq ph ph') as [Hn|(o & n & Hn)]; rewrite Hn in *.
  - rewrite app_nil_r in *. split; cbn in *; [done..| |done]. intros hd [= <-]. done.
  - assert (Hnc : i ∉ commits log) by (destruct ph; try done; by destruct (Hnl r)).
    assert (Hother : forall j, j <> i -> j ∉ commits [Committed i rq o n]) by (by intros j Hne ->%list_elem_of_singleton).
    split; cbn in *.
    + rewrite commits_app. apply NoDup_app. split_and!; [done| |apply NoDup_singleton]. by intros j Hj ->%list_elem_of_singleton.
    + intros j rq' o' n' [Hin|[= -> _ _ _]%list_elem_of_singleton]%elem_of_app; [|exists rq; apply elem_of_app; by left].
      destruct (H2 _ _ _ _ Hin) as [rq'' ?]. exists rq''. apply elem_of_app. by left.
    + intros j rq' z' Hj. destruct (H3 j rq' z' Hj) as [Hf Hc]. split.
      * apply in_flight_app; [done|]. by intros r ?%list_elem_of_singleton.
      * rewrite commits_app, elem_of_app. intros [?|?]; [done|]. apply (Hother j); [congruence|done].
    + intros hd [= <-]. cbn. split_and!; [|done|done]. apply in_flight_app; [done|]. by intros r ?%list_elem_of_singleton.
    + intros j r [Hin|?%list_elem_of_singleton]%elem_of_app; [|done]. destruct (H5 j r Hin) as (Ht & rq' & Hr). split.
      * apply truthful_app; [done|]. apply Hother. intros ->. by eapply Hna.
      * exists rq'. apply elem_of_app. by left.
Qed.

Lemma ledger_step polite st st' :
  ledger st -> (forall hd, s_holder st = Some hd -> exists k, agrees k (h_req hd) (h_phase hd) (s_world st)) ->
  serial_step fault tempname euid egid today now_ns e zone file polite st st' -> ledger st'.
Proof.
  intros Hl Hag H.
  destruct H as [i rq z w w' h ts log Hfresh Hr Hz|i rq er w w' h ts log Hfresh Hr|i rq z lp w w' ts log Hi Hk|
    i rq z er w w' h ts log Hi Hk|i rq z lp ph ph' w w' ts log Hnl Had|i rq z lp r w ts log|w w' h ts log Hx Hlk Hp]; cbn in *.
  - by apply (ledger_arrive w).
  - destruct (ledger_fresh _ _ _ _ _ Hl Hfresh) as (Hnw & Hnh & Hnc & Hna).
    apply (ledger_tell w); [done|done|]. intros j r [Hj|[= -> ->]%list_elem_of_singleton]%elem_of_cons; [done|].
    split_and!; [done|done|apply truthful_none; [by apply resolve_error in Hr|done]|].
    exists rq. apply elem_of_app. right. by left.
  - destruct (l_waiting _ Hl _ _ _ Hi) as [Hf Hn]. pose proof (ledger_leave _ w' _ _ _ i Hl) as [H1 H2 H3 H4 H5].
    split; cbn in *; [done..| |done]. intros hd [= <-]. cbn. split_and!; [done|apply lookup_delete_eq|done].
  - destruct (l_waiting _ Hl _ _ _ Hi) as [(Ha & _ & _) Hn]. apply (ledger_tell w); [by apply (ledger_leave w)|done|].
    intros j r [= -> ->]%list_elem_of_singleton. split_and!; [apply lookup_delete_eq| | |].
    + intros hd -> <-. destruct (l_holder _ Hl _ eq_refl) as (_ & Hts & _). cbn in Hts. congruence.
    + apply truthful_none; [by apply lock_error in Hk|done].
    + exists rq. apply elem_of_app. by left.
  - destruct (Hag _ eq_refl) as [k Hk]. by apply (ledger_proceed k w).
  - destruct (l_holder _ Hl _ eq_refl) as ((Ha & _) & Hts & Ho). cbn in *.
    apply (ledger_tell w); [|done|].
    + destruct Hl as [H1 H2 H3 H4 H5]. by split.
    + intros j r' [= -> ->]%list_elem_of_singleton. split_and!; [done|done|done|]. exists rq. apply elem_of_app. by left.
  - apply (ledger_tell w); [done|done|]. by intros j r ?%list_elem_of_singleton.
Qed.

(** ** The file and the log *)

Lemma agrees_left k rq ph w w' : content' w' = content' w -> agrees k rq ph w -> agrees k rq ph w'.
Proof. intros He. destruct ph; cbn; by rewrite He. Qed.

Lemma agrees_saved k rq ph w w' : window ph = false -> agrees k rq ph w -> agrees (content' w') rq ph w'.
Proof. destruct ph; cbn; naive_solver. Qed.

(** Between the write and the answer of the reload, the file is ahead of the
    log. *)
Definition pending (ph : phase) : bool := match ph with Written _ _ _ _ | Undoing _ _ _ _ _ => true | _ => false end.

Lemma agrees_settled k rq ph w : agrees k rq ph w -> pending ph = false -> content' w = k.
Proof. destruct ph; cbn; naive_solver. Qed.

Definition log_kept (c0 : option string) (st : serial) : Prop :=
  exists_file file (s_world st) /\ exists k, replay today zone c0 (s_log st) = Some k /\
  match s_holder st with
  | None => content' (s_world st) = k
  | Some hd => agrees k (h_req hd) (h_phase hd) (s_world st)
  end.

(** No step makes or removes a link. *)
Lemma serial_links polite st st' : clear (s_world st) ->
  serial_step fault tempname euid egid today now_ns e zone file polite st st' -> same_links (w_files (s_world st)) (w_files (s_world st')).
Proof.
  intros Hcl H. pose proof (resolve_links fault e zone inv_external e eq_refl) as Hres. pose proof (proj2 (lock_files fault euid egid e zone)) as Hlock.
  destruct H as [i rq z w w' h ts log Hfresh Hr Hz|i rq er w w' h ts log Hfresh Hr|i rq z lp w w' ts log Hi Hlk|
    i rq z er w w' h ts log Hi Hlk|i rq z lp ph ph' w w' ts log Hnl Had|i rq z lp r w ts log|w w' h ts log Hx Hl Hp]; cbn in *.
  - specialize (Hres w). by rewrite Hr in Hres.
  - specialize (Hres w). by rewrite Hr in Hres.
  - specialize (Hlock w). by rewrite Hlk in Hlock.
  - specialize (Hlock w). by rewrite Hlk in Hlock.
  - rewrite (advance_world _ _ _ _ _ _ Had). by apply work_links.
  - by rewrite unlock_files.
  - done.
Qed.

Lemma log_step c0 st st' : ledger st -> clear (s_world st) -> log_kept c0 st ->
  serial_step fault tempname euid egid today now_ns e zone file true st st' -> log_kept c0 st'.
Proof.
  intros Hl Hcl (He & k & Hk & Hb) H.
  assert (Htell : forall w' h ts log evs, left_alone (s_world st) w' -> log = s_log st -> h = s_holder st ->
            replay today zone k evs = Some k -> log_kept c0 (mkSerial w' h ts (log ++ evs))).
  { intros w' h ts log evs [Hc Hx] -> -> Hr. split; [by apply Hx|]. exists k. cbn. rewrite replay_app, Hk. split; [done|].
    destruct (s_holder st); [by eapply agrees_left|by rewrite Hc]. }
  pose proof (resolve_preserving fault e zone inv_external e eq_refl) as Hres.
  destruct H as [i rq z w w' h ts log Hfresh Hr Hz|i rq er w w' h ts log Hfresh Hr|i rq z lp w w' ts log Hi Hlk|
    i rq z er w w' h ts log Hi Hlk|i rq z lp ph ph' w w' ts log Hnl Had|i rq z lp r w ts log|w w' h ts log Hx Hlk Hp]; cbn in *.
  - apply Htell; try done. by eapply preserving_left.
  - apply Htell; try done. by eapply preserving_left.
  - eapply preserving_left in Hlk as [Hc Hx]; [|apply lock_preserving|done]. split; [by apply Hx|]. exists k. cbn. by rewrite Hc.
  - apply Htell; try done. eapply preserving_left; [apply lock_preserving|done..].
  - destruct (l_holder _ Hl _ eq_refl) as ((_ & Hz & _) & _).
    destruct (advance_agrees k i z rq ph w ph' w' Hz Hcl Hb He Had) as (Hx & k' & Hr & Ha). split; [done|].
    exists k'. cbn. by rewrite replay_app, Hk.
  - assert (Hu : left_alone w (unlock fault lp w)) by (apply left_same; by rewrite unlock_files).
    destruct Hu as [Hc Hx]. split; [by apply Hx|]. exists k. cbn. rewrite replay_app, Hk, Hc. done.
  - split; [done|]. exists (content' w'). cbn. rewrite replay_app, Hk. split; [done|].
    destruct h as [hd|]; [|done]. eapply agrees_saved; [by apply Hp|done].
Qed.

Lemma ledger_start w : ledger (mkSerial w None ∅ []).
Proof.
  split; cbn; [apply NoDup_nil_2|by intros i rq o n ?%elem_of_nil|done|done|by intros i r ?%elem_of_nil].
Qed.

(** What the specification keeps. *)
Definition sound (c0 : option string) (st : serial) : Prop := ledger st /\ clear (s_world st) /\ log_kept c0 st.

Lemma sound_start w : exists_file file w -> clear w -> sound (content' w) (mkSerial w None ∅ []).
Proof. intros He Hc. split; [apply ledger_start|]. split; [done|]. split; [done|]. by exists (content' w). Qed.

Lemma sound_step c0 st st' : sound c0 st -> serial_step fault tempname euid egid today now_ns e zone file true st st' -> sound c0 st'.
Proof.
  intros (Hl & Hc & Hb) Hs. split_and!; [|eapply clear_links; [by eapply serial_links|done]|by eapply log_step].
  eapply ledger_step; [exact Hl| |exact Hs]. intros hd Hh. destruct Hb as (_ & k & _ & Hb). rewrite Hh in Hb. eauto.
Qed.

(** ** The lock keeps the calls apart *)

#[local] Abbreviation lock_file' := (lock_file e zone).

(** Who the kernel says has the lock. *)
Definition table (w : world) (h : option holder) : Prop :=
  match h with
  | None => o_locked (w_open w) !! lock_file' w = None
  | Some hd => o_locked (w_open w) !! lock_file' w = Some (fd_id (h_lock hd)) /\
      fd_path (h_lock hd) = lock_file' w /\ (fd_id (h_lock hd) < o_next (w_open w))%nat
  end.

Lemma table_same w w' h : same_links (w_files w) (w_files w') -> w_open w' = w_open w -> table w h -> table w' h.
Proof. intros Hl Ho. unfold table, lock_file. by rewrite (same_links_follow _ _ _ Hl), Ho. Qed.

Record matches (st : state) (s : serial) : Prop := {
  m_world : s_world s = st_world st;
  m_log : s_log s = st_log st;
  m_waiting i rq z : st_calls st !! i = Some (rq, z, Waiting) <-> s_waiting s !! i = Some (rq, z);
  m_inside i rq z fd ph : st_calls st !! i = Some (rq, z, Inside fd ph) <-> s_holder s = Some (mkHolder i rq z fd ph);
  m_asked i x : st_calls st !! i = Some x -> exists rq, Asked i rq ∈ st_log st;
  m_table : table (st_world st) (s_holder s)
}.

Lemma not_called st s i : matches st s -> (forall rq, Asked i rq ∉ st_log st) -> st_calls st !! i = None.
Proof.
  intros Hm Hf. destruct (st_calls st !! i) as [x|] eqn:E; [|done]. destruct (m_asked _ _ Hm _ _ E) as [rq Ha]. by destruct (Hf rq).
Qed.

Lemma asked_app (log evs : list event) i : (exists rq, Asked i rq ∈ log) -> exists rq, Asked i rq ∈ log ++ evs.
Proof. intros [rq H]. exists rq. apply elem_of_app. by left. Qed.

Lemma resolve_open : keeps_open (resolve fault e zone).
Proof.
  apply keeps_open_bind; [by apply keeps_open_wrap, external_open|]. intros inv. apply keeps_open_bind; [by intros w|]. intros z.
  apply keeps_open_bind; [apply keeps_open_wrap, keeps_open_syscall|]. intros []; [|by intros w]. case_match; by intros w.
Qed.

Lemma lock_same w w' : same_links (w_files w) (w_files w') -> lock_file' w' = lock_file' w.
Proof. apply same_links_follow. Qed.

Ltac by_calls :=
  repeat match goal with
  | H : _ !! _ = Some _ |- _ => first [apply lookup_insert_Some in H as [[? ?]|[? H]] | apply lookup_delete_Some in H as [? H]]
  end; simplify_eq; eauto using asked_app.

(** Every step is a step of the specification. *)
Lemma step_serial polite st st' s : matches st s -> clear (st_world st) ->
  step fault tempname euid egid today now_ns e zone file polite st st' ->
  exists s', serial_step fault tempname euid egid today now_ns e zone file polite s s' /\ matches st' s'.
Proof.
  intros Hm Hcl H. assert (Hlk : forall s', serial_step fault tempname euid egid today now_ns e zone file polite s s' ->
                           same_links (w_files (st_world st)) (w_files (s_world s')))
    by (intros s' Hs; rewrite <- (m_world _ _ Hm) in Hcl |- *; by eapply serial_links).
  pose proof (fun i => not_called st s i Hm) as Hnew. destruct s as [w0 h ts log0].
  destruct Hm as [Hw Hlog Hwait Hin Hask Htab]. cbn in Hw, Hlog, Hwait, Hin. subst w0 log0.
  destruct H as [i rq z w w' cs log Hfresh Hr Hz|i rq er w w' cs log Hfresh Hr|i rq z fd w w' cs log Hi Hfree Hl|
    i rq z er w w' cs log Hi Hl|i rq z fd ph ph' w w' cs log Hi Hnl Had|i rq z fd r w cs log Hi|w w' cs log Hx Hls Ho Hp]; cbn in *.
  - assert (Hs := s_arrive fault tempname euid egid today now_ns e zone file polite i rq z w w' h ts log Hfresh Hr Hz).
    eexists. split; [exact Hs|]. specialize (Hlk _ Hs). specialize (Hnew i Hfresh).
    pose proof (resolve_open w) as Ho. rewrite Hr in Ho. split; cbn in *; [done|done|..|by eapply table_same].
    + intros j rq' z'. destruct (decide (j = i)) as [->|]; [rewrite !lookup_insert_eq|by rewrite !lookup_insert_ne].
      split; intros [= <- <-]; done.
    + intros j rq' z' fd ph. rewrite <- Hin. destruct (decide (j = i)) as [->|]; [rewrite lookup_insert_eq, Hnew|by rewrite lookup_insert_ne].
      done.
    + intros j x Hj. destruct (decide (j = i)) as [->|]; [exists rq; apply elem_of_app; right; by left|].
      rewrite lookup_insert_ne in Hj by done. eauto using asked_app.
  - assert (Hs := s_refuse fault tempname euid egid today now_ns e zone file polite i rq er w w' h ts log Hfresh Hr).
    eexists. split; [exact Hs|]. specialize (Hlk _ Hs).
    pose proof (resolve_open w) as Ho. rewrite Hr in Ho. split; cbn in *; [done..| |by eapply table_same]. eauto using asked_app.
  - assert (h = None) as ->.
    { destruct h as [hd|]; [|done]. destruct Htab as (Htab & _). destruct Hfree. eexists. exact Htab. }
    assert (Hs := s_acquire fault tempname euid egid today now_ns e zone file polite i rq z fd w w' ts log (proj1 (Hwait _ _ _) Hi) Hl).
    eexists. split; [exact Hs|]. specialize (Hlk _ Hs). apply lock_table in Hl as (Hp & Ht & Hn). split; cbn in *; [done|done|..].
    + intros j rq' z'. destruct (decide (j = i)) as [->|]; [by rewrite lookup_insert_eq, lookup_delete_eq|].
      by rewrite lookup_insert_ne, lookup_delete_ne.
    + intros j rq' z' fd' ph'. destruct (decide (j = i)) as [->|].
      * rewrite lookup_insert_eq. split; by intros [= <- <- <- <-].
      * rewrite lookup_insert_ne by done. split; [by intros ?%Hin|congruence].
    + intros j x Hj. destruct (decide (j = i)) as [->|]; [eauto|]. rewrite lookup_insert_ne in Hj by done. eauto.
    + by rewrite (lock_same _ _ Hlk), Ht, lookup_insert_eq.
  - assert (Hs := s_no_lock fault tempname euid egid today now_ns e zone file polite i rq z er w w' h ts log (proj1 (Hwait _ _ _) Hi) Hl).
    eexists. split; [exact Hs|]. specialize (Hlk _ Hs). apply lock_table in Hl as [Ht Hn].
    { intros id Hid. destruct h as [hd|]; cbn in Htab; [|congruence]. destruct Htab as (Ht & _ & Hlt). congruence. }
    split; cbn in *; [done|done|..].
    + intros j rq' z'. destruct (decide (j = i)) as [->|]; [by rewrite !lookup_delete_eq|by rewrite !lookup_delete_ne].
    + intros j rq' z' fd' ph'. rewrite <- Hin. destruct (decide (j = i)) as [->|]; [by rewrite lookup_delete_eq, Hi|by rewrite lookup_delete_ne].
    + intros j x [_ Hj]%lookup_delete_Some. eauto using asked_app.
    + unfold table in *. rewrite (lock_same _ _ Hlk), Ht. destruct h; [|done]. destruct Htab as (? & ? & ?). split_and!; [done..|lia].
  - assert (h = Some (mkHolder i rq z fd ph)) as -> by by apply Hin.
    assert (Hs := s_proceed fault tempname euid egid today now_ns e zone file polite i rq z fd ph ph' w w' ts log Hnl Had).
    eexists. split; [exact Hs|]. specialize (Hlk _ Hs). pose proof (work_open z rq ph w) as Ho.
    rewrite <- (advance_world _ _ _ _ _ _ Had) in Ho. split; cbn in *; [done|done|..].
    + intros j rq' z'. rewrite <- Hwait. destruct (decide (j = i)) as [->|]; [by rewrite lookup_insert_eq, Hi|by rewrite lookup_insert_ne].
    + intros j rq' z' fd' ph''. destruct (decide (j = i)) as [->|].
      * rewrite lookup_insert_eq. split; by intros [= <- <- <- <-].
      * rewrite lookup_insert_ne by done. split; [intros ?%Hin; congruence|congruence].
    + intros j x Hj. destruct (decide (j = i)) as [->|]; [eauto using asked_app|]. rewrite lookup_insert_ne in Hj by done. eauto using asked_app.
    + by eapply (table_same w w' (Some (mkHolder i rq z fd ph))).
  - assert (h = Some (mkHolder i rq z fd (Leaving r))) as -> by by apply Hin.
    assert (Hs := s_release fault tempname euid egid today now_ns e zone file polite i rq z fd r w ts log).
    eexists. split; [exact Hs|]. specialize (Hlk _ Hs). split; cbn in *; [done|done|..].
    + intros j rq' z'. rewrite <- Hwait. destruct (decide (j = i)) as [->|]; [by rewrite lookup_delete_eq, Hi|by rewrite lookup_delete_ne].
    + intros j rq' z' fd' ph'. split; [|done]. intros [Hne Hj]%lookup_delete_Some. apply Hin in Hj. congruence.
    + intros j x [_ Hj]%lookup_delete_Some. eauto using asked_app.
    + destruct Htab as (Ht & Hp & _). rewrite (lock_same _ _ Hlk), <- Hp. apply unlock_table. by rewrite Hp.
  - assert (Hp' : polite = true -> match h with Some hd => window (h_phase hd) = false | None => True end).
    { intros Hpol. destruct h as [[i rq z fd ph]|]; [|done]. cbn. by eapply Hp, Hin. }
    assert (Hs := s_save fault tempname euid egid today now_ns e zone file polite w w' h ts log Hx Hls Hp').
    eexists. split; [exact Hs|]. split; cbn in *; [done..| |by eapply table_same]. eauto using asked_app.
Qed.

(** Where it starts: nothing is under way, the lock is free and the backup
    directory has no links. *)
Definition idle (w : world) : Prop := clear w /\ ~ flock_waits w (lock_path e zone).

Lemma matches_start w : idle w -> matches (mkState w ∅ []) (mkSerial w None ∅ []).
Proof.
  intros [_ Hf]. split; cbn; try done. destruct (o_locked (w_open w) !! lock_file' w) eqn:E; [|done]. destruct Hf. eexists. exact E.
Qed.

Lemma run_matches polite w0 st : idle w0 -> rtc (step fault tempname euid egid today now_ns e zone file polite) (mkState w0 ∅ []) st ->
  exists s, matches st s /\ clear (st_world st) /\
    rtc (serial_step fault tempname euid egid today now_ns e zone file polite) (mkSerial w0 None ∅ []) s.
Proof.
  intros Hi H. apply rtc_ind_r with (P := fun st => exists s, matches st s /\ clear (st_world st) /\
    rtc (serial_step fault tempname euid egid today now_ns e zone file polite) (mkSerial w0 None ∅ []) s) in H; [done| |].
  - exists (mkSerial w0 None ∅ []). split_and!; [by apply matches_start|apply Hi|apply rtc_refl].
  - intros x y _ Hs (s & Hm & Hc & Hr). destruct (step_serial _ _ _ _ Hm Hc Hs) as (s' & Hs' & Hm').
    exists s'. split_and!; [done| |by eapply rtc_r]. rewrite <- (m_world _ _ Hm'). eapply clear_links; [|exact Hc].
    rewrite <- (m_world _ _ Hm) in Hc |- *. by eapply serial_links.
Qed.

Lemma sound_run c0 s s' : sound c0 s -> rtc (serial_step fault tempname euid egid today now_ns e zone file true) s s' -> sound c0 s'.
Proof. intros Hs H. induction H as [|x y z Hxy _ IH]; [done|]. by apply IH, (sound_step c0 x). Qed.

(** C5: no edit is lost. However many calls edit a zone at once, and whatever
    system call fails, they are as if made one after the other: starting from
    the content that was there and taking the committed edits and the saves
    from outside in the order of the log, every edit is the one the call asked
    for, computed from the content at its turn, and the file holds what comes
    out, except between a write and the answer of its reload. No call commits
    twice, and every answer is true: an edit reported as made is in the log,
    with the difference reported, and one refused or reported undone is not.
    It starts with the lock free and no link in the backup directory, and the
    one thing asked for is that nobody saves the file from outside between a
    call's comparison and its reload. *)
Theorem no_edit_lost w0 st : exists_file file w0 -> idle w0 ->
  rtc (step fault tempname euid egid today now_ns e zone file true) (mkState w0 ∅ []) st ->
  (exists k, replay today zone (content' w0) (st_log st) = Some k /\
     ((forall i rq z fd ph, st_calls st !! i = Some (rq, z, Inside fd ph) -> pending ph = false) -> content' (st_world st) = k)) /\
  NoDup (commits (st_log st)) /\
  forall i r, Answered i r ∈ st_log st -> truthful zone file (st_log st) i r.
Proof.
  intros He Hi Hr. destruct (run_matches true w0 st Hi Hr) as (s & Hm & _ & Hs).
  apply (sound_run (content' w0)) in Hs; [|by apply sound_start; [|apply Hi]]. destruct Hs as (Hl & _ & _ & k & Hk & Hb).
  rewrite <- (m_log _ _ Hm), <- (m_world _ _ Hm). split_and!; [|apply Hl|intros; by apply Hl].
  exists k. split; [done|]. intros Hp. destruct (s_holder s) as [[i rq z fd ph]|] eqn:Eh; [|done].
  apply (agrees_settled _ _ _ _ Hb). cbn. by eapply Hp, Hm.
Qed.

(** ** Every call is answered *)

Section progress.
Context (polite : bool).

#[local] Abbreviation step' := (step fault tempname euid egid today now_ns e zone file polite).

Definition outside (ev : event) : bool := match ev with Asked _ _ | Saved _ => true | _ => false end.

(** The steps of the calls that are under way. *)
Definition own (st st' : state) : Prop :=
  step' st st' /\ exists evs, st_log st' = st_log st ++ evs /\ Forall (fun ev => outside ev = false) evs.

Definition rank (ph : phase) : nat :=
  match ph with
  | Holding => 8 | Planned _ _ => 7 | Checked _ _ => 6 | Guarded _ _ => 5 | Backed _ _ _ => 4
  | Written _ _ _ _ => 3 | Undoing _ _ _ _ _ => 2 | Reloaded _ => 2 | Leaving _ => 1
  end.

Definition due (x : req * Zone * place) : nat := match x.2 with Waiting => 9 | Inside _ ph => rank ph end.
Definition total (cs : gmap nat (req * Zone * place)) : nat := sum_list_with (fun kv => due kv.2) (map_to_list cs).

Lemma dues_delete cs i x : cs !! i = Some x -> total cs = (due x + total (delete i cs))%nat.
Proof. intros Hi. unfold total. by rewrite <- (map_to_list_delete cs i x) by done. Qed.

Lemma dues_insert cs i x y : cs !! i = Some x -> (due y < due x)%nat -> (total (<[i := y]> cs) < total cs)%nat.
Proof.
  intros Hi Hlt. rewrite (dues_delete cs i x), (dues_delete _ i y) by (done || apply lookup_insert_eq).
  rewrite delete_insert_eq. lia.
Qed.

Lemma due_bounds x : (1 <= due x <= 9)%nat.
Proof. destruct x as [? [|fd ph]]; cbn; [lia|]. destruct ph; cbn; lia. Qed.

Lemma total_size cs : (total cs <= 9 * size cs)%nat.
Proof.
  unfold total. rewrite <- length_map_to_list. generalize (map_to_list cs). intros l. induction l as [|[i x] l IH]; [cbn; lia|].
  change (due x + sum_list_with (fun kv => due kv.2) l <= 9 * S (length l))%nat. pose proof (due_bounds x). lia.
Qed.

Lemma work_rank z rq ph w ph' w' : (forall r, ph <> Leaving r) -> work' z rq ph w = (Ok ph', w') -> (rank ph' < rank ph)%nat.
Proof.
  intros Hnl H. destruct ph as [|o n|o n|o n|o n bk|o n bk res|o n bk res why|res|r0]; cbn [work] in H; [..|by destruct (Hnl r0)];
    (apply io_bind_ok in H as [(x & w1 & _ & H)|(er & _ & H)]; [|done]).
  - apply io_bind_ok in H as [(n & w2 & _ & H)|(er & _ & H)]; [|done]. injection H as <- _. cbn. lia.
  - injection H as <- _. cbn. lia.
  - destruct (negb _); [done|]. injection H as <- _. cbn. lia.
  - injection H as <- _. cbn. lia.
  - injection H as <- _. cbn. lia.
  - injection H as <- _. destruct x; cbn; lia.
  - by destruct x.
  - injection H as <- _. cbn. lia.
Qed.

Lemma advance_rank z rq ph w ph' w' : (forall r, ph <> Leaving r) -> advance' z rq ph w = (ph', w') -> (rank ph' < rank ph)%nat.
Proof.
  intros Hnl. unfold advance. destruct (work' z rq ph w) as [[ph1|er] w1] eqn:Hw; intros [= <- _].
  - by eapply work_rank.
  - apply work_error in Hw. destruct ph as [|o n|o n|o n|o n bk|o n bk res|o n bk res why|res|r0]; cbn; (done || lia).
Qed.

Lemma own_decreases st st' : own st st' -> (total (st_calls st') < total (st_calls st))%nat.
Proof.
  intros [H (evs & Hlog & Hevs)].
  destruct H as [i rq z w w' cs log Hfresh Hr Hz|i rq er w w' cs log Hfresh Hr|i rq z fd w w' cs log Hi Hfree Hl|
    i rq z er w w' cs log Hi Hl|i rq z fd ph ph' w w' cs log Hi Hnl Had|i rq z fd r w cs log Hi|w w' cs log Hx Hls Ho Hp];
    cbn [st_log st_calls] in *.
  - apply app_inv_head in Hlog as <-. by apply Forall_inv in Hevs.
  - apply app_inv_head in Hlog as <-. by apply Forall_inv in Hevs.
  - eapply dues_insert; [done|]. cbn. lia.
  - rewrite (dues_delete cs i _ Hi). cbn. lia.
  - eapply dues_insert; [done|]. by eapply advance_rank.
  - rewrite (dues_delete cs i _ Hi). cbn. lia.
  - apply app_inv_head in Hlog as <-. by apply Forall_inv in Hevs.
Qed.

(** Whoever is behind the lock can go on, and when nobody is, whoever waits can
    take it. *)
Lemma own_enabled st s : matches st s -> st_calls st = ∅ \/ exists st', own st st'.
Proof.
  intros Hm. destruct st as [w cs log]. destruct (s_holder s) as [[i rq z fd ph]|] eqn:Eh.
  - right. apply (m_inside _ _ Hm) in Eh. cbn in Eh. assert (Hgo : (forall r, ph <> Leaving r) -> exists st', own (mkState w cs log) st').
    { intros Hnl. destruct (advance' z rq ph w) as [ph' w'] eqn:Ha. eexists. split; [by eapply proceed|]. eexists. split; [done|].
      destruct (noted_cases i rq ph ph') as [-> |(o & n & ->)]; auto. }
    destruct ph; try (apply Hgo; done). eexists. split; [by eapply release|]. eexists. split; [done|]. auto.
  - destruct (map_choose_or_empty cs) as [(i & [[rq z] pl] & Hi)| ->]; [right|by left].
    destruct pl as [|fd ph]; [|apply (m_inside _ _ Hm) in Hi; congruence].
    destruct (lock fault euid egid e zone w) as [[fd|er] w'] eqn:Hl.
    + eexists. split; [eapply acquire; [done| |done]|exists []; cbn; by rewrite app_nil_r].
      pose proof (m_table _ _ Hm) as Ht. rewrite Eh in Ht. cbn in Ht. unfold flock_waits, lock_file in *. rewrite Ht. by intros [].
    + eexists. split; [by eapply no_lock|]. eexists. split; [done|]. auto.
Qed.

(** What the calls' own steps keep. *)
Definition apart (st : state) : Prop := exists s, matches st s /\ clear (st_world st).

Lemma step_apart st st' : apart st -> step' st st' -> apart st'.
Proof.
  intros (s & Hm & Hc) H. destruct (step_serial _ _ _ _ Hm Hc H) as (s' & Hs & Hm'). exists s'. split; [done|].
  rewrite <- (m_world _ _ Hm'). rewrite <- (m_world _ _ Hm) in Hc. eapply clear_links; [by eapply serial_links|done].
Qed.

Lemma own_runs n st st' : nsteps own n st st' -> (n + total (st_calls st') <= total (st_calls st))%nat.
Proof. induction 1 as [|n x y z H _ IH]; [lia|]. apply own_decreases in H. lia. Qed.

Lemma own_apart n st st' : nsteps own n st st' -> apart st -> apart st'.
Proof. induction 1 as [|n x y z [H _] _ IH]; [done|]. intros Hx. by apply IH, (step_apart x). Qed.

Lemma own_drains n st : total (st_calls st) = n -> apart st -> exists m st', nsteps own m st st' /\ st_calls st' = ∅.
Proof.
  revert st. induction (lt_wf n) as [n _ IH]. intros st Hn Ha. destruct (Ha) as (s & Hm & Hc).
  destruct (own_enabled st s Hm) as [?|[st1 H1]]; [exists 0%nat, st; split; [apply nsteps_O|done]|].
  destruct (IH (total (st_calls st1))) with (st := st1) as (m & st' & Hs & He);
    [apply own_decreases in H1; lia|done|by apply (step_apart st), H1|].
  exists (S m), st'. split; [by eapply nsteps_l|done].
Qed.

(** C31: one at a time, and every call is answered. In whatever order calls are
    made, take the lock, go on from line to line and are interrupted by errors
    of the system, and the file is saved from outside, starting with the lock
    free and no link in the backup directory: no two calls are ever between
    the lock and its release; the calls under way make at most nine steps
    each; and when they have made all the steps they can, as they always can
    without a step of anybody else, none is left and [flock] has nobody to
    wait for. *)
Theorem calls_complete w0 st : idle w0 -> rtc step' (mkState w0 ∅ []) st ->
  (forall i j rq z fd ph rq' z' fd' ph', st_calls st !! i = Some (rq, z, Inside fd ph) ->
     st_calls st !! j = Some (rq', z', Inside fd' ph') -> i = j) /\
  (exists m st', nsteps own m st st' /\ st_calls st' = ∅) /\
  forall m st', nsteps own m st st' ->
    (m <= 9 * size (st_calls st))%nat /\
    ((forall st'', ~ own st' st'') -> st_calls st' = ∅ /\ ~ flock_waits (st_world st') (lock_path e zone)).
Proof.
  intros Hi Hr. destruct (run_matches polite w0 st Hi Hr) as (s & Hm & Hc & _). split_and!.
  - intros i j rq z fd ph rq' z' fd' ph' H1%(m_inside _ _ Hm) H2%(m_inside _ _ Hm). congruence.
  - eapply own_drains; [done|by exists s].
  - intros m st' Hs. split; [pose proof (own_runs _ _ _ Hs); pose proof (total_size (st_calls st)); lia|].
    intros Hstuck. destruct (own_apart _ _ _ Hs) as (s' & Hm' & _); [by exists s|].
    destruct (own_enabled st' s' Hm') as [He|[st'' H]]; [|by destruct (Hstuck st'')]. split; [done|].
    pose proof (m_table _ _ Hm') as Ht. destruct (s_holder s') as [[i rq z fd ph]|] eqn:Eh.
    + apply (m_inside _ _ Hm') in Eh. rewrite He in Eh. by apply lookup_empty_Some in Eh.
    + cbn in Ht. unfold flock_waits, lock_file in *. rewrite Ht. by intros [].
Qed.

End progress.

End lines.

(** ** A call that is alone is the call of [FileZone] *)

Section alone.
Context {D : Dns} (fault : nat -> option string) (tempname : nat -> string -> string) (euid egid : Z).
Context (today : date) (now_ns : nat -> Z) (e : Editor) (zone file : string) (polite : bool).

#[local] Abbreviation step' := (step fault tempname euid egid today now_ns e zone file polite).
#[local] Abbreviation work' := (work fault tempname euid egid today now_ns e zone).

Definition call (rq : req) : io fz_error Result :=
  match rq with
  | RApply ops => Apply fault tempname euid egid today now_ns e zone ops
  | RReplace new base => ReplaceRaw fault tempname euid egid today now_ns e zone new base
  end.

(** The lines that are left, [n] at most. *)
Fixpoint rest (n : nat) (z : Zone) (rq : req) (ph : phase) : io fz_error Result :=
  match n with
  | O => fail ErrNoPath
  | S n => match ph with
           | Leaving r => fun w => (r, w)
           | _ => ph' ← work' z rq ph; rest n z rq ph'
           end
  end.

#[local] Arguments rest : simpl never.

Lemma bind_eq {E A B} (m : io E A) (f : A -> io E B) w :
  mbind f m w = match m w with (Ok a, w1) => f a w1 | (Err er, w1) => (Err er, w1) end.
Proof. done. Qed.

Lemma ret_eq {E A} (a : A) w : (mret a : io E A) w = (Ok a, w).
Proof. done. Qed.

Lemma rest_step n z rq ph w : (forall r, ph <> Leaving r) ->
  rest (S n) z rq ph w = match work' z rq ph w with (Ok ph', w1) => rest n z rq ph' w1 | (Err er, w1) => (Err er, w1) end.
Proof. intros Hnl. destruct ph; try done. by destruct (Hnl r). Qed.

Lemma rest_commit z rq o n w : e_beforeWrite e = mret tt ->
  commit fault tempname euid egid now_ns e z zone o n w = rest 8 z rq (Planned o n) w.
Proof.
  intros Hh. unfold commit. rewrite bind_eq, rest_step by done. cbn [work]. rewrite bind_eq.
  destruct (wrap ErrCheckzone (e_CheckZone e zone n) w) as [[[]|] w1]; [|done].
  rewrite ret_eq, bind_eq, Hh, rest_step by done. unfold wrap at 1. rewrite ret_eq. cbn [work]. rewrite !bind_eq.
  destruct (wrap ErrRead (readNoFollow fault (z_Path z)) w1) as [[c|] w2]; [|done].
  destruct (negb (String.eqb c o)); [done|]. rewrite ret_eq, bind_eq, rest_step by done. cbn [work]. rewrite bind_eq.
  destruct (wrap ErrBackup (backup fault euid egid now_ns e zone o) w2) as [[bk|] w3]; [|done].
  rewrite ret_eq, bind_eq, rest_step by done. cbn [work]. rewrite bind_eq.
  destruct (wrap ErrWrite (writePreserving fault tempname euid egid (z_Path z) n) w3) as [[[]|] w4]; [|done].
  rewrite ret_eq, bind_eq, rest_step by done. cbn [work]. rewrite bind_eq.
  destruct (attempt (e_Reload e zone) w4) as [[[[]|why]|] w5]; [..|done]; rewrite ret_eq, bind_eq, rest_step by done; cbn [work]; rewrite bind_eq.
  - destruct (wrap _ (e_Verify e zone _) w5) as [[[]|] w6]; done.
  - destruct (attempt (writePreserving fault tempname euid egid (z_Path z) o) w5) as [[[[]|we]|] w6]; done.
Qed.

Lemma call_rest rq w : e_beforeWrite e = mret tt ->
  call rq w = (z ← resolve fault e zone; locked fault euid egid e zone (rest 9 z rq Holding)) w.
Proof.
  intros Hh. destruct rq as [ops|new base]; cbn [call]; unfold Apply, ReplaceRaw; rewrite !bind_eq;
    (destruct (resolve fault e zone w) as [[z|er] w1]; [|done]); unfold locked; rewrite !bind_eq;
    (destruct (lock fault euid egid e zone w1) as [[lp|er] w2]; [|done]); unfold deferred;
    (match goal with |- (let '(_, _) := ?a in _) = (let '(_, _) := ?b in _) => assert (a = b) as ->; [|done] end);
    rewrite ?bind_eq, rest_step by done; cbn [work]; rewrite !bind_eq;
    (destruct (read_screened fault z zone w2) as [[c|er] w3]; [|done]); cbn [plan].
  - rewrite !bind_eq. unfold pure. destruct (compute today zone c ops) as [new|er]; [|done]. rewrite ret_eq. by apply rest_commit.
  - rewrite !bind_eq. destruct (match base with Some b => _ | None => _ end); [done|]. rewrite bind_eq. unfold pure.
    destruct (normalizeRawSerial today zone c new) as [n|er]; [|done]. rewrite ret_eq. by apply rest_commit.
Qed.

Lemma rest_run n z rq ph w r w' i fd cs log : (rank ph <= n)%nat -> rest n z rq ph w = (r, w') ->
  exists evs, Forall (fun ev => outside ev = false) evs /\
  rtc step' (mkState w (<[i := (rq, z, Inside fd ph)]> cs) log) (mkState w' (<[i := (rq, z, Inside fd (Leaving r))]> cs) (log ++ evs)).
Proof.
  revert ph w log. induction n as [|n IH]; intros ph w log Hn Hr; [by destruct ph; cbn in Hn; lia|].
  assert (Hgo : (forall r0, ph <> Leaving r0) -> exists evs, Forall (fun ev => outside ev = false) evs /\
    rtc step' (mkState w (<[i := (rq, z, Inside fd ph)]> cs) log) (mkState w' (<[i := (rq, z, Inside fd (Leaving r))]> cs) (log ++ evs))).
  { intros Hnl. rewrite rest_step in Hr by done.
    destruct (advance fault tempname euid egid today now_ns e zone z rq ph w) as [ph1 w1] eqn:Ha.
    assert (Hrk : (rank ph1 < rank ph)%nat) by by eapply advance_rank.
    assert (Hrest : exists evs, Forall (fun ev => outside ev = false) evs /\
      rtc step' (mkState w1 (<[i := (rq, z, Inside fd ph1)]> cs) (log ++ noted i rq ph ph1))
        (mkState w' (<[i := (rq, z, Inside fd (Leaving r))]> cs) ((log ++ noted i rq ph ph1) ++ evs))).
    { unfold advance in Ha. destruct (work' z rq ph w) as [[ph2|er] w2]; injection Ha as <- <-; [apply IH; [lia|done]|].
      injection Hr as <- <-. exists []. split; [done|]. rewrite app_nil_r. apply rtc_refl. }
    destruct Hrest as (evs & Hevs & Hrtc). exists (noted i rq ph ph1 ++ evs). split.
    - apply Forall_app. split; [|done]. destruct (noted_cases i rq ph ph1) as [-> |(o & m & ->)]; auto.
    - rewrite app_assoc. eapply rtc_l; [eapply proceed; [apply lookup_insert_eq|done..]|]. by rewrite insert_insert_eq. }
  destruct ph as [| | | | | | | |r0]; try (apply Hgo; done). injection Hr as <- <-.
  exists []. split; [done|]. rewrite app_nil_r. apply rtc_refl.
Qed.

(** The steps of one call in a row are the call of [FileZone]: its answer, and
    its world. *)
Lemma call_steps i rq w r w' cs log :
  e_beforeWrite e = mret tt ->
  (forall z w1, resolve fault e zone w = (Ok z, w1) -> z_Path z = file /\ ~ flock_waits w1 (lock_path e zone)) ->
  cs !! i = None -> (forall rq', Asked i rq' ∉ log) -> call rq w = (r, w') ->
  exists evs, Forall (fun ev => outside ev = false) evs /\
    rtc step' (mkState w cs log) (mkState w' cs (log ++ [Asked i rq] ++ evs ++ [Answered i r])).
Proof.
  intros Hh Hfile Hcs Hfresh. rewrite call_rest, bind_eq by done.
  destruct (resolve fault e zone w) as [[z|er] w1] eqn:Hr.
  2: { intros [= <- <-]. exists []. split; [done|]. eapply rtc_l; [by eapply refuse|]. apply rtc_refl. }
  destruct (Hfile z w1 eq_refl) as [Hz Hfree]. unfold locked. rewrite bind_eq.
  assert (Harr : step' (mkState w cs log) (mkState w1 (<[i := (rq, z, Waiting)]> cs) (log ++ [Asked i rq]))) by by eapply arrive.
  destruct (lock fault euid egid e zone w1) as [[fd|er] w2] eqn:Hl.
  2: { intros [= <- <-]. exists []. split; [done|]. eapply rtc_l; [exact Harr|].
       assert (Hs : step' (mkState w1 (<[i := (rq, z, Waiting)]> cs) (log ++ [Asked i rq]))
                      (mkState w2 (delete i (<[i := (rq, z, Waiting)]> cs)) ((log ++ [Asked i rq]) ++ [Answered i (Err er)])))
         by (eapply no_lock; [apply lookup_insert_eq|done]).
       rewrite delete_insert_id, <- app_assoc in Hs by done. eapply rtc_l; [exact Hs|apply rtc_refl]. }
  unfold deferred. destruct (rest 9 z rq Holding w2) as [r1 w3] eqn:Hrest. intros [= <- <-].
  destruct (rest_run 9 z rq Holding w2 r1 w3 i fd cs (log ++ [Asked i rq])) as (evs & Hevs & Hrun); [cbn; lia|done|].
  exists evs. split; [done|]. eapply rtc_l; [exact Harr|].
  eapply rtc_l; [eapply acquire; [apply lookup_insert_eq|done..]|]. rewrite insert_insert_eq, !app_assoc in *.
  eapply rtc_r; [exact Hrun|].
  assert (Hs : step' (mkState w3 (<[i := (rq, z, Inside fd (Leaving r1))]> cs) ((log ++ [Asked i rq]) ++ evs))
    (mkState (unlock fault fd w3) (delete i (<[i := (rq, z, Inside fd (Leaving r1))]> cs)) (((log ++ [Asked i rq]) ++ evs) ++ [Answered i r1])))
    by (eapply release, lookup_insert_eq).
  by rewrite delete_insert_id in Hs.
Qed.

End alone.

(** ** Schedules *)

Section schedules.
Context {D : Dns} (fault : nat -> option string) (tempname : nat -> string -> string) (euid egid : Z).
Context (today : date) (now_ns : nat -> Z) (e : Editor) (zone file : string) (polite : bool).

(** Whose turn it is. *)
Inductive turn := Ask (i : nat) (rq : req) | Take (i : nat) | Next (i : nat) | Save (c : string).

Definition is_asked (i : nat) (ev : event) : bool := match ev with Asked j _ => (i =? j)%nat | _ => false end.

Definition in_window (x : req * Zone * place) : bool := match x.2 with Inside _ ph => window ph | Waiting => false end.

Definition perform (t : turn) (st : state) : option state :=
  let '(mkState w cs log) := st in
  match t with
  | Ask i rq =>
      if existsb (is_asked i) log then None
      else match resolve fault e zone w with
           | (Ok z, w') => if String.eqb (z_Path z) file then Some (mkState w' (<[i := (rq, z, Waiting)]> cs) (log ++ [Asked i rq])) else None
           | (Err er, w') => Some (mkState w' cs (log ++ [Asked i rq; Answered i (Err er)]))
           end
  | Take i =>
      match cs !! i, o_locked (w_open w) !! lock_file e zone w with
      | Some (rq, z, Waiting), None =>
          match lock fault euid egid e zone w with
          | (Ok fd, w') => Some (mkState w' (<[i := (rq, z, Inside fd Holding)]> cs) log)
          | (Err er, w') => Some (mkState w' (delete i cs) (log ++ [Answered i (Err er)]))
          end
      | _, _ => None
      end
  | Next i =>
      match cs !! i with
      | Some (rq, z, Inside fd (Leaving r)) => Some (mkState (unlock fault fd w) (delete i cs) (log ++ [Answered i r]))
      | Some (rq, z, Inside fd ph) =>
          let '(ph', w') := advance fault tempname euid egid today now_ns e zone z rq ph w in
          Some (mkState w' (<[i := (rq, z, Inside fd ph')]> cs) (log ++ noted i rq ph ph'))
      | _ => None
      end
  | Save c =>
      match w_files w !! file with
      | Some (Reg _ m u g) =>
          if polite && existsb (fun kv => in_window kv.2) (map_to_list cs) then None
          else let w' := with_files w (<[file := Reg c m u g]> (w_files w)) in
               Some (mkState w' cs (log ++ [Saved (Some c)]))
      | _ => None
      end
  end.

Fixpoint run_turns (l : list turn) (st : state) : option state :=
  match l with
  | [] => Some st
  | t :: l' => match perform t st with Some st' => run_turns l' st' | None => None end
  end.

Lemma perform_step t st st' : perform t st = Some st' -> step fault tempname euid egid today now_ns e zone file polite st st'.
Proof.
  destruct st as [w cs log], t as [i rq|i|i|c]; cbn.
  - destruct (existsb (is_asked i) log) eqn:Ex; [done|]. assert (Hf : forall rq', Asked i rq' ∉ log).
    { intros rq' Hin. assert (existsb (is_asked i) log = true); [|congruence].
      apply existsb_elem. exists (Asked i rq'). split; [done|]. cbn. apply Nat.eqb_refl. }
    destruct (resolve fault e zone w) as [[z|er] w'] eqn:Er; [|intros [= <-]; by eapply refuse].
    destruct (String.eqb_spec (z_Path z) file); [|done]. intros [= <-]. by eapply arrive.
  - destruct (cs !! i) as [[[rq z] [|fd ph]]|] eqn:Et; [|done..]. destruct (o_locked _ !! _) eqn:Eo; [done|].
    destruct (lock fault euid egid e zone w) as [[fd|er] w'] eqn:El; intros [= <-]; [|by eapply no_lock].
    eapply acquire; [done| |done]. unfold flock_waits. unfold lock_file in Eo. rewrite Eo. by intros [].
  - destruct (cs !! i) as [[[rq z] [|fd ph]]|] eqn:Et; [done| |done].
    destruct ph as [| | | | | | | |r]; [..|intros [= <-]; by eapply release];
      (destruct (advance _ _ _ _ _ _ _ _ z rq _ w) as [ph' w'] eqn:Ea; intros [= <-];
       refine (proceed fault tempname euid egid today now_ns e zone file polite i rq z fd _ _ w w' cs log Et _ Ea); done).
  - destruct (w_files w !! file) as [[d m u g|]|] eqn:Ef; [|done..].
    destruct (polite && _) eqn:Ep; [done|]. intros [= <-].
    set (w' := with_files w _). assert (Hn : w_files w' !! file = Some (Reg c m u g)) by apply lookup_insert_eq.
    replace (Some c) with (content file w') by (unfold content; by rewrite Hn). apply save.
    + by exists (Reg c m u g).
    + apply same_links_insert; [done|]. intros t. by rewrite Ef.
    + done.
    + intros -> i rq z fd ph Hi. destruct (window ph) eqn:Ew; [|done]. cbn in Ep.
      assert (existsb (fun kv => in_window kv.2) (map_to_list cs) = true); [|congruence].
      apply existsb_elem. exists (i, (rq, z, Inside fd ph)). split; [by apply elem_of_map_to_list|done].
Qed.

Lemma run_turns_steps l st st' : run_turns l st = Some st' -> rtc (step fault tempname euid egid today now_ns e zone file polite) st st'.
Proof.
  revert st. induction l as [|t l IH]; intros st; cbn; [intros [= <-]; apply rtc_refl|].
  destruct (perform t st) as [st1|] eqn:E; [|done]. intros H. eapply rtc_l; [by eapply perform_step|by apply IH].
Qed.

End schedules.

(** ** Two calls and an editor *)

Module EditorsExample.
Import FileZoneExample.
#[local] Existing Instance Sample.dns.

Definition mx : Sample.srr := Sample.mkRR "mail.example." 60 TypeA "192.0.2.25".
Definition ops2 : list (Op (H := Sample.dns)) := [mkOp AddRR (Some (mx : RR))].
Definition by_hand : string := content +:+ "note 60 IN A 192.0.2.77" +:+ nl.

Definition start : state := mkState w0 ∅ [].
Definition on (ed : Editor) (polite : bool) (l : list turn) : option state :=
  run_turns no_fault temp 0 0 today clock ed "example" path polite l start.

(** Both calls are under way, the first has the lock, the operator saves the
    file before the second has it. *)
Definition turns : list turn :=
  [Ask 0 (RApply ops); Ask 1 (RApply ops2); Take 0] ++ replicate 8 (Next 0) ++ [Save by_hand; Take 1] ++ replicate 8 (Next 1).
Definition both : state := default start (on e true turns).

(** Saved after the comparison; and, when the reload fails, before the undo. *)
Definition unnoticed : list turn := [Ask 0 (RApply ops); Take 0] ++ replicate 3 (Next 0) ++ [Save by_hand] ++ replicate 5 (Next 0).
Definition before_undo : list turn := [Ask 0 (RApply ops); Take 0] ++ replicate 5 (Next 0) ++ [Save by_hand] ++ replicate 3 (Next 0).
Definition no_reload : Editor := mkEditor ["example."] "/locks" "/backups" 0 (mret inv) (fun _ _ => mret tt) (fun _ => fail "rndc")
  (fun _ _ => mret tt) (mret tt).

Definition nowhere (c : string) (w : world) : bool :=
  forallb (fun kv => match kv.2 with Reg d _ _ _ => negb (String.eqb d c) | Link _ => true end) (map_to_list (w_files w)).

Example both_value :
  omap (fun ev => match ev with Answered i r => Some (i, is_ok r) | _ => None end) (st_log both) = [(0%nat, true); (1%nat, true)].
Proof. by vm_compute. Qed.

Lemma on_steps ed polite l : is_Some (on ed polite l) ->
  rtc (step no_fault temp 0 0 today clock ed "example" path polite) start (default start (on ed polite l)).
Proof. intros [st Hst]. rewrite Hst. by apply run_turns_steps in Hst. Qed.

(** The second call waits for the first: its turn does not come. *)
Example second_waits : match on e true (take 3 turns ++ [Take 1]) with Some _ => true | None => false end = false.
Proof. by vm_compute. Qed.

Lemma idle_w0 : idle e "example" w0.
Proof.
  split; [|vm_compute; by intros []]. intros q (n & Hn & ->) t. cbn [w0 w_files].
  rewrite lookup_singleton_ne; [done|]. intros H. by apply (elsewhere n).
Qed.

Lemma none_pending (cs : gmap nat (req * Zone * place)) : size cs = 0%nat ->
  forall i rq z fd ph, cs !! i = Some (rq, z, Inside fd ph) -> pending ph = false.
Proof. intros ->%map_size_empty_iff i rq z fd ph. by intros ?%lookup_empty_Some. Qed.

(** The file ends as the second edit of what the operator saved, who had not
    seen the first: that is the operator's to lose, and the log says so. *)
Lemma no_edit_lost_witness :
  (exists k, replay today "example" (Some content) (st_log both) = Some k /\ Editors.content path (st_world both) = k) /\
  NoDup (commits (st_log both)) /\ forall i r, Answered i r ∈ st_log both -> truthful "example" path (st_log both) i r.
Proof.
  assert (He : exists_file path w0) by (eexists; vm_compute; reflexivity).
  assert (Hs : rtc (step no_fault temp 0 0 today clock e "example" path true) start both).
  { apply on_steps, is_Some_alt. by vm_compute. }
  assert (Hq : forall i rq z fd ph, st_calls both !! i = Some (rq, z, Inside fd ph) -> pending ph = false).
  { assert (H0 : size (st_calls both) = 0%nat) by (by vm_compute). exact (none_pending _ H0). }
  destruct (no_edit_lost no_fault temp 0 0 today clock e "example" path (ret_external _) (fun _ _ => ret_external _)
    (fun _ => ret_external _) (fun _ _ => ret_external _) elsewhere w0 both He idle_w0 Hs) as ((k & Hk & Hc) & Hn & Ht).
  exact (conj (ex_intro _ k (conj Hk (Hc Hq))) (conj Hn Ht)).
Defined.

(** After both calls were made: the first is behind the lock, the second
    waits. *)
Definition asked_both : state := default start (on e true (take 3 turns)).

Lemma calls_complete_witness : size (st_calls asked_both) = 2%nat /\ exists m st',
  nsteps (own no_fault temp 0 0 today clock e "example" path true) m asked_both st' /\ st_calls st' = ∅ /\ (m <= 18)%nat.
Proof.
  assert (Hr : size (st_calls asked_both) = 2%nat) by (by vm_compute). split; [exact Hr|].
  assert (Hs : rtc (step no_fault temp 0 0 today clock e "example" path true) start asked_both).
  { apply on_steps, is_Some_alt. by vm_compute. }
  destruct (calls_complete no_fault temp 0 0 today clock e "example" path (ret_external _) (fun _ _ => ret_external _)
    (fun _ => ret_external _) (fun _ _ => ret_external _) true w0 asked_both idle_w0 Hs) as (_ & (m & st' & Hm & He) & Hall).
  exists m, st'. destruct (Hall m st' Hm) as [Hle _]. rewrite Hr in Hle. exact (conj Hm (conj He Hle)).
Defined.

(** A file saved between the comparison and the write is lost: the edit is
    reported as made, and what was saved is in no file, the backup included. *)
Lemma window_loses : let st := default start (on e false unnoticed) in
  is_Some (on e false unnoticed) /\
  omap (fun ev => match ev with Answered i r => Some (is_ok r) | _ => None end) (st_log st) = [true] /\
  replay today "example" (Some content) (st_log st) = None /\ nowhere by_hand (st_world st) = true.
Proof. intros st. split_and!; [apply is_Some_alt|..]; by vm_compute. Qed.

(** So is one saved between the write and the undo of a failed reload: the old
    content is put back over it without another comparison, with no backup of
    what was there. *)
Lemma undo_loses : let st := default start (on no_reload false before_undo) in
  is_Some (on no_reload false before_undo) /\
  omap (fun ev => match ev with Answered i (Err (ErrRestored _ why)) => Some why | _ => None end) (st_log st) = ["rndc"] /\
  Editors.content path (st_world st) = Some content /\ nowhere by_hand (st_world st) = true.
Proof. intros st. split_and!; [apply is_Some_alt|..]; by vm_compute. Qed.

End EditorsExample.
