(* ===== verification/Server.v ===== *)
(** * Server: the update endpoints

    [internal/server]: the address to register ([clientIP]), the update of
    DNS and of the token's record ([doUpdate]), and the handlers of
    [/update/], [/nic/update] and [/healthz]. A handler threads the token
    database and the world its DNS backend changes; the backend is an
    interface, which [Ddns.Update] implements. *)

From Stdlib Require Import String Ascii.
From S2P Require Import Prelude GoStrings DnsLib NetIP Encoding Ddns Config Store.

(** [ddns.Backend]: register an address in a zone. *)
Class Backend (W E : Type) := update_backend : string -> string -> addr -> Z -> W -> W * result E unit.

#[export] Instance rfc2136_backend `{D : Dns} {W}
  (exchange : string -> string -> updateMsg -> W -> W * result string Z) (u : RFC2136) : Backend W ddns_error :=
  Ddns.Update exchange u.

(** ** Requests and responses *)

Record request := mkReq {
  r_Path : string; r_Query : list (string * string); r_RemoteAddr : string;
  r_XFF : string; r_BasicAuth : option (string * string)
}.

Definition query_get (r : request) (k : string) : string :=
  match find_first (fun kv => String.eqb kv.1 k) (r_Query r) with Some kv => kv.2 | None => "" end.

Record response := mkResp { status : Z; body : string }.

Definition http_error (msg : string) (code : Z) : response := mkResp code (msg +:+ nl).
Definition println (msg : string) : response := mkResp 200 (msg +:+ nl).

(** ** The address to register *)

Section client_ip.
Context (cfg : Config.Config).

Inductive ip_error := InvalidIP (s : string) | NonRoutableIP (s : string) | NoClientIP.

Definition non_routable (ip : addr) : bool :=
  IsLoopback ip || IsUnspecified ip || IsMulticast ip || IsLinkLocalUnicast ip || IsLinkLocalMulticast ip.

(** From the last hop to the first: the first that is an address and not a
    trusted proxy. *)
Fixpoint walk_hops (hops : list string) : option addr :=
  match hops with
  | [] => None
  | h :: hs =>
      match ParseIP (trim_space h) with
      | Some ip => if IsTrusted cfg ip then walk_hops hs else Some ip
      | None => walk_hops hs
      end
  end.

Definition peer_of (r : request) : option addr :=
  ParseIP (match SplitHostPort (r_RemoteAddr r) with Some (host, _) => host | None => r_RemoteAddr r end).

Definition clientIP (r : request) (override : string) : result ip_error addr :=
  if negb (String.eqb override "") then
    match ParseIP (trim_space override) with
    | None => Err (InvalidIP override)
    | Some ip => if non_routable ip then Err (NonRoutableIP override) else Ok ip
    end
  else
    match peer_of r with
    | None => Err NoClientIP
    | Some peer =>
        if IsTrusted cfg peer && negb (String.eqb (r_XFF r) "") then
          match walk_hops (rev (split "," (r_XFF r))) with
          | Some cand => Ok cand
          | None => Ok peer
          end
        else Ok peer
    end.

End client_ip.

(** ** The update *)

Section server.
Context {C : Crypto} {W BE : Type} {B : Backend W BE} (cfg : Config.Config).
(** The faults of the lookup and of the stamp, and the clock. *)
Context (flookup fmark : nat -> option string) (now : Z).

Definition doUpdate (rec : Record') (ip : addr) (s : db) (w : W) : result BE bool * db * W :=
  if String.eqb (LastIP rec) (ip_string ip) then (Ok false, (MarkSeen fmark now (ID rec) s).2, w)
  else
    match update_backend (FQDN_ rec) (Zone_ rec) ip (TTL_ rec) w with
    | (w', Err e) => (Err e, s, w')
    | (w', Ok _) => (Ok true, (MarkUpdated fmark now (ID rec) (ip_string ip) s).2, w')
    end.

(** The token and the address of a simple request. *)
Definition simple_rest (r : request) : string :=
  trim_by (Ascii.eqb "/") (trim_prefix "/update/" (r_Path r)).

Definition simple_segs (r : request) : string * option string :=
  match cut "/" (simple_rest r) with
  | Some (tok, more) => (tok, Some more)
  | None => (simple_rest r, None)
  end.

Definition simple_override (r : request) : string :=
  let o := query_get r "ip" in
  let o := if String.eqb o "" then query_get r "myip" else o in
  if String.eqb o "" then default "" (simple_segs r).2 else o.

Definition handleSimple (r : request) (s : db) (w : W) : response * db * W :=
  if String.eqb (simple_rest r) "" then (http_error "missing token" 400, s, w)
  else
    match Lookup flookup s (simple_segs r).1 with
    | Err ErrNotFound => (http_error "badauth" 403, s, w)
    | Err _ => (http_error "911" 500, s, w)
    | Ok rec =>
        match clientIP cfg r (simple_override r) with
        | Err _ => (http_error "badip" 400, s, w)
        | Ok ip =>
            let '(res, s', w') := doUpdate rec ip s w in
            match res with
            | Err _ => (http_error "dnserr" 502, s', w')
            | Ok changed => (println ((if changed : bool then "good " else "nochg ") +:+ ip_string ip), s', w')
            end
        end
    end.

Definition dyn_token (r : request) : string :=
  let t := query_get r "token" in
  if String.eqb t "" then match r_BasicAuth r with Some (_, pass) => pass | None => "" end else t.

Definition handleDynDNS2 (r : request) (s : db) (w : W) : response * db * W :=
  if String.eqb (dyn_token r) "" then (println "badauth", s, w)
  else
    match Lookup flookup s (dyn_token r) with
    | Err _ => (println "badauth", s, w)
    | Ok rec =>
        let h := query_get r "hostname" in
        if negb (String.eqb h "") && negb (String.eqb (FQDN h) (FQDN_ rec)) then (println "nohost", s, w)
        else
          match clientIP cfg r (query_get r "myip") with
          | Err _ => (println "badip", s, w)
          | Ok ip =>
              let '(res, s', w') := doUpdate rec ip s w in
              match res with
              | Err _ => (println "dnserr 911", s', w')
              | Ok changed => (println ((if changed : bool then "good " else "nochg ") +:+ ip_string ip), s', w')
              end
          end
    end.

(** The routes of the mux; the paths it is given are already clean. *)
Definition Handler (r : request) (s : db) (w : W) : response * db * W :=
  if has_prefix "/update/" (r_Path r) then handleSimple r s w
  else if String.eqb (r_Path r) "/nic/update" then handleDynDNS2 r s w
  else if String.eqb (r_Path r) "/healthz" then (println "ok", s, w)
  else (http_error "404 page not found" 404, s, w).

End server.

(** ** Whose address is registered *)

Definition with_xff (v : string) (r : request) : request :=
  mkReq (r_Path r) (r_Query r) (r_RemoteAddr r) v (r_BasicAuth r).

Section addresses.
Context (cfg : Config.Config).

(** A hop that does not decide: a trusted proxy, or not an address. *)
Definition passed (h : string) : Prop :=
  match ParseIP (trim_space h) with Some ip => IsTrusted cfg ip = true | None => True end.

Lemma walk_hops_spec hops ip : walk_hops cfg hops = Some ip <->
  exists pre h post, hops = pre ++ h :: post /\ Forall passed pre /\
    ParseIP (trim_space h) = Some ip /\ IsTrusted cfg ip = false.
Proof.
  induction hops as [|h hops IH]; cbn.
  { split; [done|]. by intros ([|] & ? & ? & ? & _). }
  assert (Hskip : passed h -> (walk_hops cfg hops = Some ip <->
    exists pre h' post, h :: hops = pre ++ h' :: post /\ Forall passed pre /\
      ParseIP (trim_space h') = Some ip /\ IsTrusted cfg ip = false)).
  { intros Hp. rewrite IH. split.
    - intros (pre & h' & post & -> & Hf & H). exists (h :: pre), h', post. split; [done|]. split; [by constructor|done].
    - intros ([|x pre] & h' & post & [= <- ->] & Hf & Hi & Ht).
      + unfold passed in Hp. rewrite Hi in Hp. congruence.
      + inversion_clear Hf. eauto 10. }
  destruct (ParseIP (trim_space h)) as [i|] eqn:Ei; [destruct (IsTrusted cfg i) eqn:Et|].
  - apply Hskip. unfold passed. by rewrite Ei.
  - split.
    + intros [= <-]. exists [], h, hops. eauto.
    + intros ([|x pre] & h' & post & [= <- ->] & Hf & Hi & Ht); [congruence|].
      inversion_clear Hf as [|? ? Hp]. unfold passed in Hp. rewrite Ei in Hp. congruence.
  - apply Hskip. unfold passed. by rewrite Ei.
Qed.

Lemma walk_hops_app hops more ip : walk_hops cfg hops = Some ip -> walk_hops cfg (hops ++ more) = Some ip.
Proof.
  rewrite !walk_hops_spec. intros (pre & h & post & -> & H). exists pre, h, (post ++ more).
  rewrite <- app_assoc. done.
Qed.

(** C18: an explicit address is registered only if it parses and is not of a
    class no public record should hold. Without one, the address is that of
    the connection, or, only behind a trusted proxy, the last address of
    X-Forwarded-For that is not itself a trusted proxy; and when the address
    found is not one of a trusted proxy, no text a client puts in front of
    the header the proxies wrote changes it. (A header that names trusted
    proxies only leaves the address of the connection, a proxy's, and text
    in front of it is then read.) *)
Theorem client_ip_trust r ip :
  (forall o, o <> "" -> clientIP cfg r o = Ok ip ->
     ParseIP (trim_space o) = Some ip /\ non_routable ip = false) /\
  (clientIP cfg r "" = Ok ip ->
     peer_of r = Some ip \/
     exists peer pre h post, peer_of r = Some peer /\ IsTrusted cfg peer = true /\
       split "," (r_XFF r) = pre ++ h :: post /\ ParseIP (trim_space h) = Some ip /\
       IsTrusted cfg ip = false /\ Forall passed post) /\
  (forall forged, clientIP cfg r "" = Ok ip -> IsTrusted cfg ip = false ->
     clientIP cfg (with_xff (forged +:+ "," +:+ r_XFF r) r) "" = Ok ip).
Proof.
  split_and!.
  - intros o Ho. unfold clientIP. apply String.eqb_neq in Ho. rewrite Ho. cbn.
    destruct (ParseIP _) as [i|]; [|done]. destruct (non_routable i) eqn:E; [done|]. by intros [= <-].
  - unfold clientIP. cbn. destruct (peer_of r) as [peer|] eqn:Ep; [|done].
    destruct (IsTrusted cfg peer) eqn:Et; cbn [andb]; [|intros [= <-]; by left].
    destruct (String.eqb (r_XFF r) ""); cbn [negb]; [intros [= <-]; by left|].
    destruct (walk_hops cfg _) as [c|] eqn:Ew; intros [= <-]; [|by left]. right.
    apply walk_hops_spec in Ew as (pre & h & post & Hs & Hf & Hi & Hc).
    exists peer, (rev post), h, (rev pre). split_and!; [done..| |done|done|].
    + rewrite <- (rev_involutive (split _ _)), Hs, rev_app_distr. cbn. by rewrite <- app_assoc.
    + apply Forall_forall. intros x Hx. rewrite Forall_forall in Hf. apply Hf. apply list_elem_of_In.
      apply in_rev. by apply list_elem_of_In.
  - intros forged H Hip. revert H. unfold clientIP. cbn. change (peer_of (with_xff _ r)) with (peer_of r).
    destruct (peer_of r) as [peer|]; [|done].
    destruct (IsTrusted cfg peer) eqn:Et; cbn [andb]; [|done].
    destruct (String.eqb_spec (r_XFF r) "") as [|Hx]; cbn [negb]; [congruence|].
    destruct (walk_hops cfg _) as [c|] eqn:Ew; intros [= <-]; [|congruence].
    destruct (String.eqb_spec (forged +:+ String "," (r_XFF r)) "") as [E|_]; cbn [negb].
    { by destruct forged. }
    rewrite split_app_any, rev_app_distr. by rewrite (walk_hops_app _ _ _ Ew).
Qed.

End addresses.

(** ** What a request can change *)

Section updates.
Context {C : Crypto} {W BE : Type} {B : Backend W BE} (cfg : Config.Config).

(** The credential of a request, and the address it asks for. *)
Definition token_of (r : request) : string :=
  if has_prefix "/update/" (r_Path r) then (simple_segs r).1 else dyn_token r.
Definition override_of (r : request) : string :=
  if has_prefix "/update/" (r_Path r) then simple_override r else query_get r "myip".

(** The columns that decide who may update what. *)
Definition credentials (q : Record') : Z * string * string * Z * string * bool :=
  (ID q, FQDN_ q, Zone_ q, TTL_ q, TokenHash q, Disabled q).

Lemma Lookup_ok flookup s tok rec :
  Lookup flookup s tok = Ok rec -> rec ∈ records s /\ TokenHash rec = hashToken tok /\ Disabled rec = false.
Proof.
  unfold Lookup, select_record, stmt. destruct (flookup 0%nat); [done|].
  destruct (find_first _ _) as [x|] eqn:E; [|done]. intros [= ->].
  apply find_first_Some in E as [Hr Hp]. by bsplit.
Qed.

(** A request changes nothing, or it is the update of the record its token
    names, with the address it may register; the answer tells which. *)
Definition answered (res : result BE bool) (ip : addr) (resp : response) : Prop :=
  match res with
  | Ok true => resp = println ("good " +:+ ip_string ip)
  | Ok false => resp = println ("nochg " +:+ ip_string ip)
  | Err _ => has_prefix "dnserr" (body resp) = true
  end.

Lemma handler_cases flookup fmark now r s w resp s' w' :
  Handler cfg flookup fmark now r s w = (resp, s', w') ->
  (s' = s /\ w' = w /\ (has_prefix "good " (body resp) || has_prefix "nochg " (body resp)) = false) \/
  exists rec ip res, Lookup flookup s (token_of r) = Ok rec /\ clientIP cfg r (override_of r) = Ok ip /\
    doUpdate fmark now rec ip s w = (res, s', w') /\ answered res ip resp.
Proof.
  unfold Handler, token_of, override_of. destruct (has_prefix "/update/" (r_Path r)).
  - unfold handleSimple. destruct (String.eqb _ ""); [intros [= <- <- <-]; by left|].
    destruct (Lookup _ _ _) as [rec|[]] eqn:El; [|intros [= <- <- <-]; by left..].
    destruct (clientIP _ _ _) as [ip|] eqn:Ei; [|intros [= <- <- <-]; by left].
    destruct (doUpdate _ _ _ _ _ _) as [[[[]|e] s1] w1] eqn:Ed; intros [= <- <- <-]; right; exists rec, ip; eexists; (split_and!; [done|done|exact Ed|done]).
  - destruct (String.eqb (r_Path r) "/nic/update").
    + unfold handleDynDNS2. destruct (String.eqb _ ""); [intros [= <- <- <-]; by left|].
      destruct (Lookup _ _ _) as [rec|] eqn:El; [|intros [= <- <- <-]; by left].
      destruct (negb _ && negb _); [intros [= <- <- <-]; by left|].
      destruct (clientIP _ _ _) as [ip|] eqn:Ei; [|intros [= <- <- <-]; by left].
      destruct (doUpdate _ _ _ _ _ _) as [[[[]|e] s1] w1] eqn:Ed; intros [= <- <- <-]; right; exists rec, ip; eexists; (split_and!; [done|done|exact Ed|done]).
    + destruct (String.eqb _ "/healthz"); intros [= <- <- <-]; by left.
Qed.

(** The stamps touch one row, and not its credentials. *)
Lemma stamp_rows fault id f s :
  (forall q, credentials (f q) = credentials q) ->
  credentials <$> records (stamp fault id f s).2 = credentials <$> records s /\
  snapshots (stamp fault id f s).2 = snapshots s /\ traffic (stamp fault id f s).2 = traffic s /\
  forall q, q ∈ records s -> ID q <> id -> q ∈ records (stamp fault id f s).2.
Proof.
  intros Hf. unfold stamp, stmt. destruct (fault 0%nat); cbn; [done|]. split_and!; [|done..|].
  - apply fmap_col. intros q. destruct (ID q =? id); [apply Hf|done].
  - intros q Hq Hid. apply list_elem_of_fmap. exists q. split; [|done]. by apply Z.eqb_neq in Hid as ->.
Qed.

Lemma doUpdate_rows fmark now rec ip s w res s' w' :
  doUpdate fmark now rec ip s w = (res, s', w') ->
  credentials <$> records s' = credentials <$> records s /\
  snapshots s' = snapshots s /\ traffic s' = traffic s /\
  forall q, q ∈ records s -> ID q <> ID rec -> q ∈ records s'.
Proof.
  unfold doUpdate. destruct (String.eqb _ _); [intros [= <- <- <-]; by apply stamp_rows|].
  destruct (update_backend _ _ _ _ _) as [w1 [|]]; intros [= <- <- <-]; [by apply stamp_rows|done].
Qed.

(** C7: a request changes DNS only with the token of an enabled record, and
    then by one update of that record's own name, zone and ttl, with the
    address the request may register, when that is not the address it already
    has. It never changes a credential, and every record of another token is
    left exactly as it was. *)
Theorem update_authorised flookup fmark now r s w resp s' w' :
  wf s -> Handler cfg flookup fmark now r s w = (resp, s', w') ->
  (w' = w \/ exists rec ip, rec ∈ records s /\ TokenHash rec = hashToken (token_of r) /\ Disabled rec = false /\
     clientIP cfg r (override_of r) = Ok ip /\ ip_string ip <> LastIP rec /\
     w' = (update_backend (FQDN_ rec) (Zone_ rec) ip (TTL_ rec) w).1) /\
  credentials <$> records s' = credentials <$> records s /\
  snapshots s' = snapshots s /\ traffic s' = traffic s /\
  forall q, q ∈ records s -> TokenHash q <> hashToken (token_of r) -> q ∈ records s'.
Proof.
  intros Hwf H. apply handler_cases in H as [(-> & -> & _)|(rec & ip & res & Hl & Hip & Hd & _)]; [by split_and!; eauto|].
  apply Lookup_ok in Hl as (Hin & Hh & Hdis). destruct (doUpdate_rows _ _ _ _ _ _ _ _ _ Hd) as (Hc & Hs & Ht & Hq).
  split_and!; [|done..|].
  - unfold doUpdate in Hd. destruct (String.eqb_spec (LastIP rec) (ip_string ip)) as [|Hne].
    { injection Hd as _ _ <-. by left. }
    right. exists rec, ip. split_and!; try done.
    destruct (update_backend _ _ _ _ _) as [w1 [|]]; by injection Hd as _ _ <-.
  - intros q Hqin Hqh. apply Hq; [done|]. intros Hid. apply Hqh.
    rewrite <- Hh. f_equal. eapply (key_inj ID); [|exact Hqin|exact Hin|done].
    apply ascending_nodup with (next_record s), Hwf.
Qed.

Lemma stamped_lookup now rec ip s tok :
  wf s -> Lookup no_fault s tok = Ok rec ->
  let s1 := (MarkUpdated no_fault now (ID rec) ip s).2 in
  exists rec1, Lookup no_fault s1 tok = Ok rec1 /\ LastIP rec1 = ip /\ ID rec1 = ID rec /\ FQDN_ rec1 = FQDN_ rec.
Proof.
  intros Hwf Hl s1. apply Lookup_ok in Hl as (Hin & Hh & Hd).
  assert (Hwf1 : wf s1) by (apply wf_stamp; [by intros|done]).
  exists (mkRecord (ID rec) (FQDN_ rec) (Zone_ rec) (TTL_ rec) (TokenHash rec) ip now now (Disabled rec)).
  split; [|done]. apply lookup_unique; [done| |done|done].
  unfold s1, MarkUpdated, stamp, stmt, no_fault. cbn. apply list_elem_of_fmap. exists rec.
  by rewrite Z.eqb_refl.
Qed.

(** The retry of an update that was answered [good], and could be
    recorded, is answered [nochg] with the same address, leaves DNS alone and
    only stamps the record's check-in. *)
Theorem retry_is_nochg now now' r s w resp s1 w1 w2 :
  wf s -> Handler cfg no_fault no_fault now r s w = (resp, s1, w1) -> has_prefix "good " (body resp) = true ->
  exists rec ip, Lookup no_fault s (token_of r) = Ok rec /\ resp = println ("good " +:+ ip_string ip) /\
    Handler cfg no_fault no_fault now' r s1 w2 =
      (println ("nochg " +:+ ip_string ip), (MarkSeen no_fault now' (ID rec) s1).2, w2).
Proof.
  intros Hwf H Hgood. destruct (handler_cases _ _ _ _ _ _ _ _ _ H) as [(_ & _ & Hx)|(rec & ip & res & Hl & Hip & Hd & Ha)].
  { by rewrite Hgood in Hx. }
  exists rec, ip. split; [done|].
  assert (Hres : res = Ok true).
  { destruct res as [[]|]; [done|by rewrite Ha in Hgood|]. cbn in Ha.
    destruct (body resp) as [|[[] [] [] [] [] [] [] []] ?]; done. }
  subst res. split; [done|].
  unfold doUpdate in Hd. destruct (String.eqb (LastIP rec) _) eqn:Elast; [done|].
  destruct (update_backend _ _ _ _ _) as [w3 [|]]; [|done].
  assert (s1 = (MarkUpdated no_fault now (ID rec) (ip_string ip) s).2) as ->
    by (symmetry; exact (f_equal (fun x => x.1.2) Hd)).
  destruct (stamped_lookup now rec (ip_string ip) s (token_of r) Hwf Hl) as (rec1 & Hl1 & Hlast & Hid & Hname).
  assert (Hup : forall s', doUpdate (B := B) no_fault now' rec1 ip s' w2 = (Ok false, (MarkSeen no_fault now' (ID rec) s').2, w2)).
  { intros s'. unfold doUpdate. rewrite Hlast, String.eqb_refl, Hid. done. }
  revert H. unfold Handler, token_of, override_of in *. destruct (has_prefix "/update/" (r_Path r)).
  - unfold handleSimple. destruct (String.eqb (simple_rest r) ""); [intros [= <- _]; done|].
    intros _. rewrite Hl1, Hip, Hup. done.
  - destruct (String.eqb (r_Path r) "/nic/update").
    + unfold handleDynDNS2. destruct (String.eqb (dyn_token r) ""); [intros [= <- _]; done|].
      rewrite Hl, Hl1, Hname. destruct (negb _ && negb _); [intros [= <- _]; done|].
      intros _. rewrite Hip, Hup. done.
    + destruct (String.eqb _ "/healthz"); intros [= <- _]; done.
Qed.

End updates.

(** ** Witnesses *)

Module ServerExample.

#[local] Instance plain : Crypto := {| sha256 s := s; hmac_sha256 k m := k +:+ m |}.
(** A backend that keeps the updates it is given. *)
#[local] Instance log : Backend (list (string * addr)) string := fun fqdn zone ip ttl w => (w ++ [(fqdn, ip)], Ok tt).

Definition cfg : Config.Config :=
  set_trustedNets (match ParseCIDR "10.0.0.0/8" with Some n => [n] | None => [] end) Config.defaults.
Definition s0 : db := (Add no_fault "aaa" "home.example" "example" 60 (Add no_fault "bbb" "nas" "example" 60 empty_db).2).2.
Definition tok : string := newToken "aaa".
Definition req : request := mkReq ("/update/" +:+ tok +:+ "/") [] "10.0.0.1:5000" "192.0.2.9, 198.51.100.7 ,10.2.3.4" None.
Definition out := Handler cfg no_fault no_fault 100 req s0 [].

Example out_value : (out.1.1, out.2) = (println "good 198.51.100.7", [("home.example.", V4 [198; 51; 100; 7])]).
Proof. by vm_compute. Qed.

Example rejected :
  (fun o => is_ok (clientIP cfg req o)) <$> ["127.0.0.1"; "::1"; "0.0.0.0"; "224.0.0.1"; "169.254.1.1"; "fe80::1"; "::ffff:127.0.0.1"; "x"; "192.168.1.1"] =
  [false; false; false; false; false; false; false; false; true].
Proof. by vm_compute. Qed.

Lemma start_wf : wf s0.
Proof. apply wf_Add, wf_Add, wf_empty. Qed.

Lemma update_authorised_witness :
  (out.2 = [] \/ exists rec ip, rec ∈ records s0 /\ TokenHash rec = hashToken (token_of req) /\ Disabled rec = false /\
     clientIP cfg req (override_of req) = Ok ip /\ ip_string ip <> LastIP rec /\
     out.2 = (update_backend (FQDN_ rec) (Zone_ rec) ip (TTL_ rec) []).1) /\
  credentials <$> records out.1.2 = credentials <$> records s0 /\
  snapshots out.1.2 = snapshots s0 /\ traffic out.1.2 = traffic s0 /\
  forall q, q ∈ records s0 -> TokenHash q <> hashToken (token_of req) -> q ∈ records out.1.2.
Proof.
  assert (H : Handler cfg no_fault no_fault 100 req s0 [] = (out.1.1, out.1.2, out.2)) by (vm_compute; reflexivity).
  exact (update_authorised cfg no_fault no_fault 100 req s0 [] _ _ _ start_wf H).
Defined.

Lemma retry_is_nochg_witness :
  exists rec ip, Lookup no_fault s0 (token_of req) = Ok rec /\ out.1.1 = println ("good " +:+ ip_string ip) /\
    Handler cfg no_fault no_fault 200 req out.1.2 [] =
      (println ("nochg " +:+ ip_string ip), (MarkSeen no_fault 200 (ID rec) out.1.2).2, []).
Proof.
  assert (H : Handler cfg no_fault no_fault 100 req s0 [] = (out.1.1, out.1.2, out.2)) by (vm_compute; reflexivity).
  assert (Hg : has_prefix "good " (body out.1.1) = true) by (vm_compute; reflexivity).
  exact (retry_is_nochg cfg 100 200 req s0 [] _ _ _ [] start_wf H Hg).
Defined.

End ServerExample.
