(* ===== verification/RecordMut.v ===== *)
(** * RecordMut: editing a dynamic zone's records

    [internal/recordmut]: which zones and records may be edited, the preview
    of a change, the snapshot taken before it, and the restore of a snapshot
    as a forward change. The snapshot store is an interface, [Snapshotter],
    with the promise the editor relies on; [Store] implements it. The name
    server is a world [W]: [view] is what its transfers show, [exchange] sends
    it an update. *)

From Stdlib Require Import String Ascii.
From S2P Require Import Prelude GoStrings DnsLib Encoding Ddns Tsig Named NamedParse Store.

(** ** The snapshot store *)

(** [SnapshotPut zone serial content keep]; a snapshot that was put is the
    latest of its zone. *)
Class Snapshotter (St E : Type) := {
  snapshot_put : string -> Z -> string -> Z -> St -> result E Z * St;
  snapshot_latest : St -> string -> option (Z * string);
  snapshot_wf : St -> Prop
}.

Class SnapshotterLaws {St E : Type} (S : Snapshotter St E) : Prop := {
  put_latest zone serial content keep s id s' :
    snapshot_wf s -> snapshot_put zone serial content keep s = (Ok id, s') ->
    snapshot_wf s' /\ snapshot_latest s' zone = Some (serial, content);
  put_failed zone serial content keep s e s' :
    snapshot_put zone serial content keep s = (Err e, s') -> s' = s
}.

#[export] Instance store_snapshotter {C : Crypto} (fault : nat -> option string) (now : Z) : Snapshotter db store_error := {|
  snapshot_put zone serial content keep s := SnapshotPut fault now zone serial content keep s;
  snapshot_latest s zone :=
    match SnapshotLatest no_fault s zone with Ok (Some sn) => Some (sn_Serial sn, sn_Content sn) | _ => None end;
  snapshot_wf := wf
|}.

#[export] Instance store_snapshotter_laws {C : Crypto} fault now : SnapshotterLaws (store_snapshotter fault now).
Proof.
  constructor; intros; cbn in *.
  - pose proof (wf_SnapshotPut fault now zone serial content keep s H) as Hwf. rewrite H0 in Hwf. split; [done|].
    destruct (SnapshotPut_history fault now zone serial content keep s _ _ H H0) as [Hh _]. cbn in Hh.
    unfold SnapshotLatest, stmt, no_fault. rewrite Hh. clear.
    destruct (Z.ltb_spec 0 keep); [|done]. by replace (Z.to_nat keep) with (S (Z.to_nat keep - 1)) by lia.
  - revert H. unfold SnapshotPut, Store.commit. case_match; [by destruct (_ : Z * db)|]. by intros [= _ <-].
Qed.

(** ** The editor *)

Record Editor := mkEditor {
  e_NamedConf : string; e_DNSServer : string; e_Keys : list Tsig.Key; e_Keep : Z
}.

Record Result := mkResult {
  res_Zone : string; res_Key : string; res_Snapshot : Z; res_Added : list string; res_Removed : list string
}.

Inductive rm_error (SE : Type) :=
| ErrConf (why : string)
| ErrNoZone
| ErrStatic (kind : string)
| ErrNoKey (grants : list string)
| ErrTransfer (why : string)
| ErrNoOps
| ErrNoRecord
| ErrNotServed (name : string)
| ErrMoreSpecific (name owner : string)
| ErrSnapshot (e : SE)
| ErrBackend (e : ddns_error)
| ErrBadSnapshot (line : string)
| ErrEmptySnapshot.
Arguments ErrConf {SE}. Arguments ErrNoZone {SE}. Arguments ErrStatic {SE}. Arguments ErrNoKey {SE}.
Arguments ErrTransfer {SE}. Arguments ErrNoOps {SE}. Arguments ErrNoRecord {SE}. Arguments ErrNotServed {SE}.
Arguments ErrMoreSpecific {SE}. Arguments ErrSnapshot {SE}. Arguments ErrBackend {SE}.
Arguments ErrBadSnapshot {SE}. Arguments ErrEmptySnapshot {SE}.

Definition key_matches (k : Tsig.Key) (granted : string) : bool :=
  equal_fold (trim_suffix "." (Tsig.Name k)) (trim_suffix "." granted).

Definition keyFor (e : Editor) (z : Zone) : option Tsig.Key :=
  find_first (fun k => negb (String.eqb (Secret k) "") && existsb (key_matches k) (z_UpdateKeys z)) (e_Keys e).

Definition CanEdit (e : Editor) (z : option Zone) : bool :=
  match z with
  | Some z => z_Dynamic z && match keyFor e z with Some _ => true | None => false end
  | None => false
  end.

Section editor.
Context {D : Dns} {SE : Type}.

Definition validateZone (e : Editor) (inv : Inventory) (zone : string) : result (rm_error SE) (Zone * Tsig.Key) :=
  match ZoneByName inv zone with
  | None => Err ErrNoZone
  | Some z =>
      if negb (z_Dynamic z) then Err (ErrStatic (Kind z))
      else match keyFor e z with
           | None => Err (ErrNoKey (z_UpdateKeys z))
           | Some key => Ok (z, key)
           end
  end.

(** The longest of the user zones that enclose the name; the empty string
    when there is none. *)
Fixpoint longest_enclosing (cn : string) (zones : list Zone) (best : string) : string :=
  match zones with
  | [] => best
  | z :: zs =>
      let zn := CanonicalName (z_Name z) in
      longest_enclosing cn zs
        (if (String.eqb cn zn || has_suffix ("." +:+ zn) cn) && (String.length best <? String.length zn)%nat
         then zn else best)
  end.

Definition mostSpecificZone (inv : Inventory) (name : string) : string :=
  longest_enclosing (CanonicalName name) (UserZones inv) "".

Fixpoint check_ops (inv : Inventory) (target : string) (ops : list Op) : result (rm_error SE) unit :=
  match ops with
  | [] => Ok tt
  | op :: ops' =>
      match op_rr op with
      | None => Err ErrNoRecord
      | Some rr =>
          let owner := mostSpecificZone inv (rr_name rr) in
          let name := trim_suffix "." (CanonicalName (rr_name rr)) in
          if String.eqb owner "" then Err (ErrNotServed name)
          else if negb (String.eqb owner target) then Err (ErrMoreSpecific name (trim_suffix "." owner))
          else check_ops inv target ops'
      end
  end.

Definition validateOps (inv : Inventory) (zone : string) (ops : list Op) : result (rm_error SE) unit :=
  if (length ops =? 0)%nat then Err ErrNoOps else check_ops inv (CanonicalName zone) ops.

(** ** Previews *)

Definition rrKey (rr : RR) : string :=
  to_lower (trim_suffix "." (rr_name rr)) +:+ " " +:+ TypeToString (rr_type rr) +:+ " " +:+ rdata_text rr.

Definition added_by (op : Op) : list string :=
  match op_action op, op_rr op with
  | AddRR, Some rr => [rr_string rr]
  | _, _ => []
  end.

(** The lines an operation removes from the live records: at most one for an
    exact record. *)
Definition removed_by (live : list RR) (op : Op) : list string :=
  match op_rr op with
  | None => []
  | Some rr =>
      match op_action op with
      | DelRR => match find_first (fun r => String.eqb (rrKey r) (rrKey rr)) live with
                 | Some r => [rr_string r] | None => [] end
      | DelRRset => rr_string <$> List.filter (fun r => equal_fold (rr_name r) (rr_name rr) &&
                                                        (rr_type r =? rr_type rr)) live
      | DelName => rr_string <$> List.filter (fun r => equal_fold (rr_name r) (rr_name rr)) live
      | _ => []
      end
  end.

Definition buildResult (zone keyName : string) (ops : list Op) (live : list RR) : Result :=
  mkResult zone keyName 0 (ops ≫= added_by) (ops ≫= removed_by live).

(** ** Restores *)

(** Records BIND owns: the SOA and the signatures. *)
Definition managed (rr : RR) : bool :=
  existsb (Z.eqb (rr_type rr))
    [TypeSOA; TypeRRSIG; TypeNSEC; TypeNSEC3; TypeNSEC3PARAM; TypeDNSKEY; TypeCDS; TypeCDNSKEY].

Fixpoint parse_lines (lines : list string) : result (rm_error SE) (list RR) :=
  match lines with
  | [] => Ok []
  | l :: ls =>
      let l := trim_space l in
      if String.eqb l "" then parse_lines ls
      else match NewRR l with
           | Err _ => Err (ErrBadSnapshot l)
           | Ok None => parse_lines ls
           | Ok (Some rr) => rrs ← parse_lines ls; Ok (rr :: rrs)
           end
  end.

Definition parseRecords (content : string) : result (rm_error SE) (list RR) := parse_lines (split newline content).

Definition ownedBy (inv : Inventory) (target : string) (rrs : list RR) : list RR :=
  List.filter (fun rr => String.eqb (mostSpecificZone inv (rr_name rr)) target) rrs.

Definition hasRestorable (rrs : list RR) : bool := existsb (fun rr => negb (managed rr)) rrs.

(** The operator's records by key; of two with the same key the last stays. *)
Definition index_set (rrs : list RR) : gmap string RR :=
  foldl (fun m rr => if managed rr then m else <[rrKey rr := rr]> m) ∅ rrs.

Definition op_text (op : Op) : string := match op_rr op with Some rr => rr_string rr | None => "" end.
Definition sortOps (ops : list Op) : list Op := sort_by (fun a b => String.ltb (op_text a) (op_text b)) ops.

(** One operation for each record of [m] whose key [other] lacks. *)
Definition missing (act : Action) (m other : gmap string RR) : list Op :=
  omap (fun kv => match other !! kv.1 with None => Some (mkOp act (Some kv.2)) | Some _ => None end) (map_to_list m).

Definition restoreOps (want live : list RR) : list Op :=
  let wantSet := index_set want in let liveSet := index_set live in
  sortOps (missing DelRR liveSet wantSet) ++ sortOps (missing AddRR wantSet liveSet).

End editor.

(** ** Entry points *)

Section entry.
Context {D : Dns} {SE St W : Type} {S : Snapshotter St SE}.
(** [named-checkconf] on a path, the transfers a server state shows, the
    deadline of a transfer, and the exchange of an update. *)
Context (checkConf : string -> result string string) (view : W -> Net) (late : nat -> bool)
        (exchange : string -> string -> updateMsg -> W -> W * result string Z).

Definition transfer (e : Editor) (zone : string) (w : W)
  : result (rm_error SE) (Inventory * Zone * Tsig.Key * list RR) :=
  let nc := if String.eqb (e_NamedConf e) "" then "/etc/named.conf" else e_NamedConf e in
  match checkConf nc with
  | Err why => Err (ErrConf why)
  | Ok dump =>
      let inv := NamedParse.Parse dump in
      '(z, key) ← validateZone e inv zone;
      let server := if String.eqb (e_DNSServer e) "" then "127.0.0.1:53" else e_DNSServer e in
      match TransferAuto (N := view w) late zone server (AXFRKeys inv (Some z) (Tsig.Name key)) with
      | Err why => Err (ErrTransfer why)
      | Ok (live, _) => Ok (inv, z, key, live)
      end
  end.

Definition prepare (e : Editor) (zone : string) (ops : list Op) (w : W)
  : result (rm_error SE) (Zone * Tsig.Key * list RR) :=
  '(inv, z, key, live) ← transfer e zone w;
  _ ← validateOps inv zone ops;
  Ok (z, key, live).

Definition Preview (e : Editor) (zone : string) (ops : list Op) (w : W) : result (rm_error SE) Result :=
  '(z, key, live) ← prepare e zone ops w;
  Ok (buildResult zone (Tsig.Name key) ops live).

Definition with_snapshot (id : Z) (r : Result) : Result :=
  mkResult (res_Zone r) (res_Key r) id (res_Added r) (res_Removed r).

(** The signed update. *)
Definition send (e : Editor) (key : Tsig.Key) (zone : string) (ops : list Op) (res : Result) (s : St) (w : W)
  : result (rm_error SE) Result * St * W :=
  match NewRFC2136 (e_DNSServer e) (Tsig.Name key) (Algo key) (Secret key) with
  | Err err => (Err (ErrBackend err), s, w)
  | Ok be =>
      match Ddns.Apply exchange be zone ops w with
      | (w', Err err) => (Err (ErrBackend err), s, w')
      | (w', Ok _) => (Ok res, s, w')
      end
  end.

(** [snap]: whether the editor has a snapshot store. *)
Definition Apply (snap : bool) (e : Editor) (zone : string) (ops : list Op) (s : St) (w : W)
  : result (rm_error SE) Result * St * W :=
  match prepare e zone ops w with
  | Err err => (Err err, s, w)
  | Ok (_, key, live) =>
      let res := buildResult zone (Tsig.Name key) ops live in
      if snap then
        let serial := match SOAOf live with Some soa => soa_serial soa | None => 0 end in
        match snapshot_put zone serial (Canonical live) (e_Keep e) s with
        | (Err err, s') => (Err (ErrSnapshot err), s', w)
        | (Ok id, s') => send e key zone ops (with_snapshot id res) s' w
        end
      else send e key zone ops res s w
  end.

Definition RestorePlan (e : Editor) (zone snapContent : string) (w : W)
  : result (rm_error SE) (list Op * Result) :=
  '(inv, _, key, live) ← transfer e zone w;
  want ← parseRecords snapContent;
  let target := CanonicalName zone in
  let want := ownedBy inv target want in
  let live := ownedBy inv target live in
  if negb (hasRestorable want) then Err ErrEmptySnapshot
  else
    let ops := restoreOps want live in
    if (length ops =? 0)%nat then Ok ([], mkResult zone (Tsig.Name key) 0 [] [])
    else
      _ ← validateOps inv zone ops;
      Ok (ops, buildResult zone (Tsig.Name key) ops live).

End entry.

(** ** What an update does to a zone: RFC 2136, section 3.4.2 *)

Section semantics.
Context {D : Dns} (apex : string).

Definition of_set (name : string) (t : Z) (r : RR) : bool := equal_fold (rr_name r) name && (rr_type r =? t).

(** Types that may stand beside a CNAME (RFC 4035, section 2.5). *)
Definition TypeKEY : Z := 25.
Definition beside_cname (t : Z) : bool := existsb (Z.eqb t) [TypeCNAME; TypeRRSIG; TypeNSEC; TypeKEY].

(** Serials compare around the circle (RFC 1982). *)
Definition serial_after (a b : Z) : bool := let d := (a - b) mod 2 ^ 32 in (0 <? d) && (d <? 2 ^ 31).

Definition newer_soa (zone : list RR) (rr : RR) : bool :=
  match as_soa rr, SOAOf (List.filter (of_set (rr_name rr) TypeSOA) zone) with
  | Some new, Some old => serial_after (soa_serial new) (soa_serial old)
  | _, _ => false
  end.

(** The updates a server passes over: a CNAME where there is other data, other
    data where there is a CNAME, an SOA that is not newer; and at the apex the
    deletion of the SOA, of the last NS, and of the SOA or NS set. *)
Definition ignored (zone : list RR) (op : Op) : bool :=
  match op_rr op with
  | None => true
  | Some rr =>
      let at_apex := equal_fold (rr_name rr) apex in
      match op_action op with
      | AddRR =>
          if rr_type rr =? TypeCNAME then
            existsb (fun r => equal_fold (rr_name r) (rr_name rr) && negb (beside_cname (rr_type r))) zone
          else
            negb (beside_cname (rr_type rr)) && existsb (of_set (rr_name rr) TypeCNAME) zone ||
            (rr_type rr =? TypeSOA) && negb (newer_soa zone rr)
      | DelRR => at_apex && ((rr_type rr =? TypeSOA) ||
                   (rr_type rr =? TypeNS) && forallb (fun r => negb (of_set apex TypeNS r) || String.eqb (rrKey r) (rrKey rr)) zone)
      | DelRRset => at_apex && ((rr_type rr =? TypeSOA) || (rr_type rr =? TypeNS))
      | DelName => false
      | OtherAction _ => true
      end
  end.

(** The records an update takes away: one that is added replaces the one with
    its key, ttl included, and for a CNAME or SOA the one there is. *)
Definition goes (op : Op) (r : RR) : bool :=
  match op_rr op with
  | None => false
  | Some rr =>
      match op_action op with
      | DelRR => String.eqb (rrKey r) (rrKey rr)
      | DelRRset => of_set (rr_name rr) (rr_type rr) r
      | DelName => equal_fold (rr_name r) (rr_name rr) &&
          negb (equal_fold (rr_name rr) apex && ((rr_type r =? TypeSOA) || (rr_type r =? TypeNS)))
      | AddRR => String.eqb (rrKey r) (rrKey rr) ||
          ((rr_type rr =? TypeCNAME) || (rr_type rr =? TypeSOA)) && of_set (rr_name rr) (rr_type rr) r
      | OtherAction _ => false
      end
  end.

Definition effect (zone : list RR) (op : Op) : list RR :=
  if ignored zone op then zone
  else List.filter (fun r => negb (goes op r)) zone ++
       match op_action op, op_rr op with AddRR, Some rr => [rr] | _, _ => [] end.

Definition after (zone : list RR) (ops : list Op) : list RR := foldl effect zone ops.

Definition op_key (op : Op) : string := match op_rr op with Some rr => rrKey rr | None => "" end.

Definition is_del (op : Op) : Prop := op_action op = DelRR /\ is_Some (op_rr op).
Definition is_add (op : Op) : Prop := op_action op = AddRR /\ is_Some (op_rr op).

(** Deletions, none of which is passed over as long as the records that are not
    to go are there. *)
Lemma after_dels ops zone r : Forall is_del ops ->
  (forall op zone', op ∈ ops -> (forall x, x ∈ zone -> rrKey x ∉ op_key <$> ops -> x ∈ zone') -> ignored zone' op = false) ->
  r ∈ after zone ops <-> r ∈ zone /\ rrKey r ∉ op_key <$> ops.
Proof.
  intros H. revert zone. induction H as [|op ops [Ha [rr Hr]] H IH]; intros zone Hi.
  { cbn. split; [intros; split; [done|apply not_elem_of_nil]|by intros [? _]]. }
  change (after zone (op :: ops)) with (after (effect zone op) ops). cbn [fmap list_fmap] in *.
  assert (Hop : forall x, x ∈ effect zone op <-> x ∈ zone /\ rrKey x <> op_key op).
  { intros x. unfold effect. rewrite (Hi op zone); [|by left|done]. unfold goes, op_key. rewrite Ha, Hr, app_nil_r.
    by rewrite elem_of_bfilter, negb_true_iff, String.eqb_neq. }
  rewrite IH; [rewrite Hop, not_elem_of_cons; tauto|].
  intros op' zone' Hin Hz. apply Hi; [by right|]. intros x Hx Hn. apply not_elem_of_cons in Hn as [Hn1 Hn2].
  apply Hz; [by apply Hop|done].
Qed.

(** Additions of different records, none of which is passed over or replaces
    more than its own key as long as there is nothing else than these. *)
Lemma after_adds ops zone r : Forall is_add ops -> NoDup (op_key <$> ops) ->
  (forall op zone', op ∈ ops -> (forall x, x ∈ zone' -> x ∈ zone \/ Some x ∈ op_rr <$> ops) ->
     ignored zone' op = false /\ forall x, x ∈ zone' -> goes op x = String.eqb (rrKey x) (op_key op)) ->
  r ∈ after zone ops <-> (r ∈ zone /\ rrKey r ∉ op_key <$> ops) \/ Some r ∈ op_rr <$> ops.
Proof.
  intros H. revert zone. induction H as [|op ops [Ha [rr Hr]] H IH]; intros zone; cbn [fmap list_fmap]; intros Hnd Hi.
  { cbn. split; [intros; left; split; [done|apply not_elem_of_nil]|]. by intros [[? _]|?%elem_of_nil]. }
  apply NoDup_cons in Hnd as [Hn Hnd]. change (after zone (op :: ops)) with (after (effect zone op) ops).
  assert (Hop : forall x, x ∈ effect zone op <-> (x ∈ zone /\ rrKey x <> op_key op) \/ x = rr).
  { intros x. destruct (Hi op zone) as [Hig Hg]; [by left|by left|]. unfold effect. rewrite Hig, Ha, Hr.
    rewrite elem_of_app, list_elem_of_singleton, elem_of_bfilter, negb_true_iff. split.
    - intros [[Hx Hgx]|?]; [left|by right]. rewrite Hg in Hgx by done. by apply String.eqb_neq in Hgx.
    - intros [[Hx Hk]|?]; [left|by right]. rewrite Hg by done. by apply String.eqb_neq in Hk. }
  assert (Hk : op_key op = rrKey rr) by (unfold op_key; by rewrite Hr). rewrite IH; [|done|].
  - rewrite Hop, not_elem_of_cons, elem_of_cons, Hr, Hk in *. split.
    + intros [[[[H1 H2]| ->] H3]|H1]; auto.
    + intros [[H1 [H2 H3]]|[[= ->]|H1]]; auto 10.
  - intros op' zone' Hin Hz. apply Hi; [by right|]. intros x Hx. rewrite elem_of_cons, Hr.
    destruct (Hz x Hx) as [[[? _]| ->]%Hop|?]; auto.
Qed.

(** *** The index of a record set *)

Lemma index_set_snoc rrs x :
  index_set (rrs ++ [x]) = if managed x then index_set rrs else <[rrKey x := x]> (index_set rrs).
Proof. unfold index_set. by rewrite foldl_snoc. Qed.

Lemma index_set_lookup rrs k rr :
  index_set rrs !! k = Some rr -> rr ∈ rrs /\ managed rr = false /\ rrKey rr = k.
Proof.
  induction rrs as [|x rrs IH] using rev_ind; [done|].
  rewrite index_set_snoc, elem_of_app, list_elem_of_singleton. destruct (managed x) eqn:Em; [tauto|].
  destruct (decide (rrKey x = k)) as [<-|Hne].
  - rewrite lookup_insert_eq. intros [= <-]. auto.
  - rewrite lookup_insert_ne by done. tauto.
Qed.

Lemma index_set_is_Some rrs k :
  is_Some (index_set rrs !! k) <-> exists rr, rr ∈ rrs /\ managed rr = false /\ rrKey rr = k.
Proof.
  split; [intros [rr H]; exists rr; by apply index_set_lookup|].
  induction rrs as [|x rrs IH] using rev_ind; [by intros (? & ?%elem_of_nil & _)|].
  rewrite index_set_snoc. intros (rr & Hin & Hm & Hk). apply elem_of_app in Hin as [Hin| ->%list_elem_of_singleton].
  - specialize (IH ltac:(eauto)). destruct (managed x); [done|].
    destruct (decide (rrKey x = k)) as [<-|Hne]; [rewrite lookup_insert_eq; eauto|by rewrite lookup_insert_ne].
  - rewrite Hm, Hk, lookup_insert_eq. eauto.
Qed.

Definition keyed (m : gmap string RR) : Prop := forall k rr, m !! k = Some rr -> rrKey rr = k.

Lemma index_set_keyed rrs : keyed (index_set rrs).
Proof. intros k rr H. by apply index_set_lookup in H as (_ & _ & ?). Qed.

Lemma elem_of_missing act m other op :
  op ∈ missing act m other <-> exists k rr, m !! k = Some rr /\ other !! k = None /\ op = mkOp act (Some rr).
Proof.
  unfold missing. rewrite list_elem_of_omap. split.
  - intros ([k rr] & Hin & Ho). apply elem_of_map_to_list in Hin. cbn in Ho.
    destruct (other !! k) eqn:E; [done|]. injection Ho as <-. eauto 10.
  - intros (k & rr & Hk & Ho & ->). exists (k, rr). rewrite elem_of_map_to_list. cbn. by rewrite Ho.
Qed.

Lemma missing_nodup act m other : keyed m -> NoDup (op_key <$> missing act m other).
Proof.
  intros Hm. unfold missing.
  assert (H : forall l, NoDup l.*1 -> (forall kv, kv ∈ l -> rrKey kv.2 = kv.1) ->
    let ops := omap (fun kv => match other !! kv.1 with None => Some (mkOp act (Some kv.2)) | Some _ => None end) l in
    NoDup (op_key <$> ops) /\ forall k, k ∈ op_key <$> ops -> k ∈ l.*1).
  { induction l as [|[k rr] l IH]; cbn; [split; [constructor|done]|]. intros Hnd Hkey. apply NoDup_cons in Hnd as [Hn Hnd].
    destruct IH as [IH1 IH2]; [done|intros; apply Hkey; by right|].
    destruct (other !! k); cbn; [split; [done|intros; right; by apply IH2]|].
    assert (Hk : rrKey rr = k) by (apply (Hkey (k, rr)); by left). change (op_key (mkOp act (Some rr))) with (rrKey rr). rewrite Hk.
    split; [constructor; [intros Hin; by apply Hn, IH2|done]|].
    intros k'. rewrite !elem_of_cons. intros [->|?]; auto. }
  apply H; [apply NoDup_fst_map_to_list|]. intros [k rr] Hin%elem_of_map_to_list. by apply Hm.
Qed.

End semantics.

(** ** Restores *)

Section restore.
Context {D : Dns}.

Lemma restoreOps_split want live :
  exists dels adds, restoreOps want live = dels ++ adds /\
    Forall is_del dels /\ Forall is_add adds /\ NoDup (op_key <$> adds) /\
    (forall op, op ∈ dels <-> op ∈ missing DelRR (index_set live) (index_set want)) /\
    (forall op, op ∈ adds <-> op ∈ missing AddRR (index_set want) (index_set live)).
Proof.
  eexists _, _. split; [reflexivity|]. unfold sortOps.
  assert (H : forall act m other, Forall (fun op => op_action op = act /\ is_Some (op_rr op))
            (sort_by (fun a b => String.ltb (op_text a) (op_text b)) (missing act m other))).
  { intros act m other. apply Forall_forall. intros op. rewrite elem_of_sort_by, elem_of_missing.
    intros (k & rr & _ & _ & ->). cbn. eauto. }
  split_and!; [apply H|apply H| |intros; by rewrite elem_of_sort_by..].
  rewrite sort_by_perm. apply missing_nodup, index_set_keyed.
Qed.

Lemma key_of_missing act rrs others k :
  k ∈ op_key <$> missing act (index_set rrs) (index_set others) <->
  is_Some (index_set rrs !! k) /\ index_set others !! k = None.
Proof.
  rewrite list_elem_of_fmap. split.
  - intros (op & -> & (k' & rr & Hk & Ho & ->)%elem_of_missing). unfold op_key. cbn.
    destruct (index_set_lookup _ _ _ Hk) as (_ & _ & ->). eauto.
  - intros [[rr Hk] Ho]. exists (mkOp act (Some rr)). split; [|apply elem_of_missing; eauto].
    unfold op_key. cbn. symmetry. eapply index_set_lookup, Hk.
Qed.

Definition holds (zone : list RR) (k : string) : Prop := exists r, r ∈ zone /\ managed r = false /\ rrKey r = k.

Lemma holds_index zone k : holds zone k <-> is_Some (index_set zone !! k).
Proof. symmetry. apply index_set_is_Some. Qed.

(** What a restore needs of the zone and the snapshot, so that no update of the
    plan is passed over. *)
Record restorable (apex : string) (want live : list RR) : Prop := {
  (** A key is of one name and type. *)
  res_keys r1 r2 : r1 ∈ want ++ live -> r2 ∈ want ++ live -> rrKey r1 = rrKey r2 ->
    rr_type r1 = rr_type r2 /\ equal_fold (rr_name r1) (rr_name r2) = true;
  (** The zone keeps a name server it has. *)
  res_ns r : r ∈ live -> of_set apex TypeNS r = true ->
    exists r', r' ∈ live /\ of_set apex TypeNS r' = true /\ holds want (rrKey r');
  (** A CNAME of the snapshot is alone at its name, in the snapshot and beside
      what BIND owns. *)
  res_cname c r : c ∈ want -> rr_type c = TypeCNAME -> r ∈ want \/ r ∈ live /\ managed r = true ->
    equal_fold (rr_name r) (rr_name c) = true -> beside_cname (rr_type r) = true /\ (rr_type r = TypeCNAME -> rrKey r = rrKey c)
}.

Section reaching.
Context (apex : string) (want live : list RR) (Hres : restorable apex want live).

#[local] Abbreviation after := (after apex).

Lemma managed_type r1 r2 : rr_type r1 = rr_type r2 -> managed r1 = managed r2.
Proof. unfold managed. by intros ->. Qed.

Lemma managed_key r1 r2 : r1 ∈ want ++ live -> r2 ∈ want ++ live -> rrKey r1 = rrKey r2 -> managed r1 = managed r2.
Proof. intros H1 H2 Hk. apply managed_type. by apply (res_keys _ _ _ Hres). Qed.

(** Every record that is left by the deletions looks like one of the snapshot
    or is one BIND owns. *)
Definition like (r r0 : RR) : Prop :=
  (r0 ∈ want \/ r0 ∈ live /\ managed r0 = true) /\ rrKey r0 = rrKey r /\ rr_type r0 = rr_type r /\ equal_fold (rr_name r0) (rr_name r) = true.

Lemma survivor_like r : r ∈ live -> ~ (is_Some (index_set live !! rrKey r) /\ index_set want !! rrKey r = None) -> exists r0, like r r0.
Proof.
  intros Hr Hn. destruct (managed r) eqn:Em; [exists r; split_and!; [by right|done|done|apply equal_fold_refl]|].
  destruct (index_set want !! rrKey r) as [r0|] eqn:Ew.
  - destruct (index_set_lookup _ _ _ Ew) as (Hin & _ & Hk). exists r0. split; [by left|]. split; [done|].
    apply (res_keys _ _ _ Hres); [apply elem_of_app; by left|apply elem_of_app; by right|done].
  - destruct Hn. split; [|done]. apply index_set_is_Some. eauto.
Qed.

Lemma like_self r : r ∈ want -> like r r.
Proof. intros H. split_and!; [by left|done|done|apply equal_fold_refl]. Qed.

(** An addition of the plan is not passed over where everything is like that,
    and replaces nothing but its key. *)
Lemma add_takes rr zone : rr ∈ want -> managed rr = false -> (forall x, x ∈ zone -> exists r0, like x r0) ->
  ignored apex zone (mkOp AddRR (Some rr)) = false /\
  forall x, x ∈ zone -> goes apex (mkOp AddRR (Some rr)) x = String.eqb (rrKey x) (rrKey rr).
Proof.
  intros Hw Hm Hz. assert (Hsoa : rr_type rr =? TypeSOA = false).
  { destruct (Z.eqb_spec (rr_type rr) TypeSOA) as [E|]; [|done]. unfold managed in Hm. by rewrite E in Hm. }
  unfold ignored, goes. cbn [op_rr op_action]. rewrite Hsoa, orb_false_r. destruct (Z.eqb_spec (rr_type rr) TypeCNAME) as [Hc|Hc].
  - assert (Hall : forall x, x ∈ zone -> equal_fold (rr_name x) (rr_name rr) = true ->
              beside_cname (rr_type x) = true /\ (rr_type x = TypeCNAME -> rrKey x = rrKey rr)).
    { intros x Hx Hn. destruct (Hz x Hx) as (r0 & Hr0 & Hk & Ht & Hf). rewrite <- Ht, <- Hk.
      apply (res_cname _ _ _ Hres rr r0); [done..|]. apply equal_fold_eq in Hn, Hf. apply equal_fold_eq. congruence. }
    split.
    + apply existsb_false. intros x Hx. destruct (equal_fold _ _) eqn:En; [|done]. by destruct (Hall x Hx En) as [-> _].
    + intros x Hx. cbn [orb]. destruct (String.eqb_spec (rrKey x) (rrKey rr)) as [|Hk]; [done|]. cbn [orb]. unfold of_set.
      destruct (equal_fold _ _) eqn:En; [|done]. destruct (Z.eqb_spec (rr_type x) (rr_type rr)) as [E|]; [|done].
      destruct (Hall x Hx En) as [_ H]. destruct Hk. apply H. congruence.
  - split; [|intros x _; cbn [orb andb]; by rewrite orb_false_r]. apply andb_false_iff.
    destruct (beside_cname (rr_type rr)) eqn:Eb; [by left|right]. apply existsb_false. intros x Hx. unfold of_set.
    destruct (equal_fold _ _) eqn:En; [|done]. destruct (Z.eqb_spec (rr_type x) TypeCNAME) as [E|]; [|done]. exfalso.
    destruct (Hz x Hx) as (r0 & Hr0 & Hk & Ht & Hf). assert (Hr0w : r0 ∈ want).
    { destruct Hr0 as [|[_ H]]; [done|]. unfold managed in H. by rewrite Ht, E in H. }
    destruct (res_cname _ _ _ Hres r0 rr) as [H _]; [done|congruence|by left| |congruence].
    apply equal_fold_eq in En, Hf. apply equal_fold_eq. congruence.
Qed.

(** A deletion of the plan is not passed over while the records to be kept are
    there. *)
Lemma del_takes rr zone : index_set live !! rrKey rr = Some rr -> index_set want !! rrKey rr = None ->
  (forall x, x ∈ live -> ~ (is_Some (index_set live !! rrKey x) /\ index_set want !! rrKey x = None) -> x ∈ zone) ->
  ignored apex zone (mkOp DelRR (Some rr)) = false.
Proof.
  intros Hl Hw Hz. destruct (index_set_lookup _ _ _ Hl) as (Hin & Hm & _). unfold ignored. cbn [op_rr op_action].
  destruct (equal_fold (rr_name rr) apex) eqn:Ea; [|done]. cbn [andb].
  destruct (Z.eqb_spec (rr_type rr) TypeSOA) as [E|]; [unfold managed in Hm; by rewrite E in Hm|]. cbn [orb].
  destruct (Z.eqb_spec (rr_type rr) TypeNS) as [E|]; [|done]. cbn [andb].
  destruct (res_ns _ _ _ Hres rr) as (r' & Hr' & Hns & Hk); [done|unfold of_set; by rewrite Ea, E|].
  apply holds_index in Hk. apply (forallb_false _ _ r').
  - apply Hz; [done|]. intros [_ Hn]. rewrite Hn in Hk. by destruct Hk.
  - rewrite Hns. cbn [negb orb]. apply String.eqb_neq. intros E'. rewrite E', Hw in Hk. by destruct Hk.
Qed.

(** Membership in the restored zone. *)
Lemma elem_of_restored r :
  r ∈ after live (restoreOps want live) <->
  (r ∈ live /\ ~ (is_Some (index_set live !! rrKey r) /\ index_set want !! rrKey r = None) /\
     ~ (is_Some (index_set want !! rrKey r) /\ index_set live !! rrKey r = None)) \/
  (index_set want !! rrKey r = Some r /\ index_set live !! rrKey r = None).
Proof.
  destruct (restoreOps_split want live) as (dels & adds & -> & Hd & Ha & Hnd & Hdels & Hadds).
  assert (HK : forall (ops ops' : list Op) k, (forall op, op ∈ ops <-> op ∈ ops') -> k ∈ op_key <$> ops <-> k ∈ op_key <$> ops').
  { intros ops ops' k H. rewrite !list_elem_of_fmap. by setoid_rewrite H. }
  assert (HS : forall x, Some x ∈ op_rr <$> adds <-> index_set want !! rrKey x = Some x /\ index_set live !! rrKey x = None).
  { intros x. rewrite list_elem_of_fmap. setoid_rewrite Hadds. split.
    - intros (op & Hr & (k & rr & Hk & Ho & ->)%elem_of_missing). cbn in Hr. injection Hr as ->.
      by destruct (index_set_lookup _ _ _ Hk) as (_ & _ & ->).
    - intros [Hk Ho]. exists (mkOp AddRR (Some x)). split; [done|]. apply elem_of_missing. eauto. }
  assert (Hdel : forall x, x ∈ after live dels <-> x ∈ live /\ ~ (is_Some (index_set live !! rrKey x) /\ index_set want !! rrKey x = None)).
  { intros x. rewrite after_dels; [by rewrite (HK _ _ _ Hdels), key_of_missing|done|].
    intros op zone' Hop Hz. apply Hdels, elem_of_missing in Hop as (k & rr & Hk & Ho & ->).
    pose proof (index_set_lookup _ _ _ Hk) as (_ & _ & <-). apply del_takes; [done..|].
    intros y Hy Hn. apply Hz; [done|]. by rewrite (HK _ _ _ Hdels), key_of_missing. }
  unfold RecordMut.after. rewrite foldl_app. fold (after live dels). fold (after (after live dels) adds).
  rewrite after_adds; [|done|done|].
  - rewrite Hdel, (HK _ _ _ Hadds), key_of_missing, HS. tauto.
  - intros op zone' Hop Hz. apply Hadds, elem_of_missing in Hop as (k & rr & Hk & Ho & ->).
    destruct (index_set_lookup _ _ _ Hk) as (Hin & Hm & _). apply add_takes; [done..|].
    intros x Hx. destruct (Hz x Hx) as [[Hxl Hxn]%Hdel|[Hxw _]%HS]; [by apply survivor_like|].
    apply index_set_lookup in Hxw as (? & _). exists x. by apply like_self.
Qed.

Lemma restored_holds k : holds (after live (restoreOps want live)) k <-> holds want k.
Proof.
  split.
  - intros (r & Hr & Hm & <-). apply holds_index. apply elem_of_restored in Hr as [(Hl & Hd & _)|[Hw _]]; [|by rewrite Hw].
    destruct (index_set want !! rrKey r) eqn:E; [by eauto|]. exfalso. apply Hd. split; [|done].
    apply index_set_is_Some. eauto.
  - intros Hw%holds_index. destruct (index_set live !! k) as [l|] eqn:El.
    + destruct (index_set_lookup _ _ _ El) as (Hl & Hm & <-). exists l. split; [|done].
      apply elem_of_restored. left. split_and!; [done| |]; intros [? Hn]; [by rewrite Hn in Hw; destruct Hw|congruence].
    + destruct Hw as [r Hw]. destruct (index_set_lookup _ _ _ Hw) as (_ & Hm & <-). exists r. split; [|done].
      apply elem_of_restored. by right.
Qed.

End reaching.

(** C15: carrying out the plan brings the zone to the snapshot. Afterwards the
    operator's records are, by name, type and data, exactly those of the
    snapshot; the records BIND owns are the ones that were there; every
    record was there or comes from the snapshot; and the plan is empty
    exactly when the zone already agreed with the snapshot. That is so by
    RFC 2136, section 3.4.2, updates that section passes over included, for
    the records of a zone and a snapshot of which three things hold
    ([restorable]): records with the same key (name, type and data as text)
    are of the same name and type; if the zone has name servers at its apex,
    the snapshot has one of them, since the plan deletes first and the last NS
    of the apex is never deleted ([disjoint_ns_stays] is what happens
    otherwise); and a CNAME of the snapshot is alone at its name. *)
Theorem restore_reaches_snapshot apex want live : restorable apex want live ->
  let zone := after apex live (restoreOps want live) in
  (forall k, holds zone k <-> holds want k) /\
  (forall r, managed r = true -> r ∈ zone <-> r ∈ live) /\
  (forall r, r ∈ zone -> r ∈ live \/ r ∈ want) /\
  (restoreOps want live = [] <-> forall k, holds live k <-> holds want k).
Proof.
  intros Hres zone. split_and!.
  - intros k. by apply restored_holds.
  - intros r Hm. unfold zone. rewrite elem_of_restored by done. split.
    + intros [[? _]|[Hw _]]; [done|]. apply index_set_lookup in Hw as (_ & ? & _). congruence.
    + intros Hr. left. split; [done|].
      split; intros [(r' & Hr' & Hm' & Hk)%index_set_is_Some _];
        assert (managed r' = managed r) by (apply (managed_key apex want live Hres); [apply elem_of_app; tauto..|done]); congruence.
  - intros r Hr. apply elem_of_restored in Hr as [[? _]|[Hw _]]; [by left|right|done].
    by apply index_set_lookup in Hw as (? & _).
  - split.
    + intros Hnil k. rewrite <- (restored_holds apex want live Hres k), Hnil. done.
    + intros Hsame. destruct (restoreOps_split want live) as (dels & adds & -> & _ & _ & _ & Hdels & Hadds).
      assert (dels = [] /\ adds = []) as [-> ->]; [|done].
      split; apply elem_of_nil_inv; intros op; rewrite ?Hdels, ?Hadds;
        intros (k & rr & Hk & Ho & _)%elem_of_missing.
      * assert (Hx : is_Some (index_set want !! k)) by (apply holds_index, Hsame, holds_index; eauto).
        rewrite Ho in Hx. by destruct Hx.
      * assert (Hx : is_Some (index_set live !! k)) by (apply holds_index, Hsame, holds_index; eauto).
        rewrite Ho in Hx. by destruct Hx.
Qed.

End restore.

(** ** The plan, and the change *)

Section guarded.
Context {D : Dns} {L : DnsLaws D} {SE St W : Type} {S : Snapshotter St SE} {SL : SnapshotterLaws S}.
Context (checkConf : string -> result string string) (view : W -> Net) (late : nat -> bool).

Lemma canonical_nonempty s : CanonicalName s <> "".
Proof.
  rewrite canonical_is_lower_fqdn. pose proof (fqdn_of_fqdn s) as H. by destruct (Fqdn s).
Qed.

Lemma check_ops_owned inv target ops :
  target <> "" ->
  Forall (fun op => exists rr, op_rr op = Some rr /\ mostSpecificZone inv (rr_name rr) = target) ops ->
  check_ops (SE := SE) inv target ops = Ok tt.
Proof.
  intros Ht. induction 1 as [|op ops (rr & Hr & Ho) _ IH]; cbn; [done|]. rewrite Hr, Ho.
  apply String.eqb_neq in Ht. by rewrite Ht, String.eqb_refl.
Qed.

Lemma restore_ops_from want live op : op ∈ restoreOps want live ->
  exists rr, op_rr op = Some rr /\ rr ∈ want ++ live /\ managed rr = false.
Proof.
  destruct (restoreOps_split want live) as (dels & adds & -> & _ & _ & _ & Hdels & Hadds).
  rewrite elem_of_app, Hdels, Hadds, !elem_of_missing. setoid_rewrite elem_of_app.
  intros [(k & rr & Hk & _ & ->)|(k & rr & Hk & _ & ->)]; apply index_set_lookup in Hk as (? & ? & _); exists rr; eauto.
Qed.

Lemma elem_of_owned inv target rrs r : r ∈ ownedBy inv target rrs <-> r ∈ rrs /\ mostSpecificZone inv (rr_name r) = target.
Proof. unfold ownedBy. by rewrite elem_of_bfilter, String.eqb_eq. Qed.

Lemma hasRestorable_spec rrs : hasRestorable rrs = true <-> exists k, holds rrs k.
Proof.
  unfold hasRestorable, holds. rewrite existsb_elem. setoid_rewrite negb_true_iff. split; [|naive_solver].
  intros (r & ? & ?). eauto 10.
Qed.

(** Once the zone is transferred and the snapshot read, a restore plan is
    refused only when the snapshot holds no operator record of this zone.
    Otherwise it is the difference between the zone's own records of both:
    every operation is on such a record, which no other zone served here
    encloses more closely, and none is on a record BIND owns. *)
Theorem restore_plan_spec e zone snap w inv z key live want :
  transfer (SE := SE) checkConf view late e zone w = Ok (inv, z, key, live) -> parseRecords (SE := SE) snap = Ok want ->
  let owned := ownedBy inv (CanonicalName zone) in
  match RestorePlan (SE := SE) checkConf view late e zone snap w with
  | Err err => err = ErrEmptySnapshot /\ forall r, r ∈ owned want -> managed r = true
  | Ok (ops, res) =>
      ops = restoreOps (owned want) (owned live) /\
      (forall op, op ∈ ops -> exists rr, op_rr op = Some rr /\ rr ∈ want ++ live /\
         mostSpecificZone inv (rr_name rr) = CanonicalName zone /\ managed rr = false)
  end.
Proof.
  intros Ht Hp owned. unfold RestorePlan. rewrite Ht. cbn -[ownedBy parseRecords hasRestorable restoreOps].
  rewrite Hp. cbn -[ownedBy hasRestorable restoreOps]. fold owned.
  assert (Hops : forall op, op ∈ restoreOps (owned want) (owned live) -> exists rr, op_rr op = Some rr /\ rr ∈ want ++ live /\
         mostSpecificZone inv (rr_name rr) = CanonicalName zone /\ managed rr = false).
  { intros op (rr & Hr & Hin & Hm)%restore_ops_from. exists rr. rewrite elem_of_app in *.
    unfold owned in Hin. rewrite !elem_of_owned in Hin. tauto. }
  destruct (hasRestorable (owned want)) eqn:Er; cbn [negb].
  2: { split; [done|]. intros r Hr. destruct (managed r) eqn:Em; [done|]. exfalso.
       assert (hasRestorable (owned want) = true); [|congruence]. apply hasRestorable_spec. exists (rrKey r), r. done. }
  destruct (length _ =? 0)%nat eqn:El.
  - apply Nat.eqb_eq, nil_length_inv in El. rewrite El in *. done.
  - unfold validateOps. rewrite El, check_ops_owned; [done|apply canonical_nonempty|].
    apply Forall_forall. intros op Hop. destruct (Hops op Hop) as (rr & ? & _ & ? & _). eauto.
Qed.

Lemma validateZone_ok e inv zone z key : validateZone (SE := SE) e inv zone = Ok (z, key) ->
  ZoneByName inv zone = Some z /\ z_Dynamic z = true /\ key ∈ e_Keys e /\ Secret key <> "" /\
  existsb (key_matches key) (z_UpdateKeys z) = true.
Proof.
  unfold validateZone. destruct (ZoneByName inv zone) as [z'|]; [|done].
  destruct (z_Dynamic z') eqn:Ed; [|done]. cbn. destruct (keyFor e z') as [k|] eqn:Ek; [|done].
  intros [= <- <-]. apply find_first_Some in Ek as [Hk Hp]. bsplit. done.
Qed.

Lemma transfer_ok e zone w inv z key live :
  transfer (SE := SE) checkConf view late e zone w = Ok (inv, z, key, live) -> validateZone (SE := SE) e inv zone = Ok (z, key).
Proof.
  unfold transfer. destruct (checkConf _) as [dump|]; [|done]. destruct (validateZone _ _ _) as [[z' key']|] eqn:E; [|done].
  cbn. destruct (TransferAuto _ _ _ _) as [[l how]|]; [|done]. by intros [= <- <- <- <-].
Qed.

Lemma check_ops_ok inv target ops :
  check_ops (SE := SE) inv target ops = Ok tt ->
  forall op, op ∈ ops -> exists rr, op_rr op = Some rr /\ mostSpecificZone inv (rr_name rr) = target.
Proof.
  induction ops as [|op ops IH]; cbn; [by intros _ ? ?%elem_of_nil|].
  destruct (op_rr op) as [rr|] eqn:Er; [|done]. destruct (String.eqb _ ""); [done|].
  destruct (String.eqb_spec (mostSpecificZone inv (rr_name rr)) target); [|done]. cbn.
  intros H op' [-> |Hin]%elem_of_cons; [eauto|by apply IH].
Qed.

Context (exchange : string -> string -> updateMsg -> W -> W * result string Z).

(** The one message of an update. *)
Lemma send_sends e key zone ops res (s : St) w r s' w' :
  send (SE := SE) exchange e key zone ops res s w = (r, s', w') ->
  s' = s /\ (w' = w \/ exists us algo, build_updates 0 ops = Ok us /\
    w' = (exchange (e_DNSServer e) (Secret key) (mkUpdate (Fqdn zone) us (Fqdn (Tsig.Name key)) algo 300) w).1).
Proof.
  unfold send, NewRFC2136. destruct (String.eqb (Secret key) ""); [intros [= _ <- <-]; auto|].
  destruct (AlgoToDNS (Algo key)) as [a|]; [|intros [= _ <- <-]; auto]. cbn.
  unfold Ddns.Apply. destruct (build_updates 0 ops) as [us|]; [|intros [= _ <- <-]; auto]. cbn.
  destruct (exchange _ _ _ w) as [w1 resp] eqn:Ex. intros H.
  assert (s' = s /\ w' = w1) as [-> ->] by (destruct resp as [rc|]; [destruct (rc =? RcodeSuccess)|]; by simplify_eq).
  split; [done|]. right. exists us, a. by rewrite Ex.
Qed.

(** One update of the zone, after a snapshot of it: [w'] is what [w] became
    by it. *)
Definition guarded_update (e : Editor) (zone : string) (ops : list Op) (s' : St) (w w' : W) : Prop :=
  exists inv z key live us algo,
    transfer (SE := SE) checkConf view late e zone w = Ok (inv, z, key, live) /\
    ZoneByName inv zone = Some z /\ z_Dynamic z = true /\
    key ∈ e_Keys e /\ Secret key <> "" /\ existsb (key_matches key) (z_UpdateKeys z) = true /\
    (forall op, op ∈ ops -> exists rr, op_rr op = Some rr /\ mostSpecificZone inv (rr_name rr) = CanonicalName zone) /\
    snapshot_latest s' zone = Some (match SOAOf live with Some soa => soa_serial soa | None => 0 end, Canonical live) /\
    build_updates 0 ops = Ok us /\
    w' = (exchange (e_DNSServer e) (Secret key) (mkUpdate (Fqdn zone) us (Fqdn (Tsig.Name key)) algo 300) w).1.

Lemma apply_cases e zone ops s w r s' w' :
  snapshot_wf s -> Apply checkConf view late exchange true e zone ops s w = (r, s', w') ->
  w' = w \/ guarded_update e zone ops s' w w'.
Proof.
  intros Hwf H. unfold Apply, prepare in H.
  destruct (transfer checkConf view late e zone w) as [[[[inv z] key] live]|] eqn:Et; [|injection H as _ _ <-; by left].
  cbn -[Canonical buildResult validateOps] in H.
  destruct (validateOps inv zone ops) as [[]|] eqn:Ev; [|injection H as _ _ <-; by left].
  cbn -[Canonical buildResult] in H. destruct (snapshot_put _ _ _ _ s) as [[id|] s1] eqn:Es; [|injection H as _ _ <-; by left].
  destruct (put_latest _ _ _ _ _ _ _ Hwf Es) as [_ Hl].
  apply send_sends in H as [-> [->|(us & algo & Hus & ->)]]; [by left|]. right.
  destruct (validateZone_ok _ _ _ _ _ (transfer_ok _ _ _ _ _ _ _ Et)) as (Hz & Hd & Hk & Hs & Hg).
  exists inv, z, key, live, us, algo. split_and!; try done.
  unfold validateOps in Ev. destruct (length ops =? 0)%nat; [done|]. by apply check_ops_ok.
Qed.

(** C11: a change reaches the name server only for a zone it serves, that is
    dynamic and grants one of the held keys, only with operations on records
    of that very zone, and only after the zone as just transferred has become
    the zone's latest snapshot; it is then one update of the zone, signed with
    that key. *)
Theorem apply_guarded e zone ops s w r s' w' :
  snapshot_wf s -> Apply checkConf view late exchange true e zone ops s w = (r, s', w') ->
  w' = w \/ guarded_update e zone ops s' w w'.
Proof. apply apply_cases. Qed.

End guarded.

(** ** Witnesses *)

Module RecordMutExample.

#[local] Existing Instance Sample.dns.
#[local] Instance plain : Crypto := {| sha256 s := s; hmac_sha256 k m := k +:+ m |}.

Definition soa : Sample.srr := Sample.mkRR "myip.gr." 300 TypeSOA "ns.myip.gr. root.myip.gr. 7 1 2 3 4".
Definition ns : Sample.srr := Sample.mkRR "myip.gr." 300 TypeNS "ns.myip.gr.".
Definition home : Sample.srr := Sample.mkRR "home.myip.gr." 60 TypeA "192.0.2.1".
Definition tv : Sample.srr := Sample.mkRR "tv.myip.gr." 60 TypeA "192.0.2.7".

(** The server holds the records of one zone, and is asked only for it. *)
Definition view (w : list Sample.srr) : Net (H := Sample.dns) :=
  {| xfr_in _ _ _ := Ok [Ok (w : list RR); Ok [soa : RR]]; query _ _ _ _ _ := None |}.
Definition in_time (i : nat) : bool := false.
Definition exchange (server secret : string) (m : updateMsg) (w : list Sample.srr) : list Sample.srr * result string Z :=
  (foldl (fun z u => match u with Insert r => z ++ [r : Sample.srr] | _ => z end) w (m_updates m), Ok 0).

Definition checkConf (path : string) : result string string := Ok NamedParseExample.dump.
Definition e : Editor := mkEditor "" "127.0.0.1:53" [Tsig.mkKey "DDNS-Update" "" "c2VjcmV0"] 10.
Definition w0 : list Sample.srr := [soa; ns; home].
Definition ops : list (Op (H := Sample.dns)) := [mkOp AddRR (Some (tv : RR))].

Definition call := Apply (S := store_snapshotter no_fault 100) checkConf view in_time exchange true e "myip.gr" ops empty_db w0.

Example call_value : (is_ok call.1.1, length (snapshots call.1.2), call.2) = (true, 1%nat, [soa; ns; home; tv]).
Proof. by vm_compute. Qed.

Lemma apply_guarded_witness :
  call.2 = w0 \/
  exists inv z key live us algo,
    transfer (SE := store_error) checkConf view in_time e "myip.gr" w0 = Ok (inv, z, key, live) /\
    ZoneByName inv "myip.gr" = Some z /\ z_Dynamic z = true /\
    key ∈ e_Keys e /\ Secret key <> "" /\ existsb (key_matches key) (z_UpdateKeys z) = true /\
    (forall op, op ∈ ops -> exists rr, op_rr op = Some rr /\ mostSpecificZone inv (rr_name rr) = CanonicalName "myip.gr") /\
    snapshot_latest (Snapshotter := store_snapshotter no_fault 100) call.1.2 "myip.gr" =
      Some (match SOAOf live with Some soa => soa_serial soa | None => 0 end, Canonical live) /\
    build_updates 0 ops = Ok us /\
    call.2 = (exchange (e_DNSServer e) (Secret key) (mkUpdate (Fqdn "myip.gr") us (Fqdn (Tsig.Name key)) algo 300) w0).1.
Proof.
  assert (H : Apply (S := store_snapshotter no_fault 100) checkConf view in_time exchange true e "myip.gr" ops empty_db w0 =
    (call.1.1, call.1.2, call.2)) by (unfold call; by destruct (Apply _ _ _ _ _ _ _ _ _ _) as [[? ?] ?]).
  exact (apply_guarded (S := store_snapshotter no_fault 100) checkConf view in_time exchange e "myip.gr" ops empty_db w0 _ _ _ wf_empty H).
Defined.

Definition nothing : Inventory * Zone * Tsig.Key * list Sample.srr :=
  (mkInv "" [] [], mkZone "" "" "" "" "" false [] "", Tsig.mkKey "" "" "", []).
Definition found : Inventory * Zone * Tsig.Key * list Sample.srr :=
  from_ok nothing (transfer (SE := store_error) checkConf view in_time e "myip.gr" w0).
Definition snap : string := Sample.print soa +:+ nl +:+ Sample.print ns +:+ nl +:+ Sample.print tv +:+ nl.
Definition want : list Sample.srr := from_ok [] (parseRecords (SE := store_error) snap).

Lemma quadruple {A B C' E} (p : A * B * C' * E) : p = (p.1.1.1, p.1.1.2, p.1.2, p.2).
Proof. by destruct p as [[[? ?] ?] ?]. Qed.

Lemma restore_plan_spec_witness :
  let owned := ownedBy found.1.1.1 (CanonicalName "myip.gr") in
  match RestorePlan (SE := store_error) checkConf view in_time e "myip.gr" snap w0 with
  | Err err => err = ErrEmptySnapshot /\ forall r, r ∈ owned want -> managed r = true
  | Ok (ops, res) =>
      ops = restoreOps (owned want) (owned found.2) /\
      (forall op, op ∈ ops -> exists rr, op_rr op = Some rr /\ rr ∈ want ++ found.2 /\
         mostSpecificZone found.1.1.1 (rr_name rr) = CanonicalName "myip.gr" /\ managed rr = false)
  end.
Proof.
  assert (H1 : transfer (SE := store_error) checkConf view in_time e "myip.gr" w0 =
    Ok (found.1.1.1, found.1.1.2, found.1.2, found.2))
    by (rewrite <- (quadruple found); apply from_ok_ok; vm_compute; reflexivity).
  assert (H2 : parseRecords (SE := store_error) snap = Ok want) by (apply from_ok_ok; vm_compute; reflexivity).
  exact (restore_plan_spec (L := Sample.laws) checkConf view in_time e "myip.gr" snap w0 _ _ _ _ _ H1 H2).
Defined.

Lemma restore_reaches_snapshot_witness :
  let zone := after "myip.gr." [soa; ns; home] (restoreOps [soa; ns; tv] [soa; ns; home]) in
  (forall k, holds zone k <-> holds [soa; ns; tv] k) /\
  (forall r, managed r = true -> r ∈ zone <-> r ∈ [soa; ns; home]) /\
  (forall r, r ∈ zone -> r ∈ [soa; ns; home] \/ r ∈ [soa; ns; tv]) /\
  (restoreOps [soa; ns; tv] [soa; ns; home] = [] <-> forall k, holds [soa; ns; home] k <-> holds [soa; ns; tv] k).
Proof.
  assert (H : restorable "myip.gr." [soa; ns; tv] [soa; ns; home]).
  { split.
    - intros r1 r2 H1 H2. cbn [app] in *. repeat (apply elem_of_cons in H1 as [->|H1]); [..|by apply elem_of_nil in H1];
        repeat (apply elem_of_cons in H2 as [->|H2]); try (by apply elem_of_nil in H2); by vm_compute.
    - intros r Hr Hn. exists ns. split_and!; [right; left|by vm_compute|exists ns; split_and!; [right; left|by vm_compute|done]].
    - intros c r Hc Ht. repeat (apply elem_of_cons in Hc as [->|Hc]); [by vm_compute in Ht..|by apply elem_of_nil in Hc]. }
  exact (restore_reaches_snapshot "myip.gr." [soa; ns; tv] [soa; ns; home] H).
Defined.

Example restored : after "myip.gr." [soa; ns; home] (restoreOps [soa; ns; tv] [soa; ns; home]) = [soa; ns; tv].
Proof. by vm_compute. Qed.

(** A snapshot with another name server: the plan deletes the one there is,
    which is passed over, before it adds the other; both stay, and what was
    planned and shown is not what is there. *)
Definition ns2 : Sample.srr := Sample.mkRR "myip.gr." 300 TypeNS "ns2.myip.gr.".

Lemma disjoint_ns_stays : let plan := restoreOps [soa; ns2] [soa; ns] in
  (fun op => (op_action op, op_rr op)) <$> plan = [(DelRR, Some (ns : RR)); (AddRR, Some (ns2 : RR))] /\
  after "myip.gr." [soa; ns] plan = [soa; ns; ns2] /\
  (fun op => op_action op) <$> restoreOps [soa; ns2] (after "myip.gr." [soa; ns] plan) = [DelRR].
Proof. by vm_compute. Qed.

End RecordMutExample.
