(* ===== verification/Service.v ===== *)
(** * Service: the dynamic DNS service as a whole

    [Server], [Store] and the backend of [Ddns] in front of a name server that
    applies an update as RFC 2136 says: the records of a name, and what the
    answers of the service promise about them. *)

From Stdlib Require Import String Ascii.
From S2P Require Import Prelude GoStrings NetIP DnsLib Encoding Ddns Config Store Server.

(** ** The name server *)

Section nameserver.
Context {D : Dns}.

Definition same_name (a b : RR) : bool := equal_fold (rr_name a) (rr_name b).
Definition same_set (a b : RR) : bool := same_name a b && (rr_type a =? rr_type b).
Definition same_record (a b : RR) : bool := same_set a b && String.eqb (rdata_text a) (rdata_text b).

(** RFC 2136, 3.4.2, for records that are neither SOA nor the apex NS: an
    address is not added beside an alias, and a record that is there is
    replaced. *)
Definition apply_rr (z : list RR) (u : update_rr) : list RR :=
  match u with
  | Insert r =>
      if existsb (fun x => same_name x r && xorb (rr_type x =? TypeCNAME) (rr_type r =? TypeCNAME)) z then z
      else List.filter (fun x => negb (same_record x r)) z ++ [r]
  | Ddns.Remove r => List.filter (fun x => negb (same_record x r)) z
  | RemoveRRset r => List.filter (fun x => negb (same_set x r)) z
  | RemoveName r => List.filter (fun x => negb (same_name x r)) z
  end.

(** The addresses of a name, with their ttl. *)
Definition addresses (z : list RR) (name : string) : list (Z * string) :=
  omap (fun r => if equal_fold (rr_name r) name then pair (rr_ttl r) <$> as_addr r else None) z.

(** What is served, and a server whose answer tells what it did: an update is
    applied as a whole and acknowledged, or changes nothing. When no answer
    comes, either may have happened. *)
Class NameServer {W : Type} (content : W -> list RR) (exchange : string -> string -> updateMsg -> W -> W * result string Z) : Prop :=
  truthful server secret m w :
    let '(w', answer) := exchange server secret m w in
    match answer with
    | Ok rc => content w' = if rc =? RcodeSuccess then foldl apply_rr (content w) (m_updates m) else content w
    | Err _ => content w' = content w \/ content w' = foldl apply_rr (content w) (m_updates m)
    end.

(** No alias at a name. *)
Definition unaliased (z : list RR) (name : string) : Prop :=
  forall r, r ∈ z -> rr_type r = TypeCNAME -> equal_fold (rr_name r) name = false.

Definition address_rr (name : string) (ttl : Z) (ip : addr) : RR :=
  match ip with V4 b => mk_A name ttl b | V6 b => mk_AAAA name ttl b end.

Context {L : LiteralLaws D}.

Lemma address_literal name ttl ip : let r := address_rr name ttl ip in
  rr_name r = name /\ (rr_type r = TypeA \/ rr_type r = TypeAAAA) /\ rr_ttl r = ttl /\ as_addr r = Some (ip_string ip).
Proof. destruct ip; cbn; [destruct (a_literal name ttl b) as (? & ? & ? & ?)|destruct (aaaa_literal name ttl b) as (? & ? & ? & ?)]; auto. Qed.

(** The addresses of a name do not depend on its case. *)
Lemma addresses_fold z a b : equal_fold a b = true -> addresses z a = addresses z b.
Proof.
  intros E%equal_fold_eq. unfold addresses. apply list_omap_ext. apply Forall_Forall2_diag, Forall_forall. intros x _.
  unfold equal_fold. by rewrite E.
Qed.

Lemma addresses_app z1 z2 name : addresses (z1 ++ z2) name = addresses z1 name ++ addresses z2 name.
Proof. apply omap_app. Qed.

(** The address a record gives a name. *)
Definition address_of (name : string) (r : RR) : option (Z * string) :=
  if equal_fold (rr_name r) name then pair (rr_ttl r) <$> as_addr r else None.

Lemma addresses_cons r z name :
  addresses (r :: z) name = match address_of name r with Some a => a :: addresses z name | None => addresses z name end.
Proof. done. Qed.

Lemma address_of_None name r : address_of name r = None <-> equal_fold (rr_name r) name = false \/ as_addr r = None.
Proof. unfold address_of. destruct (equal_fold _ _), (as_addr r); cbn; naive_solver. Qed.

(** Taking away records that give the name no address. *)
Lemma addresses_filter z name (p : RR -> bool) :
  (forall r, r ∈ z -> p r = false -> address_of name r = None) -> addresses (List.filter p z) name = addresses z name.
Proof.
  induction z as [|r z IH]; intros Hp; [done|].
  assert (IH' := IH (fun r' Hr => Hp r' (list_elem_of_further _ _ _ Hr))).
  cbn [List.filter]. rewrite addresses_cons. destruct (p r) eqn:Ep; [by rewrite addresses_cons, IH'|].
  by rewrite (Hp r) by (done || left).
Qed.

Lemma addresses_none z name : (forall r, r ∈ z -> address_of name r = None) -> addresses z name = [].
Proof.
  induction z as [|r z IH]; intros Hp; [done|]. rewrite addresses_cons, (Hp r) by left. apply IH. intros r' Hr'. apply Hp. by right.
Qed.

Lemma address_type name r a : address_of name r = Some a -> rr_type r = TypeA \/ rr_type r = TypeAAAA.
Proof.
  unfold address_of. destruct (equal_fold _ _); [|done]. destruct (as_addr r) eqn:Ea; [|done]. intros _.
  apply as_addr_type. by rewrite Ea.
Qed.

Definition fold_eq (a b : string) : Prop := to_lower a = to_lower b.

Lemma equal_fold_false a b : equal_fold a b = false <-> ~ fold_eq a b.
Proof. unfold fold_eq. rewrite <- equal_fold_eq. by destruct (equal_fold a b). Qed.

(** The deletion of a set of addresses at [name]. *)
Lemma addresses_removed z name ty other : ty = TypeA \/ ty = TypeAAAA ->
  addresses (apply_rr z (RemoveRRset (mk_hdr name ty))) other =
  if equal_fold name other then omap (fun r => if rr_type r =? ty then None else address_of other r) z else addresses z other.
Proof.
  intros Hty. destruct (hdr_literal name ty) as [Hn Ht]. cbn [apply_rr].
  destruct (equal_fold name other) eqn:Eo.
  - apply equal_fold_eq in Eo. induction z as [|r z IH]; [done|]. cbn [List.filter]. unfold same_set at 1, same_name.
    rewrite Hn, Ht. cbn [omap list_omap]. destruct (equal_fold (rr_name r) name) eqn:En; cbn [andb negb].
    + destruct (rr_type r =? ty); cbn [negb]; [exact IH|]. rewrite addresses_cons. case_match; [by f_equal|done].
    + rewrite addresses_cons. assert (address_of other r = None) as ->; [|by destruct (rr_type r =? ty)].
      apply address_of_None. left. apply equal_fold_false. apply equal_fold_false in En. unfold fold_eq in *. congruence.
  - apply addresses_filter. intros r _ Hp. apply negb_false_iff, andb_true_iff in Hp as [Hp _]. unfold same_name in Hp. rewrite Hn in Hp.
    apply equal_fold_eq in Hp. apply address_of_None. left. apply equal_fold_false. apply equal_fold_false in Eo.
    unfold fold_eq in *. congruence.
Qed.

(** The update of an address: what the name had is gone, and it has [ip]. *)
Definition published (z : list RR) (name : string) (ttl : Z) (ip : addr) : list RR :=
  foldl apply_rr z [RemoveRRset (mk_hdr name TypeA); RemoveRRset (mk_hdr name TypeAAAA); Insert (address_rr name ttl ip)].

Lemma apply_remove_subset z u r : (forall x, u <> Insert x) -> r ∈ apply_rr z u -> r ∈ z.
Proof. intros Hu. destruct u; [by edestruct Hu|..]; cbn; rewrite elem_of_bfilter; naive_solver. Qed.

Lemma insert_unaliased z name ttl ip : unaliased z name ->
  apply_rr z (Insert (address_rr name ttl ip)) = List.filter (fun x => negb (same_record x (address_rr name ttl ip))) z ++ [address_rr name ttl ip].
Proof.
  intros Hz. destruct (address_literal name ttl ip) as (Hn & Ht & _). cbn [apply_rr].
  destruct (existsb _ z) eqn:Ex; [|done]. exfalso. apply existsb_exists in Ex as (x & Hx & Hp). apply list_elem_of_In in Hx.
  apply andb_true_iff in Hp as [Hp Hc]. unfold same_name in Hp. rewrite Hn in Hp.
  assert (rr_type (address_rr name ttl ip) =? TypeCNAME = false) as E by (by destruct Ht as [-> | ->]).
  rewrite E, xorb_false_r in Hc. apply Z.eqb_eq in Hc. by rewrite (Hz x Hx Hc) in Hp.
Qed.

Lemma unaliased_subset z z' name : (forall r, r ∈ z' -> r ∈ z) -> unaliased z name -> unaliased z' name.
Proof. intros Hs Hz r Hr. apply Hz, Hs, Hr. Qed.

Lemma published_addresses z name ttl ip other : unaliased z name ->
  addresses (published z name ttl ip) other = if equal_fold name other then [(ttl, ip_string ip)] else addresses z other.
Proof.
  intros Hz. unfold published. cbn [foldl]. set (z1 := apply_rr z _). set (z2 := apply_rr z1 _).
  assert (Hs1 : forall r, r ∈ z1 -> r ∈ z) by (intros r; by apply apply_remove_subset).
  assert (Hs2 : forall r, r ∈ z2 -> r ∈ z1) by (intros r; by apply apply_remove_subset).
  destruct (address_literal name ttl ip) as (Hn & Ht & Hl & Ha).
  rewrite (insert_unaliased z2 name ttl ip) by (eapply unaliased_subset; [|exact Hz]; auto).
  set (r := address_rr name ttl ip) in *. rewrite addresses_app.
  assert (Hr : addresses [r] other = if equal_fold name other then [(ttl, ip_string ip)] else []).
  { rewrite addresses_cons. unfold address_of. rewrite Hn, Ha, Hl. by destruct (equal_fold name other). }
  rewrite Hr. destruct (equal_fold name other) eqn:Eo.
  - rewrite addresses_none; [done|]. intros x Hx. apply elem_of_bfilter in Hx as [Hx _].
    destruct (address_of other x) as [a|] eqn:Ex; [|done]. exfalso.
    assert (Hin : forall y ty z', (ty = TypeA \/ ty = TypeAAAA) -> y ∈ apply_rr z' (RemoveRRset (mk_hdr name ty)) ->
              is_Some (address_of other y) -> rr_type y <> ty).
    { intros y ty z' _ Hy [b Hb] Hty. apply elem_of_bfilter in Hy as [_ Hy]. destruct (hdr_literal name ty) as [Hhn Hht].
      unfold same_set, same_name in Hy. rewrite Hhn, Hht, Hty, Z.eqb_refl, andb_true_r in Hy. apply negb_true_iff, equal_fold_false in Hy.
      apply equal_fold_eq in Eo. unfold address_of in Hb. destruct (equal_fold (rr_name y) other) eqn:Ey; [|done].
      apply equal_fold_eq in Ey. unfold fold_eq in Hy. congruence. }
    destruct (address_type _ _ _ Ex) as [Ht'|Ht'].
    + apply (Hin x TypeA z); [by left| by apply Hs2|by eexists|done].
    + apply (Hin x TypeAAAA z1); [by right|done|by eexists|done].
  - rewrite app_nil_r, addresses_filter.
    + unfold z2. rewrite addresses_removed by (by right). rewrite Eo. unfold z1. rewrite addresses_removed by (by left). by rewrite Eo.
    + intros x _ Hp. apply negb_false_iff in Hp. unfold same_record, same_set, same_name in Hp. bsplit.
      rewrite Hn in *. apply address_of_None. left. apply equal_fold_false. apply equal_fold_false in Eo.
      match goal with H : equal_fold (rr_name x) name = true |- _ => apply equal_fold_eq in H end. unfold fold_eq in *. congruence.
Qed.

(** No alias comes of it. *)
Lemma published_unaliased z name ttl ip other : unaliased z other -> unaliased (published z name ttl ip) other.
Proof.
  intros Hz x Hx Hc. unfold published in Hx. cbn [foldl] in Hx.
  destruct (address_literal name ttl ip) as (_ & Ht & _).
  assert (Hx' : x ∈ apply_rr (apply_rr z (RemoveRRset (mk_hdr name TypeA))) (RemoveRRset (mk_hdr name TypeAAAA)) \/ x = address_rr name ttl ip).
  { revert Hx. cbn [apply_rr]. case_match; [by left|]. rewrite elem_of_app, elem_of_bfilter, list_elem_of_singleton. naive_solver. }
  destruct Hx' as [Hx'| ->]; [|rewrite Hc in Ht; by destruct Ht].
  apply Hz; [|done]. by do 2 apply apply_remove_subset in Hx'.
Qed.

End nameserver.

(** ** The service *)

Section service.
Context {D : Dns} {L : LiteralLaws D} {C : Crypto} {W : Type}.
Context (content : W -> list RR) (exchange : string -> string -> updateMsg -> W -> W * result string Z).
Context {N : NameServer content exchange}.

(** No answer is lost on its way back: without one, the message did not reach
    the server either. *)
Definition unlost (u : RFC2136) (w : W) : Prop := forall m,
  match exchange (u_server u) (u_secret u) m w with (w', Err _) => content w' = content w | (_, Ok _) => True end.

(** A batch the server takes is applied; otherwise nothing changes. *)
Lemma Update_spec u fqdn zone ip ttl w w' res : (is_ok res = false -> unlost u w) -> Ddns.Update exchange u fqdn zone ip ttl w = (w', res) ->
  content w' = if is_ok res then published (content w) (Fqdn fqdn) ttl ip else content w.
Proof.
  intros Hnet. unfold Ddns.Update, Ddns.Apply. set (us := [RemoveRRset (mk_hdr (Fqdn fqdn) TypeA); RemoveRRset (mk_hdr (Fqdn fqdn) TypeAAAA); Insert (address_rr (Fqdn fqdn) ttl ip)]).
  assert (build_updates 0 (update_ops fqdn ip ttl) = Ok us) as -> by (by destruct ip).
  set (m := mkUpdate _ us _ _ _). pose proof (truthful (u_server u) (u_secret u) m w) as H. unfold RcodeSuccess in *.
  destruct (exchange (u_server u) (u_secret u) m w) as [w1 [rc|e]] eqn:Ex.
  - destruct (rc =? 0); intros [= <- <-]; exact H.
  - intros [= <- <-]. specialize (Hnet eq_refl m). by rewrite Ex in Hnet.
Qed.

(** A name as the store keeps it, that is read back from a message as it is. *)
Definition plain_name (n : string) : Prop :=
  to_lower n = n /\ has_suffix "." n = true /\ str_forall (fun c => negb (Ascii.eqb c "\")) n = true.

Lemma plain_Fqdn n : plain_name n -> Fqdn n = n.
Proof. intros (_ & Hd & Hb). by apply fqdn_dotted. Qed.

Lemma plain_same a b : plain_name a -> plain_name b -> equal_fold a b = true -> a = b.
Proof. intros (Ha & _) (Hb & _) H. apply equal_fold_eq in H. congruence. Qed.

(** What ties the database to what is served: a name with a registered
    address has that address, with the record's ttl, and no other. *)
Record synced (s : db) (w : W) : Prop := {
  synced_wf : wf s;
  synced_plain r : r ∈ records s -> plain_name (FQDN_ r);
  synced_unaliased r : r ∈ records s -> unaliased (content w) (FQDN_ r);
  synced_served r : r ∈ records s -> LastIP r <> "" -> addresses (content w) (FQDN_ r) = [(TTL_ r, LastIP r)]
}.

(** ** The events of its life *)

(** What the administration may add: a name without escapes, that is not an
    alias. The stamps belong to the endpoints. *)
Definition admissible (z : list RR) (c : call) : Prop :=
  match c with
  | CAdd _ name _ _ => str_forall (fun c => negb (Ascii.eqb c "\")) (FQDN name) = true /\ unaliased z (FQDN name)
  | CMarkUpdated _ _ _ | CMarkSeen _ _ => False
  | _ => True
  end.

(** A request, under the configuration of its moment, whose stamp is written
    and whose answer from the name server, if any was sent, arrives; a call of
    the administration; a change of DNS that leaves the registered names
    alone. *)
Inductive step : db * W -> db * W -> Prop :=
| step_request cfg u flookup now r s w resp s' w' :
    unlost u w ->
    Handler (B := rfc2136_backend exchange u) cfg flookup no_fault now r s w = (resp, s', w') -> step (s, w) (s', w')
| step_manage fault c s w : admissible (content w) c -> step (s, w) (run s (fault, c), w)
| step_elsewhere s w w' :
    (forall r, r ∈ records s -> addresses (content w') (FQDN_ r) = addresses (content w) (FQDN_ r) /\
       (unaliased (content w) (FQDN_ r) -> unaliased (content w') (FQDN_ r))) -> step (s, w) (s, w').

Definition started (w : W) (s : db * W) : Prop := rtc step (empty_db, w) s.

(** ** The invariant *)

(** What of a row decides what is served for it. *)
Definition essence (r : Record') : Z * string * Z * string := (ID r, FQDN_ r, TTL_ r, LastIP r).

(** Every row comes from one with the same essence. *)
Definition from_rows (rows' rows : list Record') : Prop := forall r, r ∈ rows' -> exists q, q ∈ rows /\ essence r = essence q.

Lemma synced_rows s s' w : synced s w -> wf s' -> from_rows (records s') (records s) -> synced s' w.
Proof.
  intros [_ Hp Ha Hs] Hwf Hrows. split; [done|..]; intros r (q & Hq & [= _ -> Ht Hl])%Hrows; auto.
  intros Hne. rewrite Hs by (try done; congruence). congruence.
Qed.

Lemma seen_rows now id s : from_rows (records (MarkSeen no_fault now id s).2) (records s).
Proof.
  intros r. unfold MarkSeen, stamp, stmt, no_fault. cbn. intros (q & -> & Hq)%list_elem_of_fmap. exists q. by destruct (ID q =? id).
Qed.

(** The rows a call leaves: those of before, or the one that was added. *)
Lemma manage_rows fault c s r : (forall now id, c <> CMarkSeen now id) -> (forall now id ip, c <> CMarkUpdated now id ip) ->
  r ∈ records (run s (fault, c)) ->
  (exists q, q ∈ records s /\ essence r = essence q) \/
  (exists rand name zone ttl, c = CAdd rand name zone ttl /\ FQDN_ r = FQDN name /\ LastIP r = "" /\ ID r = next_record s).
Proof.
  assert (Hsame : r ∈ records s -> exists q, q ∈ records s /\ essence r = essence q) by eauto.
  intros Hseen Hupd. destruct c as [rand name zone ttl|name|rand name|now id ip|now id|now zone serial ct keep|host day ? ? ?|cutoff];
    unfold run; cbn.
  - unfold Add, stmt, insert_record. destruct (fault 0%nat); cbn; [auto|]. destruct (existsb _ _); cbn; [auto|].
    rewrite elem_of_app, list_elem_of_singleton. intros [Hr| ->]; [auto|]. right. eauto 10.
  - unfold Del, stmt. destruct (fault 0%nat); cbn; [auto|]. destruct (_ =? _)%nat; cbn; [auto|].
    rewrite elem_of_bfilter. intros [Hr _]. auto.
  - unfold Rotate, stmt, update_hash. destruct (fault 0%nat); cbn; [auto|]. destruct (_ && _); [auto|].
    intros Hr. left. assert (Hr' : r ∈ rehash (FQDN name) (hashToken (newToken rand)) <$> records s).
    { revert Hr. destruct (length _ =? 0)%nat; [done|]. by destruct (select_record _ _ _ _). }
    apply list_elem_of_fmap in Hr' as (q & -> & Hq). exists q. unfold rehash. by destruct (String.eqb _ _).
  - by edestruct Hupd.
  - by edestruct Hseen.
  - unfold SnapshotPut, stmt. repeat (case_match; cbn; try by auto).
  - unfold AddTraffic, stmt. destruct (fault 0%nat); cbn; auto.
  - unfold PruneTraffic, stmt. destruct (fault 0%nat); cbn; auto.
Qed.

Lemma synced_manage fault c s w : admissible (content w) c -> synced s w -> synced (run s (fault, c)) w.
Proof.
  intros Hc Hs. assert (Hrow : forall r, r ∈ records (run s (fault, c)) -> plain_name (FQDN_ r) /\ unaliased (content w) (FQDN_ r) /\
    (LastIP r <> "" -> addresses (content w) (FQDN_ r) = [(TTL_ r, LastIP r)])).
  { intros r Hr. apply manage_rows in Hr as [(q & Hq & [= _ -> -> ->])|(rand & name & zone & ttl & -> & -> & -> & _)].
    - destruct Hs. auto.
    - destruct Hc as [Hb Hu]. split_and!; [|done..]. split_and!; [apply FQDN_lower|apply FQDN_dotted|done].
    - intros ? ? ->. done.
    - intros ? ? ? ->. done. }
  split; [by apply run_wf, Hs|intros r Hr; by apply Hrow..].
Qed.

(** One update: the name of its record, and no other, is served with the
    address; the row says so. *)
Definition register (name : string) (ttl : Z) (ip : string) (f : string -> list (Z * string)) : string -> list (Z * string) :=
  fun other => if equal_fold name other then [(ttl, ip)] else f other.

Lemma synced_update u now rec ip s w res s' w' : unlost u w -> synced s w -> rec ∈ records s -> ip_string ip <> "" ->
  doUpdate (B := rfc2136_backend exchange u) no_fault now rec ip s w = (res, s', w') ->
  synced s' w' /\
  if is_ok res then forall other, addresses (content w') other = register (FQDN_ rec) (TTL_ rec) (ip_string ip) (addresses (content w)) other
  else content w' = content w.
Proof.
  intros Hnet Hs Hr Hne. pose proof (synced_plain _ _ Hs _ Hr) as Hp. unfold doUpdate.
  destruct (String.eqb_spec (LastIP rec) (ip_string ip)) as [Heq|Hneq].
  - intros H. assert (s' = (MarkSeen no_fault now (ID rec) s).2 /\ w' = w /\ res = Ok false) as (-> & -> & ->) by (by simplify_eq).
    clear H. split.
    + apply (synced_rows s); [done|apply wf_stamp; [done|apply Hs]|apply seen_rows].
    + intros other. unfold register. destruct (equal_fold _ _) eqn:Eo; [|done].
      rewrite <- (addresses_fold _ _ _ Eo).
      rewrite (synced_served _ _ Hs) by (done || congruence). by rewrite Heq.
  - unfold update_backend, rfc2136_backend. destruct (Ddns.Update exchange u (FQDN_ rec) (Zone_ rec) ip (TTL_ rec) w) as [w1 r1] eqn:Eu.
    apply Update_spec in Eu; [|done]. rewrite (plain_Fqdn _ Hp) in Eu. destruct r1 as [[]|e]; cbn in Eu; intros H; cycle 1.
    { assert (s' = s /\ w' = w1 /\ res = Err e) as (-> & -> & ->) by (by simplify_eq). split; [|done]. destruct Hs. split; [done..| |]; intros; rewrite Eu; auto. }
    assert (s' = (MarkUpdated no_fault now (ID rec) (ip_string ip) s).2 /\ w' = w1 /\ res = Ok true) as (-> & -> & ->) by (by simplify_eq). clear H.
    assert (Hadr : forall other, addresses (content w1) other = register (FQDN_ rec) (TTL_ rec) (ip_string ip) (addresses (content w)) other).
    { intros other. rewrite Eu. apply published_addresses. by apply Hs. }
    split; [|done].
    assert (Hrow : forall r, r ∈ records (MarkUpdated no_fault now (ID rec) (ip_string ip) s).2 ->
      r ∈ records s /\ ID r <> ID rec \/ FQDN_ r = FQDN_ rec /\ TTL_ r = TTL_ rec /\ LastIP r = ip_string ip).
    { intros r (q & -> & Hq)%list_elem_of_fmap. destruct (Z.eqb_spec (ID q) (ID rec)) as [Hid|]; [right|by left].
      by rewrite (key_inj ID (records s) q rec) by (done || by apply ascending_nodup with (next_record s), Hs). }
    split; [by apply wf_stamp, Hs| | |].
    + intros r [[Hq _]|(-> & _)]%Hrow; [by eapply synced_plain|done].
    + intros r Hr1. rewrite Eu. apply published_unaliased. destruct (Hrow r Hr1) as [[Hq _]|(-> & _)]; by eapply synced_unaliased.
    + intros r Hr1 Hl. rewrite Hadr. unfold register. destruct (Hrow r Hr1) as [[Hq Hid]|(-> & -> & ->)]; [|by rewrite equal_fold_refl].
      destruct (equal_fold _ _) eqn:Eo; [|by eapply synced_served].
      apply plain_same in Eo; [|done|by eapply synced_plain]. destruct Hid. f_equal. eapply (key_inj FQDN_); [apply Hs|done..].
Qed.

(** The address to register was read from text. *)
Lemma clientIP_parsed cfg r o ip : clientIP cfg r o = Ok ip -> ip_string ip <> "".
Proof.
  intros H. assert (exists t, ParseIP t = Some ip) as [t Ht]; [|by eapply printed_nonempty].
  revert H. unfold clientIP. destruct (negb (String.eqb o "")).
  - destruct (ParseIP (trim_space o)) as [i|] eqn:E; [|done]. destruct (non_routable i); [done|]. intros [= <-]. eauto.
  - unfold peer_of. destruct (ParseIP (match SplitHostPort (r_RemoteAddr r) with Some _ => _ | None => _ end)) as [peer|] eqn:E; [|done].
    assert (exists t, ParseIP t = Some peer) by eauto.
    destruct (IsTrusted cfg peer && _); [|by intros [= <-]].
    destruct (walk_hops cfg _) as [c|] eqn:Ew; intros [= <-]; [|done].
    apply walk_hops_spec in Ew as (? & h & ? & _ & _ & Hh & _). eauto.
Qed.

(** What one request does to what is served. *)
Definition outcome (cfg : Config.Config) flookup (r : request) (s : db) (w w' : W) (resp : response) : Prop :=
  (exists rec ip, Lookup flookup s (token_of r) = Ok rec /\ clientIP cfg r (override_of r) = Ok ip /\
     (resp = println ("good " +:+ ip_string ip) \/ resp = println ("nochg " +:+ ip_string ip)) /\
     forall other, addresses (content w') other =
       register (FQDN_ rec) (TTL_ rec) (ip_string ip) (addresses (content w)) other) \/
  ((has_prefix "good " (body resp) || has_prefix "nochg " (body resp)) = false /\ content w' = content w).

Lemma synced_request cfg u flookup now r s w resp s' w' : unlost u w -> synced s w ->
  Handler (B := rfc2136_backend exchange u) cfg flookup no_fault now r s w = (resp, s', w') ->
  synced s' w' /\ outcome cfg flookup r s w w' resp.
Proof.
  intros Hnet Hs H. apply handler_cases in H as [(-> & -> & Hresp)|(rec & ip & res & Hl & Hip & Hd & Ha)].
  { split; [done|]. by right. }
  pose proof (Lookup_ok _ _ _ _ Hl) as (Hin & _).
  apply synced_update in Hd as [Hs' Hd]; [|done|done|done|by eapply clientIP_parsed]. split; [done|].
  destruct res as [b|e]; cbn in Hd; [left; exists rec, ip; destruct b; auto|].
  right. split; [|done]. cbn in Ha. by destruct (body resp) as [|[[] [] [] [] [] [] [] []] ?].
Qed.

Lemma synced_step s w s' w' : synced s w -> step (s, w) (s', w') -> synced s' w'.
Proof.
  intros Hs H. inversion H as [cfg u flookup now r ? ? resp ? ? Hnet Hh|fault c ? ? Hc|? ? ? He]; subst.
  - by eapply synced_request.
  - by apply synced_manage.
  - destruct Hs as [? ? Ha Hv]. split; [done..| |]; intros r Hr; destruct (He r Hr) as [E1 E2]; [by apply E2, Ha|rewrite E1; by apply Hv].
Qed.

Lemma synced_started w0 s w : started w0 (s, w) -> synced s w.
Proof.
  unfold started. assert (Hi : synced empty_db w0) by (split; [by apply wf_empty|by intros ? ?%elem_of_nil..]).
  intros H. change (synced (s, w).1 (s, w).2). revert Hi. change (synced (empty_db, w0).1 (empty_db, w0).2 -> synced (s, w).1 (s, w).2).
  induction H as [x|[s1 w1] [s2 w2] x Hstep _ IH]; [done|]. intros H1. apply IH. by eapply synced_step.
Qed.

(** C3: the service keeps its promise to its clients, whatever requests,
    administration and configurations came before, one at a time: an answer
    [good] or [nochg] with an address means that from then on the name of the
    client's token, and no other name, is served with exactly that address and
    the token's ttl; any other answer changes nothing that is served. This asks
    four things, without the first three of which it fails: that the stamps in
    the database are written, that no answer of the name server is lost after
    it acted, that the names the administration adds are no aliases and have no
    escapes, and that changes of DNS from elsewhere leave the registered names
    alone. *)
Theorem answers_truthful w0 cfg u flookup now r s w resp s' w' : started w0 (s, w) -> unlost u w ->
  Handler (B := rfc2136_backend exchange u) cfg flookup no_fault now r s w = (resp, s', w') ->
  started w0 (s', w') /\ outcome cfg flookup r s w w' resp.
Proof.
  intros Hst Hnet H. split; [eapply rtc_r; [exact Hst|by eapply step_request]|].
  apply synced_request in H as [_ H]; [done|done|by eapply synced_started].
Qed.

End service.

(** ** Witnesses *)

Module ServiceExample.
#[local] Existing Instances ServerExample.plain Sample.dns Sample.literal_laws.

(** A server that knows one key, and applies what is signed with it. *)
Definition exchange (server secret : string) (m : updateMsg (D := Sample.dns)) (w : list Sample.srr) : list Sample.srr * result string Z :=
  if String.eqb secret "s3cret" then (foldl apply_rr w (m_updates m), Ok 0) else (w, Ok 9).

#[local] Instance name_server : NameServer (fun w => w) exchange.
Proof. intros server secret m w. unfold exchange. by destruct (String.eqb secret "s3cret"). Qed.

Lemma nothing_lost u w : unlost (fun w => w) exchange u w.
Proof. intros m. unfold exchange. by destruct (String.eqb (u_secret u) "s3cret"). Qed.

Definition client (secret : string) : RFC2136 := mkRFC2136 "127.0.0.1:53" "key." HmacSHA256 secret.

Definition served0 : list Sample.srr := [Sample.mkRR "home.example." 300 TypeA "192.0.2.1"; Sample.mkRR "Home.example." 300 TypeTXT "x"; Sample.mkRR "www.example." 300 TypeA "192.0.2.2"].
Definition s1 : db := run empty_db (no_fault, CAdd "aaa" "home.example" "example" 60).

Definition ask_from (peer : string) : request := mkReq ("/update/" +:+ newToken "aaa") [] (peer +:+ ":5000") "" None.
Definition handle (fmark : nat -> option string) (secret peer : string) (sw : db * list Sample.srr) :=
  Handler (B := rfc2136_backend exchange (client secret)) ServerExample.cfg no_fault fmark 100 (ask_from peer) sw.1 sw.2.
Definition after (x : response * db * list Sample.srr) : db * list Sample.srr := (x.1.2, x.2).

Definition good := handle no_fault "s3cret" "198.51.100.7" (s1, served0).

Example good_value : (good.1.1, addresses good.2 "home.example.", addresses good.2 "www.example.", length good.2) =
  (println "good 198.51.100.7", [(60, "198.51.100.7")], [(300, "192.0.2.2")], 3%nat).
Proof. by vm_compute. Qed.

Lemma answers_truthful_witness :
  started (fun w => w) exchange served0 (good.1.2, good.2) /\
  outcome (fun w => w) ServerExample.cfg no_fault (ask_from "198.51.100.7") s1 served0 good.2 good.1.1.
Proof.
  assert (Hst : started (fun w => w) exchange served0 (s1, served0)).
  { apply rtc_once, step_manage. split; [by vm_compute|]. intros r Hr Hc.
    apply elem_of_cons in Hr as [-> |Hr]; [done|]. apply elem_of_cons in Hr as [-> |Hr]; [done|].
    apply list_elem_of_singleton in Hr as ->. done. }
  assert (H : Handler (B := rfc2136_backend exchange (client "s3cret")) ServerExample.cfg no_fault no_fault 100
                (ask_from "198.51.100.7") s1 served0 = (good.1.1, good.1.2, good.2)) by (vm_compute; reflexivity).
  exact (answers_truthful (fun w => w) exchange served0 ServerExample.cfg (client "s3cret") no_fault 100
           (ask_from "198.51.100.7") s1 served0 _ _ _ Hst (nothing_lost _ _) H).
Defined.

(** The promise needs the stamp to be written: when the database refuses it
    after a change of DNS, the row keeps the address before, and a client that
    comes back to it is told [nochg] while the other address is served. *)
Definition broken : nat -> option string := fun _ => Some "readonly database".
Definition moved := handle broken "s3cret" "203.0.113.9" (after good).
Definition back := handle no_fault "s3cret" "198.51.100.7" (after moved).

Example stale_answer : (moved.1.1, back.1.1, addresses back.2 "home.example.") =
  (println "good 203.0.113.9", println "nochg 198.51.100.7", [(60, "203.0.113.9")]).
Proof. by vm_compute. Qed.

(** It needs the answer of the name server to arrive: when it is lost after
    the update was made, the client is told of an error, the row keeps the
    address before, and [nochg] is said of that later. *)
Definition one_way (server secret : string) (m : updateMsg (D := Sample.dns)) (w : list Sample.srr) : list Sample.srr * result string Z :=
  ((exchange server secret m w).1, Err "i/o timeout").

#[local] Instance lossy_server : NameServer (fun w => w) one_way.
Proof. intros server secret m w. unfold one_way, exchange. destruct (String.eqb secret "s3cret"); cbn; auto. Qed.

Definition cut_off := Handler (B := rfc2136_backend one_way (client "s3cret")) ServerExample.cfg no_fault no_fault 100
  (ask_from "203.0.113.9") (after good).1 (after good).2.
Definition returned := handle no_fault "s3cret" "198.51.100.7" (after cut_off).

Example lost_answer : (cut_off.1.1, returned.1.1, addresses returned.2 "home.example.") =
  (http_error "dnserr" 502, println "nochg 198.51.100.7", [(60, "203.0.113.9")]).
Proof. by vm_compute. Qed.

(** And it needs the name not to be an alias: the server drops the address
    without an error, and the client is told [good]. *)
Definition aliased := handle no_fault "s3cret" "198.51.100.7" (s1, [Sample.mkRR "home.example." 300 TypeCNAME "www.example."]).

Example alias_answer : (aliased.1.1, addresses aliased.2 "home.example.") = (println "good 198.51.100.7", []).
Proof. by vm_compute. Qed.

End ServiceExample.
