(* ===== verification/Overlap.v ===== *)
(** * Overlap: requests that are served at the same time

    [internal/server/server.go] serves every request in a goroutine of its own,
    and [doUpdate] is three effects without a lock: the record is looked up,
    DNS is updated, the record is stamped. [Service] takes a request as one
    step; here the three are steps, and other requests, the administration and
    changes elsewhere in DNS come in between. *)

From Stdlib Require Import String Ascii.
From S2P Require Import Prelude GoStrings NetIP DnsLib Encoding Ddns Config Store Server Service.

(** ** A request in flight *)

(** After the lookup, with the address it registers; and after the name server
    has taken the update. *)
Inductive thread := Looked (rec : Record') (ip : addr) | Sent (rec : Record') (ip : addr).

Definition t_rec (t : thread) : Record' := match t with Looked rec _ | Sent rec _ => rec end.
Definition t_ip (t : thread) : addr := match t with Looked _ ip | Sent _ ip => ip end.
Definition t_name (t : thread) : string := FQDN_ (t_rec t).

Section overlap.
Context {D : Dns} {L : LiteralLaws D} {C : Crypto} {W : Type}.
Context (content : W -> list RR) (exchange : string -> string -> updateMsg -> W -> W * result string Z).
Context {N : NameServer content exchange}.

Definition state : Type := db * W * gmap nat thread.

(** The answer a step gives: for which record, with which address, and whether
    it is [good], [nochg] or an error. *)
Definition verdict : Type := Record' * addr * result ddns_error bool.

(** [solo]: whether a request waits until no other is in flight for its name,
    as the code does not make it. *)
Inductive step (solo : bool) : state -> option verdict -> state -> Prop :=
| begin i r cfg flookup s w ts rec ip :
    ts !! i = None -> Lookup flookup s (token_of r) = Ok rec -> clientIP cfg r (override_of r) = Ok ip ->
    (solo = true -> forall j t, ts !! j = Some t -> t_name t <> FQDN_ rec) ->
    step solo (s, w, ts) None (s, w, <[i := Looked rec ip]> ts)
| same_address i rec ip now s w ts :
    ts !! i = Some (Looked rec ip) -> LastIP rec = ip_string ip ->
    step solo (s, w, ts) (Some (rec, ip, Ok false)) ((MarkSeen no_fault now (ID rec) s).2, w, delete i ts)
| send i rec ip u s w ts w' :
    ts !! i = Some (Looked rec ip) -> LastIP rec <> ip_string ip ->
    Ddns.Update exchange u (FQDN_ rec) (Zone_ rec) ip (TTL_ rec) w = (w', Ok tt) ->
    step solo (s, w, ts) None (s, w', <[i := Sent rec ip]> ts)
| refused i rec ip u s w ts w' e :
    ts !! i = Some (Looked rec ip) -> LastIP rec <> ip_string ip -> unlost content exchange u w ->
    Ddns.Update exchange u (FQDN_ rec) (Zone_ rec) ip (TTL_ rec) w = (w', Err e) ->
    step solo (s, w, ts) (Some (rec, ip, Err e)) (s, w', delete i ts)
| stamp_sent i rec ip now s w ts :
    ts !! i = Some (Sent rec ip) ->
    step solo (s, w, ts) (Some (rec, ip, Ok true)) ((MarkUpdated no_fault now (ID rec) (ip_string ip) s).2, w, delete i ts)
| manage fault c s w ts : admissible (content w) c -> step solo (s, w, ts) None (run s (fault, c), w, ts)
| elsewhere s w w' ts :
    (forall n, n ∈ (FQDN_ <$> records s) \/ (exists i t, ts !! i = Some t /\ t_name t = n) ->
       addresses (content w') n = addresses (content w) n /\ (unaliased (content w) n -> unaliased (content w') n)) ->
    step solo (s, w, ts) None (s, w', ts).

Inductive steps (solo : bool) : state -> list verdict -> state -> Prop :=
| steps_nil x : steps solo x [] x
| steps_cons x o y vs z : step solo x o y -> steps solo y vs z -> steps solo x (option_list o ++ vs) z.

(** The steps of one request in a row are [doUpdate]. *)
Lemma doUpdate_steps solo u now rec ip s w ts i res s' w' : ts !! i = Some (Looked rec ip) -> unlost content exchange u w ->
  doUpdate (B := rfc2136_backend exchange u) no_fault now rec ip s w = (res, s', w') ->
  steps solo (s, w, ts) [(rec, ip, res)] (s', w', delete i ts).
Proof.
  intros Hi Hnet. unfold doUpdate, update_backend, rfc2136_backend. destruct (String.eqb_spec (LastIP rec) (ip_string ip)) as [He|He].
  - intros H. replace s' with (MarkSeen no_fault now (ID rec) s).2 by (by simplify_eq). replace res with (Ok (E := ddns_error) false) by (by simplify_eq).
    replace w' with w by (by simplify_eq). eapply (steps_cons _ _ (Some _)); [by eapply same_address|apply steps_nil].
  - destruct (Ddns.Update exchange u (FQDN_ rec) (Zone_ rec) ip (TTL_ rec) w) as [w1 [[]|e]] eqn:Eu; intros H.
    + replace s' with (MarkUpdated no_fault now (ID rec) (ip_string ip) s).2 by (by simplify_eq).
      replace res with (Ok (E := ddns_error) true) by (by simplify_eq). replace w' with w1 by (by simplify_eq).
      eapply (steps_cons _ _ None); [by eapply send|]. cbn [option_list].
      rewrite <- (delete_insert_eq ts i (Sent rec ip)).
      eapply (steps_cons _ _ (Some _)); [eapply stamp_sent; apply lookup_insert_eq|apply steps_nil].
    + replace s' with s by (by simplify_eq). replace res with (Err (A := bool) e) by (by simplify_eq). replace w' with w1 by (by simplify_eq).
      eapply (steps_cons _ _ (Some _)); [by eapply refused|apply steps_nil].
Qed.

(** ** The invariant, when requests for one name wait for each other *)

(** A row, seen from a request in flight for [rec]: it is the record as it was
    looked up, or, of another token, not registered yet if the name is the
    same. *)
Definition related (rec r : Record') : Prop :=
  (ID r = ID rec -> essence r = essence rec) /\ (ID r <> ID rec -> FQDN_ r = FQDN_ rec -> LastIP r = "").

Record thread_ok (s : db) (w : W) (t : thread) : Prop := {
  th_plain : plain_name (t_name t);
  th_unaliased : unaliased (content w) (t_name t);
  th_old : ID (t_rec t) < next_record s;
  th_rows r : r ∈ records s -> related (t_rec t) r;
  th_ip : ip_string (t_ip t) <> "";
  th_served : match t with
              | Looked rec ip => LastIP rec <> "" -> addresses (content w) (FQDN_ rec) = [(TTL_ rec, LastIP rec)]
              | Sent rec ip => addresses (content w) (FQDN_ rec) = [(TTL_ rec, ip_string ip)]
              end
}.

(** No update of the name is waiting for its stamp. *)
Definition settled (ts : gmap nat thread) (n : string) : Prop :=
  forall i rec ip, ts !! i = Some (Sent rec ip) -> FQDN_ rec <> n.

Record tidy (s : db) (w : W) (ts : gmap nat thread) : Prop := {
  td_wf : wf s;
  td_plain r : r ∈ records s -> plain_name (FQDN_ r);
  td_unaliased r : r ∈ records s -> unaliased (content w) (FQDN_ r);
  td_threads i t : ts !! i = Some t -> thread_ok s w t;
  td_apart i j t t' : ts !! i = Some t -> ts !! j = Some t' -> t_name t = t_name t' -> i = j;
  td_served r : r ∈ records s -> LastIP r <> "" -> settled ts (FQDN_ r) -> addresses (content w) (FQDN_ r) = [(TTL_ r, LastIP r)]
}.

(** A row of the table after a call: an old one, or a new one. *)
Definition kept_or_new (s : db) (w : W) (r : Record') : Prop :=
  (exists q, q ∈ records s /\ essence r = essence q) \/
  (ID r = next_record s /\ LastIP r = "" /\ plain_name (FQDN_ r) /\ unaliased (content w) (FQDN_ r)).

Lemma tidy_rows s s' w ts : tidy s w ts -> wf s' -> next_record s <= next_record s' ->
  (forall r, r ∈ records s' -> kept_or_new s w r) -> tidy s' w ts.
Proof.
  intros [Hwf Hp Hu Ht Ha Hs] Hwf' Hn Hrows. split; [done| | | |done|].
  - intros r [(q & Hq & [= _ -> _ _])|(_ & _ & ? & _)]%Hrows; auto.
  - intros r [(q & Hq & [= _ -> _ _])|(_ & _ & _ & ?)]%Hrows; auto.
  - intros i t Hi. destruct (Ht i t Hi) as [H1 H2 H3 H4 H5 H6]. split; [done|done|lia| |done|done].
    intros r [(q & Hq & He)|(Hid & Hl & _)]%Hrows.
    + destruct (H4 q Hq) as [Hsame Hother]. injection He as E1 E2 E3 E4. split.
      * intros Hid. unfold essence in *. rewrite E1, E2, E3, E4. apply Hsame. congruence.
      * intros Hid Hf. rewrite E4. apply Hother; congruence.
    + split; [lia|done].
  - intros r [(q & Hq & He)|(_ & Hl & _)]%Hrows Hne Hset; [|done]. injection He as E1 E2 E3 E4.
    rewrite E2, E3, E4. apply Hs; [done|congruence|by rewrite <- E2].
Qed.

Lemma tidy_forget s w ts i rec ip : tidy s w ts -> ts !! i = Some (Looked rec ip) -> tidy s w (delete i ts).
Proof.
  intros [Hwf Hp Hu Ht Ha Hs] Hi. split; [done..| | |].
  - intros j t [_ Hj]%lookup_delete_Some. by eapply Ht.
  - intros j k t t' [_ Hj]%lookup_delete_Some [_ Hk]%lookup_delete_Some. by eapply Ha.
  - intros r Hr Hl Hset. apply Hs; [done..|]. intros j rec' ip' Hj. apply (Hset j rec' ip'). rewrite lookup_delete_ne; [done|congruence].
Qed.

(** A change of DNS that agrees on a name, as far as the service cares. *)
Definition undisturbed (w w' : W) (n : string) : Prop :=
  addresses (content w') n = addresses (content w) n /\ (unaliased (content w) n -> unaliased (content w') n).

Lemma thread_moved s w w' t : thread_ok s w t -> undisturbed w w' (t_name t) -> thread_ok s w' t.
Proof.
  intros [H1 H2 H3 H4 H5 H6] [Ha Hu]. split; auto. destruct t; unfold t_name in *; cbn in *; by rewrite Ha.
Qed.

Lemma tidy_begin s w ts i rec ip : tidy s w ts -> ts !! i = None -> rec ∈ records s -> ip_string ip <> "" ->
  (forall j t, ts !! j = Some t -> t_name t <> FQDN_ rec) -> tidy s w (<[i := Looked rec ip]> ts).
Proof.
  intros [Hwf Hp Hu Ht Ha Hs] Hi Hr Hip Hsolo. split; [done..| | |].
  - intros j t [[<- <-]|[_ Hj]]%lookup_insert_Some; [|by eapply Ht]. split; [by apply Hp|by apply Hu| | |done|]; cbn [t_rec].
    + destruct Hwf as [_ _ [_ Hids] _ _]. rewrite Forall_forall in Hids. apply Hids, list_elem_of_fmap_2, Hr.
    + intros r Hrr. split; intros Hid.
      * by rewrite (key_inj ID (records s) r rec) by (done || by apply ascending_nodup with (next_record s), Hwf).
      * intros Hf. destruct Hid. f_equal. eapply (key_inj FQDN_); [apply Hwf|done..].
    + intros Hl. apply Hs; [done..|]. intros j rec' ip' Hj. by apply (Hsolo j (Sent rec' ip')).
  - intros j k t t' [[<- <-]|[Hj Hjt]]%lookup_insert_Some [[<- <-]|[Hk Hkt]]%lookup_insert_Some He; [done|..|by eapply Ha].
    + by destruct (Hsolo k t').
    + by destruct (Hsolo j t).
  - intros r Hrr Hl Hset. apply Hs; [done..|]. intros j rec' ip' Hj. apply (Hset j rec' ip'). rewrite lookup_insert_ne; [done|congruence].
Qed.

(** Names differ, so one update leaves the others alone. *)
Lemma published_elsewhere w w' name ttl ip n : plain_name name -> plain_name n -> unaliased (content w) name ->
  content w' = published (content w) name ttl ip -> n <> name -> undisturbed w w' n.
Proof.
  intros Hp Hn Hu Hw Hne. split; rewrite Hw; [|by apply published_unaliased].
  rewrite published_addresses by done. destruct (equal_fold name n) eqn:E; [|done]. by apply plain_same in E.
Qed.

Lemma tidy_send s w ts i rec ip w' : tidy s w ts -> ts !! i = Some (Looked rec ip) ->
  content w' = published (content w) (FQDN_ rec) (TTL_ rec) ip -> tidy s w' (<[i := Sent rec ip]> ts).
Proof.
  intros Htidy Hi Hw. pose proof (td_threads _ _ _ Htidy _ _ Hi) as [H1 H2 H3 H4 H5 H6]. destruct Htidy as [Hwf Hp Hu Ht Ha Hs].
  unfold t_name in H1, H2. cbn [t_rec t_ip] in *.
  assert (Hel : forall n, plain_name n -> n <> FQDN_ rec -> undisturbed w w' n) by (intros n Hn Hne; by apply (published_elsewhere w w' (FQDN_ rec) (TTL_ rec) ip)).
  assert (Hself : addresses (content w') (FQDN_ rec) = [(TTL_ rec, ip_string ip)]).
  { rewrite Hw, published_addresses by done. by rewrite equal_fold_refl. }
  assert (Hun : forall n, unaliased (content w) n -> unaliased (content w') n) by (intros n Hn; rewrite Hw; by apply published_unaliased).
  split; [done|done|by auto| | |].
  - intros j t [[<- <-]|[Hne Hj]]%lookup_insert_Some.
    + split; unfold t_name; cbn; auto.
    + apply (thread_moved s w); [by eapply Ht|]. apply Hel; [by eapply th_plain, Ht|].
      intros He. apply Hne. eapply Ha; [exact Hi|exact Hj|by symmetry].
  - intros j k t t' [[<- <-]|[Hj Hjt]]%lookup_insert_Some [[<- <-]|[Hk Hkt]]%lookup_insert_Some He; [done| | |by eapply Ha].
    + by eapply Ha.
    + by eapply Ha.
  - intros r Hr Hl Hset. assert (Hne : FQDN_ r <> FQDN_ rec).
    { intros He. apply (Hset i rec ip); [apply lookup_insert_eq|done]. }
    destruct (Hel (FQDN_ r) (Hp r Hr) Hne) as [-> _]. apply Hs; [done..|].
    intros j rec' ip' Hj. apply (Hset j rec' ip'). rewrite lookup_insert_ne; [done|]. intros ->. rewrite Hi in Hj. done.
Qed.

(** The rows after a stamp. *)
Lemma stamped_rows now id ip s r : r ∈ records (MarkUpdated no_fault now id ip s).2 ->
  exists q, q ∈ records s /\ ID r = ID q /\ FQDN_ r = FQDN_ q /\ TTL_ r = TTL_ q /\ LastIP r = if ID q =? id then ip else LastIP q.
Proof.
  unfold MarkUpdated, stamp, stmt, no_fault. cbn. intros (q & -> & Hq)%list_elem_of_fmap. exists q. by destruct (ID q =? id).
Qed.

Lemma tidy_stamp now s w ts i rec ip : tidy s w ts -> ts !! i = Some (Sent rec ip) ->
  tidy (MarkUpdated no_fault now (ID rec) (ip_string ip) s).2 w (delete i ts).
Proof.
  intros Htidy Hi. pose proof (td_threads _ _ _ Htidy _ _ Hi) as [H1 H2 H3 H4 H5 H6]. destruct Htidy as [Hwf Hp Hu Ht Ha Hs].
  unfold t_name in H1, H2. cbn [t_rec t_ip] in *.
  assert (Hname : forall q, q ∈ records s -> ID q = ID rec -> FQDN_ q = FQDN_ rec /\ TTL_ q = TTL_ rec).
  { intros q Hq Hid. destruct (H4 q Hq) as [Hsame _]. by injection (Hsame Hid). }
  split.
  - by apply wf_stamp.
  - intros r (q & Hq & _ & -> & _)%stamped_rows. auto.
  - intros r (q & Hq & _ & -> & _)%stamped_rows. auto.
  - intros j t [Hne Hj]%lookup_delete_Some. pose proof (Ht j t Hj) as [K1 K2 K3 K4 K5 K6]. split; try done.
    intros r (q & Hq & E1 & E2 & E3 & E4)%stamped_rows. destruct (K4 q Hq) as [Ksame Kother]. split.
    + intros Hid. rewrite E1 in Hid. specialize (Ksame Hid). destruct (Z.eqb_spec (ID q) (ID rec)) as [Heq|_].
      * exfalso. apply Hne. eapply Ha; [exact Hi|exact Hj|]. unfold t_name. cbn.
        destruct (Hname q Hq Heq) as [<- _]. by injection Ksame.
      * unfold essence in *. by rewrite E1, E2, E3, E4.
    + intros Hid Hf. rewrite E1 in Hid. rewrite E2 in Hf. rewrite E4. destruct (Z.eqb_spec (ID q) (ID rec)) as [Heq|_]; [|by apply Kother].
      exfalso. apply Hne. eapply Ha; [exact Hi|exact Hj|]. unfold t_name. cbn. destruct (Hname q Hq Heq) as [<- _]. done.
  - intros j k t t' [_ Hj]%lookup_delete_Some [_ Hk]%lookup_delete_Some. by eapply Ha.
  - intros r (q & Hq & E1 & E2 & E3 & E4)%stamped_rows Hl Hset. rewrite E2, E3, E4 in *.
    destruct (Z.eqb_spec (ID q) (ID rec)) as [Heq|Hneq].
    + destruct (Hname q Hq Heq) as [-> ->]. done.
    + destruct (decide (FQDN_ q = FQDN_ rec)) as [Hf|Hf].
      { destruct (H4 q Hq) as [_ Hother]. by destruct (Hl (Hother Hneq Hf)). }
      apply Hs; [done..|]. intros j rec' ip' Hj He. destruct (decide (i = j)) as [<-|Hne]; [rewrite Hi in Hj; naive_solver|].
      apply (Hset j rec' ip'); [by rewrite lookup_delete_ne|done].
Qed.

Lemma tidy_elsewhere s w w' ts : tidy s w ts ->
  (forall n, n ∈ (FQDN_ <$> records s) \/ (exists i t, ts !! i = Some t /\ t_name t = n) -> undisturbed w w' n) -> tidy s w' ts.
Proof.
  intros [Hwf Hp Hu Ht Ha Hs] He. assert (Hrow : forall r, r ∈ records s -> undisturbed w w' (FQDN_ r)).
  { intros r Hr. apply He. left. by apply list_elem_of_fmap_2. }
  split; [done|done| | |done|].
  - intros r Hr. apply Hrow; auto.
  - intros i t Hi. apply (thread_moved s w); [by eapply Ht|]. apply He. eauto.
  - intros r Hr Hl Hset. destruct (Hrow r Hr) as [-> _]. auto.
Qed.

Lemma tidy_manage fault c s w ts : admissible (content w) c -> tidy s w ts -> tidy (run s (fault, c)) w ts.
Proof.
  intros Hc Ht. apply (tidy_rows s); [done|by apply run_wf, Ht| |].
  - destruct c as [rand name zone ttl|name|rand name|? ? ?|? ?|now zone serial ct keep|host day ? ? ?|cutoff]; cbn in Hc; try done; unfold run; cbn.
    + unfold Add, stmt, insert_record. destruct (fault 0%nat); cbn; [lia|]. destruct (existsb _ _); cbn; lia.
    + unfold Del, stmt. destruct (fault 0%nat); cbn; [lia|]. destruct (_ =? _)%nat; cbn; lia.
    + unfold Rotate, stmt, update_hash. destruct (fault 0%nat); cbn; [lia|]. destruct (_ && _); [cbn; lia|].
      destruct (length _ =? 0)%nat; cbn; [lia|]. destruct (select_record _ _ _ _); cbn; lia.
    + unfold SnapshotPut, stmt. repeat (case_match; cbn; try lia).
    + unfold AddTraffic, stmt. destruct (fault 0%nat); cbn; lia.
    + unfold PruneTraffic, stmt. destruct (fault 0%nat); cbn; lia.
  - intros r Hr. apply manage_rows in Hr as [Hq|(rand & name & zone & ttl & -> & Hf & Hl & Hid)].
    + by left.
    + destruct Hc as [Hb Hun]. right. rewrite Hf. split_and!; [done|done|by split_and!; [apply FQDN_lower|apply FQDN_dotted|]|done].
    + intros ? ? ->. done.
    + intros ? ? ? ->. done.
Qed.

(** What an answer says is served. *)
Definition holds (w : W) (o : option verdict) : Prop :=
  match o with
  | Some (rec, ip, Ok _) => addresses (content w) (FQDN_ rec) = [(TTL_ rec, ip_string ip)]
  | _ => True
  end.

Definition tidy_state (x : state) : Prop := tidy x.1.1 x.1.2 x.2.

Lemma tidy_step x o y : tidy_state x -> step true x o y -> tidy_state y /\ holds y.1.2 o.
Proof.
  intros Ht H. destruct H as [i r cfg flookup s w ts rec ip Hi Hl Hip Hsolo|i rec ip now s w ts Hi He|i rec ip u s w ts w' Hi Hne Hu|
    i rec ip u s w ts w' e Hi Hne Hnet Hu|i rec ip now s w ts Hi|fault c s w ts Hc|s w w' ts He];
    unfold tidy_state in *; cbn [fst snd] in *.
  - split; [|done]. apply tidy_begin; [done|done|by eapply Lookup_ok|by eapply clientIP_parsed|by apply Hsolo].
  - pose proof (td_threads _ _ _ Ht _ _ Hi) as [_ _ _ _ Hne Hserved]. split.
    + eapply tidy_forget; [|exact Hi]. apply (tidy_rows s); [done|apply wf_stamp; [done|apply Ht]|done|].
      intros r Hr. left. by eapply seen_rows.
    + cbn in *. rewrite Hserved, He; [done|]. by rewrite He.
  - split; [|done]. apply (Update_spec content exchange) in Hu; [|done]. cbn [is_ok] in Hu.
    rewrite plain_Fqdn in Hu by (by apply (td_threads _ _ _ Ht _ _ Hi)). by apply (tidy_send s w).
  - split; [|done]. apply (Update_spec content exchange) in Hu; [|done]. cbn [is_ok] in Hu. eapply tidy_forget; [|exact Hi].
    apply (tidy_elsewhere s w); [done|]. intros n _. unfold undisturbed. by rewrite Hu.
  - split; [by apply tidy_stamp|]. by pose proof (td_threads _ _ _ Ht _ _ Hi) as [_ _ _ _ _ Hserved].
  - split; [by apply tidy_manage|done].
  - split; [by apply (tidy_elsewhere s w)|done].
Qed.

Lemma tidy_start w : tidy empty_db w ∅.
Proof. split; [apply wf_empty|by intros ? ?%elem_of_nil..|done|done|by intros ? ?%elem_of_nil]. Qed.

Lemma tidy_steps x vs y : steps true x vs y -> tidy_state x -> tidy_state y.
Proof. induction 1 as [|x o y vs z Hs _ IH]; [done|]. intros Hx. apply IH. by eapply tidy_step in Hs as [? _]. Qed.

(** C4: requests may overlap as they like, and with the administration, as long
    as no two for the same name do: then every [good] and every [nochg] is true
    when it is given, the name being served with exactly that address and the
    record's ttl. As for requests one at a time, this asks that the stamps in
    the database are written, that no answer of the name server is lost after
    it acted, that the names the administration adds are no aliases and have no
    escapes, and that changes of DNS from elsewhere leave the names that are
    registered or being updated alone. *)
Theorem overlap_truthful w0 vs x o y : steps true (empty_db, w0, ∅) vs x -> step true x o y -> holds y.1.2 o.
Proof. intros Hs%tidy_steps H; [|apply tidy_start]. by eapply tidy_step in H as [_ ?]. Qed.

End overlap.

(** ** Two addresses at once *)

Module OverlapExample.
Import ServiceExample.
#[local] Existing Instances ServerExample.plain Sample.dns Sample.literal_laws ServiceExample.name_server.

#[local] Abbreviation step' solo := (step (fun w : list Sample.srr => w) exchange solo).
#[local] Abbreviation steps' solo := (steps (fun w : list Sample.srr => w) exchange solo).

Definition home : Record' := from_ok (mkRecord 0 "" "" 0 "" "" 0 0 false) (Lookup no_fault s1 (token_of (ask_from "198.51.100.7"))).
Definition ip1 : addr := V4 [198; 51; 100; 7].
Definition ip2 : addr := V4 [203; 0; 113; 9].
Definition dns_of (ip : addr) (w : list Sample.srr) : list Sample.srr := (Ddns.Update exchange (client "s3cret") (FQDN_ home) (Zone_ home) ip (TTL_ home) w).1.
Definition stamped (ip : addr) (s : db) : db := (MarkUpdated no_fault 100 (ID home) (ip_string ip) s).2.

Lemma home_found peer : Lookup no_fault s1 (token_of (ask_from peer)) = Ok home.
Proof. vm_compute. reflexivity. Qed.

Lemma registered : admissible served0 (CAdd "aaa" "home.example" "example" 60).
Proof.
  split; [by vm_compute|]. intros r Hr Hc.
  apply elem_of_cons in Hr as [-> |Hr]; [done|]. apply elem_of_cons in Hr as [-> |Hr]; [done|].
  by apply list_elem_of_singleton in Hr as ->.
Qed.

Definition looked_one : gmap nat thread := <[0%nat := Looked home ip1]> ∅.
Definition looked_two : gmap nat thread := <[1%nat := Looked home ip2]> looked_one.
Definition sent_one : gmap nat thread := <[0%nat := Sent home ip1]> looked_two.
Definition sent_two : gmap nat thread := <[1%nat := Sent home ip2]> sent_one.
Definition final : db := stamped ip1 (stamped ip2 s1).
Definition home1 : Record' := from_ok home (Lookup no_fault final (token_of (ask_from "198.51.100.7"))).

(** Without the waiting the promise is broken: two requests of one token both
    get [good], the update of one and the stamp of the other come last, and the
    client whose address was stamped is told [nochg] from then on, while DNS
    serves the other address. *)
Lemma race_lies : exists vs x o y, steps' false (empty_db, served0, ∅) vs x /\ step' false x o y /\
  o = Some (home1, ip1, Ok false) /\ addresses y.1.2 (FQDN_ home1) = [(60, "203.0.113.9")].
Proof.
  exists [(home, ip2, Ok true); (home, ip1, Ok true)], (final, dns_of ip2 (dns_of ip1 served0), {[2%nat := Looked home1 ip1]}).
  eexists _, _. split_and!; [|eapply (same_address _ _ _ 2%nat home1 ip1 100); [done|by vm_compute]|reflexivity|by vm_compute].
  eapply (steps_cons _ _ _ _ None); [by apply (manage _ _ _ no_fault (CAdd "aaa" "home.example" "example" 60)), registered|].
  change (run empty_db (no_fault, CAdd "aaa" "home.example" "example" 60)) with s1.
  eapply (steps_cons _ _ _ _ None).
  { apply (begin _ _ _ 0%nat (ask_from "198.51.100.7") ServerExample.cfg no_fault s1 served0 ∅ home ip1); [done|apply home_found|by vm_compute|done]. }
  eapply (steps_cons _ _ _ _ None).
  { apply (begin _ _ _ 1%nat (ask_from "203.0.113.9") ServerExample.cfg no_fault s1 served0 looked_one home ip2); [done|apply home_found|by vm_compute|done]. }
  eapply (steps_cons _ _ _ _ None).
  { apply (send _ _ _ 0%nat home ip1 (client "s3cret") s1 served0 looked_two (dns_of ip1 served0)); [done|by vm_compute|by vm_compute]. }
  eapply (steps_cons _ _ _ _ None).
  { apply (send _ _ _ 1%nat home ip2 (client "s3cret") s1 (dns_of ip1 served0) sent_one (dns_of ip2 (dns_of ip1 served0))); [done|by vm_compute|by vm_compute]. }
  eapply (steps_cons _ _ _ _ (Some _) _ [_]); [by apply (stamp_sent _ _ _ 1%nat home ip2 100)|].
  eapply (steps_cons _ _ _ _ (Some _) _ []); [by apply (stamp_sent _ _ _ 0%nat home ip1 100)|].
  replace (delete 0%nat (delete 1%nat sent_two)) with (∅ : gmap nat thread) by (vm_compute; reflexivity).
  eapply (steps_cons _ _ _ _ None _ []); [|apply steps_nil].
  apply (begin _ _ _ 2%nat (ask_from "198.51.100.7") ServerExample.cfg no_fault final _ ∅ home1 ip1); [done|by vm_compute|by vm_compute|done].
Qed.

Lemma overlap_truthful_witness : addresses (dns_of ip1 served0) "home.example." = [(60, "198.51.100.7")].
Proof.
  assert (Hs : steps' true (empty_db, served0, ∅) [] (s1, dns_of ip1 served0, <[0%nat := Sent home ip1]> looked_one)).
  { eapply (steps_cons _ _ _ _ None _ []); [by apply (manage _ _ _ no_fault (CAdd "aaa" "home.example" "example" 60)), registered|].
    eapply (steps_cons _ _ _ _ None _ []).
    { apply (begin _ _ _ 0%nat (ask_from "198.51.100.7") ServerExample.cfg no_fault s1 served0 ∅ home ip1); [done|apply home_found|by vm_compute|done]. }
    eapply (steps_cons _ _ _ _ None _ []); [|apply steps_nil].
    apply (send _ _ _ 0%nat home ip1 (client "s3cret") s1 served0 looked_one (dns_of ip1 served0)); [done|by vm_compute|by vm_compute]. }
  assert (Hst : step' true (s1, dns_of ip1 served0, <[0%nat := Sent home ip1]> looked_one) (Some (home, ip1, Ok true))
                  (stamped ip1 s1, dns_of ip1 served0, delete 0%nat (<[0%nat := Sent home ip1]> looked_one))).
  { apply (stamp_sent _ _ _ 0%nat home ip1 100). done. }
  exact (overlap_truthful (fun w => w) exchange served0 [] _ _ _ Hs Hst).
Defined.

End OverlapExample.
