(* ===== verification/Host.v ===== *)
(** * Host: what the static zone editor runs on the machine

    [internal/zonefile/checkzone.go] and the defaults an [Editor] of
    [internal/filezone/filezone.go] falls back to when no hook is set: the
    inventory from named-checkconf, named-checkzone, rndc and the query for
    the served serial. The four programs and the name server are parameters;
    what is passed to them, and what is left behind, is modelled. *)

From Stdlib Require Import String Ascii.
From S2P Require Import Prelude GoStrings FS DnsLib Named NamedParse FileZone.

Inductive cz_error := InvalidName (zone : string) | CheckzoneMissing | CzIO (e : io_error) | Rejected (zone : string).

(** The error's text is not modelled. *)
Definition cz_text (e : cz_error) : string :=
  match e with
  | InvalidName zone => "invalid zone name " +:+ zone
  | CheckzoneMissing => "named-checkzone not found in PATH"
  | CzIO _ => "temporary file"
  | Rejected zone => "named-checkzone rejected " +:+ zone
  end.

Section host.
Context {D : Dns} (fault : nat -> option string) (tempname : nat -> string -> string) (euid egid : Z).

(** The machine: [dns.IsDomainName], where the tools are, the output of
    named-checkconf and the answer of the name server to a query for a SOA. *)
Record Host := mkHost {
  h_isDomainName : string -> bool;
  h_checkzone : option string;
  h_rndc : option string;
  h_checkConf : string -> result string string;
  h_soa : string -> string -> world -> result string (list RR)
}.

Context (h : Host).

Definition checkzone_cmd (bin zone tmp : string) : list string :=
  [bin; "-k"; "fail"; "-m"; "fail"; "-n"; "fail"; "-i"; "full"; zone; tmp].

(** The temporary file is filled, closed and checked. *)
Definition check_tmp (bin zone content tmp : string) : io cz_error unit :=
  _ ← or_close fault tmp (wrap CzIO (write_at fault tmp content));
  _ ← wrap CzIO (Close fault tmp);
  wrap (fun _ => Rejected zone) (exec fault (checkzone_cmd bin zone tmp)).

Definition CheckZone (zone content : string) : io cz_error unit :=
  if String.eqb zone "" || has_prefix "-" zone || negb (h_isDomainName h zone) then fail (InvalidName zone)
  else
    match h_checkzone h with
    | None => fail CheckzoneMissing
    | Some bin =>
        tmp ← wrap CzIO (CreateTemp fault tempname euid egid "/tmp");
        deferred (check_tmp bin zone content tmp) (fun w => (Remove fault tmp w).2)
    end.

(** ** The defaults of the editor's hooks *)

Definition namedConf (s : string) : string := if String.eqb s "" then "/etc/named.conf" else s.
Definition server (s : string) : string := if String.eqb s "" then "127.0.0.1:53" else s.

Definition inventory (nc : string) : io string Inventory := fun w =>
  match h_checkConf h (namedConf nc) with
  | Ok dump => (Ok (NamedParse.Parse dump), w)
  | Err e => (Err ("read named.conf: " +:+ e), w)
  end.

Definition default_editor (nc dns_server : string) (editable : list string) (keep : Z) : Editor :=
  mkEditor editable "" "" keep (inventory nc)
    (fun zone content => wrap cz_text (CheckZone zone content))
    (rndcReload fault (h_rndc h))
    (fun zone serial w => (verifySerial (h_soa h (server dns_server) zone w) serial, w))
    (mret tt).

End host.
Arguments Host {D}.

(** ** What the checker is given and what it leaves *)

Section safety.
Context {D : Dns} (fault : nat -> option string) (tempname : nat -> string -> string) (euid egid : Z) (h : Host).

Lemma touches_check_tmp bin zone content tmp : touches (fun q => q = tmp) (check_tmp fault bin zone content tmp).
Proof.
  unfold check_tmp. apply touches_bind; [|eauto with goddns]. intros w q Hq. unfold or_close, wrap.
  pose proof (touches_write_at (fun q => q = tmp) fault tmp content eq_refl w q Hq) as H1.
  destruct (write_at fault tmp content w) as [[[]|] w1]; cbn in *; [done|].
  by rewrite (touches_Close (fun q => q = tmp) fault tmp _ q Hq).
Qed.

(** The run of the checker on a temporary file that was just created. *)
Lemma check_tmp_spec bin zone content tmp w : is_Some (w_files w !! tmp) ->
  let out := check_tmp fault bin zone content tmp w in
  is_Some (w_files out.2 !! tmp) /\
  (w_cmds out.2 = w_cmds w ++ [checkzone_cmd bin zone tmp] \/ w_cmds out.2 = w_cmds w /\ out.1 <> Ok tt).
Proof.
  intros [n Hs]. unfold check_tmp, mbind, io_bind, or_close, wrap, write_at, Close, exec, syscall. cbn.
  repeat (case_match; simplify_eq/=); rewrite ?lookup_insert_eq in *; eauto.
Qed.

Lemma CheckZone_spec zone content w r w' :
  CheckZone fault tempname euid egid h zone content w = (r, w') ->
  preserved (w_files w) (w_files w') /\
  ((forall t, fault t = None) -> w_files w' = w_files w) /\
  (w_cmds w' = w_cmds w /\ r <> Ok tt \/
   exists bin tmp, h_checkzone h = Some bin /\ w_files w !! tmp = None /\
     zone <> "" /\ has_prefix "-" zone = false /\ h_isDomainName h zone = true /\
     w_cmds w' = w_cmds w ++ [checkzone_cmd bin zone tmp]).
Proof.
  unfold CheckZone. destruct (String.eqb_spec zone "") as [->|Hne]; [intros [= <- <-]; split_and!; [done..|by left]|].
  destruct (has_prefix "-" zone) eqn:Hp; [intros [= <- <-]; split_and!; [done..|by left]|].
  destruct (h_isDomainName h zone) eqn:Hd; [|intros [= <- <-]; split_and!; [done..|by left]].
  destruct (h_checkzone h) as [bin|] eqn:Hb; [|intros [= <- <-]; split_and!; [done..|by left]]. cbn [orb negb].
  intros H. apply io_bind_ok in H as [(tmp & w1 & H1 & H)|(e & H1 & ->)]; unfold wrap, CreateTemp, syscall in H1.
  2: { repeat (case_match; simplify_eq/=); split_and!; try done; by left. }
  destruct (fault (w_tick w)) eqn:Ef; [done|]. destruct (w_files w !! tempname (w_tick w) "/tmp") eqn:En; [done|].
  injection H1 as <- <-. set (tmp := tempname (w_tick w) "/tmp") in *.
  set (w1 := tick _) in H. unfold deferred in H.
  assert (Hs1 : w_files w1 = <[tmp := Reg "" 384 euid egid]> (w_files w)) by done.
  destruct (check_tmp_spec bin zone content tmp w1) as [Hs2 Hc]; [rewrite Hs1, lookup_insert_eq; eauto|].
  pose proof (touches_check_tmp bin zone content tmp w1) as Ht.
  destruct (check_tmp fault bin zone content tmp w1) as [r2 w2]. cbn [fst snd] in *. injection H as <- <-.
  assert (Hframe : forall p, p <> tmp -> w_files (Remove fault tmp w2).2 !! p = w_files w !! p).
  { intros p Hne'. rewrite (touches_Remove (fun q => q = tmp) fault tmp eq_refl w2 p Hne').
    rewrite (Ht p Hne'), Hs1. by rewrite lookup_insert_ne. }
  split_and!.
  - intros p [n Hp']. apply Hframe. intros ->. congruence.
  - intros H0. apply map_eq. intros p. destruct (decide (p = tmp)) as [->|]; [|by apply Hframe].
    rewrite En. unfold Remove, syscall. rewrite H0. destruct Hs2 as [n ->]. cbn. by rewrite lookup_delete_eq.
  - assert (Hcm : w_cmds (Remove fault tmp w2).2 = w_cmds w2)
      by (unfold Remove, syscall; by repeat (case_match; simplify_eq/=)).
    rewrite Hcm. destruct Hc as [Hc|[Hc Hr]]; [right|left; done]. exists bin, tmp. done.
Qed.

(** The checker sees a name that cannot be read as one of its flags,
    whoever chose the zone; it is run at most once, and always when the content
    is accepted. No file that was there is changed, and when no call fails the
    temporary file is gone as well. *)
Theorem checkzone_argument_safe zone content w r w' :
  CheckZone fault tempname euid egid h zone content w = (r, w') ->
  preserved (w_files w) (w_files w') /\
  ((forall t, fault t = None) -> w_files w' = w_files w) /\
  (w_cmds w' = w_cmds w /\ r <> Ok tt \/
   exists bin tmp, h_checkzone h = Some bin /\ w_files w !! tmp = None /\
     zone <> "" /\ has_prefix "-" zone = false /\ h_isDomainName h zone = true /\
     w_cmds w' = w_cmds w ++ [checkzone_cmd bin zone tmp]).
Proof. apply CheckZone_spec. Qed.

(** *** The default editor meets what the editor's theorems ask of its hooks *)

Record tame (e : Editor) : Prop := {
  tame_inv : external (e_Inv e);
  tame_checkzone zn c : external (e_CheckZone e zn c);
  tame_reload zn : external (e_Reload e zn);
  tame_verify zn n : external (e_Verify e zn n);
  tame_hook : external (e_beforeWrite e)
}.

(** The checker's temporary file is never a link. *)
Lemma CheckZone_links zone content : keeps_links (CheckZone fault tempname euid egid h zone content).
Proof.
  unfold CheckZone. case_match; [auto with goddns|]. case_match; [|auto with goddns]. intros w.
  unfold mbind, io_bind, wrap at 1, CreateTemp, syscall at 1. destruct (fault _); [done|].
  set (tmp := tempname _ _). destruct (w_files w !! tmp) eqn:En; [done|].
  set (w1 := tick _). assert (H1 : same_links (w_files w) (w_files w1)) by (apply same_links_insert; [done|intros t; by rewrite En]).
  unfold deferred. assert (H2 : keeps_links (check_tmp fault s zone content tmp)).
  { apply keeps_links_bind; [auto with goddns|]. intros _. apply keeps_links_bind; auto with goddns. }
  specialize (H2 w1). destruct (check_tmp fault s zone content tmp w1) as [r w2]. cbn [fst snd] in *.
  assert (H3 : same_links (w_files w) (w_files w2)) by by eapply same_links_trans.
  eapply same_links_trans; [exact H3|]. apply links_Remove, (same_links_no_link _ _ _ H3). intros t. by rewrite En.
Qed.

Lemma CheckZone_open zone content : keeps_open (CheckZone fault tempname euid egid h zone content).
Proof.
  unfold CheckZone. case_match; [auto with goddns|]. case_match; [|auto with goddns].
  apply keeps_open_bind; [auto with goddns|]. intros tmp. apply (keeps_open_deferred _ (Remove fault tmp)); [|apply keeps_open_syscall].
  apply keeps_open_bind; [apply keeps_open_or_close, keeps_open_wrap, keeps_open_syscall|]. intros _.
  apply keeps_open_bind; [apply keeps_open_wrap, keeps_open_syscall|auto with goddns].
Qed.


Lemma wrap_files {E E' A} (f : E -> E') (m : io E A) w : w_files (wrap f m w).2 = w_files (m w).2.
Proof. unfold wrap. by destruct (m w) as [[|] ?]. Qed.

Lemma default_editor_tame nc server editable keep :
  tame (default_editor fault tempname euid egid h nc server editable keep).
Proof.
  constructor; cbn [default_editor e_Inv e_CheckZone e_Reload e_Verify e_beforeWrite].
  - intros w. unfold inventory. destruct (h_checkConf h _); (split_and!; [apply preserved_refl|done|done]).
  - intros zn c w. rewrite wrap_world. split_and!; [|apply CheckZone_links|apply CheckZone_open].
    destruct (CheckZone fault tempname euid egid h zn c w) as [r w'] eqn:E. by apply CheckZone_spec in E as [H _].
  - intros zn w. unfold rndcReload. destruct (h_rndc h) as [bin|]; [|split_and!; [apply preserved_refl|done|done]].
    rewrite wrap_world. pose proof (touches_nothing _ w (touches_exec (fun _ => False) fault [bin; "reload"; zn])) as Hf.
    cbv zeta. rewrite Hf, keeps_open_exec. split_and!; [apply preserved_refl|done|done].
  - intros zn n w. split_and!; [apply preserved_refl|done|done].
  - intros w. split_and!; [apply preserved_refl|done|done].
Qed.

(** A program that changes no file at all. *)
Definition readonly {E A} (m : io E A) : Prop := forall w, w_files (m w).2 = w_files w.

Lemma readonly_touches {E A} (m : io E A) : touches (fun _ => False) m -> readonly m.
Proof. intros H w. apply map_eq. intros p. apply H. tauto. Qed.

Lemma default_lookup_readonly nc server editable keep zone :
  readonly (lookup (default_editor fault tempname euid egid h nc server editable keep) zone).
Proof. intros w. unfold lookup. cbn. unfold attempt, mbind, io_bind, inventory. by destruct (h_checkConf h _). Qed.

(** Previews read: a preview with the default hooks changes no file. *)
Lemma default_preview_readonly today nc server editable keep zone ops :
  readonly (Preview fault today (default_editor fault tempname euid egid h nc server editable keep) zone ops).
Proof.
  assert (Hpure : forall A (r : result fz_error A), touches (fun _ => False) (FileZone.pure r)) by (by intros A r w p _).
  apply readonly_touches. unfold Preview. apply touches_bind; [|intros z; apply touches_bind].
  - unfold resolve. apply touches_bind; [|intros inv; apply touches_bind; [done|intros z]].
    + apply touches_wrap. intros w p _. cbn. unfold inventory. by destruct (h_checkConf h _).
    + apply touches_bind; [auto with goddns|]. intros [|]; [case_match|]; auto with goddns.
  - unfold read_screened. apply touches_bind; [auto with goddns|]. intros c. apply touches_bind; auto with goddns.
  - intros c. apply touches_bind; auto with goddns.
Qed.

End safety.

(** ** Witness *)

Module HostExample.

#[local] Existing Instance Sample.dns.

Definition host : Host := mkHost (fun z => negb (contains_any z " ")) (Some "/usr/sbin/named-checkzone") None
  (fun nc => Err "no named") (fun server zone w => Err "no answer").
Definition temp (t : nat) (dir : string) : string := dir +:+ "/goddns-checkzone-1.zone".
Definition w0 : world := mkWorld {["/etc/bind/db.example" := Reg "zone" 420 7 8]} 0 [] no_open.
Definition run := CheckZone FileZoneExample.no_fault temp 0 0 host "example" "content" w0.

Example flag_refused :
  CheckZone FileZoneExample.no_fault temp 0 0 host "-h" "content" w0 = (Err (InvalidName "-h"), w0).
Proof. reflexivity. Qed.

Lemma checkzone_argument_safe_witness :
  preserved (w_files w0) (w_files run.2) /\
  ((forall t, FileZoneExample.no_fault t = None) -> w_files run.2 = w_files w0) /\
  (w_cmds run.2 = w_cmds w0 /\ run.1 <> Ok tt \/
   exists bin tmp, h_checkzone host = Some bin /\ w_files w0 !! tmp = None /\
     "example" <> "" /\ has_prefix "-" "example" = false /\ h_isDomainName host "example" = true /\
     w_cmds run.2 = w_cmds w0 ++ [checkzone_cmd bin "example" tmp]).
Proof.
  assert (H : CheckZone FileZoneExample.no_fault temp 0 0 host "example" "content" w0 = (run.1, run.2))
    by apply surjective_pairing.
  exact (checkzone_argument_safe FileZoneExample.no_fault temp 0 0 host "example" "content" w0 run.1 run.2 H).
Defined.

End HostExample.
