(* ===== verification/Zoned.v ===== *)
(** * Zoned: the privileged write helper

    [internal/zoned/zoned.go]: the daemon sends one structured record edit
    over a unix socket; the helper, which runs as root, checks the peer,
    decodes the request, and judges it by its own configuration. A connection
    is one step: what the client sends and what it gets back. The JSON texts
    of requests and responses are the class [Wire]. *)

From Stdlib Require Import String Ascii.
From S2P Require Import Prelude GoStrings Encoding FS DnsLib Ddns Config Named ZoneFile FileZone Host.

Definition maxRequest : nat := Z.to_nat (64 * 1024).
#[global] Opaque maxRequest.

Record Request := mkRequest { rq_Zone : string; rq_Action : string; rq_RR : string; rq_Apply : bool }.

Record Response := mkResponse {
  OK : bool; Error : string; Added : list string; Removed : list string; Serial : Z; Backup : string
}.

Definition failed (why : string) : Response := mkResponse false why [] [] 0 "".

(** [encoding/json] on the two types; the decoders read the first value. *)
Class Wire := {
  enc_request : Request -> string;
  dec_request : string -> result string Request;
  enc_response : Response -> string;
  dec_response : string -> result string Response
}.

Section helper.
Context {D : Dns} {J : Wire} (fault : nat -> option string) (tempname : nat -> string -> string) (euid egid : Z).
Context (today : date) (now_ns : nat -> Z) (h : Host).
(** The text of an editor's error. *)
Context (fz_text : fz_error -> string).

(** [SO_PEERCRED]: the peer's uid and gid, when the connection is a unix
    socket and the kernel answers. *)
Definition peerOK (cred : option (Z * Z)) (allowGID : Z) : bool :=
  if allowGID <=? 0 then true
  else match cred with Some (uid, gid) => (uid =? 0) || (gid =? allowGID) | None => false end.

Definition editorFor (cfg : Config) : Editor :=
  default_editor fault tempname euid egid h (NamedConf cfg) (DNSServer cfg) (EditableZones cfg) (HistoryKeep cfg).

Definition act_of (action : string) : Action := if String.eqb action "del" then DelRR else AddRR.

(** [Preview] or [Apply] of one record. *)
Definition run_editor (ed : Editor) (apply : bool) (zone : string) (ops : list Op) : io fz_error Result :=
  if apply then Apply fault tempname euid egid today now_ns ed zone ops else Preview fault today ed zone ops.

(** [cfg]: what loading the helper's own configuration gives now. *)
Definition process (cfg : result string Config) (req : Request) (w : world) : Response * world :=
  if negb (String.eqb (rq_Action req) "add") && negb (String.eqb (rq_Action req) "del") then
    (failed ("unsupported action " +:+ rq_Action req), w)
  else
    match cfg with
    | Err e => (failed ("config: " +:+ e), w)
    | Ok cfg =>
        match ParseRR (rq_RR req) (rq_Zone req) with
        | Err e => (failed ("parse: " +:+ e), w)
        | Ok rr =>
            match run_editor (editorFor cfg) (rq_Apply req) (rq_Zone req) [mkOp (act_of (rq_Action req)) (Some rr)] w with
            | (Err e, w') => (failed (fz_text e), w')
            | (Ok res, w') => (mkResponse true "" (res_Added res) (res_Removed res) (res_Serial res) (res_Backup res), w')
            end
        end
    end.

(** A server: the group that may connect, and its configuration. *)
Record Server := mkServer { PeerGID : Z; Cfg : result string Config }.

Definition serveConn (s : Server) (cred : option (Z * Z)) (input : string) (w : world) : string * world :=
  if negb (peerOK cred (PeerGID s)) then (enc_response (failed "permission denied"), w)
  else
    match dec_request (str_take maxRequest input) with
    | Err e => (enc_response (failed ("bad request: " +:+ e)), w)
    | Ok req => let '(resp, w') := process (Cfg s) req w in (enc_response resp, w')
    end.

(** The client: [conn] carries the request's bytes to the helper and the
    reply's back, or fails. *)
Definition Call (conn : string -> world -> result string string * world) (req : Request) (w : world)
  : result string Response * world :=
  match conn (enc_request req) w with
  | (Err e, w') => (Err e, w')
  | (Ok bytes, w') =>
      match dec_response (str_take maxRequest bytes) with
      | Err e => (Err e, w')
      | Ok resp => (if negb (OK resp) && negb (String.eqb (Error resp) "") then Err (Error resp) else Ok resp, w')
      end
  end.

(** The socket of a running helper, for a client with these credentials. *)
Definition socket (s : Server) (cred : option (Z * Z)) (bytes : string) (w : world) : result string string * world :=
  let '(reply, w') := serveConn s cred bytes w in (Ok reply, w').

End helper.

(** ** What a client can make the helper do *)

Section confinement.
Context {D : Dns} {J : Wire} (fault : nat -> option string) (tempname : nat -> string -> string) (euid egid : Z).
Context (today : date) (now_ns : nat -> Z) (h : Host) (fz_text : fz_error -> string).

#[local] Abbreviation process := (process fault tempname euid egid today now_ns h fz_text).
#[local] Abbreviation serveConn := (serveConn fault tempname euid egid today now_ns h fz_text).
#[local] Abbreviation editorFor := (editorFor fault tempname euid egid h).

Lemma peerOK_spec cred gid : peerOK cred gid = true ->
  gid <= 0 \/ exists uid g, cred = Some (uid, g) /\ (uid = 0 \/ g = gid).
Proof.
  unfold peerOK. destruct (Z.leb_spec gid 0); [by left|]. destruct cred as [[uid g]|]; [|done].
  intros [?%Z.eqb_eq|?%Z.eqb_eq]%orb_true_iff; right; eauto.
Qed.

(** A request that is answered without running the editor changes nothing. *)
Lemma process_runs cfg req w resp w' : process cfg req w = (resp, w') ->
  (w' = w /\ OK resp = false /\ Error resp <> "") \/
  exists c rr, cfg = Ok c /\ (rq_Action req = "add" \/ rq_Action req = "del") /\ ParseRR (rq_RR req) (rq_Zone req) = Ok rr /\
    w' = (run_editor fault tempname euid egid today now_ns (editorFor c) (rq_Apply req) (rq_Zone req)
            [mkOp (act_of (rq_Action req)) (Some rr)] w).2.
Proof.
  unfold Zoned.process. destruct (negb _ && negb _) eqn:Ea; [intros [= <- <-]; by left|].
  destruct cfg as [c|e]; [|intros [= <- <-]; by left].
  destruct (ParseRR _ _) as [rr|e] eqn:Er; [|intros [= <- <-]; by left].
  intros H. right. exists c, rr. split_and!; try done.
  - destruct (String.eqb_spec (rq_Action req) "add"); [by left|].
    destruct (String.eqb_spec (rq_Action req) "del"); [by right|done].
  - by destruct (run_editor _ _ _ _ _ _ _ _ _ _ w) as [[res|e] w1]; simplify_eq.
Qed.

Lemma preview_request_readonly cfg req w : rq_Apply req = false -> w_files (process cfg req w).2 = w_files w.
Proof.
  intros Ha. destruct (process cfg req w) as [resp w'] eqn:E. cbn.
  apply process_runs in E as [(-> & _)|(c & rr & _ & _ & _ & ->)]; [done|]. rewrite Ha. apply default_preview_readonly.
Qed.

Lemma apply_request_admitted cfg req w p :
  is_Some (w_files w !! p) -> (forall c, cfg = Ok c -> ~ is_backup (editorFor c) (rq_Zone req) (w_files w) p) ->
  w_files (process cfg req w).2 !! p <> w_files w !! p ->
  exists c inv z d, cfg = Ok c /\ (rq_Action req = "add" \/ rq_Action req = "del") /\ rq_Apply req = true /\
    inventory h (NamedConf c) w = (Ok inv, w) /\ ZoneByName inv (rq_Zone req) = Some z /\
    admitted (editorFor c) (rq_Zone req) p z d /\ exists m u g, w_files w !! p = Some (Reg d m u g).
Proof.
  intros Hs Hb Hch. destruct (process cfg req w) as [resp w'] eqn:E. cbn in Hch.
  destruct (rq_Apply req) eqn:Ha.
  2: { pose proof (preview_request_readonly cfg req w Ha) as Hr. rewrite E in Hr. cbn in Hr. by rewrite Hr in Hch. }
  apply process_runs in E as [(-> & _)|(c & rr & Hc & Hact & _ & ->)]; [done|]. rewrite Ha in Hch.
  destruct (default_editor_tame fault tempname euid egid h (NamedConf c) (DNSServer c) (EditableZones c) (HistoryKeep c)).
  destruct (edit_admitted fault tempname euid egid today now_ns (editorFor c) (rq_Zone req)
              ltac:(done) ltac:(done) ltac:(done) ltac:(done) ltac:(done) w
              (Apply fault tempname euid egid today now_ns (editorFor c) (rq_Zone req)
                 [mkOp (act_of (rq_Action req)) (Some rr)]) p) as (inv & w1 & z & d & Hi & Hz & Hadm & Hd); eauto.
  assert (w1 = w) as -> by (cbn in Hi; unfold inventory in Hi; by destruct (h_checkConf h _); simplify_eq).
  exists c, inv, z, d. done.
Qed.

(** C8: whatever bytes arrive on the helper's socket, a file that was there,
    other than the zone's backups, is changed only on an apply request for one
    addition or deletion, and only if the helper's own configuration and the
    name server's inventory make that file the file of the zone asked for:
    static, primary, listed as editable, outside the control panels. The
    sender is then root or in the configured group by its credentials, except
    when the helper started without a group (none was found): it checks no
    peer then, and whoever the socket's mode lets connect may send. Beyond
    that the client's word grants nothing. *)
Theorem helper_confines s cred input w p :
  is_Some (w_files w !! p) ->
  (forall c req, Cfg s = Ok c -> dec_request (str_take maxRequest input) = Ok req ->
     ~ is_backup (editorFor c) (rq_Zone req) (w_files w) p) ->
  w_files (serveConn s cred input w).2 !! p <> w_files w !! p ->
  (PeerGID s <= 0 \/ exists uid gid, cred = Some (uid, gid) /\ (uid = 0 \/ gid = PeerGID s)) /\
  exists req c inv z d, dec_request (str_take maxRequest input) = Ok req /\
    Cfg s = Ok c /\ (rq_Action req = "add" \/ rq_Action req = "del") /\ rq_Apply req = true /\
    inventory h (NamedConf c) w = (Ok inv, w) /\ ZoneByName inv (rq_Zone req) = Some z /\
    admitted (editorFor c) (rq_Zone req) p z d /\ exists m u g, w_files w !! p = Some (Reg d m u g).
Proof.
  intros Hs Hb. unfold Zoned.serveConn. destruct (peerOK cred (PeerGID s)) eqn:Ep; [|done]. cbn [negb].
  destruct (dec_request _) as [req|e] eqn:Eq; [|done]. intros Hch.
  split; [by apply peerOK_spec|]. exists req.
  destruct (apply_request_admitted (Cfg s) req w p Hs) as (c & inv & z & d & H); [intros c Hc; by apply Hb| |].
  - intros He. apply Hch. destruct (process (Cfg s) req w). done.
  - exists c, inv, z, d. done.
Qed.

(** A call to a helper that lets the client in is the helper's own work. *)
Lemma Call_process s cred req w :
  (forall e, fz_text e <> "") -> peerOK cred (PeerGID s) = true ->
  dec_request (str_take maxRequest (enc_request req)) = Ok req ->
  (let resp := (process (Cfg s) req w).1 in dec_response (str_take maxRequest (enc_response resp)) = Ok resp) ->
  Call (socket fault tempname euid egid today now_ns h fz_text s cred) req w =
  (let '(resp, w') := process (Cfg s) req w in (if OK resp then Ok resp else Err (Error resp), w')).
Proof.
  intros Ht Hp Hq Hr. unfold Call, socket, Zoned.serveConn. rewrite Hp, Hq. cbn [negb].
  destruct (process (Cfg s) req w) as [resp w'] eqn:E. cbn zeta in Hr. cbn [fst] in Hr. rewrite Hr.
  destruct (OK resp) eqn:Eo; [done|]. cbn [negb andb].
  destruct (String.eqb_spec (Error resp) "") as [He|]; [|done]. exfalso.
  unfold Zoned.process in E. repeat (case_match; simplify_eq/=); try done; by eapply Ht.
Qed.

(** A client whose previews are read as previews changes no file by them. *)
Lemma socket_previews s cred zone action line :
  (forall q, dec_request (str_take maxRequest (enc_request (mkRequest zone action line false))) = Ok q -> rq_Apply q = false) ->
  readonly (Call (socket fault tempname euid egid today now_ns h fz_text s cred) (mkRequest zone action line false)).
Proof.
  intros Hw w. unfold Call, socket, Zoned.serveConn. destruct (peerOK cred (PeerGID s)); cbn [negb].
  2: { by destruct (dec_response _). }
  destruct (dec_request _) as [q|e]; [|by destruct (dec_response _)].
  pose proof (preview_request_readonly (Cfg s) q w (Hw q eq_refl)) as Hr.
  destruct (process (Cfg s) q w) as [resp w']. by destruct (dec_response _).
Qed.

End confinement.

(** ** Witnesses *)

Module ZonedExample.

#[local] Existing Instance Sample.dns.

Definition nl : string := GoStrings.nl.

(** A wire format of the example's own: base64 fields between bars. *)
Definition dec_fields (s : string) : option (list string) := mapM b64_decode (split "|" s).
Definition lines (s : string) : list string := if String.eqb s "" then [] else split newline s.

#[local] Instance wire : Wire := {|
  enc_request q := join "|" (b64_encode <$> [rq_Zone q; rq_Action q; rq_RR q; if rq_Apply q then "1" else "0"]);
  dec_request s := match dec_fields s with
                   | Some [z; a; r; f] => Ok (mkRequest z a r (String.eqb f "1"))
                   | _ => Err "invalid"
                   end;
  enc_response r := join "|" (b64_encode <$>
    [if OK r then "1" else "0"; Error r; join nl (Added r); join nl (Removed r); format_uint (Serial r); Backup r]);
  dec_response s := match dec_fields s with
                    | Some [o; e; a; r; n; b] => Ok (mkResponse (String.eqb o "1") e (lines a) (lines r) (default 0 (parse_uint 32 n)) b)
                    | _ => Err "invalid"
                    end
|}.

Definition q2 (s : string) : string := String quote (s +:+ String quote "").
Definition dump : string :=
  join nl ["options { directory " +:+ q2 "/etc/bind" +:+ "; };";
           "zone " +:+ q2 "example" +:+ " { type master; file " +:+ q2 "/etc/bind/db.example" +:+ "; };"; ""].

Definition host : Host := mkHost (fun z => true) (Some "/usr/sbin/named-checkzone") (Some "/usr/sbin/rndc")
  (fun nc => Ok dump) (fun server zone w => Ok [Sample.mkRR "example." 300 TypeSOA "ns.example. root.example. 2026010200 1 2 3 4"]).
(** The defaults, with one zone to edit. *)
Definition cfg : Config := let c := defaults in
  mkConfig c.(Listen) c.(DBPath) c.(ReloadInterval) c.(LogFile) c.(AccessLog) c.(PublicHost)
    c.(NamedConf) c.(HistoryInterval) c.(HistoryKeep) c.(TLSMode) c.(CertFile) c.(KeyFile)
    c.(ACMEDomain) c.(ACMEEmail) c.(ACMECA) c.(ACMEStorage) c.(ACMETSIGName) c.(ACMETSIGAlgo)
    c.(ACMETSIGSecret) c.(DNSServer) c.(TSIGName) c.(TSIGAlgo) c.(TSIGSecret) c.(TSIGKeysFile) c.(TrustedProxies)
    ["Example."] "/run/zoned.sock" c.(ProxyEnabled) c.(ProxyListen) c.(ProxyRedirectListen) c.(Proxy)
    c.(Admin) c.(trustedNets) c.(tsigKeys).

Definition fz_text (e : fz_error) : string := "edit refused".
Definition server : Server := mkServer 990 (Ok cfg).
Definition req : Request := mkRequest "example" "add" "api 60 IN A 192.0.2.9" true.
Definition path : string := FileZoneExample.path.
Definition w0 : world := FileZoneExample.w0.
Definition editor : Editor := editorFor FileZoneExample.no_fault FileZoneExample.temp 0 0 host cfg.
Definition run := serveConn FileZoneExample.no_fault FileZoneExample.temp 0 0 FileZoneExample.today FileZoneExample.clock
  host fz_text server (Some (977, 990)) (enc_request req) w0.
Definition answer := (process FileZoneExample.no_fault FileZoneExample.temp 0 0 FileZoneExample.today FileZoneExample.clock
  host fz_text (Ok cfg) req w0).

Example answered : OK answer.1 = true /\ Serial answer.1 = 2026010200 /\ w_files answer.2 !! path <> w_files w0 !! path /\
  w_cmds answer.2 = [checkzone_cmd "/usr/sbin/named-checkzone" "example" "/etc/bind/.tmp"; ["/usr/sbin/rndc"; "reload"; "example"]].
Proof. by vm_compute. Qed.

Lemma backups_elsewhere n : free_of "/" n = true -> Join [Join [backupDir editor; norm (rq_Zone req)]; n] <> path.
Proof.
  intros Hn. change (Join [backupDir editor; norm (rq_Zone req)]) with "/var/lib/goddns/zonebackups/example". unfold Join.
  cbn [List.filter]. destruct (String.eqb n "") eqn:E0; cbn [negb]; [discriminate|].
  change (Clean ("" +:+ String "/" ("var" +:+ String "/" ("lib" +:+ String "/" ("goddns" +:+ String "/"
    ("zonebackups" +:+ String "/" ("example" +:+ String "/" n)))))) <> path).
  unfold Clean. rewrite !split_app by done. rewrite split_free_id by done.
  cbn [clean_parts String.eqb Ascii.eqb Bool.eqb orb]. rewrite E0. cbn [orb].
  destruct (String.eqb n "."); [discriminate|]. cbn [orb]. by destruct (String.eqb n "..").
Qed.

Lemma helper_confines_witness :
  (PeerGID server <= 0 \/ exists uid gid, Some (977, 990) = Some (uid, gid) /\ (uid = 0 \/ gid = PeerGID server)) /\
  exists q c inv z d, dec_request (str_take maxRequest (enc_request req)) = Ok q /\
    Cfg server = Ok c /\ (rq_Action q = "add" \/ rq_Action q = "del") /\ rq_Apply q = true /\
    inventory host (NamedConf c) w0 = (Ok inv, w0) /\ ZoneByName inv (rq_Zone q) = Some z /\
    admitted (editorFor FileZoneExample.no_fault FileZoneExample.temp 0 0 host c) (rq_Zone q) path z d /\
    exists m u g, w_files w0 !! path = Some (Reg d m u g).
Proof.
  assert (H1 : is_Some (w_files w0 !! path)) by (eexists; vm_compute; reflexivity).
  assert (Hq : dec_request (str_take maxRequest (enc_request req)) = Ok req) by (vm_compute; reflexivity).
  assert (H2 : forall c q, Cfg server = Ok c -> dec_request (str_take maxRequest (enc_request req)) = Ok q ->
             ~ is_backup (editorFor FileZoneExample.no_fault FileZoneExample.temp 0 0 host c) (rq_Zone q) (w_files w0) path).
  { intros c q [= <-] H. rewrite Hq in H. injection H as <-. apply not_a_backup; [exact backups_elsewhere|].
    intros q (n & Hn & ->) t. unfold w0, FileZoneExample.w0, w_files. rewrite lookup_singleton_ne; [done|]. intros He.
    by apply (backups_elsewhere n). }
  assert (H3 : w_files run.2 !! path <> w_files w0 !! path) by (by vm_compute).
  exact (helper_confines FileZoneExample.no_fault FileZoneExample.temp 0 0 FileZoneExample.today FileZoneExample.clock
    host fz_text server (Some (977, 990)) (enc_request req) w0 path H1 H2 H3).
Defined.

End ZonedExample.
