(* ===== verification/Helper.v ===== *)
(** * Helper: the process of the privileged write helper

    [cmd/goddns/zoned.go], and [Serve] of [internal/zoned/zoned.go]: the socket
    from the first system call to the last, who can connect to it at every
    moment, and the loop that accepts connections. What a connection does is
    [Zoned.serveConn]. *)

From Stdlib Require Import String Ascii.
From S2P Require Import Prelude GoStrings FS Config Zoned.

(** ** The socket on the file system *)

(** What the name of the socket leads to. *)
Record inode := mkInode { n_uid : Z; n_gid : Z; n_mode : Z }.

(** [k_seen]: what was there after each system call, the last one first. *)
Record kernel := mkKernel { k_node : option inode; k_umask : Z; k_calls : nat; k_seen : list (option inode) }.

Definition after_call (node : option inode) (umask : Z) (k : kernel) : kernel :=
  mkKernel node umask (S (k_calls k)) (node :: k_seen k).

Section setup.
(** [fault t]: the error of the t-th call; the effective ids of the process;
    the group a new file gets in that directory. *)
Context (fault : nat -> option string) (euid dir_gid : Z).

Definition syscall (f : option inode -> result string (option inode)) (k : kernel) : result string unit * kernel :=
  match fault (k_calls k) with
  | Some e => (Err e, after_call (k_node k) (k_umask k) k)
  | None => match f (k_node k) with
            | Ok node => (Ok tt, after_call node (k_umask k) k)
            | Err e => (Err e, after_call (k_node k) (k_umask k) k)
            end
  end.

Definition MkdirAll (k : kernel) : result string unit * kernel := syscall Ok k.
Definition Unlink (k : kernel) : result string unit * kernel :=
  syscall (fun n => match n with Some _ => Ok None | None => Err "no such file" end) k.
(** [umask(2)] cannot fail; it answers the mask before. *)
Definition Umask (mask : Z) (k : kernel) : Z * kernel := (k_umask k, after_call (k_node k) mask k).
(** A socket is bound with all permissions the mask leaves. *)
Definition Listen (k : kernel) : result string unit * kernel :=
  let mode := Z.land 511 (Z.lnot (k_umask k)) in
  syscall (fun n => match n with Some _ => Err "address already in use" | None => Ok (Some (mkInode euid dir_gid mode)) end) k.
Definition Chown (uid gid : Z) (k : kernel) : result string unit * kernel :=
  syscall (fun n => match n with Some i => Ok (Some (mkInode uid gid (n_mode i))) | None => Err "no such file" end) k.
Definition Chmod (mode : Z) (k : kernel) : result string unit * kernel :=
  syscall (fun n => match n with Some i => Ok (Some (mkInode (n_uid i) (n_gid i) mode)) | None => Err "no such file" end) k.

(** ** cmdZoned, up to the loop *)

Definition socket_path (flag : string) (cfg : Config) : string :=
  if negb (String.eqb flag "") then flag
  else if negb (String.eqb (ZonedSocket cfg) "") then ZonedSocket cfg else "/run/goddns/zoned.sock".

(** [strconv.Atoi] of the group's id, when the group is known. *)
Definition lookupGID (group : result string string) : result string Z :=
  match group with
  | Err e => Err e
  | Ok gid => match parse_int gid with Some g => Ok g | None => Err "invalid syntax" end
  end.

(** The group the helper serves, or why it ends. *)
Definition open_socket (group : result string string) (k : kernel) : result string Z * kernel :=
  match MkdirAll k with
  | (Err e, k) => (Err ("socket dir: " +:+ e), k)
  | (Ok _, k) =>
      let '(_, k) := Unlink k in
      let '(old, k) := Umask 127 k in
      let '(ln, k) := Listen k in
      let '(_, k) := Umask old k in
      match ln with
      | Err e => (Err ("listen: " +:+ e), k)
      | Ok _ =>
          let '(gid, k) := match lookupGID group with
                           | Ok g => (g, (Chown 0 g k).2)
                           | Err _ => (-1, k)
                           end in
          (Ok gid, (Chmod 432 k).2)
      end
  end.

Definition cmdZoned (flag : string) (cfg : result string Config) (group : result string string) (k : kernel)
  : result string (string * Server) * kernel :=
  match cfg with
  | Err e => (Err e, k)
  | Ok c =>
      match open_socket group k with
      | (Err e, k) => (Err e, k)
      | (Ok gid, k) => (Ok (socket_path flag c, mkServer gid cfg), k)
      end
  end.

(** ** Who can connect *)

(** A process: its user, its group, and the groups it is also in. *)
Record process := mkProcess { pr_uid : Z; pr_gid : Z; pr_groups : list Z }.

(** [connect(2)] asks for write permission. *)
Definition may_connect (p : process) (i : inode) : bool :=
  (pr_uid p =? 0) ||
  if pr_uid p =? n_uid i then Z.testbit (n_mode i) 7
  else if (pr_gid p =? n_gid i) || bool_decide (n_gid i ∈ pr_groups p) then Z.testbit (n_mode i) 4
  else Z.testbit (n_mode i) 1.

End setup.

(** ** The loop *)

(** Connections by number. [v_held]: accepted, and waiting for the semaphore. *)
Record serving := mkServing {
  v_open : bool; v_cancelled : bool; v_next : nat; v_held : option nat; v_running : list nat; v_done : list nat; v_returned : bool
}.

Definition sem_size : nat := 8.

Inductive step : serving -> serving -> Prop :=
(** [ln.Accept] answers a connection. *)
| accept_conn n c r d : step (mkServing true c n None r d false) (mkServing true c (S n) (Some n) r d false)
(** [sem <- struct{}{}], and the goroutine starts. *)
| acquire o c n h r d k : (length r < sem_size)%nat ->
    step (mkServing o c n (Some h) r d k) (mkServing o c n None (r ++ [h]) d k)
(** [serveConn] returns, and the deferred receive frees its place. *)
| finish o c n h r1 r2 x d k :
    step (mkServing o c n h (r1 ++ x :: r2) d k) (mkServing o c n h (r1 ++ r2) (d ++ [x]) k)
| cancel o n h r d k : step (mkServing o false n h r d k) (mkServing o true n h r d k)
| close n h r d k : step (mkServing true true n h r d k) (mkServing false true n h r d k)
(** [ln.Accept] fails, because the listener was closed or for any reason. *)
| accept_error o c n r d : step (mkServing o c n None r d false) (mkServing o c n None r d true).

(** ** The socket is private from its first moment *)

Section privacy.
Context (fault : nat -> option string) (dir_gid : Z).

Definition in_group (p : process) (g : Z) : Prop := pr_gid p = g \/ g ∈ pr_groups p.

(** Root's, and closed to others; open to a group only at the end, and then to
    the group of the service, or the one new files get there. *)
Definition private (group : result string string) (i : inode) : Prop :=
  n_uid i = 0 /\ (n_mode i = 384 \/ n_mode i = 432 /\ (n_gid i = dir_gid \/ lookupGID group = Ok (n_gid i))).

Lemma private_connect group i p : private group i -> may_connect p i = true ->
  pr_uid p = 0 \/ n_mode i = 432 /\ in_group p (n_gid i).
Proof.
  intros [Hu Hm]. unfold may_connect, in_group. rewrite Hu. destruct (Z.eqb_spec (pr_uid p) 0) as [|Hp]; [by left|]. cbn [orb].
  destruct Hm as [-> |[-> _]].
  - by destruct (_ || _).
  - destruct (Z.eqb_spec (pr_gid p) (n_gid i)); [by right; auto|]. cbn [orb].
    case_bool_decide; [by right; auto|done].
Qed.

Ltac seen_cases :=
  intros ? ?;
  repeat (match goal with H : _ ∈ _ :: _ |- _ => apply elem_of_cons in H as [H|H]; [first [discriminate H|injection H as ->; cbn; auto 10]|] end);
  match goal with H : _ ∈ [] |- _ => by apply elem_of_nil in H end.

(** The calls, in their order, and what each leaves. *)
Lemma open_socket_trace group k : k_seen k = [] ->
  let '(r, k') := open_socket fault 0 dir_gid group k in
  k_umask k' = k_umask k /\ (forall i, Some i ∈ k_seen k' -> Some i = k_node k \/ private group i) /\
  (forall gid, r = Ok gid -> (gid = -1 \/ lookupGID group = Ok gid) /\ exists i, k_node k' = Some i /\ private group i).
Proof.
  destruct k as [node mask calls seen]. cbn [k_seen]. intros ->.
  unfold open_socket, MkdirAll, Unlink, Listen, Umask, Chown, Chmod, syscall. cbn [k_calls k_node k_umask after_call].
  change (Z.land 511 (Z.lnot 127)) with 384. unfold private.
  destruct (fault calls); cbn; [split_and!; [done|set_solver|done]|].
  destruct (fault (S calls)), node as [stale|]; cbn; destruct (fault (S (S (S calls)))); cbn;
    try (split_and!; [done|set_solver|done]); destruct (lookupGID group) as [g|e]; cbn;
    repeat (match goal with |- context [fault ?t] => destruct (fault t); cbn end);
    (split_and!; [done|by seen_cases|by intros gid [= <-]; (split; [auto|eexists; split; [done|cbn; auto 10]])]).
Qed.

(** C9: the socket of the root helper is never open to a stranger, not for a
    moment and whichever system call fails: each inode the set-up puts there is
    root's, and closed to everyone else until it is handed to one group; the
    umask is what it was; and a process whose request is then looked at is
    root, or its group is the group of the service, or, where that group could
    not be found, it is in the group the socket was left to. *)
Theorem socket_private group k : k_seen k = [] ->
  let '(r, k') := open_socket fault 0 dir_gid group k in
  k_umask k' = k_umask k /\
  (forall i p, Some i ∈ k_seen k' -> Some i <> k_node k -> may_connect p i = true ->
     pr_uid p = 0 \/ (in_group p (n_gid i) /\ (n_gid i = dir_gid \/ lookupGID group = Ok (n_gid i)))) /\
  (forall gid, r = Ok gid -> exists i, k_node k' = Some i /\
     forall p, may_connect p i = true -> peerOK (Some (pr_uid p, pr_gid p)) gid = true ->
       pr_uid p = 0 \/ (lookupGID group = Ok gid /\ pr_gid p = gid) \/ (gid <= 0 /\ in_group p (n_gid i))).
Proof.
  intros Hk. pose proof (open_socket_trace group k Hk) as H. destruct (open_socket _ _ _ _ _) as [r k'].
  destruct H as (Hm & Hs & Hr). split_and!; [done| |].
  - intros i p [Hi|Hi]%Hs Hne Hp; [done|]. destruct (private_connect _ _ _ Hi Hp) as [|[Hmode Hg]]; [by left|right].
    split; [done|]. destruct Hi as [_ [Hi|[_ Hi]]]; [congruence|done].
  - intros gid Hgid. destruct (Hr gid Hgid) as (Hl & i & Hi & Hpriv). exists i. split; [done|]. intros p Hp.
    destruct (private_connect _ _ _ Hpriv Hp) as [|[_ Hg]]; [by left|]. unfold peerOK.
    destruct (Z.leb_spec gid 0) as [Hle|Hgt]; [auto|]. intros [?%Z.eqb_eq| ?%Z.eqb_eq]%orb_true_iff; [by left|right; left].
    destruct Hl as [->|Hl]; [lia|done].
Qed.

End privacy.

(** ** The bound on handlers *)

Definition listening : serving := mkServing true false 0 None [] [] false.
Definition reachable (v : serving) : Prop := rtc step listening v.

Definition accepted (v : serving) : list nat := option_list (v_held v) ++ v_running v ++ v_done v.

(** Every connection is in one place. *)
Record balanced (v : serving) : Prop := {
  bl_bound : (length (v_running v) <= sem_size)%nat;
  bl_held : v_returned v = true -> v_held v = None;
  bl_all : accepted v ≡ₚ seq 0 (v_next v)
}.

Lemma balanced_step v v' : balanced v -> step v v' -> balanced v'.
Proof.
  intros [Hb Hh Ha] Hs. inversion Hs; subst; unfold accepted in *; cbn in *; split; cbn; try done.
  - change (0%nat :: seq 1 n) with (seq 0 (S n)). rewrite seq_S, <- Ha. apply Permutation_cons_append.
  - rewrite length_app. cbn. unfold sem_size in *. lia.
  - rewrite <- Ha. solve_Permutation.
  - rewrite length_app in *. cbn in *. lia.
  - unfold accepted. cbn. rewrite <- Ha. solve_Permutation.
Qed.

Lemma reachable_balanced v : reachable v -> balanced v.
Proof.
  unfold reachable. assert (Hi : balanced listening) by (split; cbn; [unfold sem_size; lia|done|done]).
  intros H. revert Hi. induction H as [|x y z Hxy _ IH]; [done|]. intros Hx. by apply IH, balanced_step with x.
Qed.

(** However many clients connect, in whatever order they are served: at most
    eight are handled at a time and one more waits; each accepted connection is
    waiting, being handled or handled, once; and a loop that has not returned
    is never stuck, a handler's return being always enough to let the next
    connection in. *)
Theorem handlers_bounded v : reachable v ->
  (length (v_running v) <= 8)%nat /\ NoDup (accepted v) /\ (forall c, c ∈ accepted v <-> (c < v_next v)%nat) /\
  (v_returned v = false -> v_open v = true -> exists v', step v v').
Proof.
  intros H. pose proof (reachable_balanced v H) as [Hb Hh Ha]. split_and!; [done| | |].
  - rewrite Ha. apply NoDup_seq.
  - intros c. rewrite Ha, elem_of_seq. lia.
  - destruct v as [o c n [h|] r d k]; cbn in *; intros -> ->; [|eexists; apply accept_conn].
    destruct (Nat.eq_dec (length r) sem_size) as [He|He]; [|eexists; apply acquire; unfold sem_size in *; lia].
    destruct r as [|x r]; [done|]. eexists. apply (finish _ _ _ _ [] r x).
Qed.

(** ** Witnesses *)

Module HelperExample.

(** A stale socket is replaced; giving the new one to the group fails. *)
Definition fault (t : nat) : option string := if (t =? 5)%nat then Some "operation not permitted" else None.
Definition boot : kernel := mkKernel (Some (mkInode 33 33 511)) 18 0 [].
Definition ran := open_socket fault 0 0 (Ok "990") boot.

Example trace : (ran.1, k_umask ran.2, rev (k_seen ran.2)) =
  (Ok 990, 18, [Some (mkInode 33 33 511); None; None; Some (mkInode 0 0 384); Some (mkInode 0 0 384); Some (mkInode 0 0 384); Some (mkInode 0 0 432)]).
Proof. vm_compute. reflexivity. Qed.

Lemma socket_private_witness :
  k_umask ran.2 = k_umask boot /\
  (forall i p, Some i ∈ k_seen ran.2 -> Some i <> k_node boot -> may_connect p i = true ->
     pr_uid p = 0 \/ (in_group p (n_gid i) /\ (n_gid i = 0 \/ lookupGID (Ok "990") = Ok (n_gid i)))) /\
  (forall gid, ran.1 = Ok gid -> exists i, k_node ran.2 = Some i /\
     forall p, may_connect p i = true -> peerOK (Some (pr_uid p, pr_gid p)) gid = true ->
       pr_uid p = 0 \/ (lookupGID (Ok "990") = Ok gid /\ pr_gid p = gid) \/ (gid <= 0 /\ in_group p (n_gid i))).
Proof. exact (socket_private fault 0 (Ok "990") boot eq_refl). Defined.

(** Any error of Accept ends the loop, and with it the process: handlers that
    are still running are not waited for. *)
Lemma ended_while_running : exists v, reachable v /\ v_returned v = true /\ v_cancelled v = false /\ v_running v = [0%nat].
Proof.
  exists (mkServing true false 1 None [0%nat] [] true). split_and!; try done.
  eapply rtc_l; [apply accept_conn|]. eapply rtc_l; [apply acquire; unfold sem_size; cbn; lia|]. eapply rtc_l; [apply accept_error|done].
Qed.

Lemma handlers_bounded_witness :
  let v := mkServing true false 1 None [0%nat] [] false in
  (length (v_running v) <= 8)%nat /\ NoDup (accepted v) /\ (forall c, c ∈ accepted v <-> (c < v_next v)%nat) /\
  (v_returned v = false -> v_open v = true -> exists v', step v v').
Proof.
  assert (Hr : reachable (mkServing true false 1 None [0%nat] [] false)).
  { eapply rtc_l; [apply accept_conn|]. eapply rtc_l; [apply acquire; unfold sem_size; cbn; lia|done]. }
  exact (handlers_bounded _ Hr).
Defined.

End HelperExample.
