(* ===== verification/History.v ===== *)
(** * History: zone snapshots and their differences

    [internal/history/history.go]: the difference of two snapshots as sets of
    lines, and the poller that snapshots every master zone whose serial has
    moved. The network and the store's failures are given per zone; the
    interval of the loop is a duration in nanoseconds. *)

From Stdlib Require Import String Ascii.
From S2P Require Import Prelude GoStrings DnsLib FS Encoding Config Named NamedParse Store Host RecordMut.

(** ** Differences *)

Definition blank (l : string) : bool := String.eqb (trim_space l) "".

Definition lineSet (s : string) : gset string :=
  list_to_set (List.filter (fun l => negb (blank l)) (split newline s)).

(** Added and removed, going from [old] to [new]. *)
Definition Diff (old new : string) : list string * list string :=
  (sort_strings (elements (lineSet new ∖ lineSet old)), sort_strings (elements (lineSet old ∖ lineSet new))).

Definition is_soa_line (l : string) : bool :=
  match fields l with _ :: _ :: _ :: t :: _ => String.eqb t "SOA" | _ => false end.

Definition DropSOA (lines : list string) : list string := List.filter (fun l => negb (is_soa_line l)) lines.

(** ** The poller *)

Section poller.
Context {D : Dns} {C : Crypto}.

(** What one capture meets: the network, the deadline of the transfer, the
    clock, and the failures of the two store calls. *)
Record moment := mkMoment {
  m_net : Net; m_late : nat -> bool; m_now : Z; m_latest : nat -> option string; m_put : nat -> option string
}.

Definition capture (x : moment) (z : Zone) (inv : Inventory) (server tsigName : string) (keep : Z) (s : db) : db :=
  match CurrentSerial (N := m_net x) (z_Name z) server with
  | None => s
  | Some serial =>
      match SnapshotLatest (m_latest x) s (z_Name z) with
      | Err _ => s
      | Ok latest =>
          if match latest with Some sn => sn_Serial sn =? serial | None => false end then s
          else
            match TransferAuto (N := m_net x) (m_late x) (z_Name z) server (AXFRKeys inv (Some z) tsigName) with
            | Err _ => s
            | Ok (records, _) =>
                let serial := match SOAOf records with Some soa => soa_serial soa | None => serial end in
                (SnapshotPut (m_put x) (m_now x) (z_Name z) serial (Canonical records) keep s).2
            end
      end
  end.

Definition is_zone_kind (k : string) : bool := String.eqb k "static file" || String.eqb k "dynamic".

Definition masters (inv : Inventory) : list Zone := List.filter (fun z => is_zone_kind (Kind z)) (UserZones inv).

Definition effective_keep (k : Z) : Z := if k <=? 0 then 50 else k.

(** [checkConf]: named-checkconf on a path. *)
Definition sweep (checkConf : string -> result string string) (at_ : Zone -> moment) (cfg : Config) (s : db) : db :=
  match checkConf (namedConf (NamedConf cfg)) with
  | Err _ => s
  | Ok dump =>
      let inv := NamedParse.Parse dump in
      foldl (fun s z => capture (at_ z) z inv (server (DNSServer cfg)) (TSIGName cfg) (effective_keep (HistoryKeep cfg)) s)
        s (masters inv)
  end.

(** One round of [Run]: the store after it, and how long it sleeps. *)
Definition Run_cycle (checkConf : string -> result string string) (at_ : Zone -> moment) (cfg : Config) (s : db) : db * Z :=
  if HistoryInterval cfg <=? 0 then (s, 60 * 1000000000)
  else (sweep checkConf at_ cfg s, i64 (HistoryInterval cfg * 1000000000)).

End poller.

(** ** Theorems: differences *)

Lemma Diff_elem old new l :
  (l ∈ (Diff old new).1 <-> l ∈ lineSet new /\ l ∉ lineSet old) /\
  (l ∈ (Diff old new).2 <-> l ∈ lineSet old /\ l ∉ lineSet new).
Proof. unfold Diff. cbn. rewrite !sort_strings_perm, !elem_of_elements, !elem_of_difference. done. Qed.

Lemma lineSet_elem s l : l ∈ lineSet s <-> l ∈ split newline s /\ blank l = false.
Proof.
  unfold lineSet. rewrite elem_of_list_to_set, list_elem_of_In, filter_In, <- list_elem_of_In, negb_true_iff. done.
Qed.

(** The difference says exactly how to get from one snapshot to the
    other: taking the removed lines away and putting the added ones in turns
    the old set of lines into the new one; no line is in both lists, none is
    listed twice, and both lists are in order. Two texts with the same lines
    have no difference. *)
Theorem diff_transforms old new :
  let '(added, removed) := Diff old new in
  lineSet new = (lineSet old ∖ list_to_set removed) ∪ list_to_set added /\
  (forall l, l ∈ added -> l ∉ removed /\ l ∉ lineSet old) /\ (forall l, l ∈ removed -> l ∈ lineSet old) /\
  NoDup (added ++ removed) /\
  StronglySorted (not_after String.ltb) added /\ StronglySorted (not_after String.ltb) removed /\
  (lineSet old = lineSet new <-> added = [] /\ removed = []).
Proof.
  destruct (Diff old new) as [added removed] eqn:E.
  assert (Ha : forall l, l ∈ added <-> l ∈ lineSet new /\ l ∉ lineSet old)
    by (intros l; pose proof (Diff_elem old new l) as [H _]; by rewrite E in H).
  assert (Hr : forall l, l ∈ removed <-> l ∈ lineSet old /\ l ∉ lineSet new)
    by (intros l; pose proof (Diff_elem old new l) as [_ H]; by rewrite E in H).
  unfold Diff in E. injection E as E1 E2. split_and!.
  - apply set_eq. intros l. rewrite elem_of_union, elem_of_difference, !elem_of_list_to_set, Ha, Hr.
    destruct (decide (l ∈ lineSet old)), (decide (l ∈ lineSet new)); tauto.
  - intros l. rewrite Ha, Hr. tauto.
  - intros l. rewrite Hr. tauto.
  - apply NoDup_app. split_and!.
    + rewrite <- E1, sort_strings_perm. apply NoDup_elements.
    + intros l. rewrite Ha, Hr. tauto.
    + rewrite <- E2, sort_strings_perm. apply NoDup_elements.
  - rewrite <- E1. apply sort_strings_sorted.
  - rewrite <- E2. apply sort_strings_sorted.
  - split.
    + intros He. split; apply elem_of_nil_inv; intros l; rewrite ?Ha, ?Hr, He; tauto.
    + intros [-> ->]. apply set_eq. intros l. specialize (Ha l). specialize (Hr l). rewrite elem_of_nil in Ha, Hr.
      destruct (decide (l ∈ lineSet old)), (decide (l ∈ lineSet new)); tauto.
Qed.

(** ** Theorems: the poller *)

Section converge.
Context {D : Dns} {C : Crypto}.

Definition rows_of (zone : string) (s : db) : list Snapshot := zone_rows (snapZone zone) (snapshots s).
Definition latest (zone : string) (s : db) : option Snapshot := head (newest_first (rows_of zone s)).

(** A capture stores nothing, or one snapshot of what was transferred. *)
Lemma capture_cases x z inv server tsig keep s : wf s -> 0 < keep ->
  let s' := capture x z inv server tsig keep s in
  wf s' /\ records s' = records s /\ traffic s' = traffic s /\
  (s' = s \/
   exists n rrs label sn, CurrentSerial (N := m_net x) (z_Name z) server = Some n /\
     TransferAuto (N := m_net x) (m_late x) (z_Name z) server (AXFRKeys inv (Some z) tsig) = Ok (rrs, label) /\
     (forall sn0, latest (z_Name z) s = Some sn0 -> sn_Serial sn0 <> n) /\
     latest (z_Name z) s' = Some sn /\ sn_Content sn = Canonical rrs /\
     sn_Serial sn = match SOAOf rrs with Some soa => soa_serial soa | None => n end /\
     (forall zone, snapZone zone <> snapZone (z_Name z) -> rows_of zone s' = rows_of zone s)).
Proof.
  intros Hwf Hk s'. unfold s', capture. destruct (CurrentSerial _ _) as [n|] eqn:En; [|auto 6].
  unfold SnapshotLatest, stmt. destruct (m_latest x 0%nat); [auto 6|]. fold (rows_of (z_Name z) s) (latest (z_Name z) s).
  destruct (match latest _ s with Some sn => _ | None => false end) eqn:El; [auto 6|].
  destruct (TransferAuto _ _ _ _) as [[rrs label]|e] eqn:Et; [|auto 6].
  match goal with |- context [SnapshotPut ?f ?t ?zn ?n ?c ?k s] =>
    pose proof (SnapshotPut_history f t zn n c k s) as Hh; pose proof (wf_SnapshotPut f t zn n c k s Hwf) as Hwf';
    destruct (SnapshotPut f t zn n c k s) as [[id|e] s1] end.
  2: { specialize (Hh _ _ Hwf eq_refl). cbn in Hh. subst s1. auto 6. }
  destruct (Hh _ _ Hwf eq_refl) as (Hrows & Hother & Hrec & Htr). cbn [snd] in *. split_and!; [done..|]. right.
  do 4 eexists. split_and!; [done|done| | | | |].
  - intros sn0 Hl Hn. rewrite Hl in El. by apply Z.eqb_neq in El.
  - unfold latest, rows_of. rewrite Hrows. destruct (Z.ltb_spec 0 keep); [|lia].
    replace (Z.to_nat keep) with (S (Z.to_nat keep - 1)) by lia. reflexivity.
  - done.
  - done.
  - intros zone Hne. unfold rows_of. by apply Hother.
Qed.

(** The zones of a quiet network: for each name the serial it answers with
    and the records a transfer gives. *)
Record serves (truth : string -> Z * list RR) (server tsig : string) (inv : Inventory) (x : moment) (z : Zone) : Prop := {
  sv_serial : CurrentSerial (N := m_net x) (z_Name z) server = Some (truth (snapZone (z_Name z))).1;
  sv_transfer : exists label, TransferAuto (N := m_net x) (m_late x) (z_Name z) server (AXFRKeys inv (Some z) tsig) =
                              Ok ((truth (snapZone (z_Name z))).2, label);
  sv_soa soa : SOAOf (truth (snapZone (z_Name z))).2 = Some soa -> soa_serial soa = (truth (snapZone (z_Name z))).1;
  sv_store k : m_latest x k = None /\ m_put x k = None
}.

Context (truth : string -> Z * list RR) (server tsig : string) (inv : Inventory) (keep : Z) (at_ : Zone -> moment).
Hypothesis keep_pos : 0 < keep.

Definition current (z : Zone) (s : db) : Prop :=
  exists sn, latest (z_Name z) s = Some sn /\ sn_Serial sn = (truth (snapZone (z_Name z))).1.

#[local] Abbreviation one z s := (capture (at_ z) z inv server tsig keep s).

Lemma capture_idle z s : serves truth server tsig inv (at_ z) z -> current z s -> one z s = s.
Proof.
  intros [Hs _ _ Hf] (sn & Hl & Hn). unfold capture. rewrite Hs. unfold SnapshotLatest, stmt.
  destruct (Hf 0%nat) as [-> _]. fold (rows_of (z_Name z) s) (latest (z_Name z) s). rewrite Hl.
  by rewrite Hn, Z.eqb_refl.
Qed.

Lemma SnapshotPut_no_fault f now zone serial content k s : (forall i, f i = None) ->
  exists id s', SnapshotPut f now zone serial content k s = (Ok id, s').
Proof. intros H. unfold SnapshotPut, Store.commit, stmt. rewrite !H. destruct (0 <? k); eexists _, _; reflexivity. Qed.

(** A capture makes its zone current: with the snapshot it had, if that was
    current already, and otherwise with what the transfer gives. *)
Lemma capture_current z s : serves truth server tsig inv (at_ z) z -> wf s ->
  exists sn, latest (z_Name z) (one z s) = Some sn /\ sn_Serial sn = (truth (snapZone (z_Name z))).1 /\
    (latest (z_Name z) s = Some sn \/ sn_Content sn = Canonical (truth (snapZone (z_Name z))).2).
Proof.
  intros Hsv Hwf.
  assert (Hdec : (exists sn, latest (z_Name z) s = Some sn /\ sn_Serial sn = (truth (snapZone (z_Name z))).1) \/
                 match latest (z_Name z) s with Some sn => sn_Serial sn =? (truth (snapZone (z_Name z))).1 | None => false end = false).
  { destruct (latest (z_Name z) s) as [sn|]; [|by right].
    destruct (Z.eqb_spec (sn_Serial sn) (truth (snapZone (z_Name z))).1); [left; eauto|by right]. }
  destruct Hdec as [(sn & Hl & Hn)|Hm].
  - rewrite capture_idle by (done || exists sn; done). eauto.
  - destruct Hsv as [Hs [label Ht] Hsoa Hf]. unfold capture. rewrite Hs. unfold SnapshotLatest, stmt.
    destruct (Hf 0%nat) as [-> _]. fold (rows_of (z_Name z) s) (latest (z_Name z) s). rewrite Hm, Ht.
    match goal with |- context [SnapshotPut ?f ?t ?zn ?n ?c ?k s] =>
      destruct (SnapshotPut_no_fault f t zn n c k s (fun i => proj2 (Hf i))) as (id & s1 & E);
      destruct (SnapshotPut_history f t zn n c k s _ _ Hwf E) as (Hr & _); rewrite E end.
    cbn [snd]. unfold latest, rows_of. rewrite Hr. destruct (Z.ltb_spec 0 keep); [|lia].
    replace (Z.to_nat keep) with (S (Z.to_nat keep - 1)) by lia. cbn [take head].
    eexists. split; [reflexivity|]. cbn [sn_Serial sn_Content]. split; [|by right].
    destruct (SOAOf _) as [soa|] eqn:E'; [by apply Hsoa|done].
Qed.

Lemma latest_same z z' s :
  snapZone (z_Name z) = snapZone (z_Name z') -> latest (z_Name z) s = latest (z_Name z') s.
Proof. intros H. unfold latest, rows_of. by rewrite H. Qed.

(** What the captures of [zs] leave of another zone, and of a current one. *)
Lemma capture_keeps z z' s : serves truth server tsig inv (at_ z') z' -> wf s ->
  (current z s -> latest (z_Name z) (one z' s) = latest (z_Name z) s) /\
  (snapZone (z_Name z) <> snapZone (z_Name z') -> rows_of (z_Name z) (one z' s) = rows_of (z_Name z) s).
Proof.
  intros Hsv Hwf.
  assert (Hother : snapZone (z_Name z) <> snapZone (z_Name z') -> rows_of (z_Name z) (one z' s) = rows_of (z_Name z) s).
  { intros Hne. destruct (capture_cases (at_ z') z' inv server tsig keep s Hwf keep_pos) as (_ & _ & _ & [->|H]); [done|].
    destruct H as (n & rrs & label & sn & _ & _ & _ & _ & _ & _ & H). by apply H. }
  split; [|done]. intros (sn & Hl & Hn).
  destruct (decide (snapZone (z_Name z) = snapZone (z_Name z'))) as [He|Hne].
  - rewrite capture_idle; [done|done|]. exists sn. by rewrite <- (latest_same z z' s He), <- He.
  - unfold latest. by rewrite Hother.
Qed.

Lemma captures_converge zs s : Forall (fun z => serves truth server tsig inv (at_ z) z) zs -> wf s ->
  let s' := foldl (fun s z => one z s) s zs in
  wf s' /\ records s' = records s /\ traffic s' = traffic s /\
  (forall z, (forall z', z' ∈ zs -> snapZone (z_Name z') <> snapZone (z_Name z)) ->
     rows_of (z_Name z) s' = rows_of (z_Name z) s) /\
  (forall z, current z s -> latest (z_Name z) s' = latest (z_Name z) s) /\
  (forall z, z ∈ zs -> exists sn, latest (z_Name z) s' = Some sn /\ sn_Serial sn = (truth (snapZone (z_Name z))).1 /\
     (latest (z_Name z) s = Some sn \/ sn_Content sn = Canonical (truth (snapZone (z_Name z))).2)).
Proof.
  intros Hsv. revert s. induction Hsv as [|z1 zs H1 Hsv IH]; intros s Hwf; [cbn; split_and!; try done; by intros ? ?%elem_of_nil|].
  destruct (capture_cases (at_ z1) z1 inv server tsig keep s Hwf keep_pos) as (Hwf1 & Hr1 & Ht1 & _).
  destruct (IH (one z1 s) Hwf1) as (Hwf' & Hr' & Ht' & Hout & Hcur & Hin). cbn [foldl].
  destruct (capture_current z1 s H1 Hwf) as (sn1 & Hl1 & Hn1 & Hc1).
  split_and!; [done|by rewrite Hr'|by rewrite Ht'| | |].
  - intros z Hz. rewrite Hout by (intros z' Hz'; apply Hz; by right).
    apply (capture_keeps z z1 s H1 Hwf). intros He. apply (Hz z1); [by left|done].
  - intros z Hz. pose proof (capture_keeps z z1 s H1 Hwf) as [Hk _]. specialize (Hk Hz). rewrite Hcur; [done|].
    destruct Hz as (sn & Hl & Hn). exists sn. by rewrite Hk.
  - intros z [->|Hz]%elem_of_cons.
    + exists sn1. rewrite Hcur; [done|]. by exists sn1.
    + destruct (Hin z Hz) as (sn & Hl & Hn & Hc). exists sn. split_and!; [done..|].
      destruct (decide (snapZone (z_Name z) = snapZone (z_Name z1))) as [He|Hne].
      * rewrite (latest_same z z1 _ He) in Hl. rewrite He.
        assert (current z1 (one z1 s)) as Hcz by (by exists sn1).
        specialize (Hcur z1 Hcz). rewrite Hcur, Hl1 in Hl. injection Hl as <-. by rewrite (latest_same z z1 s He).
      * destruct Hc as [Hc|Hc]; [|by right]. left. rewrite <- Hc. unfold latest.
        pose proof (capture_keeps z z1 s H1 Hwf) as [_ Hk]. by rewrite Hk.
Qed.

Lemma captures_idle zs s : Forall (fun z => serves truth server tsig inv (at_ z) z) zs -> Forall (fun z => current z s) zs ->
  foldl (fun s z => one z s) s zs = s.
Proof. induction 1 as [|z zs H1 _ IH]; [done|]. intros [Hc Hcs]%Forall_cons. cbn. rewrite capture_idle by done. by apply IH. Qed.

End converge.

(** C30: when the network answers every query and transfer of a sweep and
    the transfer of each zone carries the serial its SOA query gave
    ([serves]), and no call of the store fails, one sweep leaves the newest
    snapshot of every master zone with the serial the zone is served with:
    the snapshot it had, if that was already so, and otherwise what the
    transfer gave. The histories of all other zones, the tokens and the
    traffic are untouched, and while the network gives the same answers
    every later sweep stores nothing. ([HistoryExample.stored_again] is what
    happens where the two serials differ.) *)
Theorem sweep_converges `{D : Dns} `{C : Crypto} checkConf at1 cfg dump truth s :
  wf s -> checkConf (namedConf (NamedConf cfg)) = Ok dump ->
  let inv := NamedParse.Parse dump in let srv := server (DNSServer cfg) in
  (forall z, z ∈ masters inv -> serves truth srv (TSIGName cfg) inv (at1 z) z) ->
  let s' := sweep checkConf at1 cfg s in
  (forall z, z ∈ masters inv -> exists sn, latest (z_Name z) s' = Some sn /\
     sn_Serial sn = (truth (snapZone (z_Name z))).1 /\
     (latest (z_Name z) s = Some sn \/ sn_Content sn = Canonical (truth (snapZone (z_Name z))).2)) /\
  (forall z, (forall z', z' ∈ masters inv -> snapZone (z_Name z') <> snapZone (z_Name z)) ->
     rows_of (z_Name z) s' = rows_of (z_Name z) s) /\
  records s' = records s /\ traffic s' = traffic s /\
  (forall at2, (forall z, z ∈ masters inv -> serves truth srv (TSIGName cfg) inv (at2 z) z) ->
     sweep checkConf at2 cfg s' = s').
Proof.
  intros Hwf Hc inv srv Hsv s'. unfold s', sweep. rewrite Hc. fold inv srv.
  assert (Hk : 0 < effective_keep (HistoryKeep cfg)) by (unfold effective_keep; destruct (Z.leb_spec (HistoryKeep cfg) 0); lia).
  destruct (captures_converge truth srv (TSIGName cfg) inv _ at1 Hk (masters inv) s) as (Hwf' & Hr & Ht & Hout & _ & Hin);
    [by apply Forall_forall|done|].
  split_and!; [exact Hin|exact Hout|exact Hr|exact Ht|]. intros at2 Hsv2. apply (captures_idle truth); [by apply Forall_forall|].
  apply Forall_forall. intros z Hz. destruct (Hin z Hz) as (sn & Hl & Hn & _). by exists sn.
Qed.

(** ** Witnesses *)

Module HistoryExample.

#[local] Existing Instance Sample.dns.
#[local] Existing Instance RecordMutExample.plain.

Definition nl : string := GoStrings.nl.
Definition old : string := join nl ["a 60 IN A 192.0.2.1"; "@ 60 IN SOA x y 1"; ""].
Definition new : string := join nl ["@ 60 IN SOA x y 2"; "b 60 IN A 192.0.2.1"; "a 60 IN A 192.0.2.1"; "b 60 IN A 192.0.2.1"].

Example diff_value :
  (Diff old new, DropSOA (Diff old new).1) =
  ((["@ 60 IN SOA x y 2"; "b 60 IN A 192.0.2.1"], ["@ 60 IN SOA x y 1"]), ["b 60 IN A 192.0.2.1"]).
Proof. by vm_compute. Qed.

Definition soa_of (serial : string) : Sample.srr :=
  Sample.mkRR "myip.gr." 300 TypeSOA ("ns.myip.gr. root.myip.gr. " +:+ serial +:+ " 1 2 3 4").

(** A server that answers queries with one serial and transfers another. *)
Definition net (asked given : string) : Net (H := Sample.dns) := {|
  xfr_in _ _ _ := Ok [Ok [soa_of given : RR; RecordMutExample.home : RR; soa_of given : RR]];
  query _ _ _ _ _ := Some (mkResponse _ [soa_of asked : RR] [] [] true false)
|}.
Definition at_ (asked given : string) (z : Zone) : moment :=
  mkMoment (net asked given) (fun _ => false) 100 no_fault no_fault.
Definition sweep1 := sweep RecordMutExample.checkConf (at_ "7" "7") defaults empty_db.

Definition truth (zone : string) : Z * list RR := (7, [soa_of "7" : RR; RecordMutExample.home : RR]).

Lemma sweep_converges_witness :
  let inv := NamedParse.Parse NamedParseExample.dump in
  (forall z, z ∈ masters inv -> exists sn, latest (z_Name z) sweep1 = Some sn /\
     sn_Serial sn = (truth (snapZone (z_Name z))).1 /\
     (latest (z_Name z) empty_db = Some sn \/ sn_Content sn = Canonical (truth (snapZone (z_Name z))).2)) /\
  (forall z, (forall z', z' ∈ masters inv -> snapZone (z_Name z') <> snapZone (z_Name z)) ->
     rows_of (z_Name z) sweep1 = rows_of (z_Name z) empty_db) /\
  records sweep1 = records empty_db /\ traffic sweep1 = traffic empty_db /\
  (forall at2, (forall z, z ∈ masters inv -> serves truth (server (DNSServer defaults)) (TSIGName defaults) inv (at2 z) z) ->
     sweep RecordMutExample.checkConf at2 defaults sweep1 = sweep1).
Proof.
  intros inv.
  assert (H : forall z, z ∈ masters inv -> serves truth (server (DNSServer defaults)) (TSIGName defaults) inv (at_ "7" "7" z) z).
  { assert (Hz : forall z, z ∈ masters inv -> (String.length (Fqdn (z_Name z)) <= 255)%nat).
    { apply Forall_forall. apply (bool_decide_unpack _). vm_compute. exact I. }
    intros z Hin. specialize (Hz z Hin). split.
    - by vm_compute.
    - exists "unauthenticated". unfold TransferAuto, Transfer. destruct (Nat.ltb_spec 255 (String.length (Fqdn (z_Name z)))); [lia|].
      by vm_compute.
    - intros soa. vm_compute. by intros [= <-].
    - done. }
  exact (sweep_converges RecordMutExample.checkConf (at_ "7" "7") defaults NamedParseExample.dump truth empty_db wf_empty eq_refl H).
Defined.

(** When queries and transfers see different serials, as a TSIG key that
    selects another view makes them, every sweep stores the same content again. *)
Example stored_again :
  let s1 := sweep RecordMutExample.checkConf (at_ "7" "9") defaults empty_db in
  let s2 := sweep RecordMutExample.checkConf (at_ "7" "9") defaults s1 in
  (length (snapshots s1), length (snapshots s2), sn_Content <$> rows_of "myip.gr" s2) =
  (2%nat, 4%nat, [Canonical [soa_of "9" : RR; RecordMutExample.home : RR]; Canonical [soa_of "9" : RR; RecordMutExample.home : RR]]).
Proof. by vm_compute. Qed.

End HistoryExample.
