(* ===== verification/RotateKey.v ===== *)
(** * RotateKey: replacing a TSIG key

    [cmd/goddns/rotatekey.go]: the new secret is written to goddns's key file,
    the name server is told to read it and asked whether it accepts it, and on
    any failure the old keyring is written back. Every system call and every
    command may fail; the answers of the name server are a parameter. *)

From Stdlib Require Import String Ascii.
From S2P Require Import Prelude GoStrings FS DnsLib Config Named NamedParse History Host Ddns Tsig.

Inductive reason := ReconfigFailed | SelfTestSetup (e : ddns_error) | SelfTestFailed (e : ddns_error).

Inductive rk_error :=
| NoKeysFile | ReadFailed (e : io_error) | KeyNotFound | GenFailed (why : string) | WriteFailed (e : io_error)
| RolledBack (why : reason) | RollbackFailed (why : reason) (e : io_error).

(** Whether the rest was left to the operator; the zone of the self-test, if
    one was found; whether the daemon was reloaded. *)
Inductive outcome := LeftToOperator | Rotated (tested : option string) (reloaded : bool).

Definition set_secret (s : string) (k : Key) : Key := mkKey (Name k) (Algo k) s.

Section rotate.
Context {D : Dns} (fault : nat -> option string) (tempname : nat -> string -> string) (euid egid : Z).
(** named-checkconf, and the answer of the name server to the i-th query. *)
Context (checkConf : string -> result string string).
Context (query : nat -> string -> string -> string -> string -> Hmac -> result string bool).

(** A zone to test a key on: one the key is granted on, or else any master. *)
Definition pickProbeZone (namedConf keyName : string) : string :=
  match checkConf namedConf with
  | Err _ => ""
  | Ok dump =>
      let zones := UserZones (NamedParse.Parse dump) in
      let kn := trim_suffix "." keyName in
      match find_first (fun z => existsb (String.eqb kn) (z_UpdateKeys z)) zones with
      | Some z => z_Name z
      | None => match find_first (fun z => is_zone_kind (Kind z)) zones with Some z => z_Name z | None => "" end
      end
  end.

(** Up to [n] probes, from the i-th; the error is that of the last. *)
Fixpoint probe (n i : nat) (u : RFC2136) (zone : string) : result ddns_error unit :=
  match Verify (query i) u zone, n with
  | Ok _, _ => Ok tt
  | Err e, S (S _ as n') => probe n' (S i) u zone
  | Err e, _ => Err e
  end.

Definition self_test (cfg : Config) (name algo secret : string) : result reason (option string) :=
  let zone := pickProbeZone (NamedConf cfg) name in
  if String.eqb zone "" then Ok None
  else
    match NewRFC2136 (DNSServer cfg) name algo secret with
    | Err e => Err (SelfTestSetup e)
    | Ok u => match probe 3 0 u zone with Ok _ => Ok (Some zone) | Err e => Err (SelfTestFailed e) end
    end.

Definition reconfig : list string := ["rndc"; "reconfig"].

(** The old keyring is written back, and the name server told so. *)
Definition rollback {A} (path : string) (keys : list Key) (why : reason) : io rk_error A :=
  _ ← wrap (RollbackFailed why) (WriteFile fault tempname euid egid path keys);
  _ ← ignore (exec fault reconfig);
  fail (RolledBack why).

(** After the new keyring is in place. *)
Definition activate (cfg : Config) (path name : string) (keys : list Key) (k : Key) (newSecret : string) : io rk_error outcome :=
  r ← attempt (exec fault reconfig);
  match r with
  | Err _ => rollback path keys ReconfigFailed
  | Ok _ =>
      match self_test cfg name (Algo k) newSecret with
      | Err why => rollback path keys why
      | Ok tested =>
          r ← attempt (exec fault ["systemctl"; "reload"; "goddns"]);
          mret (Rotated tested (is_ok r))
      end
  end.

(** [gen]: [GenSecret]; [arg]: the key named on the command line, or "". *)
Definition cmdRotateKey (cfg : Config) (arg : string) (noReconfig : bool) (gen : result string string) : io rk_error outcome :=
  let path := TSIGKeysFile cfg in
  if String.eqb path "" then fail NoKeysFile
  else
    let name := if String.eqb arg "" then TSIGName cfg else arg in
    keys ← wrap ReadFailed (LoadFile fault path);
    match Find_index keys name with
    | None => fail KeyNotFound
    | Some i =>
        match gen with
        | Err why => fail (GenFailed why)
        | Ok newSecret =>
            _ ← wrap WriteFailed (WriteFile fault tempname euid egid path (alter (set_secret newSecret) i keys));
            if noReconfig then mret LeftToOperator
            else activate cfg path name keys (default (mkKey "" "" "") (keys !! i)) newSecret
        end
    end.

End rotate.

(** ** All or nothing *)

Section transaction.
Context {D : Dns} (fault : nat -> option string) (tempname : nat -> string -> string) (euid egid : Z).
Context (checkConf : string -> result string string).
Context (query : nat -> string -> string -> string -> string -> Hmac -> result string bool).
Context (cfg : Config).
#[local] Abbreviation path := (TSIGKeysFile cfg).
Hypothesis temp_fresh : forall t dir, tempname t dir <> path.


















End transaction.

(** ** Witness: named rejects the new key *)

Module RotateExample.

#[local] Existing Instance Sample.dns.

Definition cfg : Config :=
  let c := defaults in
  mkConfig c.(Listen) c.(DBPath) c.(ReloadInterval) c.(LogFile) c.(AccessLog) c.(PublicHost)
    c.(NamedConf) c.(HistoryInterval) c.(HistoryKeep) c.(TLSMode) c.(CertFile) c.(KeyFile)
    c.(ACMEDomain) c.(ACMEEmail) c.(ACMECA) c.(ACMEStorage) c.(ACMETSIGName) c.(ACMETSIGAlgo)
    c.(ACMETSIGSecret) "127.0.0.1:53" "ddns-update" c.(TSIGAlgo) c.(TSIGSecret)
    TsigExample.path c.(TrustedProxies) c.(EditableZones) c.(ZonedSocket) c.(ProxyEnabled)
    c.(ProxyListen) c.(ProxyRedirectListen) c.(Proxy) c.(Admin) c.(trustedNets) c.(tsigKeys).
Definition w0 : world := mkWorld {[TsigExample.path := Reg (Render TsigExample.keys) 288 1 2]} 0 [] no_open.
Definition checkConf (_ : string) : result string string := Ok NamedParseExample.dump.
(** named accepts the old secret only. *)
Definition query (i : nat) (server name keyName secret : string) (algo : Hmac) : result string bool :=
  if String.eqb secret "c2VjcmV0" then Ok true else Err "dns: bad signature".
Definition out := cmdRotateKey TsigExample.no_fault TsigExample.temp 0 0 checkConf query cfg "" false (Ok "bmV3") w0.

Example rolled : (out.1, w_cmds out.2, w_files out.2 !! TsigExample.path) =
  (Err (RolledBack (SelfTestFailed (ExchangeFailed "dns: bad signature"))),
   [reconfig; reconfig], Some (Reg (Render TsigExample.keys) 288 1 2)).
Proof. vm_compute. reflexivity. Qed.


End RotateExample.
