(* ===== verification/Session.v ===== *)
(** * Session: the admin console's cookies and CSRF tokens

    [internal/admin/session.go]: the signing key, the authenticator over
    several fields, session tokens and CSRF tokens. The clock is in
    nanoseconds, as the code's durations are; the random bytes of a new key
    are an argument. *)

From Stdlib Require Import String Ascii.
From S2P Require Import Prelude GoStrings Encoding FS.

Definition second : Z := 1000000000.
(** [Time.Unix]. *)
Definition unix (ns : Z) : Z := ns / second.

(** ** The key *)

Definition minSecretLen : nat := 16.

Inductive secret_error := ShortSecret | ErrRandom (why : string) | ErrPersist (e : io_error).

Section load.
Context (fault : nat -> option string) (euid egid : Z).

(** [env]: the environment variable; [random]: what [rand.Read] gives. *)
Definition LoadSecret (env : string) (random : result string string) (path : string) : io secret_error string :=
  if negb (String.eqb env "") then
    if (String.length env <? minSecretLen)%nat then fail ShortSecret else mret env
  else
    old ← attempt (ReadFile fault path);
    match old with
    | Ok b => if (minSecretLen <=? String.length b)%nat then mret b else
        match random with
        | Err why => fail (ErrRandom why)
        | Ok key => _ ← wrap ErrPersist (WriteFile fault euid egid path key 384); mret key
        end
    | Err _ =>
        match random with
        | Err why => fail (ErrRandom why)
        | Ok key => _ ← wrap ErrPersist (WriteFile fault euid egid path key 384); mret key
        end
    end.
End load.

(** ** Tokens *)

Section tokens.
Context {C : Crypto}.

Definition nul : ascii := "000"%char.

(** What is authenticated: each part, then a NUL. *)
Definition mac_input (parts : list string) : string := foldr (fun p s => p +:+ String nul s) "" parts.

Definition macB64 (secret : string) (parts : list string) : string :=
  b64_encode (hmac_sha256 secret (mac_input parts)).

Definition session_msg (user : string) (exp : Z) : string := b64_encode user +:+ "|" +:+ format_int exp.

Definition newSession (secret credFP user : string) (ttl now : Z) : string :=
  let msg := session_msg user (unix (now + ttl)) in
  msg +:+ "." +:+ macB64 secret [msg; credFP].

Definition parseSession (secret tok : string) (lookup : string -> option string) (now : Z) : option string :=
  '(msg, sig) ← cut "." tok;
  '(b64user, expS) ← cut "|" msg;
  user ← b64_decode b64user;
  exp ← parse_int expS;
  if exp <? unix now then None
  else
    credFP ← lookup user;
    if String.eqb (macB64 secret [msg; credFP]) sig then Some user else None.

Definition csrfToken (secret credFP user : string) : string := macB64 secret ["csrf"; user; credFP].

Definition csrfValid (secret credFP user got : string) : bool := String.eqb (csrfToken secret credFP user) got.

End tokens.

(** ** Theorems *)

Section theorems.
Context {C : Crypto}.

Lemma session_msg_free user exp :
  free_of "." (session_msg user exp) = true /\ free_of nul (session_msg user exp) = true.
Proof.
  assert (Hd : forall k c, is_digit c = false -> free_of c (format_uint k) = true).
  { intros k c Hc. eapply str_forall_impl; [|apply format_uint_digits]. intros x Hx.
    destruct (Ascii.eqb_spec x c) as [->|]; [congruence|done]. }
  assert (Hi : forall c, is_digit c = false -> Ascii.eqb "-" c = false -> free_of c (format_int exp) = true).
  { intros c Hc Hm. unfold format_int. destruct (exp <? 0); [|by apply Hd].
    unfold free_of. cbn [str_forall]. rewrite Hm. by apply Hd. }
  unfold session_msg. split; unfold free_of; rewrite !str_forall_app; repeat (apply andb_true_iff; split);
    try (by apply b64_encode_free); try (by apply Hi); done.
Qed.

Lemma session_roundtrip secret credFP user ttl now lookup now' :
  is_i64 (unix (now + ttl)) ->
  parseSession secret (newSession secret credFP user ttl now) lookup now' =
  if unix (now + ttl) <? unix now' then None
  else match lookup user with
       | Some fp =>
           let msg := session_msg user (unix (now + ttl)) in
           if String.eqb (macB64 secret [msg; fp]) (macB64 secret [msg; credFP]) then Some user else None
       | None => None
       end.
Proof.
  intros Hexp. unfold parseSession, newSession.
  set (msg := session_msg user (unix (now + ttl))). set (sig := macB64 secret [msg; credFP]).
  change (msg +:+ "." +:+ sig) with (msg +:+ String "." sig).
  rewrite cut_app by apply session_msg_free. cbn [mbind option_bind].
  assert (Hm : cut "|" msg = Some (b64_encode user, format_int (unix (now + ttl))))
    by (by apply cut_app, b64_encode_free).
  rewrite Hm. cbn [mbind option_bind].
  rewrite b64_decode_encode. cbn [mbind option_bind]. rewrite parse_format_int by done. cbn [mbind option_bind].
  destruct (_ <? _); [done|]. by destruct (lookup user).
Qed.

(** C25: a token is accepted, until its expiry and for its user, exactly as
    long as the user exists and the credential it was signed with still gives
    the same signature: a removed user, or a changed password, ends the
    session. *)
Theorem session_lifecycle secret credFP user ttl now lookup now' :
  is_i64 (unix (now + ttl)) ->
  parseSession secret (newSession secret credFP user ttl now) lookup now' =
  if unix (now + ttl) <? unix now' then None
  else match lookup user with
       | Some fp =>
           let msg := session_msg user (unix (now + ttl)) in
           if String.eqb (macB64 secret [msg; fp]) (macB64 secret [msg; credFP]) then Some user else None
       | None => None
       end.
Proof. apply session_roundtrip. Qed.

(** A token that is accepted for a user carries the user's name and an
    expiry not yet reached, and the signature, under the user's present
    credential, of exactly these. *)
Theorem session_sound secret tok lookup now user :
  parseSession secret tok lookup now = Some user ->
  exists b64user expS exp credFP,
    let msg := b64user +:+ "|" +:+ expS in
    tok = msg +:+ "." +:+ macB64 secret [msg; credFP] /\
    b64_decode b64user = Some user /\ parse_int expS = Some exp /\ unix now <= exp /\ lookup user = Some credFP.
Proof.
  unfold parseSession. destruct (cut "." tok) as [[msg sig]|] eqn:Ec; [|done]. cbn [mbind option_bind].
  destruct (cut "|" msg) as [[b64user expS]|] eqn:Em; [|done]. cbn [mbind option_bind].
  destruct (b64_decode b64user) as [u|] eqn:Eu; [|done]. cbn [mbind option_bind].
  destruct (parse_int expS) as [exp|] eqn:Ee; [|done]. cbn [mbind option_bind].
  destruct (Z.ltb_spec exp (unix now)); [done|]. destruct (lookup u) as [fp|] eqn:El; [|done]. cbn [mbind option_bind].
  destruct (String.eqb_spec (macB64 secret [msg; fp]) sig) as [<-|]; [|done]. intros [= <-].
  apply cut_Some in Ec as [-> _], Em as [-> _].
  exists b64user, expS, exp, fp. split_and!; try done.
Qed.

Lemma mac_input_cons p parts : mac_input (p :: parts) = p +:+ String nul (mac_input parts).
Proof. done. Qed.

Lemma mac_input_inj parts1 parts2 :
  Forall (fun p => free_of nul p = true) parts1 -> Forall (fun p => free_of nul p = true) parts2 ->
  mac_input parts1 = mac_input parts2 -> parts1 = parts2.
Proof.
  intros H1. revert parts2. induction H1 as [|p1 l1 Hp1 H1 IH]; intros parts2 H2 Heq.
  - destruct parts2 as [|p2 l2]; [done|]. rewrite mac_input_cons in Heq. by destruct p2.
  - destruct parts2 as [|p2 l2]; [rewrite mac_input_cons in Heq; by destruct p1|].
    rewrite !mac_input_cons in Heq. inversion_clear H2 as [|? ? Hp2 Hl2].
    pose proof (cut_app nul p1 (mac_input l1) Hp1) as Hc. rewrite Heq, (cut_app nul p2 (mac_input l2) Hp2) in Hc.
    injection Hc as <- Hin. f_equal. apply IH; [done|]. done.
Qed.

(** Fields cannot run together: without NUL bytes, two lists of fields
    are authenticated as the same text only if they are equal. So no CSRF
    token is the signature of a session, and two sessions share what is signed
    only if they share user, expiry and credential. *)
Theorem mac_fields_separate user fp user' exp' fp' user2 exp2 fp2 :
  free_of nul user = true -> free_of nul fp = true -> free_of nul fp' = true -> free_of nul fp2 = true ->
  is_i64 exp' -> is_i64 exp2 ->
  mac_input ["csrf"; user; fp] <> mac_input [session_msg user' exp'; fp'] /\
  (mac_input [session_msg user2 exp2; fp2] = mac_input [session_msg user' exp'; fp'] ->
     user2 = user' /\ exp2 = exp' /\ fp2 = fp').
Proof.
  intros Hu Hf Hf' Hf2 He' He2.
  assert (Hs : forall u e f, free_of nul f = true -> Forall (fun p => free_of nul p = true) [session_msg u e; f]).
  { intros u e f H. repeat constructor; [apply session_msg_free|done]. }
  split.
  - intros H. apply mac_input_inj in H; [done|by repeat constructor|by apply Hs].
  - intros H. apply mac_input_inj in H; [|by apply Hs..]. injection H as Hm ->.
    unfold session_msg in Hm.
    assert (Hc : forall u e, cut "|" (b64_encode u +:+ "|" +:+ format_int e) = Some (b64_encode u, format_int e)).
    { intros u e. by apply cut_app, b64_encode_free. }
    pose proof (Hc user2 exp2) as H2. rewrite Hm, Hc in H2. injection H2 as Hb He.
    split_and!; [by apply b64_encode_inj in Hb| |done].
    apply (f_equal parse_int) in He. rewrite !parse_format_int in He by done. by injection He.
Qed.

End theorems.

(** ** Witnesses *)

Module SessionExample.

#[local] Instance plain : Crypto := {| sha256 s := s; hmac_sha256 k m := k +:+ m |}.

Definition users (u : string) : option string := if String.eqb u "admin|x" then Some "$2a$10$hash" else None.
Definition now : Z := 1767312000 * second.
Definition day : Z := 24 * 3600 * second.
Definition tok : string := newSession "0123456789abcdef" "$2a$10$hash" "admin|x" day now.

Lemma session_lifecycle_witness :
  parseSession "0123456789abcdef" tok users (now + 5) =
  if unix (now + day) <? unix (now + 5) then None
  else match users "admin|x" with
       | Some fp =>
           let msg := session_msg "admin|x" (unix (now + day)) in
           if String.eqb (macB64 "0123456789abcdef" [msg; fp]) (macB64 "0123456789abcdef" [msg; "$2a$10$hash"])
           then Some "admin|x" else None
       | None => None
       end.
Proof.
  assert (H : is_i64 (unix (now + day))) by (split; vm_compute; [discriminate|reflexivity]).
  exact (session_lifecycle "0123456789abcdef" "$2a$10$hash" "admin|x" day now users (now + 5) H).
Defined.

Example accepted : (parseSession "0123456789abcdef" tok users now, parseSession "0123456789abcdef" tok users (now + 2 * day)) =
  (Some "admin|x", None).
Proof. by vm_compute. Qed.

Lemma session_sound_witness :
  exists b64user expS exp credFP,
    let msg := b64user +:+ "|" +:+ expS in
    tok = msg +:+ "." +:+ macB64 "0123456789abcdef" [msg; credFP] /\
    b64_decode b64user = Some "admin|x" /\ parse_int expS = Some exp /\ unix now <= exp /\ users "admin|x" = Some credFP.
Proof.
  assert (H : parseSession "0123456789abcdef" tok users now = Some "admin|x") by (vm_compute; reflexivity).
  exact (session_sound "0123456789abcdef" tok users now "admin|x" H).
Defined.

Lemma mac_fields_separate_witness :
  mac_input ["csrf"; "admin"; "h"] <> mac_input [session_msg "admin" 7; "h"] /\
  (mac_input [session_msg "bob" 8; "h"] = mac_input [session_msg "admin" 7; "h"] ->
     "bob" = "admin" /\ 8 = 7 /\ "h" = "h").
Proof.
  assert (H1 : free_of nul "admin" = true) by reflexivity. assert (H2 : free_of nul "h" = true) by reflexivity.
  assert (H3 : is_i64 7) by (split; vm_compute; [discriminate|reflexivity]).
  assert (H4 : is_i64 8) by (split; vm_compute; [discriminate|reflexivity]).
  exact (mac_fields_separate "admin" "h" "admin" 7 "h" "bob" 8 "h" H1 H2 H2 H2 H3 H4).
Defined.

End SessionExample.
