(* ===== verification/Throttle.v ===== *)
(** * Throttle: the brake on the admin console's login form

    [internal/admin/throttle.go]. Times are nanoseconds after Go's zero time;
    the map is guarded by a mutex, so every method is one step. Shifts and
    durations are 64-bit. *)

From Stdlib Require Import String.
From S2P Require Import Prelude GoStrings.

Record failRec := mkFail { f_n : Z; f_until : Z; f_seen : Z }.

Notation fails := (gmap string failRec).

Definition throttleThreshold : Z := 8.
Definition minute : Z := 60 * 1000000000.
Definition throttleWindow : Z := 15 * minute.

Definition newLoginThrottle : fails := ∅.

(** The latest lock of the keys; the zero time when none holds. *)
Definition blockedUntil (t : fails) (now : Z) (keys : list string) : Z :=
  foldl (fun until k =>
    match t !! k with
    | Some r => if (now <? f_until r) && (until <? f_until r) then f_until r else until
    | None => until
    end) 0 keys.

(** Records idle for longer than the window are dropped from a large map. *)
Definition sweep (now : Z) (t : fails) : fails :=
  if 4096 <? Z.of_nat (size t) then filter (fun kv => now - f_seen kv.2 <= throttleWindow) t else t.

Definition backoff (n : Z) : Z :=
  let shift := n - throttleThreshold in
  let shift := if 20 <? shift then 20 else shift in
  let d := i64 (Z.shiftl minute shift) in
  if throttleWindow <? d then throttleWindow else d.

Definition fail_key (now : Z) (t : fails) (k : string) : fails :=
  let r := match t !! k with
           | Some r => if throttleWindow <? now - f_seen r then mkFail 0 0 0 else r
           | None => mkFail 0 0 0
           end in
  let n := i64 (f_n r + 1) in
  <[k := mkFail n (if throttleThreshold <=? n then now + backoff n else f_until r) now]> t.

Definition fail (now : Z) (keys : list string) (t : fails) : fails := foldl (fail_key now) (sweep now t) keys.

Definition ok (keys : list string) (t : fails) : fails := foldl (fun t k => delete k t) t keys.

(** ** The lock *)

(** The clamped shift keeps the duration far from the top of 64 bits. *)
Lemma shifted_minute s : 0 <= s <= 20 ->
  i64 (Z.shiftl minute s) = minute * 2 ^ s /\ minute <= minute * 2 ^ s.
Proof.
  intros Hs. rewrite Z.shiftl_mul_pow2 by lia.
  assert (Hp : 1 <= 2 ^ s <= 1048576).
  { split; [rewrite <- (Z.pow_0_r 2)|change 1048576 with (2 ^ 20)]; apply Z.pow_le_mono_r; lia. }
  revert Hp. generalize (2 ^ s). intros x Hx. unfold minute. split; [|lia].
  apply i64_small. unfold is_i64. change (two64 / 2) with 9223372036854775808. lia.
Qed.

Lemma backoff_doubles n : throttleThreshold <= n ->
  backoff n = Z.min throttleWindow (minute * 2 ^ Z.min 20 (n - throttleThreshold)).
Proof.
  intros Hn. unfold backoff, throttleThreshold in *.
  replace (if 20 <? n - 8 then 20 else n - 8) with (Z.min 20 (n - 8)) by (destruct (Z.ltb_spec 20 (n - 8)); lia).
  destruct (shifted_minute (Z.min 20 (n - 8))) as [-> _]; [lia|].
  destruct (Z.ltb_spec throttleWindow (minute * 2 ^ Z.min 20 (n - 8))); lia.
Qed.

(** The lock is never shorter than a minute nor longer than the window. *)
Lemma backoff_range n : throttleThreshold <= n -> minute <= backoff n <= throttleWindow.
Proof.
  intros Hn. rewrite backoff_doubles by done. unfold throttleThreshold in *.
  destruct (shifted_minute (Z.min 20 (n - 8))) as [_ H]; [lia|]. unfold throttleWindow, minute in *. lia.
Qed.

(** One attempt after another, each failing, from any sources; between two
    failures of [k] no more than the window passes. *)
Fixpoint steady (k : string) (last : Z) (attempts : list (string * Z)) : Prop :=
  match attempts with
  | [] => True
  | (k', t) :: rest => last <= t <= last + throttleWindow /\ steady k (if String.eqb k' k then t else last) rest
  end.

Definition run (t : fails) (attempts : list (string * Z)) : fails :=
  foldl (fun t a => fail a.2 [a.1] t) t attempts.

Definition count (k : string) (attempts : list (string * Z)) : Z :=
  Z.of_nat (length (List.filter (fun a => String.eqb a.1 k) attempts)).

Definition last_of (k : string) (start : Z) (attempts : list (string * Z)) : Z :=
  foldl (fun l a => if String.eqb a.1 k then a.2 else l) start attempts.

(** What the record of [k] holds after its [n]-th failure at [seen]. *)
Definition locked (n seen : Z) : failRec :=
  mkFail n (if throttleThreshold <=? n then seen + backoff n else 0) seen.

Lemma sweep_keeps now t k r : t !! k = Some r -> now - f_seen r <= throttleWindow -> sweep now t !! k = Some r.
Proof.
  intros Hk Hs. unfold sweep. destruct (4096 <? _); [|done]. apply map_lookup_filter_Some. done.
Qed.

Lemma sweep_none now t k : t !! k = None -> sweep now t !! k = None.
Proof. intros Hk. unfold sweep. destruct (4096 <? _); [|done]. apply map_lookup_filter_None. by left. Qed.

Lemma fail_locked now t k n seen :
  t !! k = Some (locked n seen) -> 0 <= n < two64 / 2 - 1 -> 0 <= now - seen <= throttleWindow ->
  fail now [k] t !! k = Some (locked (n + 1) now).
Proof.
  intros Hk Hn Hw. unfold fail. cbn [foldl]. unfold fail_key at 1.
  rewrite (sweep_keeps _ _ _ _ Hk) by (cbn; lia). rewrite lookup_insert_eq. cbn.
  destruct (Z.ltb_spec throttleWindow (now - seen)); [lia|]. cbn.
  rewrite i64_small by (unfold is_i64, two64 in *; lia). unfold locked. do 2 f_equal.
  destruct (Z.leb_spec throttleThreshold (n + 1)); [done|]. by destruct (Z.leb_spec throttleThreshold n); [lia|].
Qed.

Lemma fail_other now t k k' r :
  k' <> k -> t !! k = Some r -> now - f_seen r <= throttleWindow -> fail now [k'] t !! k = Some r.
Proof.
  intros Hne Hk Hw. unfold fail. cbn. unfold fail_key. rewrite lookup_insert_ne by done. by apply sweep_keeps.
Qed.

Lemma run_locked k t n seen attempts :
  t !! k = Some (locked n seen) -> 0 <= n -> n + count k attempts < two64 / 2 -> steady k seen attempts ->
  run t attempts !! k = Some (locked (n + count k attempts) (last_of k seen attempts)).
Proof.
  revert t n seen. induction attempts as [|[k' now] rest IH]; intros t n seen Hk Hn Hc Hs.
  { cbn. by rewrite Z.add_0_r. }
  destruct Hs as [Hw Hs]. unfold run, last_of, count in *. cbn in *.
  destruct (String.eqb_spec k' k) as [->|Hne]; cbn in *.
  - replace (n + Z.of_nat (S _)) with ((n + 1) + Z.of_nat (length (List.filter (fun a => String.eqb a.1 k) rest))) by lia.
    apply IH; [apply (fail_locked now t k n seen); [done|lia|lia]|lia|lia|done].
  - apply IH; [|done..]. apply fail_other; [done..|]. unfold locked. cbn. lia.
Qed.

Lemma last_of_ge k first attempts : steady k first attempts -> first <= last_of k first attempts.
Proof.
  revert first. induction attempts as [|[k' x] rest IH]; intros first Hs; [by unfold last_of|].
  destruct Hs as [Hw Hs]. specialize (IH _ Hs). unfold last_of in *. cbn in *. destruct (String.eqb k' k); lia.
Qed.

(** C28: guessing is slowed whatever else happens. A source with no failure on
    record that then fails [n] times, never idle for longer than the window,
    is locked after the last failure for [min 15 (2^(n-8))] minutes as soon as
    [n] is eight, and never before; the 64-bit arithmetic never wraps the lock
    away; and a success lifts it. *)
Theorem lockout_schedule t k attempts first now :
  t !! k = None -> count k attempts < two64 / 2 - 1 -> 0 < first -> steady k first attempts -> last_of k first attempts <= now ->
  let t' := run (fail first [k] t) attempts in
  let n := 1 + count k attempts in let seen := last_of k first attempts in
  let d := Z.min throttleWindow (minute * 2 ^ Z.min 20 (n - throttleThreshold)) in
  blockedUntil t' now [k] = (if (throttleThreshold <=? n) && (now <? seen + d) then seen + d else 0) /\
  (throttleThreshold <= n -> minute <= d <= throttleWindow) /\
  blockedUntil (ok [k] t') now [k] = 0.
Proof.
  intros Hk Hc Hf Hs Hnow t' n seen d.
  assert (H0 : 0 <= count k attempts) by (unfold count; lia).
  assert (H1 : fail first [k] t !! k = Some (locked 1 first)).
  { unfold fail. cbn [foldl]. unfold fail_key. rewrite sweep_none by done. by rewrite lookup_insert_eq. }
  assert (Ht : t' !! k = Some (locked n seen)) by (apply run_locked; [done|lia|lia|done]).
  split_and!.
  - unfold blockedUntil. cbn [foldl]. rewrite Ht. unfold locked. cbn [f_until].
    destruct (Z.leb_spec throttleThreshold n) as [Hn|Hn]; cbn [andb].
    + rewrite (backoff_doubles n Hn). fold d. pose proof (backoff_range n Hn) as Hr. rewrite (backoff_doubles n Hn) in Hr.
      fold d in Hr. destruct (Z.ltb_spec now (seen + d)); cbn [andb]; [|done].
      assert (Hseen : 0 < seen).
      { pose proof (last_of_ge k first attempts Hs). unfold seen. lia. }
      destruct (Z.ltb_spec 0 (seen + d)); [done|unfold minute in *; lia].
    + destruct (Z.ltb_spec now 0); cbn; [|done]. by destruct (Z.ltb_spec 0 0).
  - intros Hn. unfold d. rewrite <- (backoff_doubles n Hn). by apply backoff_range.
  - unfold blockedUntil, ok. cbn. by rewrite lookup_delete_eq.
Qed.

(** ** A witness *)

Module ThrottleExample.

Definition attempts : list (string * Z) := (fun i => ("ip:192.0.2.1", (i + 2) * minute)) <$> [0; 1; 2; 3; 4; 5; 6; 7; 8].

Lemma lockout_schedule_witness :
  let t' := run (fail minute ["ip:192.0.2.1"] newLoginThrottle) attempts in
  let n := 1 + count "ip:192.0.2.1" attempts in let seen := last_of "ip:192.0.2.1" minute attempts in
  let d := Z.min throttleWindow (minute * 2 ^ Z.min 20 (n - throttleThreshold)) in
  blockedUntil t' (10 * minute) ["ip:192.0.2.1"] =
    (if (throttleThreshold <=? n) && (10 * minute <? seen + d) then seen + d else 0) /\
  (throttleThreshold <= n -> minute <= d <= throttleWindow) /\
  blockedUntil (ok ["ip:192.0.2.1"] t') (10 * minute) ["ip:192.0.2.1"] = 0.
Proof.
  assert (H1 : newLoginThrottle !! "ip:192.0.2.1" = None) by reflexivity.
  assert (H2 : count "ip:192.0.2.1" attempts < two64 / 2 - 1) by (vm_compute; reflexivity).
  assert (H3 : 0 < minute) by (vm_compute; reflexivity).
  assert (H4 : steady "ip:192.0.2.1" minute attempts) by (repeat (split; [split; vm_compute; discriminate|]); done).
  assert (H5 : last_of "ip:192.0.2.1" minute attempts <= 10 * minute) by (vm_compute; discriminate).
  exact (lockout_schedule newLoginThrottle "ip:192.0.2.1" attempts minute (10 * minute) H1 H2 H3 H4 H5).
Defined.

(** Ten failures: four minutes. *)
Example four_minutes : blockedUntil (run (fail minute ["ip:192.0.2.1"] newLoginThrottle) attempts) (10 * minute) ["ip:192.0.2.1"] =
  14 * minute.
Proof. by vm_compute. Qed.

End ThrottleExample.
