(* ===== verification/Limiter.v ===== *)
(** * Limiter: the per-client token buckets of the reverse proxy

    [internal/proxy/limiter.go]. The code counts tokens in [float64]; here they
    are exact, in billionths of a token, so that a nanosecond adds [l_rate] of
    them: no rounding of the floating-point sum is modelled. Times are
    nanoseconds of the monotonic clock. The code reads the clock before it
    takes the mutex, so two calls at once can reach the buckets in the other
    order of their times; the definitions take the times as they come, and the
    theorems that need them in order say so. *)

From Stdlib Require Import String Sorted.
From S2P Require Import Prelude GoStrings NetIP.

Record bucket := mkBucket { b_tokens : Z; b_last : Z }.
Record limiter := mkLimiter { l_rate : Z; l_buckets : gmap string bucket; l_sweep : Z }.

Definition token : Z := 1000000000.
Definition minute_ns : Z := 60 * 1000000000.
Definition newLimiter (ratePerSec now : Z) : limiter := mkLimiter ratePerSec ∅ now.
Definition burst (l : limiter) : Z := l_rate l * 2 * token.

(** IPv6 clients are counted by their /64. *)
Definition bucketKey (ip : option addr) : string :=
  match ip with
  | None => "unknown"
  | Some (V4 b) => ip_string (V4 b)
  | Some (V6 b) => ip_string (V6 (take 8 b ++ repeat 0 8))
  end.

Definition refill (l : limiter) (now : Z) (b : bucket) : bucket :=
  mkBucket (Z.min (burst l) (b_tokens b + (now - b_last b) * l_rate l)) now.

(** Idle buckets are dropped, sooner when there are many. *)
Definition sweep (l : limiter) (now : Z) : limiter :=
  let crowded := 16384 <? Z.of_nat (size (l_buckets l)) in
  let idle := if crowded then minute_ns else 10 * minute_ns in
  if (minute_ns <? now - l_sweep l) && (crowded || (10 * minute_ns <? now - l_sweep l))
  then mkLimiter (l_rate l) (filter (fun kv => now - b_last kv.2 <= idle) (l_buckets l)) now
  else l.

Definition put (l : limiter) (key : string) (b : bucket) : limiter :=
  mkLimiter (l_rate l) (<[key := b]> (l_buckets l)) (l_sweep l).

(** The bucket is a pointer: taking a token after the sweep is visible in the
    map, for the sweep never drops a bucket used at this very time. *)
Definition allow (l : limiter) (now : Z) (ip : option addr) : bool * limiter :=
  let key := bucketKey ip in
  let b := refill l now (default (mkBucket (burst l) now) (l_buckets l !! key)) in
  let l := sweep (put l key b) now in
  if b_tokens b <? token then (false, l) else (true, put l key (mkBucket (b_tokens b - token) now)).

Definition run_calls (l : limiter) (calls : list (Z * option addr)) : limiter :=
  foldl (fun l c => (allow l c.1 c.2).2) l calls.

Lemma allow_rate l now ip : l_rate (allow l now ip).2 = l_rate l.
Proof. unfold allow, put, sweep. cbn. destruct (_ && _); cbn; by case_match. Qed.

(** When the clients of bucket [key] were let through. *)
Fixpoint admitted (key : string) (l : limiter) (calls : list (Z * option addr)) : list Z :=
  match calls with
  | [] => []
  | (now, ip) :: calls' =>
      let '(ok, l') := allow l now ip in
      let rest := admitted key l' calls' in
      if ok && String.eqb (bucketKey ip) key then now :: rest else rest
  end.

(** ** The specification: one bucket, never dropped

    A client alone with its bucket, at the times it calls. *)

Definition full (rate now : Z) : bucket := mkBucket (rate * 2 * token) now.

Definition fill (rate now : Z) (b : bucket) : bucket :=
  mkBucket (Z.min (rate * 2 * token) (b_tokens b + (now - b_last b) * rate)) now.

Definition take_one (b : bucket) : bool * bucket :=
  if b_tokens b <? token then (false, b) else (true, mkBucket (b_tokens b - token) (b_last b)).

Fixpoint client (rate : Z) (b : bucket) (times : list Z) : list Z :=
  match times with
  | [] => []
  | now :: times' =>
      let '(ok, b') := take_one (fill rate now b) in
      if ok then now :: client rate b' times' else client rate b' times'
  end.

Fixpoint times_of (key : string) (calls : list (Z * option addr)) : list Z :=
  match calls with
  | [] => []
  | (now, ip) :: calls' => if String.eqb (bucketKey ip) key then now :: times_of key calls' else times_of key calls'
  end.

(** Times that do not go back, from [t] on. *)
Fixpoint ordered (t : Z) (times : list Z) : Prop :=
  match times with [] => True | now :: times' => t <= now /\ ordered now times' end.

Definition within (t1 t2 : Z) (times : list Z) : list Z := List.filter (fun t => (t1 <=? t) && (t <=? t2)) times.

(** ** The limiter implements the specification *)

Section simulation.
Context (rate : Z) (Hrate : 0 <= rate).

Definition sane (b : bucket) : Prop := 0 <= b_tokens b <= rate * 2 * token.

(** Bucket [b] of the specification against the entry the limiter has for it
    at time [now]: the same, or none and [b] is full again. *)
Definition tracks (now : Z) (entry : option bucket) (b : bucket) : Prop :=
  sane b /\ b_last b <= now /\
  match entry with Some b' => b' = b | None => fill rate now b = full rate now end.

Lemma fill_sane now b : sane b -> b_last b <= now -> sane (fill rate now b).
Proof. unfold sane, fill, token. cbn. nia. Qed.

Lemma fill_fill now b : fill rate now (fill rate now b) = fill rate now b.
Proof. unfold fill. cbn. rewrite Z.sub_diag. f_equal. lia. Qed.

Lemma take_sane b : sane b -> sane (take_one b).2.
Proof. unfold sane, take_one, token. destruct (_ <? _) eqn:H; bsplit; cbn; lia. Qed.

Lemma full_later now now' b : fill rate now b = full rate now -> now <= now' -> fill rate now' b = full rate now'.
Proof. unfold fill, full. intros [= H] Hn. f_equal. nia. Qed.

(** A bucket idle for a minute is full, so dropping it changes nothing. *)
Lemma idle_full now b : sane b -> minute_ns < now - b_last b -> fill rate now b = full rate now.
Proof. unfold sane, minute_ns, fill, full, token. intros Hb Hn. f_equal. nia. Qed.

Lemma tracks_later now now' e b : tracks now e b -> now <= now' -> tracks now' e b.
Proof.
  intros (Hs & Hl & He) Hn. split_and!; [done|lia|]. destruct e; [done|]. by eapply full_later.
Qed.

Definition simulates (now : Z) (l : limiter) (spec : string -> bucket) : Prop :=
  l_rate l = rate /\ forall key, tracks now (l_buckets l !! key) (spec key).

Lemma sweep_simulates now l spec : simulates now l spec -> simulates now (sweep l now) spec.
Proof.
  intros [Hr Hk]. unfold sweep. cbn zeta. destruct (_ && _); [|done]. split; [done|]. intros key. cbn.
  specialize (Hk key) as (Hs & Hl & He). split_and!; [done..|]. rewrite map_lookup_filter.
  destruct (l_buckets l !! key) as [b|]; [|done]. subst b. cbn.
  match goal with |- context [guard ?P] => destruct (decide P) as [Hi|Hi] end.
  - by rewrite option_guard_True by done.
  - rewrite option_guard_False by done. apply idle_full; [done|]. unfold minute_ns in *. destruct (16384 <? _); lia.
Qed.

Definition set_spec (spec : string -> bucket) (key : string) (b : bucket) : string -> bucket :=
  fun k => if String.eqb k key then b else spec k.

Lemma put_simulates now l spec key b : simulates now l spec -> sane b -> b_last b <= now ->
  simulates now (put l key b) (set_spec spec key b).
Proof.
  intros [Hr Hk] Hs Hl. split; [done|]. intros k. cbn. unfold set_spec. destruct (String.eqb_spec k key) as [->|Hne].
  - by rewrite lookup_insert_eq.
  - rewrite lookup_insert_ne by done. apply Hk.
Qed.

Lemma set_spec_twice spec key b b' k : set_spec (set_spec spec key b) key b' k = set_spec spec key b' k.
Proof. unfold set_spec. by destruct (String.eqb k key). Qed.

Lemma simulates_ext now l spec spec' : (forall k, spec k = spec' k) -> simulates now l spec -> simulates now l spec'.
Proof. intros He [Hr Hk]. split; [done|]. intros k. rewrite <- He. apply Hk. Qed.

(** One call: the answer is the one of the caller's own bucket, and no other
    bucket changes. *)
Lemma allow_simulates now now' l spec ip : simulates now l spec -> now <= now' ->
  let key := bucketKey ip in
  let '(ok, b) := take_one (fill rate now' (spec key)) in
  (allow l now' ip).1 = ok /\ simulates now' (allow l now' ip).2 (set_spec spec key b).
Proof.
  intros [Hr Hk] Hn key. assert (Hk' : forall k, tracks now' (l_buckets l !! k) (spec k)).
  { intros k. by eapply tracks_later. }
  assert (Hb : refill l now' (default (mkBucket (burst l) now') (l_buckets l !! key)) = fill rate now' (spec key)).
  { unfold refill, burst. rewrite Hr. destruct (Hk' key) as (Hs & Hl & He).
    destruct (l_buckets l !! key) as [b|]; cbn [default]; [by subst|]. rewrite He. unfold full. f_equal. cbn. lia. }
  assert (Hsane : sane (fill rate now' (spec key))) by (apply fill_sane; apply Hk').
  unfold allow. fold key. rewrite Hb.
  pose proof (put_simulates now' l spec key _ (conj Hr Hk') Hsane (Z.le_refl now')) as Hp.
  apply sweep_simulates in Hp. unfold take_one. destruct (_ <? token) eqn:Et; [done|]. split; [done|].
  apply (simulates_ext _ _ _ _ (set_spec_twice spec key (fill rate now' (spec key)) _)).
  apply put_simulates; [exact Hp| |done]. pose proof (take_sane _ Hsane) as Ht. unfold take_one in Ht. by rewrite Et in Ht.
Qed.

Lemma run_client now l spec calls key : simulates now l spec -> ordered now calls.*1 ->
  admitted key l calls = client rate (spec key) (times_of key calls).
Proof.
  revert now l spec. induction calls as [|[t ip] calls IH]; intros now l spec Hs Ho; [done|].
  cbn in Ho. destruct Ho as [Ht Ho]. pose proof (allow_simulates now t l spec ip Hs Ht) as Ha. cbn zeta in Ha.
  destruct (take_one (fill rate t (spec (bucketKey ip)))) as [ok b] eqn:Et. destruct Ha as [Ha Hs'].
  cbn [admitted times_of]. destruct (allow l t ip) as [ok' l']. cbn in Ha, Hs'. subst ok'.
  rewrite (IH t l' _ Hs' Ho). unfold set_spec. destruct (String.eqb_spec (bucketKey ip) key) as [<-|Hne].
  - rewrite String.eqb_refl. cbn [client]. rewrite Et. by destruct ok.
  - replace (String.eqb key (bucketKey ip)) with false by (symmetry; apply String.eqb_neq; congruence). by rewrite andb_false_r.
Qed.

Lemma new_simulates t0 : simulates t0 (newLimiter rate t0) (fun _ => full rate t0).
Proof.
  split; [done|]. intros key. cbn. rewrite lookup_empty. unfold tracks, sane, full, fill, token. cbn.
  split_and!; try lia. f_equal. nia.
Qed.

(** *** Bounds of one bucket *)

Lemma within_after t1 t2 t times : t2 < t -> ordered t times -> within t1 t2 times = [].
Proof.
  revert t. induction times as [|x times IH]; intros t Ht Ho; [done|]. destruct Ho as [Hx Ho]. cbn.
  replace (x <=? t2) with false by lia. rewrite andb_false_r. eapply (IH x); [lia|done].
Qed.

Lemma within_cons t1 t2 t times : within t1 t2 (t :: times) =
  if (t1 <=? t) && (t <=? t2) then t :: within t1 t2 times else within t1 t2 times.
Proof. done. Qed.

Lemma ordered_weaken t t' times : t' <= t -> ordered t times -> ordered t' times.
Proof. destruct times; [done|]. cbn. intros ? []. split; [lia|done]. Qed.

Lemma client_ordered b times t : ordered t times -> ordered t (client rate b times).
Proof.
  revert b t. induction times as [|x times IH]; intros b t; [done|]. intros [Hx Ho]. cbn [client].
  destruct (take_one _) as [[] b']; [split; [done|]; by apply IH|]. apply IH. by eapply ordered_weaken.
Qed.

(** What a bucket of [b_tokens b] can still pay for until [t2]. *)
Lemma client_budget t1 t2 b times : sane b -> b_last b <= t2 -> ordered (b_last b) times ->
  Z.of_nat (length (within t1 t2 (client rate b times))) * token <= b_tokens b + (t2 - b_last b) * rate.
Proof.
  revert b. induction times as [|t times IH]; intros b Hb Hl Ho; cbn [client].
  { cbn. unfold sane in Hb. nia. }
  destruct Ho as [Ht Ho]. pose proof (fill_sane t b Hb Ht) as Hf.
  destruct (Z_lt_le_dec t2 t) as [Hlt|Hle].
  { pose proof (within_after t1 t2 t (client rate b (t :: times)) Hlt (client_ordered b (t :: times) t (conj (Z.le_refl t) Ho))) as Hz.
    cbn [client] in Hz. rewrite Hz. cbn. unfold sane in Hb. nia. }
  unfold take_one. destruct (_ <? token) eqn:Et; bsplit.
  - specialize (IH (fill rate t b) Hf Hle Ho). unfold fill in IH at 2 3. cbn in IH. cbn. lia.
  - pose proof (take_sane _ Hf) as Hs. unfold take_one in Hs.
    replace (b_tokens (fill rate t b) <? token) with false in Hs by lia. cbn [snd] in Hs.
    specialize (IH _ Hs Hle Ho). cbn [b_tokens b_last] in IH. rewrite within_cons.
    assert (b_tokens (fill rate t b) <= b_tokens b + (t - b_last b) * rate) by (cbn; lia).
    change (b_last (fill rate t b)) with t in *. destruct (_ && _); cbn [length]; unfold token in *; lia.
Qed.

Lemma client_window t1 t2 b times : sane b -> t1 <= t2 -> ordered (b_last b) times ->
  Z.of_nat (length (within t1 t2 (client rate b times))) * token <= rate * 2 * token + (t2 - t1) * rate.
Proof.
  revert b. induction times as [|t times IH]; intros b Hb Hw Ho.
  { cbn. unfold token. nia. }
  pose proof Ho as [Ht Ho']. pose proof (fill_sane t b Hb Ht) as Hf. destruct (Z_lt_le_dec t t1) as [Hlt|Hle].
  - cbn [client]. pose proof (take_sane _ Hf) as Hs. destruct (take_one (fill rate t b)) as [ok b'] eqn:Et.
    assert (Hbl : b_last b' = t) by (unfold take_one in Et; destruct (_ <? _); by injection Et as _ <-).
    assert (IHb := IH b' Hs Hw ltac:(by rewrite Hbl)). destruct ok; [|done]. rewrite within_cons.
    replace (t1 <=? t) with false by lia. done.
  - destruct (Z_lt_le_dec t2 t) as [Hlt2|Hle2].
    { rewrite (within_after t1 t2 t); [cbn; unfold token; nia|lia|]. apply client_ordered. split; [lia|done]. }
    assert (Hc : client rate (fill rate t b) (t :: times) = client rate b (t :: times)).
    { cbn [client]. by rewrite fill_fill. }
    pose proof (client_budget t1 t2 (fill rate t b) (t :: times) Hf Hle2) as Hbud. cbn [b_last fill] in Hbud.
    specialize (Hbud (conj (Z.le_refl t) Ho')). rewrite Hc in Hbud. etransitivity; [exact Hbud|].
    destruct Hf. apply Z.add_le_mono; [done|]. apply Z.mul_le_mono_nonneg_r; lia.
Qed.

(** A client that lets the bucket gain a token between its calls. *)
Fixpoint patient (t : Z) (times : list Z) : Prop :=
  match times with [] => True | now :: times' => token <= (now - t) * rate /\ t <= now /\ patient now times' end.

Lemma client_patient b times : 1 <= rate -> sane b -> patient (b_last b) times -> client rate b times = times.
Proof.
  intros H1. revert b. induction times as [|t times IH]; intros b Hb; [done|]. intros (Hg & Ht & Hp).
  pose proof (fill_sane t b Hb Ht) as Hf. cbn [client]. assert (He : b_tokens (fill rate t b) <? token = false).
  { unfold sane in Hb. cbn. unfold token in *. lia. }
  pose proof (take_sane _ Hf) as Hs. unfold take_one in *. rewrite He in *. f_equal. by apply IH.
Qed.

End simulation.

(** ** What the limiter promises *)

(** C33: the calls of one client, an IPv4 address or an IPv6 /64, are decided
    as if the client were alone with a bucket of twice the rate that is never
    dropped: neither the calls of others nor the sweeps of idle buckets can
    be told from the answers. The calls come in the order of their times,
    and tokens are counted exactly, in fractions of a nanosecond's refill,
    where the code keeps them in a float64. *)
Theorem limiter_isolates rate t0 calls key :
  0 <= rate -> ordered t0 calls.*1 ->
  admitted key (newLimiter rate t0) calls = client rate (full rate t0) (times_of key calls).
Proof. intros Hr Ho. exact (run_client rate Hr t0 _ _ calls key (new_simulates rate Hr t0) Ho). Qed.

(** In any window of time, whatever the calls, a client gets at most a
    burst of twice the rate and the rate for the length of the window. *)
Theorem limiter_bounds rate t0 calls key t1 t2 :
  0 <= rate -> ordered t0 calls.*1 -> t1 <= t2 ->
  Z.of_nat (length (within t1 t2 (admitted key (newLimiter rate t0) calls))) * token <=
  2 * rate * token + (t2 - t1) * rate.
Proof.
  intros Hr Ho Ht. rewrite (run_client rate Hr t0 _ _ calls key (new_simulates rate Hr t0) Ho).
  pose proof (client_window rate Hr t1 t2 (full rate t0) (times_of key calls)) as Hw.
  transitivity (rate * 2 * token + (t2 - t1) * rate); [apply Hw; [|done|]|lia].
  - split; cbn; unfold token; lia.
  - cbn. revert Ho. clear. revert t0. induction calls as [|[t ip] calls IH]; intros t0; [done|]. intros [Ht Ho].
    cbn. case_match; [split; [done|]; by apply IH|]. eapply ordered_weaken; [exact Ht|]. by apply IH.
Qed.

(** A client whose calls are far enough apart for the rate is never
    refused, however many other clients call in between. *)
Theorem patient_client_served rate t0 calls key :
  1 <= rate -> ordered t0 calls.*1 -> patient rate t0 (times_of key calls) ->
  admitted key (newLimiter rate t0) calls = times_of key calls.
Proof.
  intros Hr Ho Hp. rewrite (run_client rate ltac:(lia) t0 _ _ calls key (new_simulates rate ltac:(lia) t0) Ho).
  apply client_patient; [lia| |done]. split; cbn; unfold token; lia.
Qed.

(** ** A limiter at one request a second *)

Module LimiterExample.

Definition alice : option addr := Some (V4 [192; 0; 2; 1]).
Definition bob : option addr := Some (V4 [192; 0; 2; 2]).

(** Bob floods, Alice calls twice, eleven minutes apart: the sweep drops
    both buckets meanwhile. *)
Definition calls : list (Z * option addr) :=
  [(1000000000, bob); (1000000001, bob); (1000000002, bob); (1000000003, alice); (1500000000, bob);
   (2100000000, bob); (661000000003, bob); (662000000003, alice)].

Lemma limiter_isolates_witness :
  admitted "192.0.2.2" (newLimiter 1 0) calls =
  client 1 (full 1 0) [1000000000; 1000000001; 1000000002; 1500000000; 2100000000; 661000000003].
Proof. exact (limiter_isolates 1 0 calls "192.0.2.2" ltac:(lia) ltac:(cbn; lia)). Defined.

Lemma limiter_bounds_witness :
  Z.of_nat (length (within 1000000000 2000000000 (admitted "192.0.2.2" (newLimiter 1 0) calls))) * token <=
  2 * 1 * token + (2000000000 - 1000000000) * 1.
Proof. exact (limiter_bounds 1 0 calls "192.0.2.2" 1000000000 2000000000 ltac:(lia) ltac:(cbn; lia) ltac:(lia)). Defined.

Lemma patient_client_served_witness :
  admitted "192.0.2.1" (newLimiter 1 0) calls = [1000000003; 662000000003].
Proof. exact (patient_client_served 1 0 calls "192.0.2.1" ltac:(lia) ltac:(cbn; lia) ltac:(vm_compute; intuition discriminate)). Defined.

Example flood_cut : admitted "192.0.2.2" (newLimiter 1 0) calls = [1000000000; 1000000001; 2100000000; 661000000003].
Proof. vm_compute. reflexivity. Qed.

End LimiterExample.
