(* ===== verification/Proxy.v ===== *)
(** * Proxy: the reverse proxy's routing table and gates

    [internal/proxy/proxy.go] and [console.go]: which rules may be written,
    the table compiled from a configuration and swapped on reload, what a
    request must pass before it is forwarded, and the headers it is forwarded
    with. The transport to the upstream, the error pages and the access log
    are left out. Header names are keyed in lower case; a header has the value
    [Get] reads. *)

From Stdlib Require Import String Ascii.
From S2P Require Import Prelude GoStrings NetIP Encoding Config Limiter.

(** ** Rules that may be written *)

Definition label_char (c : ascii) : bool := is_lower c || is_digit c || Ascii.eqb c "-".

Definition label_ok (l : string) : bool :=
  negb (String.eqb l "") && (String.length l <=? 63)%nat &&
  negb (has_prefix "-" l) && negb (has_suffix "-" l) && str_forall label_char l.

Definition ValidHost (h : string) : bool :=
  negb (String.eqb h "") && (String.length h <=? 253)%nat && forallb label_ok (split "." h).

Inductive rule_error :=
| BadHost | BadURL | BadScheme | NoUpstreamHost | NotARoot | BadAllow (cidr : string)
| BadCred (cred : string) | NotBcrypt (user : string) | NegativeRate | BadPort (p : Z).

Section rules.
Context {E : Env} {B : Bcrypt}.

Fixpoint all_ok {A} (f : A -> result rule_error unit) (l : list A) : result rule_error unit :=
  match l with [] => Ok tt | x :: l' => _ ← f x; all_ok f l' end.

Definition root_only (u : url) : bool :=
  (String.eqb (u_Path u) "" || String.eqb (u_Path u) "/") && String.eqb (u_RawQuery u) "" &&
  String.eqb (u_Fragment u) "" && negb (u_User u).

Definition validate_cred (cred : string) : result rule_error unit :=
  match cut ":" cred with
  | None => Err (BadCred cred)
  | Some (user, hash) =>
      if String.eqb user "" then Err (BadCred cred)
      else if bcrypt_cost hash then Ok tt else Err (NotBcrypt user)
  end.

Definition ValidateRule (host : string) (pr : ProxyRule) : result rule_error unit :=
  if negb (ValidHost host) then Err BadHost
  else match url_parse (trim_space (Upstream pr)) with
  | None => Err BadURL
  | Some u =>
      _ ← guard_or (String.eqb (u_Scheme u) "http" || String.eqb (u_Scheme u) "https") BadScheme;
      _ ← guard_or (negb (String.eqb (u_Host u) "")) NoUpstreamHost;
      _ ← guard_or (root_only u) NotARoot;
      _ ← all_ok (fun cidr => match ParseCIDR (trim_space cidr) with Some _ => Ok tt | None => Err (BadAllow cidr) end) (Allow pr);
      _ ← all_ok validate_cred (BasicAuth pr);
      _ ← guard_or (0 <=? RateLimit pr) NegativeRate;
      all_ok (fun p => guard_or ((1 <=? p) && (p <=? 65535)) (BadPort p)) (ConsolePorts pr)
  end.

End rules.

(** ** The table *)

Record rule := mkRoute {
  r_host : string; r_src : ProxyRule; r_url : url; r_allow : list ipnet; r_users : gmap string string;
  r_limit : option limiter
}.

Inductive compile_error := ErrURL (host : string) | ErrCIDR (host cidr : string) | ErrCred (host : string).

Section table.
Context {E : Env} {B : Bcrypt}.

Fixpoint compile_allow (host : string) (l : list string) : result compile_error (list ipnet) :=
  match l with
  | [] => Ok []
  | cidr :: l' =>
      match ParseCIDR (trim_space cidr) with
      | None => Err (ErrCIDR host cidr)
      | Some n => ns ← compile_allow host l'; Ok (n :: ns)
      end
  end.

Fixpoint compile_users (host : string) (l : list string) (users : gmap string string)
  : result compile_error (gmap string string) :=
  match l with
  | [] => Ok users
  | cred :: l' =>
      match cut ":" cred with
      | None => Err (ErrCred host)
      | Some (user, hash) => compile_users host l' (<[user := hash]> users)
      end
  end.

Definition compile (now : Z) (host : string) (pr : ProxyRule) : result compile_error rule :=
  match url_parse (Upstream pr) with
  | None => Err (ErrURL host)
  | Some u =>
      nets ← compile_allow host (Allow pr);
      users ← compile_users host (BasicAuth pr) ∅;
      Ok (mkRoute host pr u nets users
            (if 0 <? RateLimit pr then Some (newLimiter (RateLimit pr) now) else None))
  end.

Fixpoint compile_rules (now : Z) (prev : gmap string rule) (rules : list (string * ProxyRule))
  (table : gmap string rule) : result compile_error (gmap string rule) :=
  match rules with
  | [] => Ok table
  | (host, pr) :: rules' =>
      r ← match prev !! host with
          | Some old => if decide (r_src old = pr) then Ok old else compile now host pr
          | None => compile now host pr
          end;
      compile_rules now prev rules' (<[host := r]> table)
  end.

(** On an error the previous table stays. *)
Definition Update (now : Z) (cfg : gmap string ProxyRule) (prev : gmap string rule)
  : result compile_error unit * gmap string rule :=
  match compile_rules now prev (map_to_list cfg) ∅ with
  | Ok table => (Ok tt, table)
  | Err e => (Err e, prev)
  end.

(** ** A request *)

Definition hostKey (h : string) : string :=
  let h := to_lower h in
  trim_suffix "." (match SplitHostPort h with Some (host, _) => host | None => h end).

Definition allows (rl : rule) (peer : option addr) : bool :=
  match r_allow rl with
  | [] => true
  | ns => existsb (fun n => match peer with Some ip => Contains n ip | None => false end) ns
  end.

Definition hasConsolePort (rl : rule) (port : Z) : bool := existsb (Z.eqb port) (ConsolePorts (r_src rl)).

(** [q_Auth]: what [BasicAuth] reads of the Authorization header. *)
Record request := mkReq {
  q_Host : string; q_RemoteAddr : string; q_URI : string; q_TLS : bool;
  q_Headers : gmap string string; q_Auth : option (string * string)
}.

Definition checkAuth (rl : rule) (q : request) : bool :=
  match q_Auth q with
  | None => false
  | Some (user, pass) =>
      match r_users rl !! user with
      | None => false
      | Some hash => bcrypt_compare hash pass
      end
  end.

Definition peer_string (q : request) : string :=
  match SplitHostPort (q_RemoteAddr q) with Some (h, _) => h | None => q_RemoteAddr q end.

(** *** The headers that are forwarded *)

(** [httputil.ReverseProxy] with a [Rewrite] hook: the hop-by-hop headers, the
    ones Connection names and the standard ones, are removed, but for the
    request of an upgrade and of trailers; then the forwarding headers of the
    client, before the hook runs. *)
Definition hop_headers : list string :=
  ["connection"; "proxy-connection"; "keep-alive"; "proxy-authenticate"; "proxy-authorization"; "te"; "trailer";
   "transfer-encoding"; "upgrade"].
Definition forwarding_headers : list string := ["forwarded"; "x-forwarded-for"; "x-forwarded-host"; "x-forwarded-proto"].

Definition drop_headers (names : list string) (h : gmap string string) : gmap string string :=
  foldr delete h names.

Definition header_get (h : gmap string string) (k : string) : string := default "" (h !! k).

Definition tokens (v : string) : list string := (fun t => to_lower (trim_space t)) <$> split "," v.

Definition incoming (h : gmap string string) : gmap string string :=
  let named := tokens (header_get h "connection") in
  let up := if existsb (String.eqb "upgrade") named then header_get h "upgrade" else "" in
  let out := drop_headers (named ++ hop_headers) h in
  let out := if existsb (String.eqb "trailers") (tokens (header_get h "te")) then <["te" := "trailers"]> out else out in
  let out := if String.eqb up "" then out else <["upgrade" := up]> (<["connection" := "Upgrade"]> out) in
  drop_headers forwarding_headers out.

(** [SetXForwarded]. *)
Definition set_x_forwarded (q : request) (h : gmap string string) : gmap string string :=
  let h := match SplitHostPort (q_RemoteAddr q) with
           | Some (ip, _) => <["x-forwarded-for" := ip]> h
           | None => delete "x-forwarded-for" h
           end in
  <["x-forwarded-proto" := if q_TLS q then "https" else "http"]> (<["x-forwarded-host" := q_Host q]> h).

(** [url.URL.String] with another scheme and host, on a URL that parses. *)
Context (with_origin : string -> string -> string -> option string).

Definition rewriteURLHost (raw scheme host : string) : string :=
  match url_parse raw with
  | Some u => if String.eqb (u_Host u) "" then raw else default raw (with_origin raw scheme host)
  | None => raw
  end.

Definition set_if_present (k v : string) (h : gmap string string) : gmap string string :=
  match h !! k with Some old => if String.eqb old "" then h else <[k := v]> h | None => h end.

(** The [Rewrite] hook: the outbound Host and headers. *)
Definition rewrite (rl : rule) (q : request) : string * gmap string string :=
  let h := set_x_forwarded q (incoming (q_Headers q)) in
  let u := r_url rl in
  let host := if PreserveHost (r_src rl) && negb (BMCCompat (r_src rl)) then q_Host q else u_Host u in
  let h := delete "true-client-ip" (delete "x-client-ip" h) in
  let h := match SplitHostPort (q_RemoteAddr q) with
           | Some (peer, _) => <["x-real-ip" := peer]> h
           | None => delete "x-real-ip" h
           end in
  let h := if BMCCompat (r_src rl) then
             let h := set_if_present "origin" (u_Scheme u +:+ "://" +:+ u_Host u) h in
             match h !! "referer" with
             | Some ref => set_if_present "referer" (rewriteURLHost ref (u_Scheme u) (u_Host u)) h
             | None => h
             end
           else h in
  (host, h).

(** The [ModifyResponse] hook: a redirect of the upstream to its own address
    leads back to the vhost. *)
Definition ModifyResponse (rl : rule) (headers : gmap string string) : gmap string string :=
  if BMCCompat (r_src rl) then
    foldl (fun h k =>
      let v := header_get h k in
      if String.eqb v "" then h
      else match url_parse v with
           | Some lu =>
               if String.eqb (u_Host lu) (u_Host (r_url rl))
               then <[k := default v (with_origin v "https" (r_host rl))]> h else h
           | None => h
           end) headers ["location"; "content-location"]
  else headers.

(** *** The gates *)

Inductive answer :=
| Refused (status : Z)
| Forward (upstream host : string) (headers : gmap string string).

Definition without_auth (q : request) : request :=
  mkReq (q_Host q) (q_RemoteAddr q) (q_URI q) (q_TLS q) (delete "authorization" (q_Headers q)) (q_Auth q).

Definition with_limit (rl : rule) (l : limiter) : rule :=
  mkRoute (r_host rl) (r_src rl) (r_url rl) (r_allow rl) (r_users rl) (Some l).

Definition rate_ok (rl : rule) (now : Z) (peer : option addr) : bool * rule :=
  match r_limit rl with
  | None => (true, rl)
  | Some l => let '(ok, l') := allow l now peer in (ok, with_limit rl l')
  end.

Definition ServeHTTP (now : Z) (q : request) (table : gmap string rule) : answer * gmap string rule :=
  let peer := ParseIP (peer_string q) in
  let host := hostKey (q_Host q) in
  match table !! host with
  | None => (Refused 404, table)
  | Some rl =>
      if negb (allows rl peer) then (Refused 403, table)
      else
        let '(ok, rl) := rate_ok rl now peer in
        let table := <[host := rl]> table in
        if negb ok then (Refused 429, table)
        else
          let auth := negb (bool_decide (r_users rl = ∅)) in
          if auth && negb (checkAuth rl q) then (Refused 401, table)
          else
            let '(h, headers) := rewrite rl (if auth then without_auth q else q) in
            (Forward (u_Host (r_url rl)) h headers, table)
  end.

(** The plain-HTTP listener: 307 to the same host over TLS. *)
Definition RedirectHandler (httpsPort : string) (q : request) (table : gmap string rule) : result Z (Z * string) :=
  let host := hostKey (q_Host q) in
  match table !! host with
  | None => Err 404
  | Some _ =>
      Ok (307, "https://" +:+ host +:+
               (if negb (String.eqb httpsPort "") && negb (String.eqb httpsPort "443") then ":" +:+ httpsPort else "") +:+
               q_URI q)
  end.

(** A console connection: the upstream address to dial, by server name. *)
Definition ServeConsole (hostname : url -> string) (sni : string) (port : Z) (peer : option addr) (table : gmap string rule)
  : option (string * string * bool) :=
  let host := hostKey sni in
  match table !! host with
  | None => None
  | Some rl =>
      if negb (hasConsolePort rl port) then None
      else if negb (allows rl peer) then None
      else Some (host, JoinHostPort (hostname (r_url rl)) (format_int port), UpstreamVerify (r_src rl))
  end.

End table.

(** ** What a request must pass, and what it carries *)

Section gates.
Context {E : Env} {B : Bcrypt} (with_origin : string -> string -> string -> option string).

(** The header lookups, one update at a time. *)
Ltac headers :=
  repeat match goal with
  | |- context [set_if_present ?k ?v ?h] => unfold set_if_present at 1; repeat case_match
  | |- context [<[?k := _]> _ !! ?k] => rewrite lookup_insert_eq
  | |- context [delete ?k _ !! ?k] => rewrite lookup_delete_eq
  | |- context [<[_ := _]> _ !! _] => rewrite lookup_insert_ne by done
  | |- context [delete _ _ !! _] => rewrite lookup_delete_ne by done
  end.

Lemma drop_headers_none names h k : h !! k = None -> drop_headers names h !! k = None.
Proof.
  intros Hk. induction names as [|n names IH]; [done|]. cbn. destruct (decide (n = k)) as [->|Hne].
  - apply lookup_delete_eq.
  - by rewrite lookup_delete_ne.
Qed.

Lemma drop_headers_in names h k : k ∈ names -> drop_headers names h !! k = None.
Proof.
  induction names as [|n names IH]; [by intros ?%elem_of_nil|]. cbn. destruct (decide (n = k)) as [->|Hne].
  - intros _. apply lookup_delete_eq.
  - intros [?|Hin]%elem_of_cons; [done|]. rewrite lookup_delete_ne by done. by apply IH.
Qed.

Lemma incoming_none h k : k ∈ forwarding_headers -> incoming h !! k = None.
Proof. intros Hk. unfold incoming. by apply drop_headers_in. Qed.

Lemma incoming_auth h : h !! "authorization" = None -> incoming h !! "authorization" = None.
Proof.
  intros Hk. unfold incoming. apply drop_headers_none.
  destruct (String.eqb _ ""); rewrite ?lookup_insert_ne by done;
    (destruct (existsb _ _); rewrite ?lookup_insert_ne by done; by apply drop_headers_none).
Qed.

(** The rest of the hook leaves a header alone that it does not name. *)
Lemma set_if_present_other k v h k' : k <> k' -> set_if_present k v h !! k' = h !! k'.
Proof. intros Hne. unfold set_if_present. repeat case_match; rewrite ?lookup_insert_ne by done; done. Qed.

Definition hook (rl : rule) (h : gmap string string) : gmap string string := 
  if BMCCompat (r_src rl) then
    let h := set_if_present "origin" (u_Scheme (r_url rl) +:+ "://" +:+ u_Host (r_url rl)) h in
    match h !! "referer" with
    | Some ref => set_if_present "referer" (rewriteURLHost with_origin ref (u_Scheme (r_url rl)) (u_Host (r_url rl))) h
    | None => h
    end
  else h.

Lemma hook_other rl h k : k <> "origin" -> k <> "referer" -> hook rl h !! k = h !! k.
Proof.
  intros H1 H2. unfold hook. destruct (BMCCompat _); [|done]. cbn zeta.
  destruct (_ !! "referer"); rewrite ?set_if_present_other by done; done.
Qed.

(** The identity headers an upstream sees are the proxy's own. *)
Lemma rewrite_identity rl q host h :
  rewrite with_origin rl q = (host, h) ->
  let peer := fst <$> SplitHostPort (q_RemoteAddr q) in
  h !! "x-forwarded-for" = peer /\ h !! "x-real-ip" = peer /\ h !! "x-forwarded-host" = Some (q_Host q) /\
  h !! "x-forwarded-proto" = Some (if q_TLS q then "https" else "http") /\
  h !! "x-client-ip" = None /\ h !! "true-client-ip" = None /\ h !! "forwarded" = None /\
  (q_Headers q !! "authorization" = None -> h !! "authorization" = None).
Proof.
  unfold rewrite. fold (hook rl). intros [= _ <-]. cbn zeta. unfold set_x_forwarded.
  assert (Hin := incoming_none (q_Headers q)). assert (Hauth := incoming_auth (q_Headers q)).
  revert Hin Hauth. generalize (incoming (q_Headers q)) as h0. intros h0 Hin Hauth.
  match goal with |- context [if BMCCompat (r_src rl) then ?x else ?y] =>
    change (if BMCCompat (r_src rl) then x else y) with (hook rl y) end.
  rewrite !hook_other by done.
  destruct (SplitHostPort (q_RemoteAddr q)) as [[peer port]|]; headers; cbn; split_and!; try done;
    try (apply Hin; unfold forwarding_headers; set_solver); apply Hauth.
Qed.

(** C29: a request reaches an upstream only through the rule of the host it
    names, from an address that rule allows, within its rate, and with
    credentials that rule knows, if it asks for any: these are not passed
    on. Whatever the client sends, X-Forwarded-For and X-Real-IP are the
    address of the connection, X-Forwarded-Host is the host that was asked
    for, and X-Client-IP, True-Client-IP and Forwarded do not arrive. Those
    are the headers of this kind that are removed or set; any other the
    client sends, CF-Connecting-IP or X-Cluster-Client-IP say, is passed on
    as it is. *)
Theorem forwarded_only_if_admitted now q table up host h table' :
  ServeHTTP with_origin now q table = (Forward up host h, table') ->
  exists rl, table !! hostKey (q_Host q) = Some rl /\ up = u_Host (r_url rl) /\
    allows rl (ParseIP (peer_string q)) = true /\ (rate_ok rl now (ParseIP (peer_string q))).1 = true /\
    (r_users rl = ∅ \/ h !! "authorization" = None /\
       exists user pass hash, q_Auth q = Some (user, pass) /\ r_users rl !! user = Some hash /\
         bcrypt_compare hash pass = true) /\
    let peer := fst <$> SplitHostPort (q_RemoteAddr q) in
    h !! "x-forwarded-for" = peer /\ h !! "x-real-ip" = peer /\ h !! "x-forwarded-host" = Some (q_Host q) /\
    h !! "x-client-ip" = None /\ h !! "true-client-ip" = None /\ h !! "forwarded" = None.
Proof.
  unfold ServeHTTP. destruct (table !! hostKey (q_Host q)) as [rl|] eqn:Et; [|done].
  destruct (allows rl _) eqn:Ea; [|done]. cbn [negb].
  destruct (rate_ok rl now _) as [ok rl'] eqn:Er. destruct ok; [|done]. cbn [negb].
  assert (Hsame : r_users rl' = r_users rl /\ r_url rl' = r_url rl).
  { unfold rate_ok in Er. destruct (r_limit rl); [|by injection Er as <-].
    destruct (allow _ _ _). by injection Er as _ <-. }
  destruct Hsame as [Hu Hurl].
  destruct (bool_decide (r_users rl' = ∅)) eqn:Ed; cbn [negb andb].
  - apply bool_decide_eq_true in Ed. destruct (rewrite with_origin rl' q) as [h' hs] eqn:Ew.
    intros [= <- <- <- _]. exists rl. pose proof (rewrite_identity _ _ _ _ Ew) as (? & ? & ? & ? & ? & ? & ? & _).
    rewrite Hu in Ed. split_and!; try done; [by rewrite Hurl|by rewrite Er|by left].
  - destruct (checkAuth rl' q) eqn:Ec; [|done]. cbn [negb].
    destruct (rewrite with_origin rl' (without_auth q)) as [h' hs] eqn:Ew.
    intros [= <- <- <- _]. exists rl. pose proof (rewrite_identity _ _ _ _ Ew) as (? & ? & ? & ? & ? & ? & ? & Hauth).
    split_and!; try done; [by rewrite Hurl|by rewrite Er|]. right. split; [apply Hauth; cbn; apply lookup_delete_eq|].
    unfold checkAuth in Ec. rewrite Hu in Ec. destruct (q_Auth q) as [[user pass]|]; [|done].
    destruct (r_users rl !! user) eqn:Eu; [|done]. eauto 10.
Qed.

End gates.

(** ** Reloads *)

Section reloads.
Context {E : Env} {B : Bcrypt}.

Lemma compile_allow_ok host l : (forall c, c ∈ l -> cidr_ok c = true) ->
  exists ns, compile_allow host l = Ok ns /\ Forall2 (fun c n => ParseCIDR (trim_space c) = Some n) l ns.
Proof.
  induction l as [|c l IH]; cbn; intros H; [by exists []|].
  destruct IH as (ns & -> & Hf); [intros; apply H; by right|].
  assert (Hc : cidr_ok c = true) by (apply H; by left). unfold cidr_ok in Hc.
  destruct (ParseCIDR (trim_space c)) as [n|] eqn:En; [|done]. exists (n :: ns). split; [done|]. by constructor.
Qed.

Lemma compile_users_ok host l users : (forall c, c ∈ l -> cred_ok c = true) ->
  exists users', compile_users host l users = Ok users'.
Proof.
  revert users. induction l as [|c l IH]; cbn; intros users H; [by eauto|].
  assert (Hc : cred_ok c = true) by (apply H; by left). unfold cred_ok in Hc.
  destruct (cut ":" c) as [[user hash]|]; [|done]. apply IH. intros; apply H; by right.
Qed.

Lemma compile_ok now listen h pr : rule_ok listen h pr ->
  exists r, compile now h pr = Ok r /\ r_src r = pr /\ r_host r = h /\
    Forall2 (fun c n => ParseCIDR (trim_space c) = Some n) (Allow pr) (r_allow r).
Proof.
  intros Hr. unfold compile. pose proof (ro_upstream _ _ _ Hr) as Hu. unfold upstream_ok in Hu.
  destruct (url_parse (Upstream pr)) as [u|]; [|done].
  destruct (compile_allow_ok h (Allow pr)) as (ns & -> & Hf); [apply Hr|].
  destruct (compile_users_ok h (BasicAuth pr) ∅) as (users & Hus); [apply Hr|].
  change (mbind (M := result compile_error) ?f (Ok ns)) with (f ns). cbn. rewrite Hus. cbn. eauto 10.
Qed.

(** [r] is what [compile] makes of [pr] for host [h], up to what its limiter
    has counted. *)
Definition faithful (h : string) (pr : ProxyRule) (r : rule) : Prop :=
  exists now r0, compile now h pr = Ok r0 /\
    r_host r = r_host r0 /\ r_src r = pr /\ r_url r = r_url r0 /\ r_allow r = r_allow r0 /\ r_users r = r_users r0 /\
    l_rate <$> r_limit r = l_rate <$> r_limit r0.

Lemma compile_src now h pr r : compile now h pr = Ok r -> r_src r = pr.
Proof.
  unfold compile. destruct (url_parse (Upstream pr)); [|done].
  destruct (compile_allow _ _); [|done]. cbn. destruct (compile_users _ _ _); [|done]. cbn. by intros [= <-].
Qed.

Lemma compile_faithful now h pr r : compile now h pr = Ok r -> faithful h pr r.
Proof. intros H. exists now, r. split_and!; try done. by eapply compile_src. Qed.

Lemma faithful_limit h pr r l : faithful h pr r -> l_rate <$> r_limit r = Some (l_rate l) -> faithful h pr (with_limit r l).
Proof.
  intros (now & r0 & ? & ? & ? & ? & ? & ? & Hl) Hr. exists now, r0. split_and!; try done. cbn. by rewrite <- Hr, Hl.
Qed.

(** The table of a configuration: one rule for each of its hosts. *)
Definition routes (cfg : gmap string ProxyRule) (table : gmap string rule) : Prop :=
  forall h, match cfg !! h, table !! h with
            | Some pr, Some r => faithful h pr r
            | None, None => True
            | _, _ => False
            end.

Lemma compile_rules_routes now listen prev rules table cfg cfg0 :
  (forall h pr, (h, pr) ∈ rules -> rule_ok listen h pr) -> routes cfg0 prev -> routes cfg table ->
  NoDup rules.*1 -> (forall h, h ∈ rules.*1 -> cfg !! h = None) ->
  exists table', compile_rules now prev rules table = Ok table' /\ routes (list_to_map rules ∪ cfg) table'.
Proof.
  intros Hok Hprev. revert table cfg. induction rules as [|[h pr] rules IH]; intros table cfg Ht Hnd Hfresh.
  { exists table. split; [done|]. by rewrite list_to_map_nil, (left_id_L ∅ (∪)). }
  cbn in Hnd, Hfresh. apply NoDup_cons in Hnd as [Hn Hnd].
  assert (exists r, (match prev !! h with
          | Some old => if decide (r_src old = pr) then Ok old else compile now h pr
          | None => compile now h pr end) = Ok r /\ faithful h pr r) as (r & Hr & Hf).
  { destruct (compile_ok now listen h pr (Hok _ _ ltac:(by left))) as (r & Hr & _).
    specialize (Hprev h). destruct (prev !! h) as [old|]; [|eauto using compile_faithful].
    destruct (decide (r_src old = pr)) as [<-|]; [|eauto using compile_faithful].
    destruct (cfg0 !! h) as [pr0|]; [|done]. exists old. split; [done|].
    destruct Hprev as (n0 & r0 & ? & ? & <- & ?). by exists n0, r0. }
  cbn [compile_rules]. rewrite Hr. cbn [mbind result_bind].
  destruct (IH (fun h' pr' H => Hok h' pr' (list_elem_of_further _ _ _ H)) (<[h := r]> table) (<[h := pr]> cfg)) as (table' & Htab & Hrt); [|done| |].
  - intros h'. destruct (decide (h = h')) as [<-|Hne]; [by rewrite !lookup_insert_eq|].
    rewrite !lookup_insert_ne by done. apply Ht.
  - intros h' Hh'. destruct (decide (h = h')) as [<-|Hne]; [done|]. rewrite lookup_insert_ne by done. apply Hfresh. by right.
  - exists table'. split; [exact Htab|].
    rewrite list_to_map_cons, <- insert_union_l, insert_union_r; [done|]. by apply not_elem_of_list_to_map_1.
Qed.

(** A sequence of requests and of reloads with loaded configurations. *)
Inductive event := ERequest (now : Z) (q : request) | EReload (now : Z) (c : Config).

Context (with_origin : string -> string -> string -> option string).

Definition step (table : gmap string rule) (e : event) : gmap string rule :=
  match e with
  | ERequest now q => (ServeHTTP with_origin now q table).2
  | EReload now c => (Update now (c.(Config.Proxy)) table).2
  end.

(** The specification: the hosts and rules of the last configuration. *)
Definition current (cfg : gmap string ProxyRule) (e : event) : gmap string ProxyRule :=
  match e with ERequest _ _ => cfg | EReload _ c => c.(Config.Proxy) end.

Lemma serve_routes now q cfg table : routes cfg table -> routes cfg (ServeHTTP with_origin now q table).2.
Proof.
  intros Ht. unfold ServeHTTP. destruct (table !! hostKey (q_Host q)) as [rl|] eqn:El; [|done].
  destruct (negb _); [done|].
  destruct (rate_ok rl now _) as [ok rl'] eqn:Er.
  assert (Hins : routes cfg (<[hostKey (q_Host q) := rl']> table)).
  { intros h. destruct (decide (hostKey (q_Host q) = h)) as [<-|Hne]; [|rewrite lookup_insert_ne by done; apply Ht].
    rewrite lookup_insert_eq. specialize (Ht (hostKey (q_Host q))). rewrite El in Ht.
    destruct (cfg !! _) as [pr|]; [|done]. unfold rate_ok in Er.
    destruct (r_limit rl) as [l|] eqn:Elim; [|by injection Er as _ <-].
    pose proof (allow_rate l now (ParseIP (peer_string q))) as Hrate.
    destruct (allow l now _) as [ok' l']. injection Er as _ <-. apply faithful_limit; [done|].
    rewrite Elim. cbn in *. by rewrite Hrate. }
  destruct (negb ok); [done|]. destruct (_ && _); [done|]. by destruct (rewrite _ _ _).
Qed.

Lemma Update_routes now c cfg0 table : valid c -> routes cfg0 table ->
  exists table', Update now c.(Config.Proxy) table = (Ok tt, table') /\ routes c.(Config.Proxy) table'.
Proof.
  intros Hc Ht. unfold Update.
  destruct (compile_rules_routes now c.(ProxyListen) table (map_to_list c.(Config.Proxy)) ∅ ∅ cfg0) as (t & -> & Hr);
    [|done|intros h; by rewrite !lookup_empty|apply NoDup_fst_map_to_list|intros; apply lookup_empty|].
  - intros h pr Hin%elem_of_map_to_list. by apply (va_rules _ Hc).
  - exists t. split; [done|]. by rewrite list_to_map_to_list, (right_id_L ∅ (∪)) in Hr.
Qed.

Lemma run_routes events cfg table : (forall now c, EReload now c ∈ events -> valid c) -> routes cfg table ->
  routes (foldl current cfg events) (foldl step table events).
Proof.
  revert cfg table. induction events as [|ev events IH]; intros cfg t Hev Ht; [done|].
  cbn [foldl]. apply IH; [intros; eapply Hev; by right|].
  destruct ev as [n q|n c']; cbn; [by apply serve_routes|].
  destruct (Update_routes n c' cfg t) as (t' & -> & Ht'); [eapply Hev; by left|done..].
Qed.

(** The limiter of a rule that a reload does not change keeps its count. *)
Lemma compile_rules_other now prev rules table table' h :
  compile_rules now prev rules table = Ok table' -> h ∉ rules.*1 -> table' !! h = table !! h.
Proof.
  revert table. induction rules as [|[h' pr] rules IH]; intros table; cbn; [by intros [= ->]|].
  intros H Hn. inv_ok. rewrite not_elem_of_cons in Hn. rewrite (IH _ Hrest) by naive_solver.
  apply lookup_insert_ne. naive_solver.
Qed.

Lemma compile_rules_kept now prev rules table table' h pr r :
  compile_rules now prev rules table = Ok table' -> NoDup rules.*1 -> (h, pr) ∈ rules ->
  prev !! h = Some r -> r_src r = pr -> table' !! h = Some r.
Proof.
  intros Hc Hnd Hin Hp Hs. revert table Hc. induction rules as [|[h' pr'] rules IH]; intros table; [by apply elem_of_nil in Hin|].
  cbn [compile_rules]. intros H. inv_ok. cbn in Hnd. apply NoDup_cons in Hnd as [Hn Hnd].
  apply elem_of_cons in Hin as [[= <- <-]|Hin]; [|by eapply IH].
  rewrite (compile_rules_other _ _ _ _ _ _ Hrest Hn), lookup_insert_eq.
  rewrite Hp, decide_True in Hstep by done. by injection Hstep as ->.
Qed.

Lemma Update_kept now cfg prev table' h pr r :
  Update now cfg prev = (Ok tt, table') -> cfg !! h = Some pr -> prev !! h = Some r -> r_src r = pr ->
  table' !! h = Some r.
Proof.
  unfold Update. destruct (compile_rules _ _ _ _) as [t|] eqn:Et; [|done]. intros [= <-] Hc Hp Hs.
  eapply compile_rules_kept; [exact Et|apply NoDup_fst_map_to_list|by apply elem_of_map_to_list|done..].
Qed.

(** Whatever requests are served and however often a loaded configuration
    is reloaded, no reload fails, and the table always has exactly the hosts
    of the last configuration, each with that configuration's upstream,
    allow list, users and rate; a host whose rule did not change keeps its
    route, with what its limiter has counted. *)
Theorem table_follows_config events now c :
  (forall now' c', EReload now' c' ∈ events -> valid c') -> valid c ->
  let cfg := foldl current ∅ events in
  let table := foldl step ∅ events in
  routes cfg table /\
  exists table', Update now c.(Config.Proxy) table = (Ok tt, table') /\ routes c.(Config.Proxy) table' /\
    forall h pr, cfg !! h = Some pr -> c.(Config.Proxy) !! h = Some pr -> table' !! h = table !! h.
Proof.
  intros Hev Hc. cbn zeta. assert (Hinv : routes (foldl current ∅ events) (foldl step ∅ events)).
  { apply run_routes; [done|]. intros h. by rewrite !lookup_empty. }
  split; [done|]. destruct (Update_routes now c _ _ Hc Hinv) as (t' & Hup & Ht').
  exists t'. split_and!; [done..|]. intros h pr H1 H2. specialize (Hinv h). rewrite H1 in Hinv.
  destruct (foldl step ∅ events !! h) as [r|] eqn:Er; [|done]. destruct Hinv as (? & ? & ? & ? & Hs & ?).
  by apply (Update_kept _ _ _ _ _ _ _ Hup H2 Er Hs).
Qed.

End reloads.

(** ** A management console behind the proxy *)

Module ProxyExample.
Import ConfigExample.
#[local] Existing Instance env.

(** A hash here is the password after a fixed prefix. *)
#[local] Instance bcrypt : Bcrypt := {|
  bcrypt_cost h := has_prefix "$2a$10$" h;
  bcrypt_compare h p := String.eqb h ("$2a$10$" +:+ p);
|}.

Definition origin (raw scheme host : string) : option string := Some (scheme +:+ "://" +:+ host +:+ "/").

Definition table : gmap string rule := (Update 0 cfg.(Config.Proxy) ∅).2.

Definition req : request :=
  mkReq "BMC.example:8443" "10.1.2.3:55000" "/" true
    {["x-forwarded-for" := "10.9.9.9"; "x-real-ip" := "10.9.9.9"; "authorization" := "Basic b3A6eA==";
      "x-client-ip" := "10.9.9.9"; "referer" := "https://bmc.example/login"; "cookie" := "s=1"]}
    (Some ("op", "x")).

Definition served : answer := (ServeHTTP origin 5 req table).1.
Definition served_headers : gmap string string := match served with Forward _ _ h => h | _ => ∅ end.

Example admits_operator :
  (match served with Forward up host h => (up, host, h !! "x-forwarded-for", h !! "x-real-ip", h !! "cookie", h !! "referer")
   | Refused _ => ("", "", None, None, None, None) end) =
  ("10.0.0.5", "10.0.0.5", Some "10.1.2.3", Some "10.1.2.3", Some "s=1", Some "https://10.0.0.5/").
Proof. vm_compute. reflexivity. Qed.

Lemma forwarded_only_if_admitted_witness :
  exists rl, table !! hostKey (q_Host req) = Some rl /\ "10.0.0.5" = u_Host (r_url rl) /\
    allows rl (ParseIP (peer_string req)) = true /\ (rate_ok rl 5 (ParseIP (peer_string req))).1 = true /\
    (r_users rl = ∅ \/ served_headers !! "authorization" = None /\
       exists user pass hash, q_Auth req = Some (user, pass) /\ r_users rl !! user = Some hash /\
         bcrypt_compare hash pass = true) /\
    let peer := fst <$> SplitHostPort (q_RemoteAddr req) in
    served_headers !! "x-forwarded-for" = peer /\ served_headers !! "x-real-ip" = peer /\
    served_headers !! "x-forwarded-host" = Some (q_Host req) /\
    served_headers !! "x-client-ip" = None /\ served_headers !! "true-client-ip" = None /\
    served_headers !! "forwarded" = None.
Proof.
  assert (H : ServeHTTP origin 5 req table = (Forward "10.0.0.5" "10.0.0.5" served_headers, (ServeHTTP origin 5 req table).2))
    by (vm_compute; reflexivity).
  exact (forwarded_only_if_admitted origin 5 req table _ _ _ _ H).
Defined.

Lemma one_reload now c now' c' now'' q : EReload now c ∈ [EReload now' c'; ERequest now'' q] -> c = c'.
Proof.
  intros [[= _ ->]|Hin]%elem_of_cons; [done|]. apply elem_of_cons in Hin as [|Hin]; [done|by apply elem_of_nil in Hin].
Qed.

Lemma cfg_valid : valid cfg.
Proof.
  assert (H : Load "/etc/goddns.conf" = Ok cfg) by (apply from_ok_ok; vm_compute; reflexivity).
  exact (load_sound "/etc/goddns.conf" cfg H).
Qed.

Lemma table_follows_config_witness :
  let events := [EReload 0 cfg; ERequest 5 req] in
  routes (foldl current ∅ events) (foldl (step origin) ∅ events) /\
  exists table', Update 9 cfg.(Config.Proxy) (foldl (step origin) ∅ events) = (Ok tt, table') /\
    routes cfg.(Config.Proxy) table' /\
    forall h pr, foldl current ∅ events !! h = Some pr -> cfg.(Config.Proxy) !! h = Some pr ->
      table' !! h = foldl (step origin) ∅ events !! h.
Proof.
  intros events. refine (table_follows_config origin events 9 cfg _ cfg_valid).
  intros now c Hin. rewrite (one_reload _ _ _ _ _ _ Hin). exact cfg_valid.
Defined.

End ProxyExample.
