(* ===== verification/Splice.v ===== *)
(** * Splice: a console session

    [splice] of [internal/proxy/console.go] and [countConn] of
    [internal/proxy/stats.go]: two copying loops, each reading one connection
    and writing the other, and closing both when it ends. Every read, write and
    close is a step, in any order between the two loops; a network error can
    strike at each. *)

From Stdlib Require Import String Ascii.
From stdpp Require Import functions.
From S2P Require Import Prelude GoStrings.

(** ** The connections and the loops *)

Inductive side := Client | Upstream.

#[export] Instance side_eq_dec : EqDecision side.
Proof. solve_decision. Defined.

Definition other (a : side) : side := match a with Client => Upstream | Upstream => Client end.

(** [c_sent]: what the peer has sent; [c_rx]: what of it is not read yet;
    [c_tx]: what was written to the peer. *)
Record conn := mkConn { c_sent : string; c_rx : string; c_eof : bool; c_tx : string; c_closed : bool }.

(** One loop ([cp]): in [io.Copy], with a chunk read or without, then at the
    two closes. *)
Inductive phase := Reading | Writing (chunk : string) | CloseClient | CloseUpstream | Done.

(** A loop is named by the side it reads. *)
Record session := mkSession { s_conn : side -> conn; s_loop : side -> phase; s_in : Z; s_out : Z }.

Definition size (s : string) : Z := Z.of_nat (String.length s).

(** [countConn] wraps the client: its reads count as [in], its writes as [out]. *)
Definition count_read (a : side) (n : Z) : Z := match a with Client => n | Upstream => 0 end.
Definition count_write (dst : side) (n : Z) : Z := match dst with Client => n | Upstream => 0 end.

Definition receive (s : string) (c : conn) : conn := mkConn (c_sent c +:+ s) (c_rx c +:+ s) (c_eof c) (c_tx c) (c_closed c).
Definition end_stream (c : conn) : conn := mkConn (c_sent c) (c_rx c) true (c_tx c) (c_closed c).
Definition take_rx (rest : string) (c : conn) : conn := mkConn (c_sent c) rest (c_eof c) (c_tx c) (c_closed c).
Definition put_tx (s : string) (c : conn) : conn := mkConn (c_sent c) (c_rx c) (c_eof c) (c_tx c +:+ s) (c_closed c).
Definition close (c : conn) : conn := mkConn (c_sent c) (c_rx c) (c_eof c) (c_tx c) true.

Definition on_conn (a : side) (f : conn -> conn) (st : session) : session :=
  mkSession (<[a := f (s_conn st a)]> (s_conn st)) (s_loop st) (s_in st) (s_out st).
Definition at_phase (a : side) (p : phase) (st : session) : session :=
  mkSession (s_conn st) (<[a := p]> (s_loop st)) (s_in st) (s_out st).
Definition tally (i o : Z) (st : session) : session := mkSession (s_conn st) (s_loop st) (s_in st + i) (s_out st + o).

(** What the loops do. *)
Inductive step : session -> session -> Prop :=
| do_read a st chunk rest :
    s_loop st a = Reading -> c_closed (s_conn st a) = false -> c_rx (s_conn st a) = chunk +:+ rest -> chunk <> "" ->
    step st (at_phase a (Writing chunk) (tally (count_read a (size chunk)) 0 (on_conn a (take_rx rest) st)))
(** The end of the stream, a closed connection or a network error. *)
| read_end a st : s_loop st a = Reading -> step st (at_phase a CloseClient st)
| do_write a st chunk :
    s_loop st a = Writing chunk -> c_closed (s_conn st (other a)) = false ->
    step st (at_phase a Reading (tally 0 (count_write (other a) (size chunk)) (on_conn (other a) (put_tx chunk) st)))
(** A write that fails may have passed a part on, unless the connection was
    closed. *)
| write_error a st part lost :
    s_loop st a = Writing (part +:+ lost) -> (c_closed (s_conn st (other a)) = true -> part = "") ->
    step st (at_phase a CloseClient (tally 0 (count_write (other a) (size part)) (on_conn (other a) (put_tx part) st)))
| close_client a st : s_loop st a = CloseClient -> step st (at_phase a CloseUpstream (on_conn Client close st))
| close_upstream a st : s_loop st a = CloseUpstream -> step st (at_phase a Done (on_conn Upstream close st)).

(** What the peers do. *)
Inductive peer_step : session -> session -> Prop :=
| arrive a st s : c_eof (s_conn st a) = false -> peer_step st (on_conn a (receive s) st)
| hang_up a st : peer_step st (on_conn a end_stream st).

Definition fresh_conn : conn := mkConn "" "" false "" false.
Definition opened : session := mkSession (fun _ => fresh_conn) (fun _ => Reading) 0 0.

Definition reachable (st : session) : Prop := rtc (fun x y => step x y \/ peer_step x y) opened st.

(** [splice] returns when both loops are over. *)
Definition returned (st : session) : Prop := forall a, s_loop st a = Done.

(** ** What is passed on *)

(** In the loop that reads [a]: what was sent is what was passed on, what the
    loop holds or has lost, and what is not read yet. *)
Definition accounted (st : session) (a : side) : Prop :=
  exists held, c_sent (s_conn st a) = c_tx (s_conn st (other a)) +:+ held +:+ c_rx (s_conn st a) /\
    match s_loop st a with Reading => held = "" | Writing chunk => held = chunk | _ => True end.

Record inv (st : session) : Prop := {
  inv_acc a : accounted st a;
  inv_in : s_in st = size (c_sent (s_conn st Client)) - size (c_rx (s_conn st Client));
  inv_out : s_out st = size (c_tx (s_conn st Client));
  inv_closed a : s_loop st a = CloseUpstream -> c_closed (s_conn st Client) = true;
  inv_done a b : s_loop st a = Done -> c_closed (s_conn st b) = true
}.

Ltac sides :=
  unfold at_phase, tally, on_conn; cbn [s_conn s_loop s_in s_out other];
  repeat first [rewrite fn_lookup_insert | rewrite fn_lookup_insert_ne by done].

Lemma size_app a b : size (a +:+ b) = size a + size b.
Proof. unfold size. rewrite str_length_app. lia. Qed.

Lemma inv_opened : inv opened.
Proof. split; try done. intros a. by exists "". Qed.

Lemma accounted_ext st st' a : s_conn st' a = s_conn st a \/ (c_sent (s_conn st' a) = c_sent (s_conn st a) /\ c_rx (s_conn st' a) = c_rx (s_conn st a)) ->
  c_tx (s_conn st' (other a)) = c_tx (s_conn st (other a)) -> s_loop st' a = s_loop st a -> accounted st a -> accounted st' a.
Proof. intros [Hc|[Hs Hr]] Ht Hl (held & H1 & H2); exists held; rewrite Ht, Hl; [rewrite Hc|rewrite Hs, Hr]; done. Qed.

(** An invariant about one side, or two, after a step on one. *)
Ltac each_side := repeat (match goal with |- forall _ : side, _ => intros ? end); repeat match goal with x : side |- _ => destruct x end; sides; cbn; try done; eauto.

Lemma inv_step st st' : inv st -> step st st' -> inv st'.
Proof.
  intros [Ha Hi Ho Hc Hd] Hs.
  destruct Hs as [a st chunk rest Hl Hcl Hr Hne|a st Hl|a st chunk Hl Hcl|a st part lost Hl Hp|a st Hl|a st Hl].
  - split; [|destruct a; sides; cbn; rewrite ?Hi, ?Hr, ?size_app; lia|destruct a; sides; cbn; lia|each_side..].
    intros b. destruct (Ha b) as (held & H1 & H2). exists (if decide (a = b) then chunk else held).
    destruct a, b; sides; cbn; rewrite ?H1, ?Hr; rewrite ?Hl in H2; subst; done.
  - split; [|done|done|each_side..].
    intros b. destruct (Ha b) as (held & H1 & H2). exists held. destruct a, b; sides; done.
  - split; [|destruct a; sides; cbn; lia|destruct a; sides; cbn; rewrite ?size_app; lia|each_side..].
    intros b. destruct (Ha b) as (held & H1 & H2). exists (if decide (a = b) then "" else held).
    destruct a, b; sides; cbn; rewrite ?H1, ?str_app_assoc; rewrite ?Hl in H2; subst; done.
  - split; [|destruct a; sides; cbn; lia|destruct a; sides; cbn; rewrite ?size_app; lia|each_side..].
    intros b. destruct (Ha b) as (held & H1 & H2). exists (if decide (a = b) then lost else held).
    destruct a, b; sides; cbn; rewrite ?H1, ?str_app_assoc; rewrite ?Hl in H2; subst; rewrite ?str_app_assoc; done.
  - split; [|each_side..].
    intros b. destruct (Ha b) as (held & H1 & H2). exists held. destruct a, b; sides; cbn; rewrite ?Hl in H2; done.
  - split; [|each_side..].
    intros b. destruct (Ha b) as (held & H1 & H2). exists held. destruct a, b; sides; cbn; rewrite ?Hl in H2; done.
Qed.

Lemma inv_peer st st' : inv st -> peer_step st st' -> inv st'.
Proof.
  intros [Ha Hi Ho Hc Hd] Hs. destruct Hs as [a st s Heof|a st].
  - split; [|destruct a; sides; cbn; rewrite ?size_app; lia|destruct a; sides; cbn; lia|each_side..].
    intros b. destruct (Ha b) as (held & H1 & H2). exists held. destruct a, b; sides; cbn; rewrite ?H1, ?str_app_assoc; done.
  - split; [|destruct a; sides; cbn; lia|destruct a; sides; cbn; lia|each_side..].
    intros b. destruct (Ha b) as (held & H1 & H2). exists held. destruct a, b; sides; cbn; done.
Qed.

Lemma reachable_inv st : reachable st -> inv st.
Proof.
  unfold reachable. intros H. assert (Hi := inv_opened). revert Hi.
  induction H as [|x y z Hxy _ IH]; [done|]. intros Hx. apply IH. destruct Hxy; [by eapply inv_step|by eapply inv_peer].
Qed.

(** ** The end *)

(** What is left of a loop when the connections are closed. *)
Definition left_of (p : phase) : nat :=
  match p with Writing _ => 3 | Reading => 3 | CloseClient => 2 | CloseUpstream => 1 | Done => 0 end.
Definition left (st : session) : nat := (left_of (s_loop st Client) + left_of (s_loop st Upstream))%nat.

Lemma step_left st st' : (forall b, c_closed (s_conn st b) = true) -> step st st' ->
  (left st' < left st)%nat /\ forall b, c_closed (s_conn st' b) = true.
Proof.
  intros Hc Hs. destruct Hs as [a st chunk rest Hl Hcl Hr Hne|a st Hl|a st chunk Hl Hcl|a st part lost Hl Hp|a st Hl|a st Hl];
    unfold left; try congruence; (split; [destruct a; sides; rewrite ?Hl; cbn; lia|each_side]).
Qed.

(** C39: a console session passes on what it is sent, in order, and counts it:
    what a peer has got is at every moment a prefix of what the other has sent;
    the bytes counted for the client are exactly those written to it, and those
    counted from it are at least what the upstream got and at most what it
    sent. And it ends as a whole: once one loop is over both connections are
    closed, no step of the other leads anywhere but to its own end, at most
    three steps away, and it is never stuck before it. *)
Theorem splice_faithful st : reachable st ->
  (forall a, exists rest, c_sent (s_conn st a) = c_tx (s_conn st (other a)) +:+ rest) /\
  s_out st = size (c_tx (s_conn st Client)) /\
  size (c_tx (s_conn st Upstream)) <= s_in st <= size (c_sent (s_conn st Client)) /\
  ((exists a, s_loop st a = Done) ->
     (forall b, c_closed (s_conn st b) = true) /\ (left st <= 3)%nat /\
     (forall st', step st st' -> (left st' < left st)%nat) /\ (returned st \/ exists st', step st st')).
Proof.
  intros [Ha Hi Ho Hc Hd]%reachable_inv. split_and!.
  - intros a. destruct (Ha a) as (held & -> & _). by eexists.
  - done.
  - rewrite Hi. destruct (Ha Client) as (held & -> & _). rewrite !size_app. unfold size. cbn [other]. lia.
  - rewrite Hi. unfold size. lia.
  - intros [a Hdone]. assert (Hcl : forall b, c_closed (s_conn st b) = true) by (intros b; by eapply Hd).
    split_and!; [done| | |].
    + unfold left. assert (Hb : forall p, (left_of p <= 3)%nat) by (intros []; cbn; lia).
      pose proof (Hb (s_loop st Client)). pose proof (Hb (s_loop st Upstream)). destruct a; rewrite Hdone; cbn [left_of]; lia.
    + intros st' Hs. by apply step_left.
    + destruct (s_loop st (other a)) as [|chunk| | |] eqn:E.
      * right. eexists. by apply (read_end (other a)).
      * right. eexists. by apply (write_error (other a) st "" chunk).
      * right. eexists. by apply (close_client (other a)).
      * right. eexists. by apply (close_upstream (other a)).
      * left. intros b. by destruct a, b.
Qed.

(** ** A session *)

Module SpliceExample.

(** The client sends two bytes and hangs up; its loop passes them on, ends, and
    closes both connections while the other loop still waits to read. *)
Definition sent : session := on_conn Client (receive "hi") opened.
Definition read : session := at_phase Client (Writing "hi") (tally 2 0 (on_conn Client (take_rx "") sent)).
Definition wrote : session := at_phase Client Reading (tally 0 0 (on_conn Upstream (put_tx "hi") read)).
Definition gone : session := at_phase Client CloseClient wrote.
Definition half : session := at_phase Client CloseUpstream (on_conn Client close gone).
Definition over : session := at_phase Client Done (on_conn Upstream close half).

Lemma over_reachable : reachable over.
Proof.
  eapply rtc_l; [right; by apply (arrive Client opened "hi")|].
  eapply rtc_l; [left; by apply (do_read Client sent "hi" "")|].
  eapply rtc_l; [left; by apply (do_write Client read "hi")|].
  eapply rtc_l; [left; by apply (read_end Client wrote)|].
  eapply rtc_l; [left; by apply (close_client Client gone)|].
  eapply rtc_l; [left; by apply (close_upstream Client half)|done].
Qed.

Example counted : (s_in over, s_out over, c_tx (s_conn over Upstream), left over) = (2, 0, "hi", 3%nat).
Proof. reflexivity. Qed.

Lemma splice_faithful_witness :
  (forall a, exists rest, c_sent (s_conn over a) = c_tx (s_conn over (other a)) +:+ rest) /\
  s_out over = size (c_tx (s_conn over Client)) /\
  size (c_tx (s_conn over Upstream)) <= s_in over <= size (c_sent (s_conn over Client)) /\
  ((exists a, s_loop over a = Done) ->
     (forall b, c_closed (s_conn over b) = true) /\ (left over <= 3)%nat /\
     (forall st', step over st' -> (left st' < left over)%nat) /\ (returned over \/ exists st', step over st')).
Proof. exact (splice_faithful over over_reachable). Defined.

End SpliceExample.
