(* ===== verification/Stats.v ===== *)
(** * Stats: the traffic counters of the proxied hosts

    [internal/proxy/stats.go], with the places of [ServeHTTP], [ServeConsole]
    and [Update] that use it. The counters of a host are a shared object: a
    request holds on to the one it fetched whatever a reload does to the map
    meanwhile. So the model has a heap of counters, a map from hosts to
    references into it, the requests in flight at their own stage, and one
    step for each atomic operation. Only one goroutine reloads.

    Counters are [Z]: an [int64] of requests or bytes does not wrap in
    practice. *)

From Stdlib Require Import String.
From stdpp Require Import fin_maps gmap.
From S2P Require Import Prelude GoStrings.

(** ** The counters *)

Record counters := mkCounters {
  c_requests : Z; c_active : Z; c_in : Z; c_out : Z; c_2xx : Z; c_3xx : Z; c_4xx : Z; c_5xx : Z; c_seen : Z
}.

Definition zero : counters := mkCounters 0 0 0 0 0 0 0 0 0.

Definition add_requests (n : Z) (c : counters) : counters :=
  mkCounters (c_requests c + n) (c_active c) (c_in c) (c_out c) (c_2xx c) (c_3xx c) (c_4xx c) (c_5xx c) (c_seen c).
Definition add_active (n : Z) (c : counters) : counters :=
  mkCounters (c_requests c) (c_active c + n) (c_in c) (c_out c) (c_2xx c) (c_3xx c) (c_4xx c) (c_5xx c) (c_seen c).
Definition add_bytes (i o : Z) (c : counters) : counters :=
  mkCounters (c_requests c) (c_active c) (c_in c + i) (c_out c + o) (c_2xx c) (c_3xx c) (c_4xx c) (c_5xx c) (c_seen c).
Definition set_seen (t : Z) (c : counters) : counters :=
  mkCounters (c_requests c) (c_active c) (c_in c) (c_out c) (c_2xx c) (c_3xx c) (c_4xx c) (c_5xx c) t.

Definition note (status : Z) (c : counters) : counters :=
  let '(mkCounters r a i o s2 s3 s4 s5 t) := c in
  if 500 <=? status then mkCounters r a i o s2 s3 s4 (s5 + 1) t
  else if 400 <=? status then mkCounters r a i o s2 s3 (s4 + 1) s5 t
  else if 300 <=? status then mkCounters r a i o s2 (s3 + 1) s4 s5 t
  else if 200 <=? status then mkCounters r a i o (s2 + 1) s3 s4 s5 t
  else c.

(** ** The map of hosts *)

Record stats := mkStats { s_map : gmap string nat; s_heap : list counters }.

Definition newStats : stats := mkStats ∅ [].

Definition host (h : string) (s : stats) : nat * stats :=
  match s_map s !! h with
  | Some c => (c, s)
  | None => (length (s_heap s), mkStats (<[h := length (s_heap s)]> (s_map s)) (s_heap s ++ [zero]))
  end.

Definition prune (keep : gset string) (s : stats) : stats :=
  mkStats (filter (fun hc => hc.1 ∈ keep) (s_map s)) (s_heap s).

Definition on_ref (c : nat) (f : counters -> counters) (s : stats) : stats :=
  mkStats (s_map s) (alter f c (s_heap s)).

(** Atomically, though the code reads the counters one by one. *)
Definition snapshot (s : stats) : list (string * counters) :=
  sort_by (fun a b => String.ltb a.1 b.1)
    (omap (fun hc => (fun k => (hc.1, k)) <$> s_heap s !! hc.2) (map_to_list (s_map s))).

(** ** The response, as [logWriter] sees it *)

Record logWriter := mkLog { lw_status : Z; lw_bytes : Z }.

Definition fresh_log : logWriter := mkLog 0 0.
Definition WriteHeader (code : Z) (l : logWriter) : logWriter :=
  if lw_status l =? 0 then mkLog code (lw_bytes l) else l.
Definition Write (n : Z) (l : logWriter) : logWriter :=
  mkLog (if lw_status l =? 0 then 200 else lw_status l) (lw_bytes l + n).
Definition Hijack (l : logWriter) : logWriter :=
  if lw_status l =? 0 then mkLog 101 (lw_bytes l) else l.

(** ** Requests in flight *)

Inductive kind := Http | Console.

(** [Looked h]: found [h] in the routing table; a console connection dials
    its upstream here. [Held]: has the counters. [Counted]: has counted itself
    and the time. [Active]: being served. [Leaving]: done, and about to account
    for its response. *)
Inductive flight :=
| Looked (k : kind) (h : string) (now : Z)
| Held (k : kind) (c : nat) (now : Z)
| Counted (k : kind) (c : nat)
| Active (k : kind) (c : nat) (l : logWriter)
| Leaving (c : nat) (l : logWriter).

(** Where the one reload is: not running, or past the swap of the table with
    [prune] to come, or seeding. *)
Inductive reload := Idle | Swapped | Seeding (todo : list string).

Record world := mkWorld {
  w_table : gset string; w_stats : stats; w_flights : gmap nat flight; w_reload : reload
}.

Definition init : world := mkWorld ∅ newStats ∅ Idle.

Definition set_flight (w : world) (i : nat) (f : flight) (s : stats) : world :=
  mkWorld (w_table w) s (<[i := f]> (w_flights w)) (w_reload w).

Definition end_flight (w : world) (i : nat) (s : stats) : world :=
  mkWorld (w_table w) s (delete i (w_flights w)) (w_reload w).

Inductive step (w : world) : world -> Prop :=
| StepLookup i k h now :
    w_flights w !! i = None -> h ∈ w_table w ->
    step w (set_flight w i (Looked k h now) (w_stats w))
| StepFetch i k h now :
    w_flights w !! i = Some (Looked k h now) ->
    step w (let '(c, s) := host h (w_stats w) in set_flight w i (Held k c now) s)
| StepCount i k c now :
    w_flights w !! i = Some (Held k c now) ->
    step w (set_flight w i (Counted k c) (on_ref c (fun n => set_seen now (add_requests 1 n)) (w_stats w)))
| StepEnter i k c :
    w_flights w !! i = Some (Counted k c) ->
    step w (set_flight w i (Active k c fresh_log) (on_ref c (add_active 1) (w_stats w)))
| StepRead i k c l n :
    w_flights w !! i = Some (Active k c l) -> 0 <= n ->
    step w (set_flight w i (Active k c l) (on_ref c (add_bytes n 0) (w_stats w)))
| StepStream i k c l n :
    w_flights w !! i = Some (Active k c l) -> 0 <= n ->
    step w (set_flight w i (Active k c l) (on_ref c (add_bytes 0 n) (w_stats w)))
| StepRespond i c l l' :
    w_flights w !! i = Some (Active Http c l) ->
    (exists n, 0 <= n /\ (l' = WriteHeader n l \/ l' = Write n l)) \/ l' = Hijack l ->
    step w (set_flight w i (Active Http c l') (w_stats w))
| StepLeave i c l :
    w_flights w !! i = Some (Active Http c l) ->
    step w (set_flight w i (Leaving c l) (on_ref c (add_active (-1)) (w_stats w)))
| StepAccount i c l :
    w_flights w !! i = Some (Leaving c l) ->
    step w (end_flight w i (on_ref c (fun n => note (lw_status l) (add_bytes 0 (lw_bytes l) n)) (w_stats w)))
| StepHangup i c l :
    w_flights w !! i = Some (Active Console c l) ->
    step w (end_flight w i (on_ref c (add_active (-1)) (w_stats w)))
| StepDialFails i h now :
    w_flights w !! i = Some (Looked Console h now) ->
    step w (end_flight w i (w_stats w))
| StepSwap T :
    w_reload w = Idle ->
    step w (mkWorld T (w_stats w) (w_flights w) Swapped)
| StepPrune :
    w_reload w = Swapped ->
    step w (mkWorld (w_table w) (prune (w_table w) (w_stats w)) (w_flights w) (Seeding (elements (w_table w))))
| StepSeed h todo :
    w_reload w = Seeding (h :: todo) ->
    step w (mkWorld (w_table w) (host h (w_stats w)).2 (w_flights w) (Seeding todo))
| StepDone :
    w_reload w = Seeding [] ->
    step w (mkWorld (w_table w) (w_stats w) (w_flights w) Idle).

(** ** Totals over the requests in flight *)

Definition total (g : flight -> Z) (m : gmap nat flight) : Z := map_fold (fun _ f acc => g f + acc) 0 m.

Lemma total_insert_None g m i f : m !! i = None -> total g (<[i := f]> m) = g f + total g m.
Proof. intros H. unfold total. rewrite map_fold_insert_L; [done| |done]. intros; lia. Qed.

Lemma total_delete g m i f : m !! i = Some f -> total g m = g f + total g (delete i m).
Proof.
  intros H. rewrite <- (insert_delete_id m i f) at 1 by done. apply total_insert_None. apply lookup_delete_eq.
Qed.

Lemma total_insert g m i f f' : m !! i = Some f -> total g (<[i := f']> m) = total g m - g f + g f'.
Proof.
  intros H. rewrite (total_delete g m i f H), <- insert_delete_eq, total_insert_None by apply lookup_delete_eq. lia.
Qed.

Lemma total_zero g m : (forall i f, m !! i = Some f -> g f = 0) -> total g m = 0.
Proof.
  induction m as [|i f m Hm IH] using map_ind; intros H; [done|]. rewrite total_insert_None by done.
  rewrite (H i f) by apply lookup_insert_eq. rewrite IH; [done|]. intros j f' Hj. apply (H j).
  rewrite lookup_insert_ne; [done|congruence].
Qed.

Lemma total_nonneg g m : (forall f, 0 <= g f) -> 0 <= total g m.
Proof.
  intros Hg. induction m as [|i f m Hm IH] using map_ind; [done|]. rewrite total_insert_None by done.
  pose proof (Hg f). lia.
Qed.

Lemma total_le g g' m : (forall f, g f <= g' f) -> total g m <= total g' m.
Proof.
  intros Hg. induction m as [|i f m Hm IH] using map_ind; [done|]. rewrite !total_insert_None by done.
  pose proof (Hg f). lia.
Qed.

(** A flight is being served with the counters [c]; has counted itself in
    them, and not accounted for its response. *)
Definition serves (c : nat) (f : flight) : Z :=
  match f with Active _ c' _ => if (c' =? c)%nat then 1 else 0 | _ => 0 end.
Definition counts (c : nat) (f : flight) : Z :=
  match f with Counted _ c' | Active _ c' _ | Leaving c' _ => if (c' =? c)%nat then 1 else 0 | _ => 0 end.

Definition ref_of (f : flight) : option nat :=
  match f with Looked _ _ _ => None | Held _ c _ | Counted _ c | Active _ c _ | Leaving c _ => Some c end.

Definition responses (k : counters) : Z := c_2xx k + c_3xx k + c_4xx k + c_5xx k.

(** ** The invariant *)

Record consistent (w : world) : Prop := {
  cs_map : forall h c, s_map (w_stats w) !! h = Some c -> (c < length (s_heap (w_stats w)))%nat;
  cs_inj : forall h h' c, s_map (w_stats w) !! h = Some c -> s_map (w_stats w) !! h' = Some c -> h = h';
  cs_flight : forall i f c, w_flights w !! i = Some f -> ref_of f = Some c -> (c < length (s_heap (w_stats w)))%nat;
  cs_counters : forall c k, s_heap (w_stats w) !! c = Some k ->
    c_active k = total (serves c) (w_flights w) /\ 0 <= responses k /\
    responses k + total (counts c) (w_flights w) <= c_requests k;
}.

Lemma note_fields status k : c_active (note status k) = c_active k /\ c_requests (note status k) = c_requests k /\
  responses k <= responses (note status k) <= responses k + 1.
Proof. destruct k. unfold note, responses. repeat case_match; cbn; lia. Qed.

(** The map part of the invariant, on its own. *)
Definition stats_ok (s : stats) : Prop :=
  (forall h c, s_map s !! h = Some c -> (c < length (s_heap s))%nat) /\
  (forall h h' c, s_map s !! h = Some c -> s_map s !! h' = Some c -> h = h').

Lemma host_ok h s : stats_ok s -> stats_ok (host h s).2.
Proof.
  intros [Hm Hi]. unfold host. destruct (s_map s !! h) as [c|] eqn:E; [done|]. split; cbn; rewrite ?length_app; cbn.
  - intros h' c [[<- <-]|[_ Hc]]%lookup_insert_Some; [lia|]. apply Hm in Hc. lia.
  - intros h1 h2 c [[<- <-]|[? H1]]%lookup_insert_Some [[<- H2]|[? H2]]%lookup_insert_Some; try done.
    + apply Hm in H2. lia.
    + apply Hm in H1. lia.
    + by eapply Hi.
Qed.

Lemma host_ref h s : stats_ok s ->
  s_map (host h s).2 !! h = Some (host h s).1 /\ ((host h s).1 < length (s_heap (host h s).2))%nat.
Proof.
  intros [Hm _]. unfold host. destruct (s_map s !! h) as [c|] eqn:E; cbn; [by eauto|].
  rewrite lookup_insert_eq, length_app. cbn. split; [done|lia].
Qed.

Lemma host_heap h s c k : s_heap (host h s).2 !! c = Some k ->
  s_heap s !! c = Some k \/ c = length (s_heap s) /\ k = zero.
Proof.
  unfold host. destruct (s_map s !! h); cbn; [by left|]. intros [H|[Hle H]]%lookup_app_Some; [by left|].
  destruct (c - length (s_heap s))%nat eqn:Ec; [|done]. injection H as <-. right. split; [lia|done].
Qed.

Lemma host_grows h s : (length (s_heap s) <= length (s_heap (host h s).2))%nat.
Proof. unfold host. destruct (s_map s !! h); cbn; [done|]. rewrite length_app. lia. Qed.

Lemma prune_ok keep s : stats_ok s -> stats_ok (prune keep s).
Proof.
  intros [Hm Hi]. split; cbn.
  - intros h c [Hc _]%map_lookup_filter_Some. by eapply Hm.
  - intros h h' c [Hc _]%map_lookup_filter_Some [Hc' _]%map_lookup_filter_Some. by eapply Hi.
Qed.

Lemma consistent_ok w : consistent w -> stats_ok (w_stats w).
Proof. intros H. split; [apply (cs_map _ H)|apply (cs_inj _ H)]. Qed.

Lemma not_at f c : ref_of f <> Some c -> serves c f = 0 /\ counts c f = 0.
Proof.
  intros Hr. destruct f as [| |k c'|k c' l|c' l]; cbn in *; try done;
    (destruct (Nat.eqb_spec c' c) as [->|]; [by destruct Hr|done]).
Qed.

(** The flights and the counters move together: [da] and [dc] are what a step
    adds, at each reference, to the flights served and to those not accounted. *)
Lemma advance w T r s' flights' (da dc : nat -> Z) :
  consistent w -> stats_ok s' -> (length (s_heap (w_stats w)) <= length (s_heap s'))%nat ->
  (forall c, total (serves c) flights' = total (serves c) (w_flights w) + da c) ->
  (forall c, total (counts c) flights' = total (counts c) (w_flights w) + dc c) ->
  (forall i f c, flights' !! i = Some f -> ref_of f = Some c -> (c < length (s_heap s'))%nat) ->
  (forall c k', s_heap s' !! c = Some k' ->
     exists k, (s_heap (w_stats w) !! c = Some k \/ (length (s_heap (w_stats w)) <= c)%nat /\ k = zero) /\
       c_active k' = c_active k + da c /\ (0 <= responses k -> 0 <= responses k') /\
       responses k' + dc c - c_requests k' <= responses k - c_requests k) ->
  consistent (mkWorld T s' flights' r).
Proof.
  intros Hw [Hm Hi] Hlen Ha Hc Hf Hk. split; cbn; [done..|].
  intros c k' Hk'. destruct (Hk c k' Hk') as (k & Hold & He1 & He2 & He3).
  assert (c_active k = total (serves c) (w_flights w) /\ 0 <= responses k /\
    responses k + total (counts c) (w_flights w) <= c_requests k) as (H1 & H2 & H3).
  { destruct Hold as [Hold|[Hc0 ->]]; [by apply Hw|]. cbn.
    rewrite !total_zero; [done|..]; intros i f Hif; apply not_at; intros Hr;
      apply (cs_flight _ Hw _ _ _ Hif) in Hr; lia. }
  rewrite Ha, Hc. split_and!; [lia|auto|lia].
Qed.

Lemma on_ref_ok c F s : stats_ok s -> stats_ok (on_ref c F s).
Proof. intros [Hm Hi]. split; cbn; [|done]. intros h c' Hc. rewrite length_alter. by eapply Hm. Qed.

Lemma on_ref_heap c F s c' k' : s_heap (on_ref c F s) !! c' = Some k' ->
  exists k, s_heap s !! c' = Some k /\ (c' = c /\ k' = F k \/ c' <> c /\ k' = k).
Proof.
  cbn. destruct (decide (c' = c)) as [->|Hne].
  - rewrite list_lookup_alter_eq. intros (k & -> & ->)%fmap_Some. eauto.
  - rewrite list_lookup_alter_ne by done. eauto 10.
Qed.

(** A flight that goes on, with the counters it holds. *)
Lemma go_on w i f f' c F :
  consistent w -> w_flights w !! i = Some f -> ref_of f = Some c -> ref_of f' = Some c ->
  (forall k, c_active (F k) = c_active k + (serves c f' - serves c f) /\ (0 <= responses k -> 0 <= responses (F k)) /\
     responses (F k) + (counts c f' - counts c f) - c_requests (F k) <= responses k - c_requests k) ->
  consistent (set_flight w i f' (on_ref c F (w_stats w))).
Proof.
  intros Hw Hf Hr Hr' HF. unfold set_flight.
  apply (advance w _ _ _ _ (fun c => serves c f' - serves c f) (fun c => counts c f' - counts c f)); try done.
  - by apply on_ref_ok, consistent_ok.
  - cbn. by rewrite length_alter.
  - intros c'. rewrite (total_insert _ _ _ _ _ Hf). lia.
  - intros c'. rewrite (total_insert _ _ _ _ _ Hf). lia.
  - intros j g c' Hj Hg. cbn. rewrite length_alter. apply lookup_insert_Some in Hj as [[-> <-]|[_ Hj]].
    + rewrite Hr' in Hg. injection Hg as <-. by eapply (cs_flight _ Hw).
    + by eapply (cs_flight _ Hw).
  - intros c' k' (k & Hk & [[-> ->]|[Hne ->]])%on_ref_heap; exists k; (split; [by left|]); [done|].
    cbn beta. destruct (not_at f c') as [-> ->]; [congruence|]. destruct (not_at f' c') as [-> ->]; [congruence|]. split_and!; [lia|done|lia].
Qed.

(** A flight that ends. *)
Lemma finish w i f c F :
  consistent w -> w_flights w !! i = Some f -> ref_of f = Some c ->
  (forall k, c_active (F k) = c_active k - serves c f /\ (0 <= responses k -> 0 <= responses (F k)) /\
     responses (F k) - counts c f - c_requests (F k) <= responses k - c_requests k) ->
  consistent (end_flight w i (on_ref c F (w_stats w))).
Proof.
  intros Hw Hf Hr HF. unfold end_flight.
  apply (advance w _ _ _ _ (fun c => - serves c f) (fun c => - counts c f)); try done.
  - by apply on_ref_ok, consistent_ok.
  - cbn. by rewrite length_alter.
  - intros c'. rewrite (total_delete _ _ _ _ Hf). lia.
  - intros c'. rewrite (total_delete _ _ _ _ Hf). lia.
  - intros j g c' [_ Hj]%lookup_delete_Some Hg. cbn. rewrite length_alter. by eapply (cs_flight _ Hw).
  - intros c' k' (k & Hk & [[-> ->]|[Hne ->]])%on_ref_heap; exists k; (split; [by left|]).
    + destruct (HF k) as (H1 & H2 & H3). split_and!; [lia|done|lia].
    + cbn beta. destruct (not_at f c') as [-> ->]; [congruence|]. split_and!; [lia|done|lia].
Qed.


(** ** Every step keeps it *)

(** A step that adds to no counter, and may create a pair of them. *)
Lemma quiet w T r s' flights' :
  consistent w -> stats_ok s' -> (length (s_heap (w_stats w)) <= length (s_heap s'))%nat ->
  (forall c k, s_heap s' !! c = Some k ->
     s_heap (w_stats w) !! c = Some k \/ c = length (s_heap (w_stats w)) /\ k = zero) ->
  (forall c, total (serves c) flights' = total (serves c) (w_flights w) /\
             total (counts c) flights' = total (counts c) (w_flights w)) ->
  (forall i f c, flights' !! i = Some f -> ref_of f = Some c -> (c < length (s_heap s'))%nat) ->
  consistent (mkWorld T s' flights' r).
Proof.
  intros Hw Hok Hlen Hheap Ht Hf. apply (advance w _ _ _ _ (fun _ => 0) (fun _ => 0)); try done.
  - intros c. rewrite (proj1 (Ht c)). lia.
  - intros c. rewrite (proj2 (Ht c)). lia.
  - intros c k Hk. exists k. split; [|split_and!; [lia|done|lia]].
    destruct (Hheap _ _ Hk) as [|[-> ->]]; [by left|by right].
Qed.

(** ... and changes the stage of one flight. *)
Lemma quiet_set w i f f' s' :
  consistent w -> w_flights w !! i = Some f -> stats_ok s' ->
  (length (s_heap (w_stats w)) <= length (s_heap s'))%nat ->
  (forall c k, s_heap s' !! c = Some k ->
     s_heap (w_stats w) !! c = Some k \/ c = length (s_heap (w_stats w)) /\ k = zero) ->
  (forall c, serves c f' = serves c f /\ counts c f' = counts c f) ->
  (forall c, ref_of f' = Some c -> (c < length (s_heap s'))%nat) ->
  consistent (set_flight w i f' s').
Proof.
  intros Hw Hi Hok Hlen Hheap Hsame Href. apply (quiet w); try done.
  - intros c. rewrite !(total_insert _ _ _ _ _ Hi). destruct (Hsame c) as [-> ->]. lia.
  - intros j g c [[<- <-]|[_ Hj]]%lookup_insert_Some Hg; [by apply Href|].
    apply (cs_flight _ Hw _ _ _ Hj) in Hg. lia.
Qed.

Ltac fields := let k := fresh in intros k; destruct k; unfold responses; cbn; rewrite ?Nat.eqb_refl; lia.

Lemma account_fields l k : let k' := note (lw_status l) (add_bytes 0 (lw_bytes l) k) in
  c_active k' = c_active k /\ (0 <= responses k -> 0 <= responses k') /\
  responses k' - 1 - c_requests k' <= responses k - c_requests k.
Proof.
  cbn zeta. destruct (note_fields (lw_status l) (add_bytes 0 (lw_bytes l) k)) as (-> & -> & H).
  destruct k. unfold responses in *. cbn in *. lia.
Qed.

Lemma step_consistent w w' : step w w' -> consistent w -> consistent w'.
Proof.
  intros Hs Hw. pose proof (consistent_ok _ Hw) as Hok. pose proof (fun h => host_ok h _ Hok) as Hhost.
  pose proof (fun h => host_ref h _ Hok) as Href.
  pose proof (fun h => host_grows h (w_stats w)) as Hgrow. pose proof (fun h => host_heap h (w_stats w)) as Hheap.
  destruct Hs as [i k h now Hi Hh|i k h now Hi|i k c now Hi|i k c Hi|i k c l n Hi|i k c l n Hi
    |i c l l' Hi|i c l Hi|i c l Hi|i c l Hi|i h now Hi|T|Hr|h todo Hr|Hr].
  - apply (quiet w); [done|done|done|by left| |].
    + intros c. rewrite !total_insert_None by done. cbn. lia.
    + intros j f c [[<- <-]|[_ Hj]]%lookup_insert_Some Hf; [done|]. by eapply (cs_flight _ Hw).
  - specialize (Hhost h). specialize (Href h). specialize (Hgrow h). specialize (Hheap h).
    destruct (host h (w_stats w)) as [c s]. cbn in *. apply (quiet_set _ _ _ _ _ Hw Hi); try done.
    intros c' [= <-]. apply Href.
  - apply (go_on _ _ _ _ c _ Hw Hi); [done|done|]. fields.
  - apply (go_on _ _ _ _ c _ Hw Hi); [done|done|]. fields.
  - apply (go_on _ _ _ _ c _ Hw Hi); [done|done|]. fields.
  - apply (go_on _ _ _ _ c _ Hw Hi); [done|done|]. fields.
  - apply (quiet_set _ _ _ _ _ Hw Hi); try done; [by left|]. intros c' [= <-]. by eapply (cs_flight _ Hw _ _ _ Hi).
  - apply (go_on _ _ _ _ c _ Hw Hi); [done|done|]. fields.
  - apply (finish _ _ _ c _ Hw Hi); [done|]. intros k. cbn [serves counts]. rewrite Nat.eqb_refl, Z.sub_0_r. apply account_fields.
  - apply (finish _ _ _ c _ Hw Hi); [done|]. fields.
  - apply (quiet w); [done|done|done|by left| |].
    + intros c. rewrite !(total_delete _ _ _ _ Hi). cbn. lia.
    + intros j f c [_ Hj]%lookup_delete_Some Hf. by eapply (cs_flight _ Hw).
  - apply (quiet w); try done; [by left|]. apply Hw.
  - apply (quiet w); try done; [by apply prune_ok|by left|]. apply Hw.
  - apply (quiet w); [done|apply Hhost|apply Hgrow|apply Hheap|done|]. intros i f c Hi Hf. apply (cs_flight _ Hw _ _ _ Hi) in Hf. specialize (Hgrow h). lia.
  - apply (quiet w); try done; [by left|]. apply Hw.
Qed.

(** ** Reachable states *)

(** With the hosts of every table there has been. *)
Inductive reachable : gset string -> world -> Prop :=
| ReachInit : reachable ∅ init
| ReachStep ever w w' : reachable ever w -> step w w' -> reachable (ever ∪ w_table w') w'.

(** No request is between its look at the table and its counters while its
    host has left the table. *)
Definition settled (w : world) : Prop :=
  forall i k h now, w_flights w !! i = Some (Looked k h now) -> h ∈ w_table w.

Inductive calm : world -> Prop :=
| CalmInit : calm init
| CalmStep w w' : calm w -> step w w' -> settled w' -> calm w'.

Lemma init_consistent : consistent init.
Proof. split; cbn; intros; set_solver. Qed.

Definition hosts (s : stats) : gset string := dom (s_map s).
#[local] Arguments hosts : simpl never.

Lemma host_hosts h s : hosts (host h s).2 = hosts s ∪ {[h]}.
Proof.
  unfold hosts, host. destruct (s_map s !! h) eqn:E; cbn; [|set_solver].
  apply elem_of_dom_2 in E. set_solver.
Qed.

Lemma prune_hosts keep s : hosts (prune keep s) = hosts s ∩ keep.
Proof.
  apply set_eq. intros h. unfold hosts, prune. cbn. rewrite elem_of_intersection, !elem_of_dom. split.
  - intros [c [Hc Hk]%map_lookup_filter_Some]. eauto.
  - intros [[c Hc] Hk]. exists c. by apply map_lookup_filter_Some.
Qed.

(** Where the hosts of the next state come from. *)
Lemma step_hosts w w' : step w w' ->
  (forall h, h ∈ hosts (w_stats w') -> h ∈ hosts (w_stats w) \/
     (exists i k now, w_flights w !! i = Some (Looked k h now)) \/
     (exists todo, w_reload w = Seeding (h :: todo))) /\
  (forall i k h now, w_flights w' !! i = Some (Looked k h now) ->
     w_flights w !! i = Some (Looked k h now) \/ h ∈ w_table w) /\
  (forall h todo, w_reload w' = Seeding todo -> h ∈ todo ->
     h ∈ w_table w \/ exists todo, w_reload w = Seeding todo /\ h ∈ todo).
Proof.
  intros Hs; destruct Hs as [i k h now Hi Hh|i k h now Hi|i k c now Hi|i k c Hi|i k c l n Hi|i k c l n Hi
    |i c l l' Hi|i c l Hi|i c l Hi|i c l Hi|i h now Hi|T|Hr|h todo Hr|Hr];
    try pose proof (host_hosts h (w_stats w)) as Hhost; try destruct (host h (w_stats w)) as [c s]; cbn in *;
    (split_and!; [intros x|intros j k' x now'|intros x todo']).
  all: try (intros [[_ [= -> -> ->]]|[_ ?]]%lookup_insert_Some; by auto).
  all: try (intros [_ ?]%lookup_delete_Some; by auto).
  all: eauto.
  all: try (rewrite Hhost, elem_of_union, elem_of_singleton; intros [?| ->]; eauto 8; done).
  all: try (intros [= <-] Hx%elem_of_elements; by left).
  - rewrite prune_hosts. set_solver.
  - intros [= <-] Hx. right. exists (h :: todo). split; [done|by right].
Qed.

Lemma reachable_hosts ever w : reachable ever w ->
  hosts (w_stats w) ⊆ ever /\ w_table w ⊆ ever /\
  (forall i k h now, w_flights w !! i = Some (Looked k h now) -> h ∈ ever) /\
  (forall h todo, w_reload w = Seeding todo -> h ∈ todo -> h ∈ ever).
Proof.
  induction 1 as [|ever w w' _ (IHm & IHt & IHf & IHr) Hs]; [cbn; set_solver|].
  destruct (step_hosts w w' Hs) as (Hm & Hf & Hr).
  assert (Hsub : forall h, h ∈ ever -> h ∈ ever ∪ w_table w') by set_solver.
  split_and!.
  - intros h [Hh|[(i & k & now & Hi)|(todo & Hd)]]%Hm; apply Hsub; [set_solver|eauto|eapply IHr; [exact Hd|by left]].
  - set_solver.
  - intros i k h now [?|?]%Hf; apply Hsub; [eauto|set_solver].
  - intros h todo Hd Hh. destruct (Hr h todo Hd Hh) as [?|(todo' & ? & ?)]; apply Hsub; [set_solver|eauto].
Qed.

(** In step with the table, as far as the reload has come. *)
Definition in_step (w : world) : Prop :=
  match w_reload w with
  | Idle => hosts (w_stats w) = w_table w
  | Swapped => True
  | Seeding todo => hosts (w_stats w) ∪ list_to_set todo = w_table w
  end.

Lemma step_in_step w w' : step w w' -> settled w -> in_step w -> in_step w'.
Proof.
  intros Hs Hset Hin. destruct Hs as [i k h now Hi Hh|i k h now Hi|i k c now Hi|i k c Hi|i k c l n Hi|i k c l n Hi
    |i c l l' Hi|i c l Hi|i c l Hi|i c l Hi|i h now Hi|T|Hr|h todo Hr|Hr]; unfold in_step in *; cbn in *; try done.
  - pose proof (host_hosts h (w_stats w)) as Hhost. apply Hset in Hi.
    destruct (host h (w_stats w)) as [c s]. cbn in *. destruct (w_reload w); [|done|]; rewrite Hhost; set_solver.
  - rewrite prune_hosts, list_to_set_elements_L. set_solver.
  - rewrite Hr in Hin. rewrite host_hosts. cbn in Hin. set_solver.
  - rewrite Hr in Hin. cbn in Hin. set_solver.
Qed.

Lemma calm_in_step w : calm w -> settled w /\ in_step w.
Proof.
  induction 1 as [|w w' _ [IHs IHi] Hs Hset]; [split; [done|done]|]. split; [done|]. by eapply step_in_step.
Qed.

(** ** What the counters promise *)

(** C34: whatever requests, console connections and reloads do in between, the
    counters of a host are its own, its active count is exactly the number of
    requests being served with them, and the responses it has noted never
    exceed the requests it has counted less those still to be answered. *)
Theorem counters_consistent ever w h c :
  reachable ever w -> s_map (w_stats w) !! h = Some c ->
  exists k, s_heap (w_stats w) !! c = Some k /\
    c_active k = total (serves c) (w_flights w) /\
    0 <= c_active k <= c_requests k /\
    responses k + total (counts c) (w_flights w) <= c_requests k /\
    forall h', s_map (w_stats w) !! h' = Some c -> h' = h.
Proof.
  intros Hreach Hc. assert (Hw : consistent w).
  { clear Hc. induction Hreach; [apply init_consistent|by eapply step_consistent]. }
  destruct (lookup_lt_is_Some_2 (s_heap (w_stats w)) c) as [k Hk]; [by eapply (cs_map _ Hw)|].
  destruct (cs_counters _ Hw _ _ Hk) as (Ha & Hn & Hle).
  assert (0 <= total (serves c) (w_flights w) <= total (counts c) (w_flights w)).
  { split; [apply total_nonneg; intros []; cbn; repeat case_match; lia|apply total_le].
    intros []; cbn; repeat case_match; lia. }
  exists k. split_and!; try done; try lia. intros h' Hh'. by eapply (cs_inj _ Hw).
Qed.

(** Only hosts some configuration had ever get counters, however many
    others are asked for; and as long as no request is overtaken by a reload
    between its look at the table and its counters, the hosts with counters
    are exactly those of the table whenever no reload is running. *)
Theorem counters_bounded w :
  (forall ever, reachable ever w -> hosts (w_stats w) ⊆ ever) /\
  (calm w -> w_reload w = Idle -> hosts (w_stats w) = w_table w).
Proof.
  split; [intros ever Hr; apply (reachable_hosts _ _ Hr)|].
  intros Hc Hi. destruct (calm_in_step _ Hc) as [_ H]. unfold in_step in H. by rewrite Hi in H.
Qed.

(** ** One request, with and without a reload in its way *)

Module StatsExample.

Definition swap (T : gset string) (w : world) : world := mkWorld T (w_stats w) (w_flights w) Swapped.
Definition pruned (w : world) : world :=
  mkWorld (w_table w) (prune (w_table w) (w_stats w)) (w_flights w) (Seeding (elements (w_table w))).
Definition seed (h : string) (todo : list string) (w : world) : world :=
  mkWorld (w_table w) (host h (w_stats w)).2 (w_flights w) (Seeding todo).
Definition done_reload (w : world) : world := mkWorld (w_table w) (w_stats w) (w_flights w) Idle.
Definition look (w : world) : world := set_flight w 0 (Looked Http "bmc.example" 7) (w_stats w).
Definition fetch (w : world) : world :=
  let '(c, s) := host "bmc.example" (w_stats w) in set_flight w 0 (Held Http c 7) s.
Definition count (w : world) : world :=
  set_flight w 0 (Counted Http 0) (on_ref 0 (fun n => set_seen 7 (add_requests 1 n)) (w_stats w)).
Definition enter (w : world) : world := set_flight w 0 (Active Http 0 fresh_log) (on_ref 0 (add_active 1) (w_stats w)).

Definition loaded : world := done_reload (seed "bmc.example" [] (pruned (swap {["bmc.example"]} init))).
Definition serving : world := enter (count (fetch (look loaded))).

Lemma settled_none w : w_flights w = ∅ -> settled w.
Proof. intros H i k h now. by rewrite H, lookup_empty. Qed.

Lemma calm_loaded : calm loaded.
Proof.
  apply (CalmStep (seed "bmc.example" [] (pruned (swap {["bmc.example"]} init)))); [|by constructor|by apply settled_none].
  apply (CalmStep (pruned (swap {["bmc.example"]} init))); [|by apply StepSeed; vm_compute|by apply settled_none].
  apply (CalmStep (swap {["bmc.example"]} init)); [|by apply StepPrune|by apply settled_none].
  apply (CalmStep init); [constructor|by apply StepSwap|by apply settled_none].
Qed.

Lemma calm_reachable w : calm w -> exists ever, reachable ever w.
Proof. induction 1 as [|w w' _ [ever IH] Hs _]; [by exists ∅; constructor|]. eexists. by eapply ReachStep. Qed.

Lemma reach_step ever w w' : reachable ever w -> step w w' -> exists ever', reachable ever' w'.
Proof. intros. eexists. by eapply ReachStep. Qed.

Lemma serving_reachable : exists ever, reachable ever serving.
Proof.
  destruct (calm_reachable _ calm_loaded) as [e0 H0].
  destruct (reach_step _ _ (look loaded) H0) as [e1 H1]; [apply StepLookup; [done|vm_compute; reflexivity]|].
  destruct (reach_step _ _ (fetch (look loaded)) H1) as [e2 H2]; [by apply (StepFetch _ 0 Http "bmc.example" 7)|].
  destruct (reach_step _ _ (count (fetch (look loaded))) H2) as [e3 H3]; [by apply StepCount|].
  apply (reach_step _ _ serving H3). by apply StepEnter.
Qed.

(** The finding: a request that has looked at the table before a reload, and
    fetches its counters after it, brings back the entry of a removed host,
    which is then shown until another reload. *)
Definition overtaken : world := fetch (done_reload (pruned (swap ∅ (look loaded)))).

Lemma overtaken_reachable : exists ever, reachable ever overtaken.
Proof.
  destruct (calm_reachable _ calm_loaded) as [e0 H0].
  destruct (reach_step _ _ (look loaded) H0) as [e1 H1]; [apply StepLookup; [done|vm_compute; reflexivity]|].
  destruct (reach_step _ _ (swap ∅ (look loaded)) H1) as [e2 H2]; [by apply StepSwap|].
  destruct (reach_step _ _ (pruned (swap ∅ (look loaded))) H2) as [e3 H3]; [by apply StepPrune|].
  destruct (reach_step _ _ (done_reload (pruned (swap ∅ (look loaded)))) H3) as [e4 H4]; [by apply StepDone; vm_compute|].
  apply (reach_step _ _ overtaken H4). by apply (StepFetch _ 0 Http "bmc.example" 7).
Qed.

Lemma counters_consistent_witness :
  exists k, s_heap (w_stats serving) !! 0%nat = Some k /\
    c_active k = total (serves 0) (w_flights serving) /\
    0 <= c_active k <= c_requests k /\
    responses k + total (counts 0) (w_flights serving) <= c_requests k /\
    forall h', s_map (w_stats serving) !! h' = Some 0%nat -> h' = "bmc.example".
Proof.
  destruct serving_reachable as [ever H].
  exact (counters_consistent ever serving "bmc.example" 0 H ltac:(vm_compute; reflexivity)).
Defined.

Lemma counters_bounded_witness : hosts (w_stats loaded) = {["bmc.example"]}.
Proof. exact (proj2 (counters_bounded loaded) calm_loaded eq_refl). Defined.

Example served_one : snapshot (w_stats serving) = [("bmc.example", mkCounters 1 1 0 0 0 0 0 0 7)].
Proof. vm_compute. reflexivity. Qed.

End StatsExample.

(** The two can get out of step otherwise: there is an execution after
    which no reload is running, and a host that has left the table still has
    counters, which the console keeps showing. *)
Theorem stale_entry_reachable :
  exists ever w h, reachable ever w /\ w_reload w = Idle /\ h ∈ hosts (w_stats w) /\ h ∉ w_table w.
Proof.
  destruct StatsExample.overtaken_reachable as [ever H]. exists ever, StatsExample.overtaken, "bmc.example".
  split_and!; [done|done| |]; [apply elem_of_dom; by exists 1%nat|by apply not_elem_of_empty].
Qed.
