(* ===== verification/VhostMut.v ===== *)
(** * VhostMut: the proxy.d fragments goddns writes

    [internal/vhostmut/vhostmut.go]: who owns a proxied host, the checks
    before a fragment is written or removed, the text of a fragment, and the
    atomic write. Files are those of [FS]; the TOML decoder and the URL parser
    are those of [Config]; the group of a directory is a parameter. Paths are
    taken to hold no pattern characters, so that the directory part of a glob
    is literal; bytes above 127 are kept by [%q], as printable UTF-8 is. *)

From Stdlib Require Import String Ascii.
From S2P Require Import Prelude GoStrings NetIP Encoding FS Config Proxy.

(** ** The text of a fragment *)

Definition hex_digit (z : Z) : ascii := ascii_of_nat (Z.to_nat (if z <? 10 then 48 + z else 87 + z)).

(** One character of [%q]. *)
Definition q_char (c : ascii) : string :=
  let n := byte c in
  if Ascii.eqb c quote then String "\" (String quote "")
  else if Ascii.eqb c "\" then "\\"
  else if n =? 7 then "\a" else if n =? 8 then "\b" else if n =? 12 then "\f" else if n =? 10 then "\n"
  else if n =? 13 then "\r" else if n =? 9 then "\t" else if n =? 11 then "\v"
  else if (n <? 32) || (n =? 127) then "\x" +:+ String (hex_digit (n / 16)) (String (hex_digit (n mod 16)) "")
  else String c "".

Fixpoint q_chars (s : string) : string :=
  match s with "" => "" | String c s' => q_char c +:+ q_chars s' end.

Definition q (s : string) : string := String quote (q_chars s +:+ String quote "").

Definition tomlStrArray (ss : list string) : string := "[" +:+ join ", " (q <$> ss) +:+ "]".

Definition format_bool (b : bool) : string := if b then "true" else "false".

Definition nl : string := String "010" "".

Definition renderFragment (host : string) (pr : ProxyRule) : string :=
  "# Managed by goddns — edit via `goddns vhost` or the admin UI." +:+ nl +:+
  "# Hand-editing is fine (goddns reads it back); keep one vhost per file." +:+ nl +:+ nl +:+
  "[proxy." +:+ q host +:+ "]" +:+ nl +:+
  "upstream        = " +:+ q (Upstream pr) +:+ nl +:+
  "upstream_verify = " +:+ format_bool (UpstreamVerify pr) +:+ nl +:+
  "preserve_host   = " +:+ format_bool (PreserveHost pr) +:+ nl +:+
  (if BMCCompat pr then "bmc_compat      = true" +:+ nl else "") +:+
  (if (0 <? Z.of_nat (length (ConsolePorts pr)))
   then "console_ports   = [" +:+ join ", " (format_int <$> ConsolePorts pr) +:+ "]" +:+ nl else "") +:+
  (if (0 <? Z.of_nat (length (Allow pr))) then "allow           = " +:+ tomlStrArray (Allow pr) +:+ nl else "") +:+
  (if 0 <? RateLimit pr then "rate_limit      = " +:+ format_int (RateLimit pr) +:+ nl else "") +:+
  (if (0 <? Z.of_nat (length (BasicAuth pr))) then "basic_auth      = " +:+ tomlStrArray (BasicAuth pr) +:+ nl else "").

Definition trimAll (ss : list string) : list string :=
  List.filter (fun s => negb (String.eqb s "")) (trim_space <$> ss).

(** ** The editor *)

Record Result := mkResult { v_Host : string; v_File : string; v_Action : string; v_Rule : ProxyRule; v_Fragment : string }.
Record Entry := mkEntry { en_Host : string; en_Source : string; en_Managed : bool; en_Rule : ProxyRule }.

Inductive vm_error :=
| NoConfPath | InvalidRule (e : rule_error) | InvalidHost | DefinedIn (where_ : string) | NotManaged (file : string)
| ReadError (path : string) (e : io_error) | DecodeError (path why : string) | IOError (e : io_error).

Section editor.
Context {E : Env} {B : Bcrypt}.
Context (fault : nat -> option string) (tempname : nat -> string -> string) (euid egid : Z).
Context (dirGID : string -> Z) (ConfPath : string).

Definition dir : string := Join [Dir ConfPath; "proxy.d"].
Definition frag (h : string) : string := Join [dir; h +:+ ".conf"].
Definition normalize (h : string) : string := trim_suffix "." (to_lower (trim_space h)).
Definition relName (f : string) : string := Join ["proxy.d"; Base f].

Definition decodeProxy (path : string) : io vm_error (gmap string ProxyRule) :=
  if String.eqb path "" then mret ∅
  else
    st ← attempt (E' := vm_error) (Stat fault path);
    match st with
    | Err ENOENT => mret ∅
    | _ =>
        text ← wrap (ReadError path) (ReadFile fault path);
        match toml_proxy text with
        | Ok (rules, _) => mret rules
        | Err e => fail (DecodeError path e)
        end
    end.

(** [filepath.Glob] ignores the errors of reading the directory. *)
Definition fragmentFiles : io vm_error (list string) :=
  names ← attempt (E' := vm_error) (ReadDir fault dir);
  mret (match names with
        | Ok ns => sort_strings ((fun n => Join [dir; n]) <$> List.filter (has_suffix ".conf") ns)
        | Err _ => []
        end).

Definition defines (host : string) (rules : gmap string ProxyRule) : bool :=
  existsb (fun kr => String.eqb (normalize kr.1) host) (map_to_list rules).

(** One fragment: whether [host] is managed, and where else it is defined. *)
Definition judge (host f : string) (rules : gmap string ProxyRule) (mc : bool * string) : bool * string :=
  if String.eqb f (frag host) then
    if (size rules =? 1)%nat && defines host rules then (true, mc.2) else (mc.1, relName (frag host))
  else if defines host rules then (mc.1, relName f) else mc.

Fixpoint ownership_loop (host : string) (files : list string) (mc : bool * string) : io vm_error (bool * string) :=
  match files with
  | [] => mret mc
  | f :: files' =>
      rules ← decodeProxy f;
      ownership_loop host files' (judge host f rules mc)
  end.

Definition ownership (host : string) : io vm_error (bool * string) :=
  base ← decodeProxy ConfPath;
  files ← fragmentFiles;
  ownership_loop host files (false, if defines host base then "goddns.conf" else "").

Definition cleaned (rule : ProxyRule) : ProxyRule :=
  mkRule (trim_space (Upstream rule)) (UpstreamVerify rule) (PreserveHost rule) (BMCCompat rule) (ConsolePorts rule)
    (trimAll (Allow rule)) (RateLimit rule) (trimAll (BasicAuth rule)).

Definition PreviewSet (host : string) (rule : ProxyRule) : io vm_error Result :=
  if String.eqb ConfPath "" then fail NoConfPath
  else
    let host := normalize host in
    match ValidateRule host rule with
    | Err e => fail (InvalidRule e)
    | Ok _ =>
        let rule := cleaned rule in
        '(managed, conflict) ← ownership host;
        if negb (String.eqb conflict "") then fail (DefinedIn conflict)
        else mret (mkResult host (frag host) (if (managed : bool) then "update" else "add") rule (renderFragment host rule))
    end.

Definition PreviewRemove (host : string) : io vm_error Result :=
  if String.eqb ConfPath "" then fail NoConfPath
  else
    let host := normalize host in
    if negb (ValidHost host) then fail InvalidHost
    else
      '(managed, conflict) ← ownership host;
      if negb managed then
        if negb (String.eqb conflict "") then fail (DefinedIn conflict) else fail (NotManaged (frag host))
      else mret (mkResult host (frag host) "remove" (mkRule "" false false false [] [] 0 []) "").

(** Mode 0640, and the group of the directory, as far as that can be set. *)
Definition writeFragment (path content : string) : io io_error unit :=
  let d := Dir path in
  _ ← MkdirAll fault d;
  tmp ← CreateTemp fault tempname euid egid d;
  deferred (
    _ ← or_close fault tmp (write_at fault tmp content);
    _ ← or_close fault tmp (Chmod fault tmp 416);
    _ ← (if 0 <=? dirGID d then ignore (E' := io_error) (Chown fault tmp (-1) (dirGID d)) else (mret tt : io io_error unit));
    _ ← or_close fault tmp (Sync fault tmp);
    _ ← Close fault tmp;
    _ ← Rename fault tmp path;
    ignore (Sync fault d))
  (fun w => (Remove fault tmp w).2).

Definition Set_ (host : string) (rule : ProxyRule) : io vm_error Result :=
  res ← PreviewSet host rule;
  _ ← wrap IOError (writeFragment (v_File res) (v_Fragment res));
  mret res.

Definition Remove_ (host : string) : io vm_error Result :=
  res ← PreviewRemove host;
  _ ← wrap IOError (Remove fault (v_File res));
  mret res.

Fixpoint list_loop (files : list string) : io vm_error (list Entry) :=
  match files with
  | [] => mret []
  | f :: files' =>
      rules ← decodeProxy f;
      rest ← list_loop files';
      mret (((fun kr => let h := normalize kr.1 in mkEntry h f (String.eqb f (frag h)) kr.2) <$> map_to_list rules) ++ rest)
  end.

Definition List_ : io vm_error (list Entry) :=
  base ← decodeProxy ConfPath;
  files ← fragmentFiles;
  es ← list_loop files;
  mret (sort_by (fun a b => String.ltb (en_Host a) (en_Host b))
          (((fun kr => mkEntry (normalize kr.1) "(goddns.conf)" false kr.2) <$> map_to_list base) ++ es)).

End editor.

(** ** Quoting

    The escapes of a TOML basic string that are not Unicode code points: the
    one-letter ones and [\xHH], of an ASCII character. *)

Definition hex_value (c : ascii) : option Z :=
  let n := byte c in
  if (48 <=? n) && (n <=? 57) then Some (n - 48)
  else if (97 <=? n) && (n <=? 102) then Some (n - 87)
  else if (65 <=? n) && (n <=? 70) then Some (n - 55) else None.

Definition one_letter (c : ascii) : option ascii :=
  if Ascii.eqb c quote then Some quote else if Ascii.eqb c "\" then Some "\"%char
  else if Ascii.eqb c "b" then Some "008"%char else if Ascii.eqb c "t" then Some "009"%char
  else if Ascii.eqb c "n" then Some "010"%char else if Ascii.eqb c "f" then Some "012"%char
  else if Ascii.eqb c "r" then Some "013"%char else if Ascii.eqb c "e" then Some "027"%char else None.

Definition control (c : ascii) : bool := ((byte c <? 32) && negb (byte c =? 9)) || (byte c =? 127).

(** After the opening quote; nothing may follow the closing one. *)
Fixpoint toml_body (s : string) : option string :=
  match s with
  | "" => None
  | String c s' =>
      if Ascii.eqb c quote then match s' with "" => Some "" | _ => None end
      else if Ascii.eqb c "\" then
        match s' with
        | "" => None
        | String e s'' =>
            match one_letter e with
            | Some x => String x <$> toml_body s''
            | None =>
                if Ascii.eqb e "x" then
                  match s'' with
                  | String h1 (String h2 r) =>
                      match hex_value h1, hex_value h2 with
                      | Some a, Some b => if 16 * a + b <? 128 then String (chr (16 * a + b)) <$> toml_body r else None
                      | _, _ => None
                      end
                  | _ => None
                  end
                else None
            end
        end
      else if control c then None
      else String c <$> toml_body s'
  end.

Definition toml_string (s : string) : option string :=
  match s with String c s' => if Ascii.eqb c quote then toml_body s' else None | "" => None end.

(** Go's [%q] has two escapes that TOML has not. *)
Definition escape_shared (c : ascii) : bool := negb ((byte c =? 7) || (byte c =? 11)).

Lemma toml_body_char c r :
  toml_body (q_char c +:+ r) = if escape_shared c then String c <$> toml_body r else None.
Proof. destruct c as [[] [] [] [] [] [] [] []]; reflexivity. Qed.

Lemma toml_body_chars s :
  toml_body (q_chars s +:+ String quote "") = if str_forall escape_shared s then Some s else None.
Proof.
  induction s as [|c s IH]; [done|]. cbn [q_chars]. rewrite str_app_assoc, toml_body_char, IH. cbn.
  destruct (escape_shared c), (str_forall escape_shared s); done.
Qed.

(** A quoted string is a TOML basic string of the same value, whatever
    quotes, backslashes, newlines and other characters it holds, with two
    exceptions: a bell or a vertical tab is written with an escape TOML does
    not know, and the fragment does not parse. *)
Theorem q_is_toml s : toml_string (q s) = if str_forall escape_shared s then Some s else None.
Proof. unfold q. cbn [toml_string]. rewrite Ascii.eqb_refl. apply toml_body_chars. Qed.

(** ** Writing a fragment *)

Section write.
Context (fault : nat -> option string) (tempname : nat -> string -> string) (euid egid : Z).
Context (dirGID : string -> Z).

Lemma hoare_Rename_gone fs0 tmp data Attr dst :
  tmp <> dst -> fs0 !! tmp = None ->
  hoare (staged fs0 tmp data Attr) (Rename fault tmp dst)
        (fun _ fs => (exists m u g, fs !! dst = Some (Reg data m u g) /\ Attr m u g) /\
                     (forall p, p <> dst -> fs !! p = fs0 !! p)) (fun _ => framed fs0 tmp).
Proof.
  intros Hne Hnone. apply hoare_syscall; [by intros e fs [? ?]|].
  intros fs a fs' [Hf (m & u & g & Hn & HA)] H. rewrite Hn in H. simplify_eq. split.
  - exists m, u, g. by rewrite lookup_insert_eq.
  - intros p Hp. rewrite lookup_insert_ne by done. destruct (decide (p = tmp)) as [->|Hpt].
    + by rewrite lookup_delete_eq.
    + rewrite lookup_delete_ne by done. by apply Hf.
Qed.

(** Nothing but [path] changes, which then holds [content]. *)
Definition replaced (fs0 : files) (path content : string) (fs : files) : Prop :=
  (exists u g, fs !! path = Some (Reg content 416 u g)) /\ forall p, p <> path -> fs !! p = fs0 !! p.

Definition unharmed (fs0 : files) (path : string) (fs : files) : Prop :=
  preserved fs0 fs /\ fs !! path = fs0 !! path.

(** Either branch of the ownership of the file leaves it staged. *)
Lemma hoare_group fs0 tmp data m gid :
  hoare (staged fs0 tmp data (fun m' _ _ => m' = m))
    (if 0 <=? gid then ignore (E' := io_error) (Chown fault tmp (-1) gid) else (mret tt : io io_error unit))
    (fun _ => staged fs0 tmp data (fun m' _ _ => m' = m)) (fun _ => framed fs0 tmp).
Proof.
  destruct (0 <=? gid); [|by intros w Hw].
  apply hoare_ignore. intros w Hw. pose proof (hoare_Chown fault fs0 tmp data (-1) gid _ w Hw) as H.
  destruct (Chown fault tmp (-1) gid w) as [[[]|e] w1] eqn:E.
  - destruct H as [Hf (m' & u & g & Hn & u0 & g0 & -> & _)]. split; [done|]. by exists m, u, g.
  - unfold Chown, syscall in E. destruct (fault (w_tick w)); [by injection E as _ <-|].
    destruct Hw as [Hf (m1 & u1 & g1 & Hn & ->)]. rewrite Hn in E. done.
Qed.

Lemma hoare_writeFragment path content fs0 :
  (forall t d, tempname t d <> path) ->
  hoare (fun fs => fs = fs0) (writeFragment fault tempname euid egid dirGID path content)
    (fun _ => replaced fs0 path content) (fun _ => unharmed fs0 path).
Proof.
  intros Hfresh. unfold writeFragment.
  eapply (hoare_bind _ _ _ (fun _ fs => fs = fs0)).
  { apply hoare_read; [intros; by simplify_eq|]. by intros e fs ->. }
  intros _. eapply (hoare_bind _ _ _ (fun tmp fs => (tmp <> path /\ fs0 !! tmp = None) /\
    staged fs0 tmp "" (fun m u' g' => m = 384 /\ u' = euid /\ g' = egid) fs)).
  { intros w Hw. pose proof (hoare_CreateTemp_new fault tempname euid egid (Dir path) fs0 w Hw) as H1.
    pose proof (hoare_CreateTemp_for fault tempname euid egid (Dir path) path fs0 Hfresh w Hw) as H2.
    destruct (CreateTemp _ _ _ _ _ w) as [[tmp|e] w']; [naive_solver|]. by rewrite H1. }
  intros tmp. apply hoare_pure. intros [Hne Hnone].
  apply (hoare_deferred _ _ _ (fun _ => replaced fs0 path content) _ (fun _ => framed fs0 tmp)).
  - eapply hoare_bind; [apply hoare_or_close, hoare_write_at|]. intros ?; cbn beta.
    eapply hoare_bind; [apply hoare_or_close, hoare_Chmod|]. intros ?; cbn beta.
    eapply hoare_bind; [eapply hoare_conseq; [apply (hoare_group fs0 tmp content 416)| |done..]|].
    { intros fs [Hf (m & u & g & Hn & -> & _)]. split; [done|]. by exists 416, u, g. }
    intros ?; cbn beta.
    eapply hoare_bind; [apply hoare_or_close, hoare_read; [intros; by simplify_eq|intros e; apply staged_framed]|]. intros ?; cbn beta.
    eapply hoare_bind; [apply hoare_read; [intros; by simplify_eq|intros e; apply staged_framed]|]. intros ?; cbn beta.
    eapply hoare_bind; [by apply hoare_Rename_gone|]. intros ?; cbn beta.
    apply hoare_conseq with (P' := replaced fs0 path content) (Q' := fun _ => replaced fs0 path content)
      (X' := fun _ => framed fs0 tmp); [|intros fs [(m & u & g & Hp & ->) Hf]; split; eauto|done..].
    apply hoare_ignore. by apply hoare_read; [intros; simplify_eq|].
  - intros w [] [(u & g & Hp) Hf]. split.
    + exists u, g. rewrite remove_tmp by done. done.
    + intros p Hpp. destruct (decide (p = tmp)) as [->|Hpt]; [|rewrite remove_tmp by done; by apply Hf].
      rewrite Hnone. unfold Remove, syscall. destruct (fault (w_tick w)); cbn; [by rewrite Hf|].
      rewrite (Hf tmp), Hnone by done. cbn. by rewrite Hf.
  - intros w e Hf. assert (Hr : framed fs0 tmp (w_files (Remove fault tmp w).2)).
    { intros p Hp. rewrite remove_tmp by done. by apply Hf. }
    split; [by eapply framed_preserved|]. by apply Hr.
Qed.

End write.

(** ** Ownership *)

Section owner.
Context {E : Env}.
Context (fault : nat -> option string) (ConfPath : string).

(** The vhosts file [path] defines. *)
Definition holds (fs : files) (path : string) (rules : gmap string ProxyRule) : Prop :=
  ((path = "" \/ resolve_link fs path = None) /\ rules = ∅) \/
  (path <> "" /\ exists text m u g undec, resolve_link fs path = Some (Reg text m u g) /\ toml_proxy text = Ok (rules, undec)).

Lemma holds_fun fs path r1 r2 : holds fs path r1 -> holds fs path r2 -> r1 = r2.
Proof.
  intros [[H1 ->]|(Hn & t & m & u & g & d & Hr & Ht)] [[H2 ->]|(Hn2 & t2 & m2 & u2 & g2 & d2 & Hr2 & Ht2)];
    [done|destruct H1; congruence|destruct H2; congruence|congruence].
Qed.

Lemma decodeProxy_ok path w rules w' :
  decodeProxy fault path w = (Ok rules, w') -> holds (w_files w) path rules /\ w_files w' = w_files w.
Proof.
  unfold decodeProxy, holds, mret, io_ret. destruct (String.eqb_spec path "") as [->|Hne]; [intros [= <- <-]; auto|].
  intros [(st & w1 & Hst & H)|(e & _ & [=])]%io_bind_ok.
  assert (Hw1 : w_files w1 = w_files w /\ (st = Err ENOENT -> resolve_link (w_files w) path = None)).
  { unfold attempt, Stat, syscall in Hst. destruct (fault (w_tick w)); [by injection Hst as <- <-|].
    destruct (resolve_link (w_files w) path) eqn:Er; injection Hst as <- <-; done. }
  destruct Hw1 as [Hw1 Hno].
  assert (Hread : (text ← wrap (ReadError path) (ReadFile fault path);
      match toml_proxy text with Ok (rules, _) => mret rules | Err e => fail (DecodeError path e) end) w1 = (Ok rules, w') ->
      (exists text m u g undec, resolve_link (w_files w) path = Some (Reg text m u g) /\ toml_proxy text = Ok (rules, undec)) /\
      w_files w' = w_files w).
  { intros [(text & w2 & Hr & H2)|(e & _ & [=])]%io_bind_ok. unfold wrap, ReadFile, syscall in Hr.
    destruct (fault (w_tick w1)); [done|]. rewrite Hw1 in Hr.
    destruct (resolve_link (w_files w) path) as [[d m u g|t]|]; try done. injection Hr as <- <-.
    destruct (toml_proxy d) as [[rs undec]|] eqn:Et; [|done]. injection H2 as <- <-. split; [by eauto 10|done]. }
  destruct st as [n|[| | |x]]; [|injection H as <- <-; split; [left; split; [right; by apply Hno|done]|done]|..];
    (destruct (Hread H) as [Hx Hw']; split; [right; by split|done]).
Qed.

Lemma decodeProxy_keeps path w : w_files (decodeProxy fault path w).2 = w_files w.
Proof.
  assert (H : touches (fun _ => False) (decodeProxy fault path)).
  { unfold decodeProxy. destruct (String.eqb path ""); [apply touches_ret|]. apply touches_bind; [auto with goddns|].
    intros st. assert (Hr : touches (fun _ => False) (text ← wrap (ReadError path) (ReadFile fault path);
      match toml_proxy text with Ok (rules, _) => mret rules | Err e => fail (DecodeError path e) end)).
    { apply touches_bind; [auto with goddns|]. intros text. destruct (toml_proxy text) as [[]|]; auto with goddns. }
    destruct st as [|[]]; auto with goddns. }
  apply map_eq. intros p. apply H. tauto.
Qed.

(** The fragments there are, as the glob lists them when it can read the
    directory. *)
Definition conf_files (fs : files) : list string :=
  sort_strings ((fun n => Join [dir ConfPath; n]) <$> List.filter (has_suffix ".conf") (names_in (dir ConfPath) fs)).

Lemma fragmentFiles_ok w r w' : fragmentFiles fault ConfPath w = (r, w') ->
  w_files w' = w_files w /\ exists files, r = Ok files /\
    (files = conf_files (w_files w) \/ files = [] /\ is_Some (fault (w_tick w))).
Proof.
  unfold fragmentFiles, conf_files, ReadDir. unfold mbind, io_bind, attempt, syscall, mret, io_ret.
  destruct (fault (w_tick w)); intros [= <- <-]; (split; [done|]); eexists; (split; [done|]); eauto.
Qed.

Lemma Clean_nonempty p : Clean p <> "".
Proof. unfold Clean. destruct (has_prefix "/" p); [done|]. by destruct (String.eqb_spec (join "/" (clean_parts false [] (split "/" p))) ""). Qed.

Lemma relName_nonempty f : relName f <> "".
Proof. unfold relName, Join. cbn. destruct (negb _); apply Clean_nonempty. Qed.

(** Fragment [f], holding [rules], leaves [host] to its own fragment. *)
Definition leaves (host f : string) (rules : gmap string ProxyRule) : Prop :=
  if String.eqb f (frag ConfPath host) then size rules = 1%nat /\ defines host rules = true else defines host rules = false.

Definition own_single (host f : string) (rules : gmap string ProxyRule) : Prop :=
  f = frag ConfPath host /\ size rules = 1%nat /\ defines host rules = true.

Lemma judge_spec host f rules mc :
  ((judge ConfPath host f rules mc).1 = true <-> mc.1 = true \/ own_single host f rules) /\
  ((judge ConfPath host f rules mc).2 = "" -> mc.2 = "" /\ leaves host f rules) /\
  (mc.2 = "" -> leaves host f rules -> (judge ConfPath host f rules mc).2 = "").
Proof.
  unfold judge, leaves, own_single. pose proof (relName_nonempty f). pose proof (relName_nonempty (frag ConfPath host)).
  destruct (String.eqb_spec f (frag ConfPath host)) as [->|Hne].
  - destruct (Nat.eqb_spec (size rules) 1), (defines host rules); cbn; intuition congruence.
  - destruct (defines host rules); cbn; intuition congruence.
Qed.

Lemma ownership_loop_ok host fs mc w m c w' :
  ownership_loop fault ConfPath host fs mc w = (Ok (m, c), w') ->
  w_files w' = w_files w /\ exists rs, Forall2 (holds (w_files w)) fs rs /\
    (m = true <-> mc.1 = true \/ exists f r, (f, r) ∈ zip fs rs /\ own_single host f r) /\
    (c = "" -> mc.2 = "" /\ forall f r, (f, r) ∈ zip fs rs -> leaves host f r).
Proof.
  revert mc w. induction fs as [|f fs IH]; intros mc w; cbn.
  { intros [= -> <-]. split; [done|]. exists []. split_and!; [constructor|set_solver|set_solver]. }
  intros [(rules & w1 & Hd & H)|(e & _ & [=])]%io_bind_ok. apply decodeProxy_ok in Hd as [Hd Hw1].
  apply IH in H as (Hw' & rs & Hall & Hm & Hc). rewrite Hw1 in *.
  destruct (judge_spec host f rules mc) as (J1 & J2 & _).
  split; [done|]. exists (rules :: rs). split_and!; [by constructor| |].
  - rewrite Hm, J1. setoid_rewrite elem_of_cons. naive_solver.
  - intros Hc'. apply Hc in Hc' as [Hj Hrest]. apply J2 in Hj as [? ?]. split; [done|].
    intros f' r' [[= -> ->]|Hin]%elem_of_cons; [done|by apply Hrest].
Qed.

Lemma ownership_keeps host w : w_files (ownership fault ConfPath host w).2 = w_files w.
Proof.
  assert (Hl : forall fs mc w, w_files (ownership_loop fault ConfPath host fs mc w).2 = w_files w).
  { induction fs as [|f fs IH]; intros mc w0; [done|]. cbn. unfold mbind, io_bind.
    pose proof (decodeProxy_keeps f w0) as Hd. destruct (decodeProxy fault f w0) as [[r|e] w1]; cbn in Hd; [|done].
    by rewrite IH. }
  unfold ownership. unfold mbind at 1, io_bind at 1. pose proof (decodeProxy_keeps ConfPath w) as Hd.
  destruct (decodeProxy fault ConfPath w) as [[base|e] w1]; cbn in Hd; [|done].
  unfold mbind, io_bind. destruct (fragmentFiles fault ConfPath w1) as [r w2] eqn:Ef.
  apply fragmentFiles_ok in Ef as (Hw2 & files & -> & _). by rewrite Hl, Hw2.
Qed.

(** Nothing but [host]'s own fragment defines [host], and that fragment
    defines nothing else. *)
Definition sole_owner (fs : files) (host : string) : Prop :=
  (exists base, holds fs ConfPath base /\ defines host base = false) /\
  forall f, f ∈ conf_files fs -> exists rules, holds fs f rules /\ leaves host f rules.

Lemma ownership_ok host w m c w' :
  ownership fault ConfPath host w = (Ok (m, c), w') ->
  (m = true -> frag ConfPath host ∈ conf_files (w_files w) /\
     exists rules, holds (w_files w) (frag ConfPath host) rules /\ size rules = 1%nat /\ defines host rules = true) /\
  (c = "" -> (forall t, fault t = None) -> sole_owner (w_files w) host).
Proof.
  unfold ownership. intros [(base & w1 & Hb & H)|(e & _ & [=])]%io_bind_ok. apply decodeProxy_ok in Hb as [Hb Hw1].
  apply io_bind_ok in H as [(files & w2 & Hf & H)|(e & Hf & [=])].
  apply fragmentFiles_ok in Hf as (Hw2 & files' & [= <-] & Hfiles). rewrite Hw1 in *.
  apply ownership_loop_ok in H as (_ & rs & Hall & Hm & Hc). cbn in Hm, Hc. rewrite Hw2 in *.
  split.
  - intros [|(f & r & Hin & -> & Hs & Hd)]%Hm; [done|].
    apply list_elem_of_lookup in Hin as [i Hi]. apply lookup_zip_with_Some in Hi as (f' & r' & [= <- <-] & Hf & Hr).
    destruct Hfiles as [->|[-> _]]; [|done]. split; [by eapply list_elem_of_lookup_2|].
    exists r. split; [|done]. by eapply Forall2_lookup_lr.
  - intros Hc0 Hnf. apply Hc in Hc0 as [Hbase Hl].
    destruct Hfiles as [->|[_ [x Hx]]]; [|by rewrite Hnf in Hx]. split.
    + exists base. split; [done|]. by destruct (defines host base).
    + intros f [i Hi]%list_elem_of_lookup. destruct (Forall2_lookup_l _ _ _ _ _ Hall Hi) as (r & Hr & Hh).
      exists r. split; [done|]. apply Hl. apply list_elem_of_lookup. exists i. apply lookup_zip_with_Some. eauto 10.
Qed.

End owner.

(** ** Names of hosts and of fragments *)

Definition host_char (c : ascii) : bool := label_char c || Ascii.eqb c ".".

Lemma valid_host_chars h : ValidHost h = true -> str_forall host_char h = true.
Proof.
  unfold ValidHost. intros H. apply andb_true_iff in H as [_ H]. rewrite <- (join_split "." h). revert H.
  induction (split "." h) as [|l ls IH]; [done|]. cbn [forallb]. rewrite andb_true_iff. intros [Hl H]. specialize (IH H).
  assert (Hc : str_forall host_char l = true).
  { unfold label_ok in Hl. bsplit. apply (str_forall_impl label_char); [|done]. intros c Hc. unfold host_char. by rewrite Hc. }
  destruct ls as [|l' ls]; [done|]. rewrite join_cons, !str_forall_app, Hc. exact IH.
Qed.

Lemma host_char_plain c : host_char c = true ->
  negb (is_space c) = true /\ lower_char c = c /\ Ascii.eqb c "/" = false /\ Ascii.eqb c ":" = false /\ negb (Ascii.eqb c tab) = true.
Proof. destruct c as [[] [] [] [] [] [] [] []]; vm_compute; intros; repeat split; congruence. Qed.

Lemma str_map_id f s : str_forall (fun c => Ascii.eqb (f c) c) s = true -> str_map f s = s.
Proof. induction s as [|c s IH]; [done|]. cbn. intros H. bsplit. apply Ascii.eqb_eq in H as ->. by rewrite IH. Qed.

Lemma valid_host_last h : ValidHost h = true -> has_suffix "." h = false.
Proof.
  intros H. destruct (has_suffix "." h) eqn:Es; [|done]. apply has_suffix_spec in Es as [r ->].
  unfold ValidHost in H. change "." with (String "." "") in H. rewrite split_app_any in H. bsplit.
  rewrite forallb_app in *. bsplit. done.
Qed.

Lemma valid_host_norm h : ValidHost h = true -> normalize h = h.
Proof.
  intros H. pose proof (valid_host_chars h H) as Hc. unfold normalize.
  assert (trim_space h = h) as ->.
  { apply trim_id. eapply str_forall_impl; [|exact Hc]. intros c ?. by apply host_char_plain. }
  assert (to_lower h = h) as ->.
  { apply str_map_id. eapply str_forall_impl; [|exact Hc]. intros c Hx. apply Ascii.eqb_eq. by apply host_char_plain. }
  unfold trim_suffix. by rewrite valid_host_last.
Qed.

Lemma valid_host_key h : ValidHost h = true -> host_chars_ok h = true.
Proof.
  intros H. unfold host_chars_ok. apply andb_true_iff. split; [unfold ValidHost in H; bsplit; by apply negb_true_iff, String.eqb_neq|].
  apply negb_true_iff. unfold contains_any. rewrite str_exists_negb. apply negb_false_iff.
  eapply str_forall_impl; [|by apply valid_host_chars]. intros c Hc.
  destruct c as [[] [] [] [] [] [] [] []]; vm_compute in Hc |- *; congruence.
Qed.

Lemma valid_host_file h : ValidHost h = true -> plain (h +:+ ".conf") = true.
Proof.
  intros H. apply plain_spec.
  assert (Hh : h <> "") by (unfold ValidHost in H; bsplit; done).
  destruct h as [|c h]; [done|]. split_and!; [done|..].
  - intros [= _ He]. apply str_app_eq_nil in He as [_ ?]. done.
  - intros [= _ He]. destruct h as [|c' [|c'' h]]; cbn in He; [done|..]; by injection He.
  - unfold free_of. rewrite str_forall_app. apply andb_true_iff. split; [|done]. eapply str_forall_impl; [|apply (valid_host_chars _ H)].
    intros x Hx. apply host_char_plain in Hx as (_ & _ & Hs & _). by rewrite Hs.
Qed.

(** ** What the editor promises *)

Lemma all_ok_spec {A} (f : A -> result rule_error unit) l u : all_ok f l = Ok u -> forall x, x ∈ l -> f x = Ok tt.
Proof.
  induction l as [|y l IH]; cbn; intros H x Hx; [by apply elem_of_nil in Hx|]. inv_ok.
  apply elem_of_cons in Hx as [->|Hx]; [|by apply IH]. by destruct a.
Qed.

Lemma guard_is_ok {X A} (b : bool) (e : X) (f : unit -> result X A) :
  is_ok (guard_or b e ≫= f) = b && is_ok (f tt).
Proof. by destruct b. Qed.

Lemma each_is_ok {A} (p : A -> bool) (e : A -> config_error) l :
  is_ok (each (fun x => guard_or (p x) (e x)) l) = forallb p l.
Proof. induction l as [|x l IH]; [done|]. cbn [each forallb]. by rewrite guard_is_ok, IH. Qed.

Lemma each_bind_is_ok {A C} (p : A -> bool) (e : A -> config_error) l (f : unit -> result config_error C) :
  is_ok (each (fun x => guard_or (p x) (e x)) l ≫= f) = forallb p l && is_ok (f tt).
Proof.
  rewrite <- (each_is_ok p e l). by destruct (each _ l) as [[]|].
Qed.

Lemma forallb_ext {A} (p q : A -> bool) l : (forall x, x ∈ l -> p x = q x) -> forallb p l = forallb q l.
Proof.
  induction l as [|x l IH]; intros H; [done|]. cbn. rewrite (H x) by left. f_equal. apply IH. intros; apply H; by right.
Qed.

Section promises.
Context {E : Env} {B : Bcrypt}.
Context (fault : nat -> option string) (tempname : nat -> string -> string) (euid egid : Z).
Context (dirGID : string -> Z) (ConfPath : string).

Lemma PreviewSet_ok host rule w res w' :
  PreviewSet fault ConfPath host rule w = (Ok res, w') ->
  ValidateRule (normalize host) rule = Ok tt /\
  v_File res = frag ConfPath (normalize host) /\ v_Rule res = cleaned rule /\
  v_Fragment res = renderFragment (normalize host) (cleaned rule) /\
  ((forall t, fault t = None) -> sole_owner ConfPath (w_files w) (normalize host)).
Proof.
  unfold PreviewSet. destruct (String.eqb ConfPath ""); [done|]. cbn zeta.
  destruct (ValidateRule (normalize host) rule) as [[]|]; [|done].
  intros [([m c] & w1 & Ho & H)|(e & _ & [=])]%io_bind_ok.
  destruct (String.eqb_spec c "") as [->|]; [|done]. injection H as <- _.
  apply ownership_ok in Ho as [_ Ho]. split_and!; try done. by apply Ho.
Qed.

Lemma PreviewSet_keeps host rule w : w_files (PreviewSet fault ConfPath host rule w).2 = w_files w.
Proof.
  unfold PreviewSet. destruct (String.eqb ConfPath ""); [done|]. cbn zeta.
  destruct (ValidateRule _ _); [|done]. unfold mbind, io_bind.
  pose proof (ownership_keeps fault ConfPath (normalize host) w) as Hk.
  destruct (ownership _ _ _ w) as [[[m c]|e] w1]; cbn in Hk; [|done]. by destruct (negb _).
Qed.

Lemma PreviewRemove_ok host w res w' :
  PreviewRemove fault ConfPath host w = (Ok res, w') ->
  ValidHost (normalize host) = true /\ v_File res = frag ConfPath (normalize host) /\
  frag ConfPath (normalize host) ∈ conf_files ConfPath (w_files w) /\
  exists rules, holds (w_files w) (frag ConfPath (normalize host)) rules /\ size rules = 1%nat /\
    defines (normalize host) rules = true.
Proof.
  unfold PreviewRemove. destruct (String.eqb ConfPath ""); [done|]. cbn zeta.
  destruct (ValidHost (normalize host)); [|done]. cbn [negb].
  intros [([m c] & w1 & Ho & H)|(e & _ & [=])]%io_bind_ok.
  destruct m; [|by destruct (negb (String.eqb c ""))]. injection H as <- _.
  apply ownership_ok in Ho as [Ho _]. destruct (Ho eq_refl) as [? ?]. done.
Qed.

Lemma PreviewRemove_keeps host w : w_files (PreviewRemove fault ConfPath host w).2 = w_files w.
Proof.
  unfold PreviewRemove. destruct (String.eqb ConfPath ""); [done|]. cbn zeta.
  destruct (negb (ValidHost _)); [done|]. unfold mbind, io_bind.
  pose proof (ownership_keeps fault ConfPath (normalize host) w) as Hk.
  destruct (ownership _ _ _ w) as [[[m c]|e] w1]; cbn in Hk; [|done].
  destruct m; [done|]. by destruct (negb (String.eqb c "")).
Qed.

Lemma Set_effect host rule w r w' :
  (forall t d, tempname t d <> frag ConfPath (normalize host)) ->
  Set_ fault tempname euid egid dirGID ConfPath host rule w = (r, w') ->
  let own := frag ConfPath (normalize host) in
  match r with
  | Ok _ =>
      ValidateRule (normalize host) rule = Ok tt /\
      replaced (w_files w) own (renderFragment (normalize host) (cleaned rule)) (w_files w') /\
      ((forall t, fault t = None) -> sole_owner ConfPath (w_files w) (normalize host))
  | Err _ => unharmed (w_files w) own (w_files w')
  end.
Proof.
  intros Hfresh H. cbn zeta. unfold Set_ in H. pose proof (PreviewSet_keeps host rule w) as Hk.
  apply io_bind_ok in H as [(res & w1 & Hp & H)|(e & Hp & ->)]; rewrite Hp in Hk; cbn in Hk;
    [|by rewrite Hk; split; [apply preserved_refl|]].
  apply PreviewSet_ok in Hp as (Hv & Hf & _ & Hfr & Hown).
  pose proof (hoare_wrap IOError _ _ _ (fun _ => unharmed (w_files w1) (v_File res)) (hoare_writeFragment fault tempname euid egid dirGID (v_File res) (v_Fragment res)
    (w_files w1) ltac:(by rewrite Hf)) w1 eq_refl) as Hw.
  apply io_bind_ok in H as [([] & w2 & Hwr & H)|(e & Hwr & ->)]; rewrite Hwr in Hw; rewrite Hk in Hw.
  - injection H as <- <-. rewrite Hf, Hfr in Hw. done.
  - by rewrite Hf in Hw.
Qed.

Lemma Remove_effect host w r w' :
  Remove_ fault ConfPath host w = (r, w') ->
  let own := frag ConfPath (normalize host) in
  match r with
  | Ok _ =>
      ValidHost (normalize host) = true /\ own ∈ conf_files ConfPath (w_files w) /\
      (exists rules, holds (w_files w) own rules /\ size rules = 1%nat /\ defines (normalize host) rules = true) /\
      w_files w' = delete own (w_files w)
  | Err _ => w_files w' = w_files w
  end.
Proof.
  intros H. cbn zeta. unfold Remove_ in H. pose proof (PreviewRemove_keeps host w) as Hk.
  apply io_bind_ok in H as [(res & w1 & Hp & H)|(e & Hp & ->)]; rewrite Hp in Hk; cbn in Hk; [|done].
  apply PreviewRemove_ok in Hp as (Hv & Hf & Hin & Hr).
  assert (Hrm : forall r w2, wrap IOError (Remove fault (v_File res)) w1 = (r, w2) ->
    match r with Ok _ => w_files w2 = delete (frag ConfPath (normalize host)) (w_files w) | Err _ => w_files w2 = w_files w end).
  { intros r2 w2 Hw. rewrite Hf in Hw. unfold wrap, Remove, syscall in Hw. rewrite Hk in Hw.
    destruct (fault (w_tick w1)); [by injection Hw as <- <-|].
    destruct (w_files w !! frag ConfPath (normalize host)); by injection Hw as <- <-. }
  apply io_bind_ok in H as [([] & w2 & Hw & H)|(e & Hw & ->)]; apply Hrm in Hw; [|done].
  by injection H as <- <-.
Qed.

(** Setting a vhost changes no file but the host's own fragment, whatever
    system call fails, and that atomically: on success it holds exactly the
    rendered rule, with mode 0640, and the rule was valid; on an error it is
    what it was. When the files could be read, nothing else defined the host
    before, and a fragment of its name held this host alone. *)
Theorem set_writes_own_fragment host rule w r w' :
  (forall t d, tempname t d <> frag ConfPath (normalize host)) ->
  Set_ fault tempname euid egid dirGID ConfPath host rule w = (r, w') ->
  let own := frag ConfPath (normalize host) in
  match r with
  | Ok _ =>
      ValidateRule (normalize host) rule = Ok tt /\
      replaced (w_files w) own (renderFragment (normalize host) (cleaned rule)) (w_files w') /\
      ((forall t, fault t = None) -> sole_owner ConfPath (w_files w) (normalize host))
  | Err _ => unharmed (w_files w) own (w_files w')
  end.
Proof. apply Set_effect. Qed.

(** Removing a vhost removes the host's own fragment and nothing else, and
    only a fragment that defines this host alone; an error changes nothing. *)
Theorem remove_only_managed host w r w' :
  Remove_ fault ConfPath host w = (r, w') ->
  let own := frag ConfPath (normalize host) in
  match r with
  | Ok _ =>
      ValidHost (normalize host) = true /\ own ∈ conf_files ConfPath (w_files w) /\
      (exists rules, holds (w_files w) own rules /\ size rules = 1%nat /\ defines (normalize host) rules = true) /\
      w_files w' = delete own (w_files w)
  | Err _ => w_files w' = w_files w
  end.
Proof. apply Remove_effect. Qed.

Lemma frag_shape ps conf host :
  Forall (fun n => plain n = true) (ps ++ [conf]) -> ps <> [] -> ValidHost host = true ->
  let path := abs (ps ++ [conf]) in
  frag path host = abs (ps ++ ["proxy.d"; host +:+ ".conf"]) /\ Dir (frag path host) = dir path /\
  split_path (frag path host) = (dir path +:+ "/", host +:+ ".conf").
Proof.
  intros [Hps Hconf]%Forall_app Hne Hh. cbn zeta. inversion Hconf as [|? ? Hc _]; subst.
  assert (Hd : dir (abs (ps ++ [conf])) = abs (ps ++ ["proxy.d"])) by (unfold dir; by rewrite Dir_abs, Join_abs).
  assert (Hps' : Forall (fun n => plain n = true) (ps ++ ["proxy.d"])) by (apply Forall_app; auto).
  assert (Hne' : ps ++ ["proxy.d"] <> []) by (by destruct ps).
  pose proof (valid_host_file _ Hh) as Hf.
  assert (Hs : ps ++ ["proxy.d"; host +:+ ".conf"] = (ps ++ ["proxy.d"]) ++ [host +:+ ".conf"]) by (by rewrite <- app_assoc).
  assert (Hfrag : frag (abs (ps ++ [conf])) host = abs (ps ++ ["proxy.d"; host +:+ ".conf"])).
  { unfold frag. by rewrite Hd, Join_abs, Hs. }
  rewrite Hfrag, Hd, Hs. split_and!; [done|by rewrite Dir_abs|].
  unfold abs. rewrite join_snoc by done.
  change ("/" +:+ join "/" (ps ++ ["proxy.d"]) +:+ "/" +:+ host +:+ ".conf") with
    (("/" +:+ join "/" (ps ++ ["proxy.d"])) +:+ "/" +:+ (host +:+ ".conf")).
  apply split_path_snoc. by apply plain_spec in Hf as (_ & _ & _ & ?).
Qed.

(** The fragment of a host that passes the check is a file right in
    proxy.d next to the configuration, whatever the host holds, and no two
    hosts share one. *)
Theorem fragment_confined ps conf host :
  Forall (fun n => plain n = true) (ps ++ [conf]) -> ps <> [] -> ValidHost host = true ->
  let path := abs (ps ++ [conf]) in
  frag path host = abs (ps ++ ["proxy.d"; host +:+ ".conf"]) /\
  Dir (frag path host) = dir path /\
  forall host', ValidHost host' = true -> frag path host' = frag path host -> host' = host.
Proof.
  intros Hplain Hne Hh. cbn zeta. destruct (frag_shape ps conf host Hplain Hne Hh) as (Hf & Hd & Hsp).
  split_and!; [done|done|]. intros h' Hh' Heq. destruct (frag_shape ps conf h' Hplain Hne Hh') as (_ & _ & Hsp').
  rewrite Heq, Hsp in Hsp'. injection Hsp' as Hx. by apply str_app_inj_r in Hx.
Qed.

Lemma rule_loads listen host rule :
  ValidateRule (normalize host) rule = Ok tt ->
  norm_name (normalize host) = normalize host /\ host_chars_ok (normalize host) = true /\
  is_ok (check_rule listen (normalize host) (cleaned rule)) =
    forallb cred_ok (BasicAuth (cleaned rule)) &&
    forallb (fun p => negb (String.eqb (format_int p) (listen_port listen))) (ConsolePorts rule).
Proof.
  intros H. unfold ValidateRule in H. destruct (ValidHost (normalize host)) eqn:Hh; [|done]. cbn [negb] in H.
  destruct (url_parse (trim_space (Upstream rule))) as [u|] eqn:Eu; [|done]. inv_ok.
  split; [by apply valid_host_norm|]. split; [by apply valid_host_key|].
  unfold check_rule. rewrite guard_is_ok, !each_bind_is_ok, each_is_ok.
  assert (upstream_ok (Upstream (cleaned rule)) = true) as ->.
  { unfold upstream_ok, root_only in *. cbn. rewrite Eu. bsplit. apply andb_true_iff. split; [|done].
    apply andb_true_iff. split; [by apply negb_true_iff, String.eqb_neq|]. by apply negb_true_iff. }
  assert (forallb cidr_ok (Allow (cleaned rule)) = true) as ->.
  { apply forallb_elem. intros c Hc. cbn in Hc. unfold trimAll in Hc. apply elem_of_bfilter in Hc as [Hc _].
    apply list_elem_of_fmap in Hc as (c0 & -> & Hc0).
    match goal with Ha : all_ok _ (Allow rule) = Ok _ |- _ => pose proof (all_ok_spec _ _ _ Ha _ Hc0) as Hp end.
    cbn in Hp. unfold cidr_ok, trim_space. rewrite trim_idem. unfold trim_space in Hp.
    by destruct (ParseCIDR (trim_by is_space c0)). }
  cbn [andb]. f_equal. apply forallb_ext. intros p Hp.
  match goal with Ha : all_ok _ (ConsolePorts rule) = Ok _ |- _ => pose proof (all_ok_spec _ _ _ Ha _ Hp) as Hq end.
  cbn in Hq. apply guard_or_ok in Hq. unfold port_ok. by rewrite Hq.
Qed.

(** A rule that is accepted is one that loads, but for what only the
    configuration knows: of its vhost, [Load] can then only object to a
    credential that is not a "$2" hash of a user, or to a console port that is
    the proxy's own; the host key is read back as it was written. *)
Theorem accepted_rule_loads listen host rule :
  ValidateRule (normalize host) rule = Ok tt ->
  norm_name (normalize host) = normalize host /\ host_chars_ok (normalize host) = true /\
  is_ok (check_rule listen (normalize host) (cleaned rule)) =
    forallb cred_ok (BasicAuth (cleaned rule)) &&
    forallb (fun p => negb (String.eqb (format_int p) (listen_port listen))) (ConsolePorts rule).
Proof. apply rule_loads. Qed.

(** *** A vhost that was set can be removed *)

Lemma no_fault_syscall {A} (f : files -> result io_error (A * files)) w : (forall t, fault t = None) ->
  syscall fault f w = match f (w_files w) with
                      | Ok (a, fs) => (Ok a, tick (with_files w fs))
                      | Err e => (Err e, tick w) end.
Proof. intros H. unfold syscall. by rewrite H. Qed.

Lemma decodeProxy_total path w rules : (forall t, fault t = None) -> holds (w_files w) path rules ->
  exists w', decodeProxy fault path w = (Ok rules, w') /\ w_files w' = w_files w.
Proof.
  intros Hnf H. unfold decodeProxy, mbind, io_bind, attempt, Stat, wrap, ReadFile.
  destruct H as [[Hp ->]|(Hne & text & m & u & g & undec & Hr & Ht)].
  - destruct (String.eqb_spec path "") as [->|Hne]; [by exists w|]. destruct Hp as [|Hr]; [done|].
    rewrite no_fault_syscall by done. rewrite Hr. by eexists.
  - apply String.eqb_neq in Hne as ->. rewrite no_fault_syscall by done. rewrite Hr.
    rewrite no_fault_syscall by done. cbn. rewrite Hr. cbn. rewrite Ht. by eexists.
Qed.

Lemma ownership_loop_total host fs mc w : (forall t, fault t = None) ->
  (forall f, f ∈ fs -> exists rules, holds (w_files w) f rules) ->
  exists m c w', ownership_loop fault ConfPath host fs mc w = (Ok (m, c), w').
Proof.
  intros Hnf. revert mc w. induction fs as [|f fs IH]; intros mc w H; [by destruct mc; eauto|].
  destruct (H f ltac:(by left)) as [rules Hf]. destruct (decodeProxy_total f w rules Hnf Hf) as (w1 & Hd & Hw1).
  cbn. unfold mbind, io_bind. rewrite Hd. apply IH. intros g Hg. rewrite Hw1. apply H. by right.
Qed.

Lemma ownership_managed host w rules : (forall t, fault t = None) ->
  (exists base, holds (w_files w) ConfPath base) ->
  (forall f, f ∈ conf_files ConfPath (w_files w) -> exists rules, holds (w_files w) f rules) ->
  frag ConfPath host ∈ conf_files ConfPath (w_files w) ->
  holds (w_files w) (frag ConfPath host) rules -> size rules = 1%nat -> defines host rules = true ->
  exists c w', ownership fault ConfPath host w = (Ok (true, c), w').
Proof.
  intros Hnf [base Hb] Hall Hin Hown Hsize Hdef. unfold ownership.
  destruct (decodeProxy_total ConfPath w base Hnf Hb) as (w1 & Hd & Hw1).
  destruct (fragmentFiles fault ConfPath w1) as [r w2] eqn:Ef.
  pose proof (fragmentFiles_ok _ _ _ _ _ Ef) as (Hw2 & files & -> & Hf).
  destruct Hf as [->|[_ [x Hx]]]; [|by rewrite Hnf in Hx]. rewrite Hw1 in *.
  destruct (ownership_loop_total host (conf_files ConfPath (w_files w))
    (false, if defines host base then "goddns.conf" else "") w2 Hnf) as (m & c & w3 & Hl); [by rewrite Hw2|].
  exists c, w3. unfold mbind, io_bind. rewrite Hd, Ef, Hl. do 3 f_equal.
  apply ownership_loop_ok in Hl as (_ & rs & Hrs & Hm & _). apply Hm. right. rewrite Hw2 in Hrs.
  apply list_elem_of_lookup in Hin as [i Hi]. destruct (Forall2_lookup_l _ _ _ _ _ Hrs Hi) as (r' & Hr' & Hh).
  rewrite (holds_fun _ _ _ _ Hh Hown) in Hr'. exists (frag ConfPath host), rules. split; [|done].
  apply list_elem_of_lookup. exists i. apply lookup_zip_with_Some. eauto 10.
Qed.

Lemma Remove_total host w rules : (forall t, fault t = None) -> ConfPath <> "" -> ValidHost (normalize host) = true ->
  (exists base, holds (w_files w) ConfPath base) ->
  (forall f, f ∈ conf_files ConfPath (w_files w) -> exists rules, holds (w_files w) f rules) ->
  frag ConfPath (normalize host) ∈ conf_files ConfPath (w_files w) ->
  holds (w_files w) (frag ConfPath (normalize host)) rules -> size rules = 1%nat -> defines (normalize host) rules = true ->
  is_Some (w_files w !! frag ConfPath (normalize host)) ->
  exists res w', Remove_ fault ConfPath host w = (Ok res, w').
Proof.
  intros Hnf Hne Hv Hb Hall Hin Hown Hs Hd [n Hn]. destruct (ownership_managed _ w rules Hnf Hb Hall Hin Hown Hs Hd) as (c & w1 & Ho).
  unfold Remove_, PreviewRemove. apply String.eqb_neq in Hne as ->. cbn zeta. rewrite Hv. cbn [negb].
  pose proof (ownership_keeps fault ConfPath (normalize host) w) as Hk. rewrite Ho in Hk. cbn in Hk.
  unfold mbind, io_bind. rewrite Ho. cbn. unfold wrap, Remove. rewrite no_fault_syscall by done. rewrite Hk, Hn. by eexists _, _.
Qed.

Lemma elem_of_names_in d fs n : n ∈ names_in d fs <->
  n <> "" /\ exists k, is_Some (fs !! k) /\ split_path k = (d +:+ "/", n).
Proof.
  unfold names_in, sort_strings. rewrite elem_of_sort_by, list_elem_of_fmap. split.
  - intros ([pre n'] & -> & H). apply elem_of_bfilter in H as [H Hb]. cbn in *. bsplit. split; [done|].
    apply list_elem_of_fmap in H as ([k v] & Hk & Hin%elem_of_map_to_list). cbn in *. subst pre. eauto.
  - intros (Hn & k & [v Hv] & Hk). exists (d +:+ "/", n). split; [done|]. apply elem_of_bfilter. cbn. split.
    + apply list_elem_of_fmap. exists (k, v). split; [done|]. by apply elem_of_map_to_list.
    + rewrite String.eqb_refl. cbn. by apply negb_true_iff, String.eqb_neq.
Qed.

Lemma elem_of_conf_files fs f : f ∈ conf_files ConfPath fs <->
  exists n, n ∈ names_in (dir ConfPath) fs /\ has_suffix ".conf" n = true /\ f = Join [dir ConfPath; n].
Proof.
  unfold conf_files, sort_strings. rewrite elem_of_sort_by, list_elem_of_fmap. split.
  - intros (n & -> & [? ?]%elem_of_bfilter). eauto.
  - intros (n & ? & ? & ->). exists n. split; [done|]. by apply elem_of_bfilter.
Qed.

(** A rule written where [own] is adds [own] to the fragments, and every file
    that could be read still can. *)
Lemma replaced_conf_files fs fs' host content : let own := frag ConfPath host in
  replaced fs own content fs' -> split_path own = (dir ConfPath +:+ "/", host +:+ ".conf") ->
  own ∈ conf_files ConfPath fs' /\ forall f, f ∈ conf_files ConfPath fs' -> f = own \/ f ∈ conf_files ConfPath fs.
Proof.
  intros own [(u & g & Hown) Hoth] Hsp. split.
  - apply elem_of_conf_files. exists (host +:+ ".conf"). split_and!; [|by apply has_suffix_spec; eexists|done].
    apply elem_of_names_in. split; [by intros [_ ?]%str_app_eq_nil|]. exists own. by rewrite Hown.
  - intros f (n & Hn & Hs & ->)%elem_of_conf_files. apply elem_of_names_in in Hn as (Hne & k & Hk & Hkn).
    destruct (decide (k = own)) as [->|Hko]; [left; rewrite Hsp in Hkn; by injection Hkn as <-|right].
    apply elem_of_conf_files. exists n. split_and!; [|done..]. apply elem_of_names_in. split; [done|].
    exists k. split; [|done]. by rewrite <- Hoth.
Qed.

Lemma replaced_holds fs fs' own content f r own_rules : replaced fs own content fs' -> own <> "" ->
  toml_proxy content = Ok (own_rules, []) ->
  holds fs' own own_rules /\ (holds fs f r -> exists r', holds fs' f r').
Proof.
  intros [(u & g & Hown) Hoth] Hne Ht.
  assert (Ho : resolve_link fs' own = Some (Reg content 416 u g)) by (unfold resolve_link; by rewrite Hown).
  assert (Hread : forall p, p <> "" -> resolve_link fs' p = Some (Reg content 416 u g) -> exists r', holds fs' p r').
  { intros p Hp Hr. exists own_rules. right. split; [done|]. by eauto 10. }
  split; [right; split; [done|]; by eauto 10|]. intros Hf. destruct (String.eqb_spec f "") as [->|Hfe].
  { exists ∅. left. auto. }
  destruct (decide (f = own)) as [->|Hfo]; [by apply Hread|].
  assert (Hsame : resolve_link fs' f = resolve_link fs f \/ resolve_link fs' f = Some (Reg content 416 u g)).
  { unfold resolve_link. rewrite Hoth by done. destruct (fs !! f) as [[|t]|]; [by left| |by left].
    destruct (decide (t = own)) as [->|]; [right; by rewrite Hown|left; by rewrite Hoth]. }
  destruct Hsame as [Hs|Hs]; [|by apply Hread]. exists r. unfold holds in *. by rewrite Hs.
Qed.

(** A vhost that was set can be removed again, and then its fragment is
    gone and every other file is as it was before both: the fragment that was
    written is recognised as goddns's own, as long as the decoder reads the
    rule back from it. *)
Theorem set_then_remove ps conf host rule w res w1 :
  ConfPath = abs (ps ++ [conf]) -> Forall (fun n => plain n = true) (ps ++ [conf]) -> ps <> [] ->
  (forall t, fault t = None) -> (forall t d, tempname t d <> frag ConfPath (normalize host)) ->
  Set_ fault tempname euid egid dirGID ConfPath host rule w = (Ok res, w1) ->
  toml_proxy (renderFragment (normalize host) (cleaned rule)) = Ok ({[normalize host := cleaned rule]}, []) ->
  exists res' w2, Remove_ fault ConfPath host w1 = (Ok res', w2) /\
    w_files w2 = delete (frag ConfPath (normalize host)) (w_files w).
Proof.
  intros Hc Hplain Hne Hnf Hfresh Hset Ht. pose proof (Set_effect _ _ _ _ _ Hfresh Hset) as (Hv & Hrep & Hown).
  specialize (Hown Hnf) as [(base & Hb & _) Hfs]. assert (Hh : ValidHost (normalize host) = true).
  { unfold ValidateRule in Hv. by destruct (ValidHost (normalize host)). }
  destruct (frag_shape ps conf (normalize host) Hplain Hne Hh) as (Hshape & Hd & Hsp). rewrite <- Hc in *.
  assert (Hne' : frag ConfPath (normalize host) <> "") by (by rewrite Hshape).
  destruct (replaced_conf_files _ _ _ _ Hrep Hsp) as [Hin Hall].
  destruct (replaced_holds _ _ _ _ ConfPath base _ Hrep Hne' Ht) as [Hown' Hbase].
  destruct (Remove_total host w1 ({[normalize host := cleaned rule]} : gmap string ProxyRule) Hnf ltac:(by rewrite Hc) Hh)
    as (res' & w2 & Hrm); try done.
  - by apply Hbase.
  - intros f Hf. apply Hall in Hf as [->|Hf]; [by eexists|]. destruct (Hfs f Hf) as (r & Hr & _).
    by destruct (replaced_holds _ _ _ _ f r _ Hrep Hne' Ht) as [_ Hx]; apply Hx.
  - apply map_size_singleton.
  - unfold defines. rewrite map_to_list_singleton. cbn. by rewrite valid_host_norm, String.eqb_refl.
  - destruct Hrep as [(u & g & ->) _]. by eexists.
  - exists res', w2. split; [done|]. apply Remove_effect in Hrm as (_ & _ & _ & ->).
    apply map_eq. intros p. destruct (decide (p = frag ConfPath (normalize host))) as [->|Hp].
    + by rewrite !lookup_delete_eq.
    + rewrite !lookup_delete_ne by done. by apply Hrep.
Qed.

End promises.

(** ** One vhost *)

Module VhostExample.

Definition web : ProxyRule := mkRule " https://10.0.0.6/ " true false true [5900] [" 10.0.0.0/8 "] 5 ["op:$2a$10$x"].
Definition text : string := renderFragment "web.example" (cleaned web).
Definition bmc : ProxyRule := mkRule "https://10.0.0.5" false false false [] [] 0 [].

#[local] Instance env : Env := {|
  toml_config _ c := Ok (c, []);
  toml_proxy t := if String.eqb t text then Ok ({["web.example" := cleaned web]}, [])
                  else if String.eqb t "base" then Ok ({["bmc.example" := bmc]}, ["listen"]) else Err "syntax";
  url_parse s := if has_prefix "https://" s
                 then Some (mkUrl "https" (trim_suffix "/" (trim_prefix "https://" s)) false "/" "" "") else None;
  getenv _ := "";
  read_file _ := Err ENOENT;
  glob_conf _ := [];
|}.
#[local] Instance bcrypt : Bcrypt := {| bcrypt_cost := has_prefix "$2a$10$"; bcrypt_compare h p := String.eqb h p |}.

Definition conf : string := abs (["etc"; "goddns"] ++ ["goddns.conf"]).
Definition no_fault : nat -> option string := fun _ => None.
Definition temp (t : nat) (d : string) : string := d +:+ "/.vhost-1.tmp".
Definition w0 : world := mkWorld {[conf := Reg "base" 416 0 1]} 0 [] no_open.
Definition set_out := Set_ no_fault temp 0 0 (fun _ => 7) conf "Web.Example." web w0.
Definition rm_out := Remove_ no_fault conf "web.example" set_out.2.

Example fragment_text : text =
  "# Managed by goddns — edit via `goddns vhost` or the admin UI." +:+ nl +:+
  "# Hand-editing is fine (goddns reads it back); keep one vhost per file." +:+ nl +:+ nl +:+
  "[proxy." +:+ q "web.example" +:+ "]" +:+ nl +:+
  "upstream        = " +:+ q "https://10.0.0.6/" +:+ nl +:+
  "upstream_verify = true" +:+ nl +:+ "preserve_host   = false" +:+ nl +:+ "bmc_compat      = true" +:+ nl +:+
  "console_ports   = [5900]" +:+ nl +:+ "allow           = [" +:+ q "10.0.0.0/8" +:+ "]" +:+ nl +:+
  "rate_limit      = 5" +:+ nl +:+ "basic_auth      = [" +:+ q "op:$2a$10$x" +:+ "]" +:+ nl.
Proof. vm_compute. reflexivity. Qed.

Example set_then_taken : (is_ok set_out.1, is_ok rm_out.1,
  is_ok (Set_ no_fault temp 0 0 (fun _ => 7) conf "bmc.example" bmc w0).1) = (true, true, false).
Proof. vm_compute. reflexivity. Qed.

Lemma temp_fresh t d : temp t d <> frag conf "web.example".
Proof.
  unfold temp. intros H. assert (Hs : has_suffix ".tmp" (frag conf "web.example") = true).
  { apply has_suffix_spec. exists (d +:+ "/.vhost-1"). rewrite <- H, str_app_assoc. done. }
  vm_compute in Hs. discriminate Hs.
Qed.

Lemma set_writes_own_fragment_witness :
  ValidateRule "web.example" web = Ok tt /\ replaced (w_files w0) (frag conf "web.example") text (w_files set_out.2) /\
  ((forall t, no_fault t = None) -> sole_owner conf (w_files w0) "web.example").
Proof.
  assert (H : Set_ no_fault temp 0 0 (fun _ => 7) conf "Web.Example." web w0 =
    (Ok (from_ok (mkResult "" "" "" bmc "") set_out.1), set_out.2)) by (vm_compute; reflexivity).
  exact (set_writes_own_fragment no_fault temp 0 0 (fun _ => 7) conf "Web.Example." web w0 _ _ temp_fresh H).
Defined.

Lemma remove_only_managed_witness :
  ValidHost "web.example" = true /\ frag conf "web.example" ∈ conf_files conf (w_files set_out.2) /\
  (exists rules, holds (w_files set_out.2) (frag conf "web.example") rules /\ size rules = 1%nat /\
     defines "web.example" rules = true) /\
  w_files rm_out.2 = delete (frag conf "web.example") (w_files set_out.2).
Proof.
  assert (H : Remove_ no_fault conf "web.example" set_out.2 =
    (Ok (from_ok (mkResult "" "" "" bmc "") rm_out.1), rm_out.2)) by (vm_compute; reflexivity).
  exact (remove_only_managed no_fault conf "web.example" set_out.2 _ _ H).
Defined.

Lemma fragment_confined_witness :
  frag conf "web.example" = "/etc/goddns/proxy.d/web.example.conf" /\ Dir (frag conf "web.example") = dir conf /\
  forall host', ValidHost host' = true -> frag conf host' = frag conf "web.example" -> host' = "web.example".
Proof.
  assert (Hp : Forall (fun n => plain n = true) (["etc"; "goddns"] ++ ["goddns.conf"])) by (repeat constructor).
  exact (fragment_confined ["etc"; "goddns"] "goddns.conf" "web.example" Hp ltac:(discriminate) eq_refl).
Defined.

Lemma accepted_rule_loads_witness :
  norm_name "web.example" = "web.example" /\ host_chars_ok "web.example" = true /\
  is_ok (check_rule ":443" "web.example" (cleaned web)) =
    forallb cred_ok (BasicAuth (cleaned web)) &&
    forallb (fun p => negb (String.eqb (format_int p) (listen_port ":443"))) (ConsolePorts web).
Proof.
  assert (H : ValidateRule (normalize "Web.Example.") web = Ok tt) by (vm_compute; reflexivity).
  exact (accepted_rule_loads ":443" "Web.Example." web H).
Defined.

Lemma set_then_remove_witness :
  exists res' w2, Remove_ no_fault conf "Web.Example." set_out.2 = (Ok res', w2) /\
    w_files w2 = delete (frag conf "web.example") (w_files w0).
Proof.
  assert (Hp : Forall (fun n => plain n = true) (["etc"; "goddns"] ++ ["goddns.conf"])) by (repeat constructor).
  assert (H : Set_ no_fault temp 0 0 (fun _ => 7) conf "Web.Example." web w0 =
    (Ok (from_ok (mkResult "" "" "" bmc "") set_out.1), set_out.2)) by (vm_compute; reflexivity).
  exact (set_then_remove no_fault temp 0 0 (fun _ => 7) conf ["etc"; "goddns"] "goddns.conf" "Web.Example." web w0 _ _
    eq_refl Hp ltac:(discriminate) (fun _ => eq_refl) temp_fresh H eq_refl).
Defined.

(** The findings: a rule that is accepted, and a fragment that then does not
    load. *)
Example blank_user : ValidateRule "web.example" (mkRule "https://10.0.0.6" false false false [] [] 0 [" :$2a$10$x"]) = Ok tt /\
  is_ok (check_rule ":443" "web.example" (cleaned (mkRule "https://10.0.0.6" false false false [] [] 0 [" :$2a$10$x"]))) = false.
Proof. vm_compute. done. Qed.

End VhostExample.
