(* ===== verification/Tls.v ===== *)
(** * Tls: the certificate sources

    [internal/tlsmgr/files.go] and [hybrid.go], with the allowlist that
    [hybridNames] of [cmd/goddns/serve.go] computes. What [LoadX509KeyPair]
    reads from the disk, the name check of a certificate and the ACME source
    are parameters. Loading reads the pair and then asks for the time of the
    file, so a load sees two states of the disk. *)

From Stdlib Require Import String Ascii Sorted.
From S2P Require Import Prelude GoStrings Config.

(** ** The file pair *)

Record leaf := mkLeaf { l_NotBefore : Z; l_NotAfter : Z; l_names : list string }.
Record certificate := mkCert { c_der : string; c_leaf : option leaf }.

(** What the calls would find: the pair, and the time of the certificate file. *)
Record disk := mkDisk { d_pair : result string certificate; d_mtime : option Z }.

(** A time never set is the zero time, which is before every other. *)
Record Files := mkFiles { f_cert : option certificate; f_modTime : option Z }.

Definition after (t : Z) (o : option Z) : bool := match o with Some m => m <? t | None => true end.

Definition load (d d' : disk) (f : Files) : result string unit * Files :=
  match d_pair d with
  | Err e => (Err e, f)
  | Ok c => (Ok tt, mkFiles (Some c) (match d_mtime d' with Some t => Some t | None => f_modTime f end))
  end.

Definition NewFiles (d d' : disk) : result string Files :=
  match load d d' (mkFiles None None) with (Ok _, f) => Ok f | (Err e, _) => Err e end.

(** The disk when it is asked for the time, when the pair is read, and when
    the time is asked for again. *)
Record moments := mkMoments { at_stat : disk; at_pair : disk; at_end : disk }.
Definition still (d : disk) : moments := mkMoments d d d.

Definition reloadIfStale (ms : moments) (f : Files) : Files :=
  match d_mtime (at_stat ms) with
  | None => f
  | Some t => if after t (f_modTime f) then (load (at_pair ms) (at_end ms) f).2 else f
  end.

Definition Files_GetCertificate (ms : moments) (f : Files) : option certificate * Files :=
  let f := reloadIfStale ms f in (f_cert f, f).

Section hybrid.
(** [x509.Certificate.VerifyHostname], and the ACME source. *)
Context (verifyHostname : leaf -> string -> bool).

Definition matching (ms : moments) (name : string) (now : Z) (f : Files) : option certificate * Files :=
  if String.eqb name "" then (None, f)
  else
    let f := reloadIfStale ms f in
    match f_cert f with
    | Some c =>
        match c_leaf c with
        | Some l => if (now <? l_NotBefore l) || (l_NotAfter l <? now) then (None, f)
                    else if verifyHostname l name then (Some c, f) else (None, f)
        | None => (None, f)
        end
    | None => (None, f)
    end.

(** ** Files first, ACME for the names of the allowlist *)

Definition NormName (s : string) : string := trim_suffix "." (to_lower (trim_space s)).

Definition set_of (names : list string) : gset string :=
  list_to_set (List.filter (fun n => negb (String.eqb n "")) names).

Record Hybrid := mkHybrid { h_files : option Files; h_acme : bool; h_allow : gset string }.

Definition NewHybrid (files : option Files) : Hybrid := mkHybrid files false ∅.
Definition SetACME (a : bool) (h : Hybrid) : Hybrid := mkHybrid (h_files h) a (h_allow h).
Definition SetAllowed (names : list string) (h : Hybrid) : Hybrid :=
  mkHybrid (h_files h) (h_acme h) (set_of (NormName <$> names)).

Definition allowed (h : Hybrid) (name : string) : bool := bool_decide (NormName name ∈ h_allow h).

(** The gate of the on-demand solver. *)
Definition Decide (h : Hybrid) (name : string) : result string unit :=
  if allowed h name then Ok tt else Err name.

(** The source a certificate comes from. *)
Inductive source := FromFile (c : option certificate) | FromACME (c : option certificate).

Definition set_files (f : Files) (h : Hybrid) : Hybrid := mkHybrid (Some f) (h_acme h) (h_allow h).

(** [acme sni] is the answer of the ACME source, which may change the world by
    an order. The second component of the result tells whether it was asked. *)
Definition GetCertificate {W : Type} (acme : string -> W -> W * result string certificate) (ms1 ms2 : moments) (sni : string)
  (now : Z) (h : Hybrid) (w : W) : result string source * bool * Hybrid * W :=
  let name := NormName sni in
  let '(m, h) := match h_files h with
                 | Some f => let '(m, f) := matching ms1 name now f in (m, set_files f h)
                 | None => (None, h)
                 end in
  match m with
  | Some c => (Ok (FromFile (Some c)), false, h, w)
  | None =>
      let ask := h_acme h && negb (String.eqb name "") && allowed h name in
      let '(w, answer) := if ask then acme sni w else (w, Err "") in
      match answer with
      | Ok c => (Ok (FromACME (Some c)), true, h, w)
      | Err _ =>
          match h_files h with
          | Some f => let '(c, f) := Files_GetCertificate ms2 f in (Ok (FromFile c), ask, set_files f h, w)
          | None =>
              if h_acme h
              then match acme sni w with
                   | (w, Ok c) => (Ok (FromACME (Some c)), true, h, w)
                   | (w, Err e) => (Err e, true, h, w)
                   end
              else (Err name, ask, h, w)
          end
      end
  end.

(** The on-demand allowlist of a configuration. *)
Definition hybridNames (c : Config) : list string :=
  sort_strings (elements (set_of (NormName <$>
    ((if ProxyEnabled c then ProxyHosts c else []) ++ [ACMEDomain c; PublicHost c] ++
     (if Enabled c.(Admin) then [Host c.(Admin)] else []))))).

(** ** The allowlist *)

Lemma elem_of_set_of n names : n ∈ set_of names <-> n <> "" /\ n ∈ names.
Proof.
  unfold set_of. rewrite elem_of_list_to_set, elem_of_bfilter, negb_true_iff, String.eqb_neq. tauto.
Qed.

Lemma elem_of_ProxyHosts c x : x ∈ ProxyHosts c <-> is_Some (c.(Proxy) !! x).
Proof.
  unfold ProxyHosts, sort_strings. rewrite elem_of_sort_by, list_elem_of_fmap. split.
  - intros ([k v] & -> & Hin%elem_of_map_to_list). by exists v.
  - intros [v Hv]. exists (x, v). split; [done|]. by apply elem_of_map_to_list.
Qed.

Lemma elem_of_hybridNames c n : n ∈ hybridNames c <-> n <> "" /\ exists x, n = NormName x /\
  (ProxyEnabled c = true /\ is_Some (c.(Proxy) !! x) \/ x = ACMEDomain c \/ x = PublicHost c \/
   Enabled c.(Admin) = true /\ x = Host c.(Admin)).
Proof.
  unfold hybridNames, sort_strings. rewrite elem_of_sort_by, elem_of_elements, elem_of_set_of.
  rewrite list_elem_of_fmap. setoid_rewrite elem_of_app. setoid_rewrite elem_of_app. setoid_rewrite elem_of_cons.
  setoid_rewrite list_elem_of_singleton.
  pose proof (elem_of_ProxyHosts c) as Hp.
  split; intros [Hn (x & Hx & H)]; (split; [done|]); exists x; (split; [done|]);
    destruct (ProxyEnabled c), (Enabled c.(Admin)); rewrite ?Hp, ?list_elem_of_singleton in *; set_solver.
Qed.

(** After a (re)load in hybrid mode, whatever was allowed before, the ACME
    source may issue for a name exactly when, normalised, it is a proxied
    host, the ACME domain, the public host or the console of the present
    configuration. *)
Theorem decide_iff_configured c h name :
  Decide (SetAllowed (hybridNames c) h) name = Ok tt <->
  exists x, NormName name = NormName (NormName x) /\ NormName x <> "" /\ NormName name <> "" /\
  (ProxyEnabled c = true /\ is_Some (c.(Proxy) !! x) \/ x = ACMEDomain c \/ x = PublicHost c \/
   Enabled c.(Admin) = true /\ x = Host c.(Admin)).
Proof.
  unfold Decide, allowed, SetAllowed. cbn [h_allow].
  destruct (bool_decide _) eqn:Ed; [apply bool_decide_eq_true in Ed|apply bool_decide_eq_false in Ed];
    rewrite elem_of_set_of, list_elem_of_fmap in Ed; setoid_rewrite elem_of_hybridNames in Ed; naive_solver.
Qed.

(** Who is asked. A file certificate that is in date and covers the name
    is served, and ACME is then not asked; ACME is asked for no name off the
    allowlist, as long as there is a file pair at all; and with a file pair
    every handshake is answered, whatever ACME says. *)
Theorem hybrid_sources {W : Type} (acme : string -> W -> W * result string certificate) ms1 ms2 sni now h w f :
  h_files h = Some f ->
  let '(r, asked, h', _) := GetCertificate acme ms1 ms2 sni now h w in
  (forall c l, f_cert (reloadIfStale ms1 f) = Some c -> c_leaf c = Some l -> NormName sni <> "" ->
     l_NotBefore l <= now <= l_NotAfter l -> verifyHostname l (NormName sni) = true ->
     r = Ok (FromFile (Some c)) /\ asked = false) /\
  (asked = true -> Decide h (NormName sni) = Ok tt) /\
  (exists s, r = Ok s) /\ h_allow h' = h_allow h /\ h_acme h' = h_acme h.
Proof.
  intros Hf. unfold GetCertificate. rewrite Hf. cbn zeta.
  destruct (matching ms1 (NormName sni) now f) as [m f'] eqn:Em.
  assert (Hfirst : forall c l, f_cert (reloadIfStale ms1 f) = Some c -> c_leaf c = Some l -> NormName sni <> "" ->
     l_NotBefore l <= now <= l_NotAfter l -> verifyHostname l (NormName sni) = true -> m = Some c).
  { intros c l Hc Hl Hn Ht Hv. unfold matching in Em. apply String.eqb_neq in Hn. rewrite Hn in Em.
    cbn zeta in Em. rewrite Hc, Hl in Em.
    replace (now <? l_NotBefore l) with false in Em by lia. replace (l_NotAfter l <? now) with false in Em by lia.
    cbn in Em. rewrite Hv in Em. by injection Em. }
  assert (Hask : h_acme (set_files f' h) && negb (String.eqb (NormName sni) "") && allowed (set_files f' h) (NormName sni) = true ->
    Decide h (NormName sni) = Ok tt).
  { intros H. apply andb_true_iff in H as [_ H]. unfold Decide.
    change (allowed h (NormName sni)) with (allowed (set_files f' h) (NormName sni)). by rewrite H. }
  revert Hask.
  generalize (h_acme (set_files f' h) && negb (String.eqb (NormName sni) "") && allowed (set_files f' h) (NormName sni)).
  intros ask Hask. destruct m as [c|].
  { split_and!; try done; [|by eexists]. intros c' l Hc Hl Hn Ht Hv. by injection (Hfirst c' l Hc Hl Hn Ht Hv) as ->. }
  assert (Hnone : forall (P : Prop) c l, f_cert (reloadIfStale ms1 f) = Some c -> c_leaf c = Some l -> NormName sni <> "" ->
     l_NotBefore l <= now <= l_NotAfter l -> verifyHostname l (NormName sni) = true -> P).
  { intros P c l Hc Hl Hn Ht Hv. discriminate (Hfirst c l Hc Hl Hn Ht Hv). }
  destruct ask; [destruct (acme sni w) as [w' [c|e]]|]; cbn [h_files set_files].
  - split; [intros; by eapply Hnone|]. split; [exact Hask|]. split; [by eexists|done].
  - destruct (Files_GetCertificate ms2 f') as [c f''].
    split; [intros; by eapply Hnone|]. split; [exact Hask|]. split; [by eexists|done].
  - destruct (Files_GetCertificate ms2 f') as [c f''].
    split; [intros; by eapply Hnone|]. split; [done|]. split; [by eexists|done].
Qed.

End hybrid.

(** ** Renewals *)

(** Later, as far as file times tell: no earlier time, and the same pair at
    the same time. *)
Definition newer (d d' : disk) : Prop :=
  exists t t', d_mtime d = Some t /\ d_mtime d' = Some t' /\ t <= t' /\ (t = t' -> d_pair d' = d_pair d).

(** [f] is what loading [d] gave. *)
Definition tracks (d : disk) (f : Files) : Prop :=
  exists c t, d_pair d = Ok c /\ d_mtime d = Some t /\ f = mkFiles (Some c) (Some t).

Lemma reload_tracks dl d f : tracks dl f -> newer dl d ->
  exists dl', tracks dl' (reloadIfStale (still d) f) /\ (dl' = d \/ dl' = dl) /\
    (forall c, d_pair d = Ok c -> d_pair dl' = Ok c).
Proof.
  intros (c & t & Hp & Ht & ->) (t0 & t' & Ht0 & Ht' & Hle & Heq). rewrite Ht in Ht0. injection Ht0 as <-.
  unfold reloadIfStale. cbn [at_stat still at_pair at_end f_modTime]. rewrite Ht'. cbn.
  destruct (Z.ltb_spec t t') as [Hlt|Hge].
  - unfold load. destruct (d_pair d) as [c'|e] eqn:Ep; cbn [snd].
    + exists d. split; [|by split; [left|intros; congruence]]. exists c', t'. rewrite Ht'. done.
    + exists dl. split; [|by split; [right|]]. by exists c, t.
  - exists dl. split; [by exists c, t|]. split; [by right|]. intros c0. rewrite Heq by lia. done.
Qed.

Definition served (ds : list disk) (f : Files) : Files :=
  foldl (fun f d => (Files_GetCertificate (still d) f).2) f ds.

Lemma served_tracks ds dl f : tracks dl f -> StronglySorted newer (dl :: ds) ->
  forall d, Forall (fun x => newer x d) (dl :: ds) -> exists dl', tracks dl' (served ds f) /\ newer dl' d.
Proof.
  revert dl f. induction ds as [|d1 ds IH]; intros dl f Hf Hs d Hd.
  - inversion Hd; subst. eauto.
  - inversion Hs as [|? ? Hss Hall]; subst. inversion Hss as [|? ? Hs' Hall']; subst. inversion Hall as [|? ? Hn Hall2]; subst.
    inversion Hd as [|? ? Hd0 Hd1]; subst. inversion Hd1 as [|? ? Hd2 Hd3]; subst.
    destruct (reload_tracks dl d1 f Hf Hn) as (dl' & Ht & Hor & _). cbn [served foldl].
    apply (IH dl'); [exact Ht| |]; destruct Hor as [->| ->]; by constructor.
Qed.

(** C35: a renewed pair is picked up at the next handshake, when no renewal
    falls within a load: with the pair and the time of the file read from
    the same disk at the start and at every handshake ([still]), and file
    times that tell renewals apart, after any handshakes a handshake is
    served with the pair on the disk, if that pair can be loaded.
    ([torn_load_sticks] is what happens when the disk changes between the
    two reads.) *)
Theorem renewal_is_served d0 ds d f c :
  NewFiles d0 d0 = Ok f -> is_Some (d_mtime d0) -> StronglySorted newer (d0 :: ds) ->
  Forall (fun x => newer x d) (d0 :: ds) -> d_pair d = Ok c ->
  (Files_GetCertificate (still d) (served ds f)).1 = Some c.
Proof.
  intros Hn [t Ht] Hs Hd Hc. assert (Hf : tracks d0 f).
  { unfold NewFiles, load in Hn. destruct (d_pair d0) as [c0|] eqn:Ep; [|done]. injection Hn as <-.
    exists c0, t. by rewrite Ht. }
  destruct (served_tracks ds d0 f Hf Hs d Hd) as (dl & Hf' & Hnew).
  destruct (reload_tracks dl d _ Hf' Hnew) as (dl' & (c' & t' & Hp & _ & Hfe) & _ & Hsame).
  unfold Files_GetCertificate. cbn zeta. rewrite Hfe. cbn. rewrite (Hsame c Hc) in Hp. by injection Hp as ->.
Qed.

(** The finding: the time is read after the pair, so a renewal between the
    two is never picked up: the old pair is kept with the new time. *)
Lemma torn_load_sticks d d' f n :
  NewFiles d d' = Ok f -> is_Some (d_mtime d') ->
  (Files_GetCertificate (still d') (served (repeat d' n) f)).1 = match d_pair d with Ok c => Some c | Err _ => None end.
Proof.
  intros Hn [t Ht]. assert (Hf : reloadIfStale (still d') f = f /\ f_cert f = match d_pair d with Ok c => Some c | Err _ => None end).
  { unfold NewFiles, load in Hn. destruct (d_pair d) as [c|] eqn:Ep; [|done]. injection Hn as <-. split; [|done].
    unfold reloadIfStale. cbn [at_stat still f_modTime]. rewrite Ht. cbn. by rewrite Z.ltb_irrefl. }
  destruct Hf as [Hf Hc]. assert (Hall : served (repeat d' n) f = f).
  { induction n as [|n IH]; [done|]. cbn. unfold Files_GetCertificate. cbn. by rewrite Hf. }
  rewrite Hall. unfold Files_GetCertificate. cbn. by rewrite Hf.
Qed.

(** ** A certificate and its renewal *)

Module TlsExample.
Import ConfigExample.

Definition old : certificate := mkCert "old" (Some (mkLeaf 0 100 ["www.example"])).
Definition new : certificate := mkCert "new" (Some (mkLeaf 90 200 ["www.example"])).
Definition names (l : leaf) (n : string) : bool := existsb (String.eqb n) (l_names l).
Definition disk1 : disk := mkDisk (Ok old) (Some 10).
Definition disk2 : disk := mkDisk (Ok new) (Some 95).
Definition files : Files := from_ok (mkFiles None None) (NewFiles disk1 disk1).

Lemma renewal_is_served_witness : (Files_GetCertificate (still disk2) (served [disk1] files)).1 = Some new.
Proof.
  assert (H1 : newer disk1 disk1) by (exists 10, 10; split_and!; [done|done|lia|done]).
  assert (H2 : newer disk1 disk2) by (exists 10, 95; split_and!; [done|done|lia|lia]).
  exact (renewal_is_served disk1 [disk1] disk2 files new eq_refl ltac:(by eexists)
    ltac:(repeat constructor; done) ltac:(repeat constructor; done) eq_refl).
Defined.

Definition hybrid : Hybrid := SetAllowed (hybridNames cfg) (SetACME true (NewHybrid (Some files))).
(** An ACME source that keeps the list of its orders. *)
Definition acme (n : string) (w : list string) : list string * result string certificate := (w ++ [n], Ok (mkCert n None)).

Example issues :
  (let '(r, asked, _, w) := GetCertificate names acme (still disk1) (still disk1) "BMC.example." 50 hybrid [] in (r, asked, w)) =
    (Ok (FromACME (Some (mkCert "BMC.example." None))), true, ["BMC.example."]) /\
  (let '(r, asked, _, w) := GetCertificate names acme (still disk1) (still disk1) "other.example" 50 hybrid [] in (r, asked, w)) =
    (Ok (FromFile (Some old)), false, []).
Proof. vm_compute. done. Qed.

Lemma hybrid_sources_witness :
  let '(r, asked, h', _) := GetCertificate names acme (still disk1) (still disk1) "www.example" 50 hybrid [] in
  (forall c l, f_cert (reloadIfStale (still disk1) files) = Some c -> c_leaf c = Some l -> NormName "www.example" <> "" ->
     l_NotBefore l <= 50 <= l_NotAfter l -> names l (NormName "www.example") = true ->
     r = Ok (FromFile (Some c)) /\ asked = false) /\
  (asked = true -> Decide hybrid (NormName "www.example") = Ok tt) /\
  (exists s, r = Ok s) /\ h_allow h' = h_allow hybrid /\ h_acme h' = h_acme hybrid.
Proof. exact (hybrid_sources names acme (still disk1) (still disk1) "www.example" 50 hybrid [] files eq_refl). Defined.

End TlsExample.
