(* ===== verification/Acme.v ===== *)
(** * Acme: certificates issued on the program's behalf

    [internal/tlsmgr/acme.go], and the choice of the certificate source by
    [buildTLS] of [cmd/goddns/serve.go]. certmagic is the class [CertMagic]:
    what its configuration holds is a record, what its two calls do a parameter
    that changes a world [W]. What matters of that world is which names were
    ordered: an order costs a rate limit, and the listener is public. *)

From Stdlib Require Import String Ascii.
From S2P Require Import Prelude GoStrings Config Tls.

(** ** The configuration of certmagic *)

Record provider := mkProvider { p_Server : string; p_KeyName : string; p_KeyAlg : string; p_Key : string }.

Record issuer := mkIssuer {
  i_CA : string; i_Email : string; i_Agreed : bool; i_DisableHTTPChallenge : bool; i_DisableTLSALPNChallenge : bool;
  i_DNSProvider : provider; i_Resolvers : list string; i_PropagationTimeout : Z
}.

(** The decision of an on-demand order reads the hybrid source it belongs to. *)
Definition gate : Type := Hybrid -> string -> result string unit.

Record magic := mkMagic { g_Storage : string; g_Issuers : list issuer; g_OnDemand : option gate }.

Class CertMagic (W : Type) := {
  ManageSync : magic -> list string -> W -> W * result string unit;
  obtain : magic -> Hybrid -> string -> W -> W * result string certificate;  (* Config.GetCertificate *)
  LetsEncryptProductionCA : string
}.

(** Documented behaviour: managing orders for the names it is given; a
    handshake orders at most for a name the decision function lets through, and
    for none without one. *)
Class OrderLaws {W : Type} (M : CertMagic W) (orders : W -> list string) : Prop := {
  manage_orders m names w n : n ∈ orders (ManageSync m names w).1 -> n ∈ orders w \/ n ∈ names;
  obtain_orders m h sni w n : n ∈ orders (obtain m h sni w).1 ->
    n ∈ orders w \/ exists f, g_OnDemand m = Some f /\ f h n = Ok tt
}.

(** ** NewACME *)

Record ACMEOptions := mkOptions {
  o_Domain : string; o_ExtraDomains : list string; o_Email : string; o_CA : string; o_Storage : string;
  o_DNSServer : string; o_TSIGName : string; o_TSIGAlgo : string; o_TSIGSecret : string;
  o_OnDemand : bool; o_Decide : option gate
}.

Inductive acme_error := NoACMESecret | Obtaining (names : list string) (e : string).

Section acme.
Context {W : Type} {M : CertMagic W}.

Definition new_issuer (o : ACMEOptions) : issuer :=
  mkIssuer (if String.eqb (o_CA o) "" then LetsEncryptProductionCA else o_CA o) (o_Email o) true true true
    (mkProvider (o_DNSServer o) (o_TSIGName o) (o_TSIGAlgo o) (o_TSIGSecret o)) [o_DNSServer o] (2 * 60 * 1000000000).

(** Without a decision there is no order. *)
Definition DecisionFunc (decide : option gate) : gate :=
  fun h name => match decide with None => Err name | Some f => f h name end.

Definition NewACME (o : ACMEOptions) (w : W) : W * result acme_error magic :=
  if String.eqb (o_TSIGSecret o) "" then (w, Err NoACMESecret)
  else
    let issuers := [new_issuer o] in
    if o_OnDemand o then (w, Ok (mkMagic (o_Storage o) issuers (Some (DecisionFunc (o_Decide o)))))
    else
      let m := mkMagic (o_Storage o) issuers None in
      let domains := o_Domain o :: o_ExtraDomains o in
      match ManageSync m domains w with
      | (w, Err e) => (w, Err (Obtaining domains e))
      | (w, Ok _) => (w, Ok m)
      end.

Definition Manage (m : magic) (domains : list string) (w : W) : W * result string unit := ManageSync m domains w.

(** ** The source of the listeners' certificates *)

(** [tlsSource]: its handshake callback is [handshake], its [manage] is set in
    acme mode only, its [setAllowed] in hybrid mode only. *)
Inductive tlsSource :=
| FileSource (f : Files)
| HybridSource (h : Hybrid) (a : option magic)
| ACMESource (m : magic).

Inductive tls_error := TLSFile (e : string) | TLSACME_ (e : acme_error).

Definition acme_options (c : Config) (extra : list string) (demand : bool) (decide : option gate) : ACMEOptions :=
  mkOptions c.(ACMEDomain) extra c.(ACMEEmail) c.(ACMECA) c.(ACMEStorage) c.(DNSServer) c.(ACMETSIGName)
    c.(ACMETSIGAlgo) c.(ACMETSIGSecret) demand decide.

(** [d] and [d'] are what loading the file pair finds. *)
Definition buildTLS (c : Config) (d d' : disk) (w : W) : W * result tls_error tlsSource :=
  if String.eqb c.(TLSMode) TLSACME then
    let extra := if ProxyEnabled c then ProxyHosts c else [] in
    match NewACME (acme_options c extra false None) w with
    | (w, Err e) => (w, Err (TLSACME_ e))
    | (w, Ok m) => (w, Ok (ACMESource m))
    end
  else if String.eqb c.(TLSMode) TLSHybrid then
    let f := match NewFiles d d' with Ok f => Some f | Err _ => None end in
    let h := SetAllowed (hybridNames c) (NewHybrid f) in
    if String.eqb c.(ACMETSIGSecret) "" then (w, Ok (HybridSource h None))
    else
      match NewACME (acme_options c [] true (Some Decide)) w with
      | (w, Err _) => (w, Ok (HybridSource h None))
      | (w, Ok m) => (w, Ok (HybridSource (SetACME true h) (Some m)))
      end
  else
    match NewFiles d d' with
    | Err e => (w, Err (TLSFile e))
    | Ok f => (w, Ok (FileSource f))
    end.

Definition src_manage (src : tlsSource) (hosts : list string) (w : W) : W * result string unit :=
  match src with ACMESource m => Manage m hosts w | _ => (w, Ok tt) end.

Definition src_setAllowed (src : tlsSource) (names : list string) : tlsSource :=
  match src with HybridSource h a => HybridSource (SetAllowed names h) a | _ => src end.

Context (verifyHostname : leaf -> string -> bool).

Definition handshake (ms1 ms2 : moments) (sni : string) (now : Z) (src : tlsSource) (w : W)
  : result string source * tlsSource * W :=
  match src with
  | FileSource f => let '(c, f) := Files_GetCertificate ms1 f in (Ok (FromFile c), FileSource f, w)
  | HybridSource h a =>
      let ask n w := match a with Some m => obtain m h n w | None => (w, Err n) end in
      let '(r, _, h', w') := GetCertificate verifyHostname ask ms1 ms2 sni now h w in (r, HybridSource h' a, w')
  | ACMESource m =>
      match obtain m (NewHybrid None) sni w with
      | (w, Ok c) => (Ok (FromACME (Some c)), src, w)
      | (w, Err e) => (Err e, src, w)
      end
  end.

(** ** The life of a source *)

(** A handshake with any name; a reload, that goes on to ACME or finds nothing
    new. *)
Inductive event :=
| Hello (ms1 ms2 : moments) (sni : string) (now : Z)
| Reload (c : Config) (anew : bool).

Record tls := mkTls { t_cfg : Config; t_src : tlsSource }.

Definition on (st : tls * W) (e : event) : tls * W :=
  let '(t, w) := st in
  match e with
  | Hello ms1 ms2 sni now => let '(_, src, w) := handshake ms1 ms2 sni now (t_src t) w in (mkTls (t_cfg t) src, w)
  | Reload c anew =>
      let w := if ProxyEnabled c && anew then (src_manage (t_src t) (ProxyHosts c) w).1 else w in
      (mkTls c (src_setAllowed (t_src t) (hybridNames c)), w)
  end.

(** What a name must be, to be ordered at a handshake or at a (re)load. *)
Definition known (c : Config) (n : string) : Prop :=
  NormName n <> "" /\ exists x, NormName n = NormName (NormName x) /\
    (ProxyEnabled c = true /\ is_Some (c.(Proxy) !! x) \/ x = ACMEDomain c \/ x = PublicHost c \/
     Enabled c.(Admin) = true /\ x = Host c.(Admin)).

Definition managed (c : Config) (n : string) : Prop := ProxyEnabled c = true /\ is_Some (c.(Proxy) !! n).

(** ** Orders *)

Context (orders : W -> list string) {O : OrderLaws M orders}.

(** The source is of the mode it was built in; an order of the hybrid source
    passes its gate, which holds the names of the present configuration. *)
Definition fits (mode : string) (t : tls) : Prop :=
  match t_src t with
  | FileSource _ => mode <> TLSACME /\ mode <> TLSHybrid
  | HybridSource h a => mode = TLSHybrid /\ h_allow h = set_of (NormName <$> hybridNames (t_cfg t)) /\
      (forall m, a = Some m -> g_OnDemand m = Some (DecisionFunc (Some Decide)))
  | ACMESource m => mode = TLSACME /\ g_OnDemand m = None
  end.

Lemma gate_known c h n : h_allow h = set_of (NormName <$> hybridNames c) -> Decide h n = Ok tt -> known c n.
Proof.
  intros Ha. unfold Decide, allowed. rewrite Ha. case_bool_decide as Hin; [|done]. intros _.
  apply elem_of_set_of in Hin as [Hne (y & Hy & Hn)%list_elem_of_fmap]. split; [done|].
  apply elem_of_hybridNames in Hn as (_ & x & -> & Hx). eauto.
Qed.

(** What asking ACME keeps, a handshake keeps. *)
Lemma GetCertificate_keeps (P : W -> Prop) ask ms1 ms2 sni now h w : (forall n w, P w -> P (ask n w).1) -> P w ->
  let '(_, _, h', w') := GetCertificate verifyHostname ask ms1 ms2 sni now h w in P w' /\ h_allow h' = h_allow h.
Proof.
  intros Hask Hw. unfold GetCertificate. cbn zeta.
  assert (Hm : forall f, h_allow (let '(m, f) := matching verifyHostname ms1 (NormName sni) now f in set_files f h) = h_allow h).
  { intros f. by destruct (matching _ _ _ _ _). }
  set (mh := match h_files h with Some f => _ | None => _ end).
  assert (Hh : h_allow mh.2 = h_allow h).
  { unfold mh. destruct (h_files h); [|done]. by destruct (matching _ _ _ _ _). }
  destruct mh as [m h1]. cbn in Hh. destruct m as [c|]; [done|].
  set (go := _ && _ && _).
  assert (Hgo : P (if go then ask sni w else (w, Err "")).1) by (destruct go; [by apply Hask|done]).
  destruct (if go then ask sni w else (w, Err "")) as [w1 [c|e]]; [done|]. cbn in Hgo.
  destruct (h_files h1) as [f|]; [by destruct (Files_GetCertificate ms2 f)|].
  destruct (h_acme h1); [|done]. specialize (Hask sni w1 Hgo). by destruct (ask sni w1) as [w2 [c|e']].
Qed.

Lemma fits_hello mode t w ms1 ms2 sni now : fits mode t ->
  let '(t', w') := on (t, w) (Hello ms1 ms2 sni now) in
  fits mode t' /\ t_cfg t' = t_cfg t /\
  forall n, n ∈ orders w' -> n ∈ orders w \/ (mode = TLSHybrid /\ known (t_cfg t) n).
Proof.
  unfold fits. destruct t as [c [f|h a|m]]; cbn; intros Hf.
  - destruct (Files_GetCertificate ms1 f). split; [done|auto].
  - destruct Hf as (Hm & Ha & Hg). set (ask := fun n w => _).
    pose proof (GetCertificate_keeps (fun w' => forall n, n ∈ orders w' -> n ∈ orders w \/ (mode = TLSHybrid /\ known c n))
      ask ms1 ms2 sni now h w) as Hk.
    destruct (GetCertificate _ ask _ _ _ _ _ _) as [[[r asked] h'] w']. destruct Hk as [Hk Hh]; [|by left|].
    + intros n0 w0 Hw0 n. unfold ask. destruct a as [m|]; [|apply Hw0].
      intros [Hin|(g & Hgate & Hdec)]%obtain_orders; [by apply Hw0|]. right. split; [done|].
      rewrite (Hg m eq_refl) in Hgate. injection Hgate as <-. by apply (gate_known _ h).
    + cbn. split_and!; [done|by rewrite Hh|done|done|done].
  - destruct (obtain m (NewHybrid None) sni w) as [w' [x|e]] eqn:Eo;
      (split; [done|split; [done|]]; intros n Hn; left;
       pose proof (obtain_orders m (NewHybrid None) sni w n) as Ho; rewrite Eo in Ho; destruct (Ho Hn) as [?|(g & Hg & _)]; [done|];
       destruct Hf as [_ Hf]; congruence).
Qed.

Lemma fits_reload mode t w c anew : fits mode t ->
  let '(t', w') := on (t, w) (Reload c anew) in
  fits mode t' /\ t_cfg t' = c /\ forall n, n ∈ orders w' -> n ∈ orders w \/ (mode = TLSACME /\ managed c n).
Proof.
  intros Hf. cbn. split_and!; [|done|].
  - revert Hf. unfold fits. by destruct t as [c0 [f|h a|m]]; cbn; [|intros (? & _ & ?)|].
  - intros n. destruct (ProxyEnabled c && anew) eqn:Ee; [|by left]. unfold src_manage, fits in *.
    destruct (t_src t) as [f|h a|m]; [by left..|]. intros [?|Hp]%manage_orders; [by left|right].
    split; [apply Hf|]. apply andb_true_iff in Ee as [Ee _]. split; [done|by apply elem_of_ProxyHosts].
Qed.

Lemma built_fits c d d' w w' src : buildTLS c d d' w = (w', Ok src) ->
  fits c.(TLSMode) (mkTls c src) /\
  forall n, n ∈ orders w' -> n ∈ orders w \/ (c.(TLSMode) = TLSACME /\ (n = ACMEDomain c \/ managed c n)).
Proof.
  unfold buildTLS, NewACME. destruct (String.eqb_spec c.(TLSMode) TLSACME) as [Ea|Ea]; cbn [acme_options o_TSIGSecret o_OnDemand].
  - destruct (String.eqb _ ""); [done|]. cbn.
    set (names := ACMEDomain c :: _). set (m := mkMagic _ _ _). destruct (ManageSync m names w) as [w1 [[]|e]] eqn:Em; [|done].
    intros [= <- <-]. split; [done|]. intros n Hn.
    pose proof (manage_orders m names w n) as Ho. rewrite Em in Ho. destruct (Ho Hn) as [?|Hin]; [by left|right].
    split; [done|]. apply elem_of_cons in Hin as [->|Hin]; [by left|right]. unfold managed.
    destruct (ProxyEnabled c); [|by apply elem_of_nil in Hin]. split; [done|by apply elem_of_ProxyHosts].
  - destruct (String.eqb_spec c.(TLSMode) TLSHybrid) as [Eh|Eh].
    + destruct (String.eqb _ "").
      * intros [= <- <-]. split; [|by left]. by split_and!.
      * intros [= <- <-]. split; [|by left]. split_and!; [done|done|]. by intros m [= <-].
    + destruct (NewFiles d d') as [f|]; [|done]. intros [= <- <-]. split; [done|by left].
Qed.

Lemma life_fits mode es t w : fits mode t -> fits mode (foldl on (t, w) es).1.
Proof.
  revert t w. induction es as [|e es IH]; intros t w Hf; [done|]. cbn [foldl].
  assert (fits mode (on (t, w) e).1) as H1; [|destruct (on (t, w) e); by apply IH].
  destruct e as [ms1 ms2 sni now|c anew].
  - pose proof (fits_hello mode t w ms1 ms2 sni now Hf) as H. destruct (on _ _). apply H.
  - apply (fits_reload mode t w c anew Hf).
Qed.

(** C20: no stranger makes the program order a certificate. Whatever the mode it
    was started in and whatever configurations were loaded since, a handshake
    orders nothing but, in hybrid mode, a name the configuration in force at
    that moment knows; a reload orders nothing but, in acme mode, a host it
    proxies; and the start nothing but, in acme mode, its own domain and hosts. *)
Theorem orders_configured c0 d d' w0 w1 src es : buildTLS c0 d d' w0 = (w1, Ok src) ->
  (forall n, n ∈ orders w1 -> n ∈ orders w0 \/ (c0.(TLSMode) = TLSACME /\ (n = ACMEDomain c0 \/ managed c0 n))) /\
  let '(t, w) := foldl on (mkTls c0 src, w1) es in
  (forall ms1 ms2 sni now n, n ∈ orders (on (t, w) (Hello ms1 ms2 sni now)).2 ->
     n ∈ orders w \/ (c0.(TLSMode) = TLSHybrid /\ known (t_cfg t) n)) /\
  (forall c anew n, n ∈ orders (on (t, w) (Reload c anew)).2 -> n ∈ orders w \/ (c0.(TLSMode) = TLSACME /\ managed c n)).
Proof.
  intros [Hf H0]%built_fits. split; [exact H0|]. apply (life_fits _ es _ w1) in Hf.
  destruct (foldl on (mkTls c0 src, w1) es) as [t w]. split.
  - intros ms1 ms2 sni now. pose proof (fits_hello _ t w ms1 ms2 sni now Hf) as H. destruct (on (t, w) _). apply H.
  - intros c anew. apply (fits_reload _ t w c anew Hf).
Qed.

End acme.

(** ** A hybrid source *)

Module AcmeExample.

(** certmagic as a ledger of orders. *)
#[local] Instance ledger : CertMagic (list string) := {|
  ManageSync _ names w := (w ++ names, Ok tt);
  obtain m h sni w :=
    match g_OnDemand m with
    | Some f => match f h sni with Ok _ => (w ++ [sni], Ok (mkCert sni None)) | Err e => (w, Err e) end
    | None => (w, Err "not managed")
    end;
  LetsEncryptProductionCA := "https://acme.example/directory"
|}.

#[local] Instance ledger_laws : OrderLaws ledger (fun w => w).
Proof.
  split; cbn.
  - intros m names w n. by rewrite elem_of_app.
  - intros m h sni w n. destruct (g_OnDemand m) as [f|]; [|by left]. destruct (f h sni) as [[]|e] eqn:Ef; cbn; [|by left].
    rewrite elem_of_app, list_elem_of_singleton. intros [?| ->]; [by left|right; eauto].
Qed.

Definition bmc : ProxyRule := mkRule "https://10.0.0.5" false false true [] [] 0 [].
Definition conf (mode : string) (hosts : gmap string ProxyRule) : Config :=
  let c := defaults in
  mkConfig c.(Listen) c.(DBPath) 20 "" "" "" c.(NamedConf) 300 50 mode "cert.pem" "key.pem" "ns.example" "" "" c.(ACMEStorage)
    "key." "hmac-sha256" "c2VjcmV0" c.(DNSServer) c.(TSIGName) c.(TSIGAlgo) "c2VjcmV0" "" [] [] "" true "" "" hosts c.(Config.Admin) [] [].

Definition unreadable : disk := mkDisk (Err "no such file") None.
Definition hello (sni : string) : event := Hello (still unreadable) (still unreadable) sni 50.
Definition built := buildTLS (conf TLSHybrid ∅) unreadable unreadable [].
Definition life := foldl (on TlsExample.names) (mkTls (conf TLSHybrid ∅) (from_ok (FileSource (mkFiles None None)) built.2), built.1).

(** Without a file pair every handshake goes to ACME, whose gate holds back
    what is not configured; a host can be ordered from its reload on. *)
Example orders_follow :
  (life [hello "bmc.example"; hello "evil.example"; hello "ns.example"; Reload (conf TLSHybrid {["bmc.example" := bmc]}) true;
         hello "evil.example"; hello "bmc.example"]).2 = ["ns.example"; "bmc.example"].
Proof. vm_compute. reflexivity. Qed.

Lemma orders_configured_witness :
  (forall n, n ∈ built.1 -> n ∈ [] \/ (TLSHybrid = TLSACME /\ (n = ACMEDomain (conf TLSHybrid ∅) \/ managed (conf TLSHybrid ∅) n))) /\
  let '(t, w) := life [Reload (conf TLSHybrid {["bmc.example" := bmc]}) true] in
  (forall ms1 ms2 sni now n, n ∈ (on TlsExample.names (t, w) (Hello ms1 ms2 sni now)).2 ->
     n ∈ w \/ (TLSHybrid = TLSHybrid /\ known (t_cfg t) n)) /\
  (forall c anew n, n ∈ (on TlsExample.names (t, w) (Reload c anew)).2 -> n ∈ w \/ (TLSHybrid = TLSACME /\ managed c n)).
Proof.
  assert (Hb : buildTLS (conf TLSHybrid ∅) unreadable unreadable [] = (built.1, Ok (from_ok (FileSource (mkFiles None None)) built.2))).
  { rewrite <- (from_ok_ok (FileSource (mkFiles None None)) built.2) by (vm_compute; reflexivity). apply surjective_pairing. }
  exact (orders_configured TlsExample.names (fun w => w) (conf TLSHybrid ∅) unreadable unreadable [] built.1 _
    [Reload (conf TLSHybrid {["bmc.example" := bmc]}) true] Hb).
Defined.

End AcmeExample.
