(* ===== verification/FileWatch.v ===== *)
(** * FileWatch: polling a file for changes

    [internal/filewatch/watcher.go]: a change is noticed by the modification
    time first and the hash of the content then. SHA-256 is a parameter. *)

From Stdlib Require Import String.
From S2P Require Import Prelude.

(** What a poll finds: the time [Stat] gives, if the file is there; the
    content, if it can be opened and read. *)
Record observed := mkObserved { o_mtime : option Z; o_data : option string }.

Record Watcher := mkWatcher { w_mod : Z; w_sum : string; w_have : bool }.

Definition New : Watcher := mkWatcher 0 "" false.

Section watch.
Context (sha256 : string -> string).

Definition Changed (o : observed) (w : Watcher) : option string * Watcher :=
  match o_mtime o with
  | None => (None, mkWatcher (w_mod w) (w_sum w) false)
  | Some t =>
      if w_have w && (t =? w_mod w) then (None, w)
      else match o_data o with
           | None => (None, w)
           | Some b =>
               if w_have w && String.eqb (sha256 b) (w_sum w) then (None, mkWatcher t (w_sum w) (w_have w))
               else (Some b, mkWatcher t (sha256 b) true)
           end
  end.

Fixpoint polls (w : Watcher) (os : list observed) : list (option string) :=
  match os with [] => [] | o :: os' => let '(r, w') := Changed o w in r :: polls w' os' end.

(** ** The specification: the content there was when it was last seen *)

Definition Seen (o : observed) (last : option string) : option string * option string :=
  match o_mtime o, o_data o with
  | None, _ => (None, None)
  | Some _, None => (None, last)
  | Some _, Some b => if decide (last = Some b) then (None, last) else (Some b, Some b)
  end.

Fixpoint seen (last : option string) (os : list observed) : list (option string) :=
  match os with [] => [] | o :: os' => let '(r, last') := Seen o last in r :: seen last' os' end.

(** File times tell contents apart. *)
Definition honest (os : list observed) : Prop :=
  forall o o' t, o ∈ os -> o' ∈ os -> o_mtime o = Some t -> o_mtime o' = Some t -> o_data o = o_data o'.

Context (sha_inj : forall a b, sha256 a = sha256 b -> a = b).

Definition agrees (all : list observed) (w : Watcher) (last : option string) : Prop :=
  match last with
  | None => w_have w = false
  | Some c => w_have w = true /\ w_sum w = sha256 c /\ exists o, o ∈ all /\ o_mtime o = Some (w_mod w) /\ o_data o = Some c
  end.

Lemma Changed_agrees all o w last : honest all -> o ∈ all -> agrees all w last ->
  (Changed o w).1 = (Seen o last).1 /\ agrees all (Changed o w).2 (Seen o last).2.
Proof.
  intros Hh Ho Ha. unfold Changed, Seen. destruct (o_mtime o) as [t|] eqn:Et; [|done].
  destruct last as [c|]; cbn in Ha.
  - destruct Ha as (Hv & Hs & o' & Ho' & Ht' & Hd'). rewrite Hv. cbn [andb]. destruct (Z.eqb_spec t (w_mod w)) as [->|Hne].
    + rewrite (Hh o o' (w_mod w)), Hd' by done. rewrite decide_True by done.
      split; [done|]. split_and!; [done..|by exists o'].
    + destruct (o_data o) as [b|] eqn:Eb; [|split; [done|]; split_and!; [done..|by exists o']].
      destruct (String.eqb_spec (sha256 b) (w_sum w)) as [Hb|Hb].
      * rewrite Hs in Hb. apply sha_inj in Hb as ->. rewrite decide_True by done.
        split; [done|]. split_and!; [done..|by exists o].
      * rewrite decide_False by (intros [= ->]; congruence). split; [done|]. split_and!; [done..|by exists o].
  - rewrite Ha. cbn [andb]. destruct (o_data o) as [b|] eqn:Eb; cbn; [|done].
    split; [done|]. split_and!; [done..|by exists o].
Qed.

(** Polling with times and hashes reports exactly what comparing contents
    at every poll would: the first content, each content that differs from
    the last one seen, and a file that went missing as new when it is back;
    a touch or a rewrite of the same content is not reported. *)
Theorem Changed_refines os : honest os -> polls New os = seen None os.
Proof.
  intros Hh. assert (H : forall os' w last, (forall o, o ∈ os' -> o ∈ os) -> agrees os w last -> polls w os' = seen last os').
  { induction os' as [|o os' IH]; intros w last Hin Ha; [done|]. cbn [polls seen].
    destruct (Changed_agrees os o w last Hh (Hin o ltac:(by left)) Ha) as [H1 H2].
    destruct (Changed o w) as [r w'], (Seen o last) as [r' last']. cbn in *. subst r'. f_equal.
    apply IH; [|done]. intros; apply Hin; by right. }
  by apply H.
Qed.

End watch.

Module WatchExample.

Definition os : list observed :=
  [mkObserved (Some 1) (Some "a"); mkObserved (Some 1) (Some "a"); mkObserved (Some 2) (Some "a"); mkObserved (Some 3) (Some "b");
   mkObserved None None; mkObserved (Some 3) (Some "b")].

Lemma honest_os : honest os.
Proof.
  intros o o' t Ho Ho' Ht Ht'. unfold os in *.
  repeat (apply elem_of_cons in Ho as [->|Ho]; [|]); repeat (apply elem_of_cons in Ho' as [->|Ho']; [|]);
    cbn in *; try done; try congruence; try (by apply elem_of_nil in Ho); by apply elem_of_nil in Ho'.
Qed.

Lemma Changed_refines_witness :
  polls (fun s => s) New os = [Some "a"; None; None; Some "b"; None; Some "b"].
Proof. exact (Changed_refines (fun s => s) (fun _ _ H => H) os honest_os). Defined.

End WatchExample.
