(* ===== verification/Serve.v ===== *)
(** * Serve: the daemon's loops

    [cmd/goddns/serve.go]: which handler a request on the proxy listener goes
    to, the console listeners, the flushing of the traffic counters to the
    database, and the reload loop that swaps a new configuration in. The
    listeners, the log files and the ACME management are parameters: what the
    calls on them answer. *)

From Stdlib Require Import String Ascii.
From S2P Require Import Prelude GoStrings NetIP DnsLib Encoding Ddns Config Limiter Proxy Tls.
From S2P Require Store Stats.

(** ** Log files *)

(** [lt_open]: the file that is open; an empty path means the fallback. *)
Record logTarget := mkTarget { lt_open : option string; lt_path : string }.

(** [Ok None]: nothing changed; [Ok (Some f)]: write to [f] from now on. *)
Definition swap (opens : string -> bool) (path : string) (t : logTarget) : result string (option (option string)) * logTarget :=
  if String.eqb path (lt_path t) then (Ok None, t)
  else if String.eqb path "" then (Ok (Some None), mkTarget None path)
  else if opens path then (Ok (Some (Some path)), mkTarget (Some path) path)
  else (Err path, t).

Record logs := mkLogs { lg_main : logTarget; lg_access : logTarget; lg_output : option string; lg_accessLogger : option string }.

Definition applyLogConfig (opens : string -> bool) (c : Config) (l : logs) : result string unit * logs :=
  match swap opens (LogFile c) (lg_main l) with
  | (Err e, _) => (Err e, l)
  | (Ok o, m) =>
      let l := mkLogs m (lg_access l) (default (lg_output l) o) (lg_accessLogger l) in
      match swap opens (AccessLog c) (lg_access l) with
      | (Err e, _) => (Err e, l)
      | (Ok o, a) => (Ok tt, mkLogs (lg_main l) a (lg_output l) (default (lg_accessLogger l) o))
      end
  end.

(** ** Which handler a request goes to *)

Inductive handler := ToAdmin | ToProxy.

Definition dispatch (adminHost : option string) (host : string) : handler :=
  match adminHost with
  | None => ToProxy
  | Some a =>
      let h := to_lower host in
      let h := match SplitHostPort h with Some (n, _) => n | None => h end in
      if String.eqb (trim_suffix "." h) a then ToAdmin else ToProxy
  end.

(** ** The console listeners *)

(** [m_active]: the listener of each port, numbered in the order they were
    opened; [m_closed]: the listeners closed so far. *)
Record consoleManager := mkManager { m_active : gmap Z nat; m_next : nat; m_closed : list nat }.

Definition newConsoleManager : consoleManager := mkManager ∅ 0 [].

Definition close_unwanted (ports : list Z) (m : consoleManager) : consoleManager :=
  mkManager (filter (fun kv => kv.1 ∈ ports) (m_active m)) (m_next m)
    (m_closed m ++ (snd <$> List.filter (fun kv => negb (bool_decide (kv.1 ∈ ports))) (map_to_list (m_active m)))).

Definition open_port (opens : Z -> bool) (m : consoleManager) (p : Z) : consoleManager :=
  match m_active m !! p with
  | Some _ => m
  | None => if opens p then mkManager (<[p := m_next m]> (m_active m)) (S (m_next m)) (m_closed m) else m
  end.

Definition sync (opens : Z -> bool) (ports : list Z) (m : consoleManager) : consoleManager :=
  foldl (open_port opens) (close_unwanted ports m) ports.

(** ** Persisting the traffic *)

Record snap := mkSnap { s_req : Z; s_in : Z; s_out : Z }.

Definition of_counters (k : Stats.counters) : snap := mkSnap (Stats.c_requests k) (Stats.c_in k) (Stats.c_out k).

(** One host of a flush, on day [day]; [fault] fails the database's calls. *)
Definition flush_host (fault : string -> nat -> option string) (day : string) (st : gmap string snap * Store.db)
  (hk : string * Stats.counters) : gmap string snap * Store.db :=
  let '(last, db) := st in
  let cur := of_counters hk.2 in
  let prev := default (mkSnap 0 0 0) (last !! hk.1) in
  let dReq := s_req cur - s_req prev in
  let dIn := s_in cur - s_in prev in
  let dOut := s_out cur - s_out prev in
  if (dReq <=? 0) && (dIn <=? 0) && (dOut <=? 0) then (<[hk.1 := cur]> last, db)
  else
    match Store.AddTraffic (fault hk.1) hk.1 day (Z.max 0 dReq) (Z.max 0 dIn) (Z.max 0 dOut) db with
    | (Ok _, db) => (<[hk.1 := cur]> last, db)
    | (Err _, db) => (last, db)
    end.

Definition flush (fault : string -> nat -> option string) (day : string) (stats : list (string * Stats.counters))
  (st : gmap string snap * Store.db) : gmap string snap * Store.db :=
  foldl (flush_host fault day) st stats.

(** ** The reload loop *)

Section reload.
Context {E : Env} {B : Bcrypt} {D : Dns}.

Record daemon := mkDaemon {
  d_cfg : Config; d_backend : RFC2136; d_table : gmap string rule; d_applied : list string; d_dirty : bool;
  d_sig : string; d_logs : logs; d_allow : option (gset string); d_ports : consoleManager; d_interval : Z
}.

Definition set_proxy (d : daemon) (table : gmap string rule) (applied : list string) (dirty : bool) : daemon :=
  mkDaemon (d_cfg d) (d_backend d) table applied dirty (d_sig d) (d_logs d) (d_allow d) (d_ports d) (d_interval d).

Definition set_sig (d : daemon) (s : string) : daemon :=
  mkDaemon (d_cfg d) (d_backend d) (d_table d) (d_applied d) (d_dirty d) s (d_logs d) (d_allow d) (d_ports d) (d_interval d).

(** What a step of the loop finds: [x_load] is what [config.Load] answers now,
    [x_manage] whether ACME takes the hosts. *)
Record moment := mkMoment {
  x_now : Z; x_sig : string; x_load : result config_error Config; x_manage : bool;
  x_opens_file : string -> bool; x_opens_port : Z -> bool
}.

(** Fixed at the start: whether there is a proxy, and in acme mode. *)
Context (proxied acme : bool).

Definition applyProxy (x : moment) (c : Config) (d : daemon) : daemon :=
  if negb proxied then d
  else if negb (ProxyEnabled c) then
    if (0 <? Z.of_nat (length (d_applied d)))
    then set_proxy d (Update (x_now x) ∅ (d_table d)).2 [] false
    else set_proxy d (d_table d) (d_applied d) false
  else
    match Update (x_now x) c.(Config.Proxy) (d_table d) with
    | (Err _, _) => set_proxy d (d_table d) (d_applied d) true
    | (Ok _, table) =>
        let hosts := ProxyHosts c in
        if acme && negb (bool_decide (hosts = d_applied d)) && negb (x_manage x)
        then set_proxy d table (d_applied d) true
        else set_proxy d table hosts false
    end.

Definition swap_in (x : moment) (c : Config) (b : RFC2136) (d : daemon) : daemon :=
  let d := applyProxy x c d in
  mkDaemon c b (d_table d) (d_applied d) (d_dirty d) (d_sig d) (applyLogConfig (x_opens_file x) c (d_logs d)).2
    ((fun _ => set_of (NormName <$> hybridNames c)) <$> d_allow d)
    (if proxied then sync (x_opens_port x) (console_ports c) (d_ports d) else d_ports d)
    (if 0 <? ReloadInterval c then ReloadInterval c else d_interval d).

Definition reload (x : moment) (d : daemon) : daemon :=
  let d := set_sig d (x_sig x) in
  match x_load x with
  | Err _ => d
  | Ok c =>
      match NewRFC2136 (DNSServer c) (TSIGName c) (TSIGAlgo c) (TSIGSecret c) with
      | Err _ => d
      | Ok b => swap_in x c b d
      end
  end.

(** A tick of the poll, which finds the configuration file changed or not, or
    a SIGHUP. *)
Inductive event := Tick (changed : bool) (x : moment) | Hup (x : moment).

Definition step (d : daemon) (e : event) : daemon :=
  match e with
  | Hup x => reload x d
  | Tick changed x =>
      if negb changed && String.eqb (x_sig x) (d_sig d)
      then if d_dirty d then applyProxy x (d_cfg d) d else d
      else reload x d
  end.

Definition moment_of (e : event) : moment := match e with Tick _ x | Hup x => x end.

(** The start: the daemon does not come up on an error. *)
Definition start (x : moment) (l : logs) : option daemon :=
  match x_load x with
  | Err _ => None
  | Ok c =>
      match applyLogConfig (x_opens_file x) c l, NewRFC2136 (DNSServer c) (TSIGName c) (TSIGAlgo c) (TSIGSecret c) with
      | (Ok _, l), Ok b =>
          let hybrid := if String.eqb (TLSMode c) TLSHybrid then Some (set_of (NormName <$> hybridNames c)) else None in
          let interval := if 0 <? ReloadInterval c then ReloadInterval c else 20 in
          if ProxyEnabled c then
            match Update (x_now x) c.(Config.Proxy) ∅ with
            | (Ok _, table) =>
                Some (mkDaemon c b table (ProxyHosts c) false (x_sig x) l hybrid
                        (sync (x_opens_port x) (console_ports c) newConsoleManager) interval)
            | (Err _, _) => None
            end
          else Some (mkDaemon c b ∅ (ProxyHosts c) false (x_sig x) l hybrid newConsoleManager interval)
      | _, _ => None
      end
  end.

End reload.

(** ** The console takes nothing from the proxied hosts *)

(** With a loaded configuration, the console gets exactly the requests for
    its own host, however the host is spelled in the request, and none of
    these would have been routed to an upstream. *)
Theorem console_shadows_nothing {E : Env} {B : Bcrypt} c table host :
  valid c -> Enabled c.(Admin) = true -> routes c.(Config.Proxy) table ->
  (dispatch (Some (Config.Host c.(Admin))) host = ToAdmin <-> hostKey host = Config.Host c.(Admin)) /\
  (dispatch (Some (Config.Host c.(Admin))) host = ToAdmin -> table !! hostKey host = None) /\
  (forall h, is_Some (c.(Config.Proxy) !! h) -> hostKey host = h -> dispatch (Some (Config.Host c.(Admin))) host = ToProxy).
Proof.
  intros Hc Ha Hr. destruct (ao_host _ (va_admin _ Hc Ha)) as [_ Hnone].
  assert (Hd : dispatch (Some (Config.Host c.(Admin))) host =
    if String.eqb (hostKey host) (Config.Host c.(Admin)) then ToAdmin else ToProxy) by done.
  rewrite Hd. destruct (String.eqb_spec (hostKey host) (Config.Host c.(Admin))) as [He|He].
  - split_and!; [done| |].
    + intros _. specialize (Hr (hostKey host)). rewrite He, Hnone in Hr. rewrite He. by destruct (table !! _).
    + intros h [v Hv] <-. rewrite He in Hv. congruence.
  - split_and!; done.
Qed.

(** ** Console ports *)

Lemma open_ports_spec opens ps m p :
  m_active (foldl (open_port opens) m ps) !! p = m_active m !! p \/
  (m_active m !! p = None /\ p ∈ ps /\ opens p = true /\ is_Some (m_active (foldl (open_port opens) m ps) !! p)).
Proof.
  revert m. induction ps as [|q ps IH]; intros m; [by left|]. cbn [foldl].
  assert (Hq : m_active (open_port opens m q) !! p = m_active m !! p \/
    (m_active m !! p = None /\ p = q /\ opens p = true /\ is_Some (m_active (open_port opens m q) !! p))).
  { unfold open_port. destruct (m_active m !! q) eqn:Eq; [by left|]. destruct (opens q) eqn:Eo; [|by left]. cbn.
    destruct (decide (p = q)) as [->|Hne]; [right; rewrite lookup_insert_eq; eauto|left; by rewrite lookup_insert_ne]. }
  destruct (IH (open_port opens m q)) as [Hs|(Hn & Hin & Ho & Hs)].
  - rewrite Hs. destruct Hq as [->|(? & -> & ? & ?)]; [by left|right]. split_and!; [done|by left|done|done].
  - right. destruct Hq as [Hq|(? & -> & ? & [? Hx])]; [|congruence]. rewrite Hq in Hn. split_and!; [done|by right|done|done].
Qed.

Lemma open_ports_wanted opens ps m p : p ∈ ps -> opens p = true -> is_Some (m_active (foldl (open_port opens) m ps) !! p).
Proof.
  revert m. induction ps as [|q ps IH]; intros m; [by intros ?%elem_of_nil|]. cbn [foldl].
  intros [->|Hp]%elem_of_cons Ho; [|by apply IH].
  assert (Hq : is_Some (m_active (open_port opens m q) !! q)).
  { unfold open_port. destruct (m_active m !! q) eqn:Eq; [by rewrite Eq|]. rewrite Ho. cbn. by rewrite lookup_insert_eq. }
  destruct (open_ports_spec opens ps (open_port opens m q) q) as [->|(_ & _ & _ & ?)]; done.
Qed.

Lemma open_ports_closed opens ps m : m_closed (foldl (open_port opens) m ps) = m_closed m.
Proof.
  revert m. induction ps as [|q ps IH]; intros m; [done|]. cbn [foldl]. rewrite IH.
  unfold open_port. by repeat case_match.
Qed.

Lemma close_unwanted_lookup ports m p :
  m_active (close_unwanted ports m) !! p = if decide (p ∈ ports) then m_active m !! p else None.
Proof.
  cbn. rewrite map_lookup_filter. destruct (m_active m !! p); cbn; [|by case_decide].
  case_decide; [by rewrite option_guard_True|by rewrite option_guard_False].
Qed.

Lemma sync_kept opens ports m p l : p ∈ ports -> m_active m !! p = Some l -> m_active (sync opens ports m) !! p = Some l.
Proof.
  intros Hp Hl. unfold sync. destruct (open_ports_spec opens ports (close_unwanted ports m) p) as [->|(Hn & _)];
    rewrite close_unwanted_lookup, decide_True in * by done; [done|congruence].
Qed.

(** After a reload the console listens on exactly the wanted ports, but
    for those that were not open and cannot be opened, which the next reload
    tries again; a port that stays keeps its listener, so no session is cut,
    and the listeners closed are exactly those of the ports dropped. *)
Theorem sync_spec opens ports m :
  let m' := sync opens ports m in
  (forall p, is_Some (m_active m' !! p) <-> p ∈ ports /\ (is_Some (m_active m !! p) \/ opens p = true)) /\
  (forall p l, p ∈ ports -> m_active m !! p = Some l -> m_active m' !! p = Some l) /\
  (forall l, l ∈ m_closed m' <-> l ∈ m_closed m \/ exists p, p ∉ ports /\ m_active m !! p = Some l).
Proof.
  cbn zeta. split_and!.
  - intros p. destruct (decide (p ∈ ports)) as [Hp|Hp].
    + destruct (m_active m !! p) as [l|] eqn:El; [rewrite (sync_kept _ _ _ _ _ Hp El); naive_solver|].
      split; [intros Hs; split; [done|right]|intros [_ [[? ?]|Ho]]; [done|by apply open_ports_wanted]].
      unfold sync in Hs. destruct (open_ports_spec opens ports (close_unwanted ports m) p) as [He|(_ & _ & Ho & _)]; [|done].
      rewrite He, close_unwanted_lookup, decide_True, El in Hs by done. by destruct Hs.
    + split; [|tauto]. intros Hs. unfold sync in Hs.
      destruct (open_ports_spec opens ports (close_unwanted ports m) p) as [He|(_ & Hin & _)]; [|done].
      rewrite He, close_unwanted_lookup, decide_False in Hs by done. by destruct Hs.
  - intros p l. apply sync_kept.
  - intros l. unfold sync. rewrite open_ports_closed. cbn. rewrite elem_of_app, list_elem_of_fmap. f_equiv. split.
    + intros ([p l'] & -> & [Hin%elem_of_map_to_list Hb]%elem_of_bfilter). exists p. cbn in Hb.
      split; [|done]. by destruct (decide (p ∈ ports)); [rewrite bool_decide_true in Hb|].
    + intros (p & Hp & Hl). exists (p, l). split; [done|]. apply elem_of_bfilter. split; [by apply elem_of_map_to_list|].
      cbn. by rewrite bool_decide_false.
Qed.

(** ** Traffic *)

Section flush.
Context (f : Store.TrafficRow -> Z) (g : snap -> Z).
Hypothesis f_add : forall r i o t, f (Store.add_counts r i o t) = f t + f (Store.mkTraffic "" "" r i o).
Hypothesis f_key : forall h p r i o, f (Store.mkTraffic h p r i o) = f (Store.mkTraffic "" "" r i o).
Hypothesis f_snap : forall r i o, f (Store.mkTraffic "" "" r i o) = g (mkSnap r i o).
Hypothesis g_sub : forall a b, g (mkSnap (s_req a - s_req b) (s_in a - s_in b) (s_out a - s_out b)) = g a - g b.

(** What the database holds for host [h], over all days. *)
Definition persisted (h : string) (db : Store.db) : Z := Store.total f (fun t => String.eqb (Store.tr_Host t) h) (Store.traffic db).

Definition flushed (h : string) (last : gmap string snap) : Z := g (default (mkSnap 0 0 0) (last !! h)).

Definition snap_le (a b : snap) : Prop := s_req a <= s_req b /\ s_in a <= s_in b /\ s_out a <= s_out b.

Definition unique_rows (db : Store.db) : Prop := NoDup (Store.row_key <$> Store.traffic db).

Lemma unique_rows_AddTraffic fault h day r i o db : unique_rows db -> unique_rows (Store.AddTraffic fault h day r i o db).2.
Proof.
  unfold unique_rows, Store.AddTraffic, Store.stmt, Store.commit. destruct (fault 0%nat); cbn; [done|]. apply Store.nodup_upsert.
Qed.

Lemma persisted_AddTraffic fault h day r i o db res db' : unique_rows db ->
  Store.AddTraffic fault h day r i o db = (res, db') ->
  forall x, persisted x db' = persisted x db + (if is_ok res && String.eqb h x then g (mkSnap r i o) else 0).
Proof.
  intros Hu H x. unfold Store.AddTraffic, Store.stmt, Store.commit in H. destruct (fault 0%nat); injection H as <- <-; cbn; [lia|].
  unfold persisted. cbn. rewrite (Store.total_upsert f f_add f_key); [|by intros t t' [= Hh _]; cbn; rewrite Hh|done].
  cbn. rewrite f_snap. done.
Qed.

Lemma flush_host_spec fault day last db h k last' db' :
  unique_rows db -> snap_le (default (mkSnap 0 0 0) (last !! h)) (of_counters k) ->
  flush_host fault day (last, db) (h, k) = (last', db') ->
  unique_rows db' /\ (forall x, x <> h -> last' !! x = last !! x) /\
  (last' !! h = last !! h \/ last' !! h = Some (of_counters k)) /\
  ((forall n, fault h n = None) -> last' !! h = Some (of_counters k)) /\
  forall x, persisted x db' - flushed x last' = persisted x db - flushed x last.
Proof.
  intros Hu (H1 & H2 & H3). unfold flush_host. cbn [fst snd].
  set (prev := default (mkSnap 0 0 0) (last !! h)) in *. set (cur := of_counters k) in *. cbn zeta.
  destruct (_ && _) eqn:Eb.
  { intros [= <- <-]. bsplit. split; [done|]. split; [intros x Hx; by rewrite lookup_insert_ne|].
    rewrite lookup_insert_eq. split; [by right|]. split; [done|]. intros x. unfold flushed.
    destruct (decide (x = h)) as [->|Hx]; [rewrite lookup_insert_eq|by rewrite lookup_insert_ne].
    fold prev. cbn [default]. assert (cur = prev) as ->; [|done].
    destruct cur, prev. cbn in *. f_equal; lia. }
  rewrite !Z.max_r by lia.
  destruct (Store.AddTraffic (fault h) h day _ _ _ db) as [r db1] eqn:Ea.
  pose proof (unique_rows_AddTraffic (fault h) h day (s_req cur - s_req prev) (s_in cur - s_in prev) (s_out cur - s_out prev) db Hu) as Hu'.
  pose proof (persisted_AddTraffic _ _ _ _ _ _ _ _ _ Hu Ea) as Hp. rewrite Ea in Hu'. cbn in Hu'.
  assert (Hno : (forall n, fault h n = None) -> is_ok r = true).
  { intros Hn. unfold Store.AddTraffic, Store.stmt, Store.commit in Ea. rewrite Hn in Ea. by injection Ea as <- _. }
  destruct r as [[]|e]; intros [= <- <-].
  - split; [done|]. split; [intros x Hx; by rewrite lookup_insert_ne|]. rewrite lookup_insert_eq.
    split; [by right|]. split; [done|]. intros x. rewrite Hp. cbn [is_ok andb]. rewrite g_sub. unfold flushed.
    destruct (String.eqb_spec h x) as [<-|Hx]; [rewrite lookup_insert_eq; fold prev; cbn; lia|].
    rewrite lookup_insert_ne by done. lia.
  - split; [done|]. split; [done|]. split; [by left|]. split; [intros Hn; by apply Hno in Hn|].
    intros x. rewrite Hp. cbn. lia.
Qed.

Lemma flush_spec fault day stats last db last' db' :
  unique_rows db -> NoDup stats.*1 ->
  (forall h k, (h, k) ∈ stats -> snap_le (default (mkSnap 0 0 0) (last !! h)) (of_counters k)) ->
  flush fault day stats (last, db) = (last', db') ->
  unique_rows db' /\ (forall h, h ∉ stats.*1 -> last' !! h = last !! h) /\
  (forall h k, (h, k) ∈ stats -> last' !! h = last !! h \/ last' !! h = Some (of_counters k)) /\
  (forall h k, (h, k) ∈ stats -> (forall n, fault h n = None) -> last' !! h = Some (of_counters k)) /\
  forall x, persisted x db' - flushed x last' = persisted x db - flushed x last.
Proof.
  revert last db. induction stats as [|[h k] stats IH]; intros last db Hu Hnd Hle.
  { intros [= <- <-]. split_and!; try done; intros ? ? []%elem_of_nil. }
  cbn [flush foldl]. fold (flush fault day stats (flush_host fault day (last, db) (h, k))).
  destruct (flush_host fault day (last, db) (h, k)) as [last1 db1] eqn:E1.
  cbn in Hnd. apply NoDup_cons in Hnd as [Hn Hnd].
  destruct (flush_host_spec _ _ _ _ _ _ _ _ Hu (Hle h k ltac:(by left)) E1) as (Hu1 & Ho1 & Hor1 & Hno1 & Hp1).
  assert (Hne : forall h' k', (h', k') ∈ stats -> h' <> h).
  { intros h' k' Hin ->. apply Hn. apply list_elem_of_fmap. by exists (h, k'). }
  intros E. destruct (IH last1 db1 Hu1 Hnd) as (Hu' & Ho & Hor & Hno & Hp); [|exact E|].
  { intros h' k' Hin. rewrite Ho1 by eauto. apply Hle. by right. }
  split; [done|]. split; [|split; [|split]].
  - intros x Hx. cbn in Hx. rewrite not_elem_of_cons in Hx. rewrite Ho by tauto. apply Ho1. tauto.
  - intros h' k' [[= -> ->]|Hin]%elem_of_cons; [by rewrite Ho|]. rewrite <- (Ho1 h') by eauto. by apply Hor.
  - intros h' k' [[= -> ->]|Hin]%elem_of_cons Hf; [rewrite Ho by done; by apply Hno1|by apply (Hno _ _ Hin)].
  - intros x. by rewrite Hp, Hp1.
Qed.

(** Ticks of the flusher: the faults, the day, and the counters there are. *)
Definition tick : Type := (string -> nat -> option string) * string * list (string * Stats.counters).

Definition flush_tick (st : gmap string snap * Store.db) (t : tick) : gmap string snap * Store.db :=
  flush t.1.1 t.1.2 t.2 st.

Definition see (m : gmap string snap) (t : tick) : gmap string snap :=
  foldl (fun m hk => <[hk.1 := of_counters hk.2]> m) m t.2.

(** No counter goes back: no host was removed and added again in between. *)
Fixpoint growing (m : gmap string snap) (ts : list tick) : Prop :=
  match ts with
  | [] => True
  | t :: ts' =>
      NoDup t.2.*1 /\ (forall h k, (h, k) ∈ t.2 -> snap_le (default (mkSnap 0 0 0) (m !! h)) (of_counters k)) /\
      growing (see m t) ts'
  end.

Lemma see_other m t h : h ∉ t.2.*1 -> see m t !! h = m !! h.
Proof.
  unfold see. generalize (t.2). intros l. revert m. induction l as [|[h' k] l IH]; intros m Hn; [done|].
  cbn in Hn. rewrite not_elem_of_cons in Hn. cbn. rewrite IH by tauto. apply lookup_insert_ne. naive_solver.
Qed.

Lemma see_in m t h k : NoDup t.2.*1 -> (h, k) ∈ t.2 -> see m t !! h = Some (of_counters k).
Proof.
  unfold see. generalize (t.2). intros l. revert m. induction l as [|[h' k'] l IH]; intros m; [by intros _ ?%elem_of_nil|].
  cbn. intros [Hn Hnd]%NoDup_cons [[= <- <-]|Hin]%elem_of_cons; [|by apply IH].
  change (see (<[h := of_counters k]> m) ((fun _ _ => None), "", l) !! h = Some (of_counters k)).
  rewrite see_other by done. apply lookup_insert_eq.
Qed.

Lemma snap_le_refl a : snap_le a a.
Proof. unfold snap_le. lia. Qed.

Lemma snap_le_trans a b c : snap_le a b -> snap_le b c -> snap_le a c.
Proof. unfold snap_le. lia. Qed.

Lemma flushes_spec ts m last db : unique_rows db -> growing m ts ->
  (forall h, snap_le (default (mkSnap 0 0 0) (last !! h)) (default (mkSnap 0 0 0) (m !! h))) ->
  let st := foldl flush_tick (last, db) ts in
  unique_rows st.2 /\
  (forall x, persisted x st.2 - flushed x st.1 = persisted x db - flushed x last) /\
  (forall h, snap_le (default (mkSnap 0 0 0) (st.1 !! h)) (default (mkSnap 0 0 0) (foldl see m ts !! h))).
Proof.
  revert m last db. induction ts as [|t ts IH]; intros m last db Hu Hg Hle; [done|].
  destruct Hg as (Hnd & Hin & Hg). cbn [foldl]. destruct (flush_tick (last, db) t) as [last1 db1] eqn:E1.
  assert (Hin' : forall h k, (h, k) ∈ t.2 -> snap_le (default (mkSnap 0 0 0) (last !! h)) (of_counters k)).
  { intros h k Hk. eapply snap_le_trans; [apply Hle|by apply Hin]. }
  destruct (flush_spec _ _ _ _ _ _ _ Hu Hnd Hin' E1) as (Hu1 & Ho & Hor & _ & Hp).
  destruct (IH (see m t) last1 db1 Hu1 Hg) as (H1 & H2 & H3).
  { intros h. destruct (decide (h ∈ t.2.*1)) as [Hh|Hh]; [|rewrite Ho, see_other by done; apply Hle].
    apply list_elem_of_fmap in Hh as ([h' k] & -> & Hk). cbn. rewrite (see_in _ _ _ _ Hnd Hk). cbn.
    destruct (Hor _ _ Hk) as [->| ->]; [by apply Hin'|apply snap_le_refl]. }
  split_and!; [done|intros x; by rewrite H2, Hp|done].
Qed.

End flush.

Lemma growing_app m ts t : growing m (ts ++ [t]) -> growing m ts /\ growing (foldl see m ts) [t].
Proof.
  revert m. induction ts as [|t' ts IH]; intros m; [done|]. cbn [app growing foldl].
  intros (? & ? & Hg). apply IH in Hg as [? ?]. done.
Qed.

(** The three columns. *)
Inductive column := Requests | BytesIn | BytesOut.

Definition row_col (c : column) : Store.TrafficRow -> Z :=
  match c with Requests => Store.tr_Requests | BytesIn => Store.tr_BytesIn | BytesOut => Store.tr_BytesOut end.

Definition snap_col (c : column) : snap -> Z :=
  match c with Requests => s_req | BytesIn => s_in | BytesOut => s_out end.

(** C36: traffic is persisted once. As long as no counter is reset, after any
    number of flushes, on any days and with any of the database's writes
    failing, what the database has gained for a host is exactly what was
    counted up to that host's last flush that went through: a failed write is
    made up for by the next, and nothing is added twice. A flush whose writes
    all succeed leaves nothing behind. *)
Theorem traffic_persisted_once c ts t db h :
  unique_rows db -> growing ∅ (ts ++ [t]) ->
  let before := foldl flush_tick (∅, db) ts in
  let st := flush_tick before t in
  persisted (row_col c) h st.2 = persisted (row_col c) h db + snap_col c (default (mkSnap 0 0 0) (st.1 !! h)) /\
  snap_le (default (mkSnap 0 0 0) (st.1 !! h)) (default (mkSnap 0 0 0) (foldl see ∅ (ts ++ [t]) !! h)) /\
  forall k, (h, k) ∈ t.2 -> (forall n, t.1.1 h n = None) ->
    persisted (row_col c) h st.2 = persisted (row_col c) h db + snap_col c (of_counters k).
Proof.
  intros Hu Hg. cbn zeta.
  assert (f_add : forall r i o t, row_col c (Store.add_counts r i o t) = row_col c t + row_col c (Store.mkTraffic "" "" r i o))
    by (by destruct c).
  assert (f_key : forall h p r i o, row_col c (Store.mkTraffic h p r i o) = row_col c (Store.mkTraffic "" "" r i o))
    by (by destruct c).
  assert (f_snap : forall r i o, row_col c (Store.mkTraffic "" "" r i o) = snap_col c (mkSnap r i o)) by (by destruct c).
  assert (g_sub : forall a b, snap_col c (mkSnap (s_req a - s_req b) (s_in a - s_in b) (s_out a - s_out b)) =
    snap_col c a - snap_col c b) by (by destruct c).
  assert (Hempty : forall h, flushed (snap_col c) h ∅ = 0) by (intros; unfold flushed; rewrite lookup_empty; by destruct c).
  apply growing_app in Hg as [Hg1 Hg2].
  destruct (flushes_spec (row_col c) (snap_col c) f_add f_key f_snap g_sub ts ∅ ∅ db Hu Hg1) as (Hu1 & Hp1 & Hle1);
    [intros; apply snap_le_refl|].
  destruct (foldl flush_tick (∅, db) ts) as [last1 db1]. cbn [fst snd] in *.
  destruct (flushes_spec (row_col c) (snap_col c) f_add f_key f_snap g_sub [t] _ last1 db1 Hu1 Hg2 Hle1) as (_ & Hp2 & Hle2).
  cbn [foldl] in Hp2, Hle2. rewrite foldl_app. destruct Hg2 as (Hnd & Hin & _).
  destruct (flush_tick (last1, db1) t) as [last2 db2] eqn:E2. cbn [fst snd] in *.
  assert (Hp : persisted (row_col c) h db2 = persisted (row_col c) h db + flushed (snap_col c) h last2).
  { specialize (Hp1 h). specialize (Hp2 h). rewrite Hempty in Hp1. lia. }
  split; [done|]. split; [apply Hle2|]. intros k Hk Hf.
  destruct (flush_spec (row_col c) (snap_col c) f_add f_key f_snap g_sub _ _ _ _ _ _ _ Hu1 Hnd
    (fun h k Hk => snap_le_trans _ _ _ (Hle1 h) (Hin h k Hk)) E2) as (_ & _ & _ & Hno & _).
  rewrite Hp. unfold flushed. by rewrite (Hno _ _ Hk Hf).
Qed.

(** ** The reload loop keeps the routes right *)

Section loop.
Context {E : Env} {B : Bcrypt} {D : Dns} (with_origin : string -> string -> string -> option string).
Context (acme : bool).

(** What happens to a daemon that was started with a proxy: steps of the loop
    and requests, in any order. *)
Inductive input := Loop (e : event) | Request (now : Z) (q : request).

Definition act (d : daemon) (i : input) : daemon :=
  match i with
  | Loop e => step true acme d e
  | Request now q => set_proxy d (ServeHTTP with_origin now q (d_table d)).2 (d_applied d) (d_dirty d)
  end.

(** The configurations come from [Load], so they are valid. *)
Definition loaded (x : moment) : Prop := forall c, x_load x = Ok c -> valid c.

Definition moments_loaded (ins : list input) : Prop := forall e, Loop e ∈ ins -> loaded (moment_of e).

(** ACME took the hosts whenever it was asked. *)
Definition moments_managed (ins : list input) : Prop := acme = false \/ forall e, Loop e ∈ ins -> x_manage (moment_of e) = true.

(** The configuration a reload accepts. *)
Definition accepted (x : moment) : option Config :=
  match x_load x with
  | Ok c => if is_ok (NewRFC2136 (DNSServer c) (TSIGName c) (TSIGAlgo c) (TSIGSecret c)) then Some c else None
  | Err _ => None
  end.

Lemma Update_empty now prev : Update now ∅ prev = (Ok tt, ∅).
Proof. unfold Update. by rewrite map_to_list_empty. Qed.

Lemma applyProxy_enabled x c d cfg0 : valid c -> routes cfg0 (d_table d) -> ProxyEnabled c = true ->
  let d' := applyProxy true acme x c d in
  routes c.(Config.Proxy) (d_table d') /\ (d_dirty d' = false -> d_applied d' = ProxyHosts c) /\
  (acme = false \/ x_manage x = true -> d_dirty d' = false).
Proof.
  intros Hc Hr He. cbn zeta. unfold applyProxy. rewrite He. cbn [negb].
  destruct (Update_routes (x_now x) c cfg0 (d_table d) Hc Hr) as (t & -> & Ht).
  destruct (_ && _ && _) eqn:Eb; cbn; [|done]. split_and!; [done|done|]. bsplit. intros [->|Hm]; [done|]. congruence.
Qed.

Lemma applyProxy_disabled x c d : ProxyEnabled c = false ->
  let d' := applyProxy true acme x c d in
  d_dirty d' = false /\
  (d_applied d = [] -> d_table d' = d_table d /\ d_applied d' = []) /\
  (d_applied d <> [] -> d_table d' = ∅ /\ d_applied d' = []).
Proof.
  intros He. cbn zeta. unfold applyProxy. rewrite He. cbn [negb].
  destruct (d_applied d) as [|h hs] eqn:Ea; [done|].
  rewrite Update_empty. cbn. done.
Qed.

(** Whatever ACME answers. *)
Definition sound (d : daemon) : Prop :=
  valid (d_cfg d) /\ (exists cfg0, routes cfg0 (d_table d)) /\
  (ProxyEnabled (d_cfg d) = true -> routes (d_cfg d).(Config.Proxy) (d_table d) /\
     (d_dirty d = false -> d_applied d = ProxyHosts (d_cfg d))).

(** When ACME never fails. *)
Definition clean (d : daemon) : Prop :=
  d_dirty d = false /\ (ProxyEnabled (d_cfg d) = false -> d_table d = ∅ /\ d_applied d = []).

Lemma ProxyHosts_nil c : ProxyHosts c = [] -> c.(Config.Proxy) = ∅.
Proof.
  intros H. apply map_eq. intros h. rewrite lookup_empty. apply eq_None_not_Some. intros [r Hr].
  assert (Hin : h ∈ ProxyHosts c).
  { unfold ProxyHosts, sort_strings. rewrite elem_of_sort_by, list_elem_of_fmap. exists (h, r).
    split; [done|]. by apply elem_of_map_to_list. }
  rewrite H in Hin. by apply elem_of_nil in Hin.
Qed.

Lemma routes_empty table : routes ∅ table -> table = ∅.
Proof.
  intros H. apply map_eq. intros h. specialize (H h). rewrite lookup_empty in *. by destruct (table !! h).
Qed.

Lemma applyProxy_sound x c d : valid c -> (exists cfg0, routes cfg0 (d_table d)) ->
  let d' := applyProxy true acme x c d in
  (exists cfg0, routes cfg0 (d_table d')) /\
  (ProxyEnabled c = true -> routes c.(Config.Proxy) (d_table d') /\ (d_dirty d' = false -> d_applied d' = ProxyHosts c)).
Proof.
  intros Hc [cfg0 Hr]. cbn zeta. destruct (ProxyEnabled c) eqn:Ee.
  - destruct (applyProxy_enabled x c d cfg0 Hc Hr Ee) as (H1 & H2 & _). eauto.
  - split; [|done]. destruct (applyProxy_disabled x c d Ee) as (_ & H1 & H2).
    destruct (decide (d_applied d = [])) as [Ha|Ha]; [destruct (H1 Ha) as [-> _]; eauto|].
    destruct (H2 Ha) as [-> _]. exists ∅. intros h. by rewrite !lookup_empty.
Qed.

Lemma applyProxy_clean x c d : valid c -> acme = false \/ x_manage x = true -> sound d -> clean d ->
  let d' := applyProxy true acme x c d in
  d_dirty d' = false /\ (ProxyEnabled c = false -> d_table d' = ∅ /\ d_applied d' = []).
Proof.
  intros Hc Hm (_ & [cfg0 Hr] & Hen) (Hd & Hoff). cbn zeta. destruct (ProxyEnabled c) eqn:Ee.
  { destruct (applyProxy_enabled x c d cfg0 Hc Hr Ee) as (_ & _ & H). split; [by apply H|done]. }
  destruct (applyProxy_disabled x c d Ee) as (H0 & H1 & H2). split; [done|]. intros _.
  destruct (decide (d_applied d = [])) as [Ha|Ha]; [|by apply H2]. destruct (H1 Ha) as [-> ->]. split; [|done].
  destruct (ProxyEnabled (d_cfg d)) eqn:Ec; [|by apply Hoff].
  destruct (Hen eq_refl) as [Hroutes Happ]. specialize (Happ Hd). rewrite Ha in Happ. symmetry in Happ.
  apply ProxyHosts_nil in Happ. rewrite Happ in Hroutes. by apply routes_empty.
Qed.

Lemma reload_cases x d :
  (accepted x = None /\ reload true acme x d = set_sig d (x_sig x)) \/
  exists c b, accepted x = Some c /\ x_load x = Ok c /\ reload true acme x d = swap_in true acme x c b (set_sig d (x_sig x)).
Proof.
  unfold accepted, reload. destruct (x_load x) as [c|]; [|by left].
  destruct (NewRFC2136 _ _ _ _) as [b|]; [right; eauto|by left].
Qed.

Lemma reload_sound x d : loaded x -> sound d -> sound (reload true acme x d).
Proof.
  intros Hx Hd. destruct (reload_cases x d) as [[_ ->]|(c & b & _ & Hl & ->)]; [done|].
  destruct Hd as (_ & Hr & _). destruct (applyProxy_sound x c (set_sig d (x_sig x)) (Hx c Hl) Hr) as [H1 H2].
  split; [by apply Hx|]. done.
Qed.

Lemma reload_clean x d : loaded x -> acme = false \/ x_manage x = true -> sound d -> clean d ->
  clean (reload true acme x d).
Proof.
  intros Hx Hm Hs Hd. destruct (reload_cases x d) as [[_ ->]|(c & b & _ & Hl & ->)]; [done|].
  exact (applyProxy_clean x c (set_sig d (x_sig x)) (Hx c Hl) Hm Hs Hd).
Qed.

Lemma ServeHTTP_empty now q : (ServeHTTP with_origin now q ∅).2 = ∅.
Proof. unfold ServeHTTP. by rewrite lookup_empty. Qed.

Lemma act_sound d i : moments_loaded [i] -> sound d -> sound (act d i).
Proof.
  intros Hl Hd. destruct i as [e|now q]; cbn.
  - specialize (Hl e ltac:(by left)). destruct e as [ch x|x]; cbn in *; [|by apply reload_sound].
    destruct (_ && _); [|by apply reload_sound]. destruct (d_dirty d); [|done].
    destruct Hd as (Hv & Hr & _). destruct (applyProxy_sound x (d_cfg d) d Hv Hr) as [H1 H2].
    assert (Hc : d_cfg (applyProxy true acme x (d_cfg d) d) = d_cfg d) by (unfold applyProxy; by repeat case_match).
    change (sound (applyProxy true acme x (d_cfg d) d)). unfold sound. by rewrite Hc.
  - destruct Hd as (Hv & [cfg0 Hr] & Hen). split; [done|]. cbn. split; [exists cfg0; by apply serve_routes|].
    intros He. destruct (Hen He) as [Hroutes Ha]. split; [by apply serve_routes|done].
Qed.

Lemma act_clean d i : moments_loaded [i] -> moments_managed [i] -> sound d -> clean d -> clean (act d i).
Proof.
  intros Hl Hm Hs Hd. destruct i as [e|now q]; cbn.
  - specialize (Hl e ltac:(by left)).
    assert (Hm' : acme = false \/ x_manage (moment_of e) = true) by (destruct Hm as [|Hm]; [by left|right; apply Hm; by left]).
    destruct e as [ch x|x]; cbn in *; [|by apply reload_clean].
    destruct (_ && _); [|by apply reload_clean]. destruct Hd as [Hdirty Hoff]. by rewrite Hdirty.
  - destruct Hd as [Hdirty Hoff]. split; [done|]. cbn. intros He. destruct (Hoff He) as [-> ->].
    by rewrite ServeHTTP_empty.
Qed.

Lemma acts_sound ins d : moments_loaded ins -> sound d -> sound (foldl act d ins).
Proof.
  revert d. induction ins as [|i ins IH]; intros d Hl Hd; [done|]. cbn. apply IH; [intros e He; apply Hl; by right|].
  apply act_sound; [|done]. intros e [<-|He]%elem_of_cons; [apply Hl; by left|by apply elem_of_nil in He].
Qed.

Lemma acts_clean ins d : moments_loaded ins -> moments_managed ins -> sound d -> clean d -> clean (foldl act d ins).
Proof.
  revert d. induction ins as [|i ins IH]; intros d Hl Hm Hs Hd; [done|]. cbn.
  assert (Hl1 : moments_loaded [i]).
  { intros e [<-|He]%elem_of_cons; [apply Hl; by left|by apply elem_of_nil in He]. }
  apply IH.
  - intros e He; apply Hl; by right.
  - destruct Hm as [|Hm]; [by left|]. right. intros e He. apply Hm. by right.
  - by apply act_sound.
  - apply act_clean; try done. destruct Hm as [|Hm]; [by left|]. right.
    intros e [<-|He]%elem_of_cons; [apply Hm; by left|by apply elem_of_nil in He].
Qed.

Lemma start_sound x l d : start x l = Some d -> loaded x -> ProxyEnabled (d_cfg d) = true -> sound d /\ clean d.
Proof.
  unfold start. intros H Hx He. destruct (x_load x) as [c|] eqn:El; [|done].
  destruct (applyLogConfig _ _ _) as [[]]; [|done]. destruct (NewRFC2136 _ _ _ _) as [b|]; [|done].
  pose proof (Hx c El) as Hc. destruct (ProxyEnabled c) eqn:Ec; [|injection H as <-; cbn in He; congruence].
  destruct (Update_routes (x_now x) c ∅ ∅ Hc) as (t & Hu & Ht); [intros h; by rewrite !lookup_empty|].
  rewrite Hu in H. injection H as <-. split; [split_and!; cbn; eauto|]. split; [done|]. cbn. congruence.
Qed.

(** C37: for a daemon that starts with the proxy on (one that starts without
    it makes no routes later either), whose configurations are those [Load]
    accepts: whatever is found at the polls and signals, readable or not,
    whatever ACME answers and whatever requests are served in between, the
    routes are those of the present configuration while it has the proxy on;
    a SIGHUP replaces the present configuration exactly by one that loads
    with a usable key; and a step that failed is made up for by the next
    poll that finds the files' signature unchanged, which leaves nothing to
    retry once ACME takes the hosts. *)
Theorem reloads_converge x0 l0 d0 ins :
  start x0 l0 = Some d0 -> loaded x0 -> ProxyEnabled (d_cfg d0) = true -> moments_loaded ins ->
  let d := foldl act d0 ins in
  valid (d_cfg d) /\
  (ProxyEnabled (d_cfg d) = true -> routes (d_cfg d).(Config.Proxy) (d_table d)) /\
  (forall x, d_cfg (act d (Loop (Hup x))) = default (d_cfg d) (accepted x)) /\
  (forall x, ProxyEnabled (d_cfg d) = true -> x_sig x = d_sig d -> acme = false \/ x_manage x = true ->
     let d' := act d (Loop (Tick false x)) in
     d_dirty d' = false /\ d_applied d' = ProxyHosts (d_cfg d) /\ routes (d_cfg d).(Config.Proxy) (d_table d')).
Proof.
  intros Hs Hx He Hl. cbn zeta. destruct (start_sound _ _ _ Hs Hx He) as [Hsound _].
  pose proof (acts_sound ins d0 Hl Hsound) as Hd. revert Hd. generalize (foldl act d0 ins). intros d (Hv & [cfg0 Hr] & Hen).
  split_and!; [done|by intros; apply Hen| |].
  - intros x. cbn. destruct (reload_cases x d) as [[-> ->]|(c & b & -> & _ & ->)]; done.
  - intros x Hon Hsig Hm. cbn. rewrite Hsig, String.eqb_refl. cbn [negb andb]. destruct (Hen Hon) as [Hroutes Happ].
    destruct (d_dirty d) eqn:Ed; [|split_and!; [done|by apply Happ|done]].
    destruct (applyProxy_enabled x (d_cfg d) d cfg0 Hv Hr Hon) as (H1 & H2 & H3).
    split_and!; [by apply H3|by apply H2, H3|done].
Qed.

(** Turning the proxy off empties the table, so every host is refused,
    as long as ACME took the hosts of every configuration before. *)
Theorem knob_off_empties x0 l0 d0 ins :
  start x0 l0 = Some d0 -> loaded x0 -> ProxyEnabled (d_cfg d0) = true -> moments_loaded ins -> moments_managed ins ->
  let d := foldl act d0 ins in
  ProxyEnabled (d_cfg d) = false ->
  d_table d = ∅ /\ forall now q, (ServeHTTP with_origin now q (d_table d)).1 = Refused 404.
Proof.
  intros Hs Hx He Hl Hm. cbn zeta. destruct (start_sound _ _ _ Hs Hx He) as [Hsound Hclean].
  destruct (acts_clean ins d0 Hl Hm Hsound Hclean) as [_ Hoff]. intros Hd. destruct (Hoff Hd) as [-> _].
  split; [done|]. intros now q. unfold ServeHTTP. by rewrite lookup_empty.
Qed.

End loop.

(** ** A daemon in acme mode *)

Module ServeExample.
#[local] Existing Instance Sample.dns.

Definition bmc : ProxyRule := mkRule "https://10.0.0.5" false false true [5900] [] 0 [].
Definition conf (on : bool) (hosts : gmap string ProxyRule) (c : Config) : Config :=
  mkConfig c.(Listen) c.(DBPath) 20 "" "" "" c.(NamedConf) 300 50 TLSACME "" "" "ns.example" "" "" c.(ACMEStorage) "" "" ""
    c.(DNSServer) c.(TSIGName) c.(TSIGAlgo) "c2VjcmV0" "" [] [] "" on "" "" hosts c.(Config.Admin) [] [].

#[local] Instance env : Env := {|
  toml_config text c :=
    if String.eqb text "/none" then Ok (conf true ∅ c, []) else if String.eqb text "/on" then Ok (conf true {["bmc.example" := bmc]} c, [])
    else if String.eqb text "/off" then Ok (conf false {["bmc.example" := bmc]} c, []) else Err "syntax";
  toml_proxy text := Err "syntax";
  url_parse s := if has_prefix "https://" s then Some (mkUrl "https" (trim_prefix "https://" s) false "" "" "") else None;
  getenv _ := "";
  read_file p := Ok p;
  glob_conf _ := [];
|}.
#[local] Instance bcrypt : Bcrypt := {| bcrypt_cost _ := true; bcrypt_compare := String.eqb |}.

Definition no_log : logs := mkLogs (mkTarget None "") (mkTarget None "") None None.
Definition at_ (path : string) (manage : bool) : moment := mkMoment 0 path (Load path) manage (fun _ => true) (fun _ => true).
Definition origin (raw scheme host : string) : option string := None.

Lemma at_loaded path m : loaded (at_ path m).
Proof. intros c Hc. by apply (load_sound path). Qed.

Definition dummy : daemon :=
  mkDaemon defaults (mkRFC2136 "" "" HmacSHA256 "") ∅ [] false "" no_log None newConsoleManager 20.
Definition d0 : daemon := default dummy (start (at_ "/none" true) no_log).

Lemma d0_start : start (at_ "/none" true) no_log = Some d0.
Proof. apply default_some. vm_compute. reflexivity. Qed.

Lemma hups_loaded ps : moments_loaded ((fun pm => Loop (Hup (at_ pm.1 pm.2))) <$> ps).
Proof. intros e He. apply list_elem_of_fmap in He as ([p m] & [= ->] & _). apply at_loaded. Qed.

(** The ACME server is down when the host is added: the routes are there at
    once, and the next poll takes care of the certificate. *)
Lemma reloads_converge_witness :
  let d := foldl (act origin true) d0 ((fun pm => Loop (Hup (at_ pm.1 pm.2))) <$> [("/on", false)]) in
  valid (d_cfg d) /\
  (ProxyEnabled (d_cfg d) = true -> routes (d_cfg d).(Config.Proxy) (d_table d)) /\
  (forall x, d_cfg (act origin true d (Loop (Hup x))) = default (d_cfg d) (accepted x)) /\
  (forall x, ProxyEnabled (d_cfg d) = true -> x_sig x = d_sig d -> true = false \/ x_manage x = true ->
     let d' := act origin true d (Loop (Tick false x)) in
     d_dirty d' = false /\ d_applied d' = ProxyHosts (d_cfg d) /\ routes (d_cfg d).(Config.Proxy) (d_table d')).
Proof.
  exact (reloads_converge origin true (at_ "/none" true) no_log d0 _ d0_start (at_loaded _ _) ltac:(vm_compute; reflexivity)
    (hups_loaded [("/on", false)])).
Defined.

Definition turned_off : daemon :=
  foldl (act origin true) d0 ((fun pm => Loop (Hup (at_ pm.1 pm.2))) <$> [("/on", true); ("/off", true)]).

Lemma knob_off_empties_witness : d_table turned_off = ∅ /\
  forall now q, (ServeHTTP origin now q (d_table turned_off)).1 = Refused 404.
Proof.
  assert (Hm : moments_managed true ((fun pm => Loop (Hup (at_ pm.1 pm.2))) <$> [("/on", true); ("/off", true)])).
  { right. intros e He. repeat (apply elem_of_cons in He as [[= ->]|He]; [done|]). by apply elem_of_nil in He. }
  exact (knob_off_empties origin true (at_ "/none" true) no_log d0 _ d0_start (at_loaded _ _) ltac:(vm_compute; reflexivity)
    (hups_loaded [("/on", true); ("/off", true)]) Hm ltac:(vm_compute; reflexivity)).
Defined.

(** The finding: when ACME does not take the hosts, they are routed all the
    same but not noted as applied, so turning the proxy off afterwards finds
    nothing to withdraw, and the host stays reachable. *)
Definition left_on : daemon :=
  foldl (act origin true) d0 ((fun pm => Loop (Hup (at_ pm.1 pm.2))) <$> [("/on", false); ("/off", true)]).

Example still_routed : (ProxyEnabled (d_cfg left_on), d_dirty left_on,
  (ServeHTTP origin 0 (mkReq "bmc.example" "192.0.2.1:5000" "/" true ∅ None) (d_table left_on)).1) =
  (false, false, Forward "10.0.0.5" "10.0.0.5" (match (ServeHTTP origin 0 (mkReq "bmc.example" "192.0.2.1:5000" "/" true ∅ None) (d_table left_on)).1 with
     Forward _ _ h => h | _ => ∅ end)).
Proof. vm_compute. reflexivity. Qed.

Definition at_day (f : string -> nat -> option string) (n : Z) : tick :=
  (f, "2026-01-02", [("bmc.example", Stats.mkCounters n 0 (10 * n) (100 * n) 0 0 0 0 0)]).
Definition fails (h : string) (n : nat) : option string := Some "locked".
Definition works (h : string) (n : nat) : option string := None.

(** Five requests, a flush that fails, two more, and one that works. *)
Lemma traffic_persisted_once_witness :
  persisted (row_col Requests) "bmc.example" (flush_tick (foldl flush_tick (∅, Store.empty_db) [at_day fails 5]) (at_day works 7)).2 = 0 + 7.
Proof.
  assert (Hg : growing ∅ ([at_day fails 5] ++ [at_day works 7])).
  { cbn. split_and!; try apply NoDup_singleton; try done; intros h k Hk; apply list_elem_of_singleton in Hk; injection Hk as -> ->;
      rewrite ?lookup_empty, ?lookup_insert_eq; unfold snap_le; cbn; lia. }
  destruct (traffic_persisted_once Requests [at_day fails 5] (at_day works 7) Store.empty_db "bmc.example" (NoDup_nil_2) Hg)
    as (_ & _ & H).
  exact (H _ ltac:(by left) (fun _ => eq_refl)).
Defined.

End ServeExample.

Module ConsoleExample.
Import ConfigExample ProxyExample.
#[local] Existing Instance ConfigExample.env.
#[local] Existing Instance ProxyExample.bcrypt.

Lemma console_shadows_nothing_witness :
  exists table, routes cfg.(Config.Proxy) table /\
  let host := "ADMIN.example.:8443" in
  (dispatch (Some (Config.Host cfg.(Admin))) host = ToAdmin <-> hostKey host = Config.Host cfg.(Admin)) /\
  (dispatch (Some (Config.Host cfg.(Admin))) host = ToAdmin -> table !! hostKey host = None) /\
  (forall h, is_Some (cfg.(Config.Proxy) !! h) -> hostKey host = h -> dispatch (Some (Config.Host cfg.(Admin))) host = ToProxy).
Proof.
  destruct (Update_routes 0 cfg ∅ ∅ cfg_valid) as (table & _ & Ht); [intros h; by rewrite !lookup_empty|].
  exists table. split; [exact Ht|].
  exact (console_shadows_nothing cfg table "ADMIN.example.:8443" cfg_valid ltac:(vm_compute; reflexivity) Ht).
Defined.

Example spelled : dispatch (Some (Config.Host cfg.(Admin))) "ADMIN.example.:8443" = ToAdmin.
Proof. vm_compute. reflexivity. Qed.

End ConsoleExample.
