(* ===== verification/Watch.v ===== *)
(** * Watch: what the daemon polls for, and its periodic work

    [cmd/goddns/serve.go]: the signature of the side files a poll compares
    ([watchSig]), the loop that persists and prunes the traffic
    ([runTrafficFlusher]), the loop that accepts console connections, and the
    two listeners of [runProxy]. *)

From Stdlib Require Import String Ascii.
From S2P Require Import Prelude GoStrings NetIP FS DnsLib Ddns Config Limiter Proxy Tls Serve.
From S2P Require Store Stats.

(** ** The signature of the side files *)

(** A file's size and its modification time in nanoseconds, when it can be
    asked for: both are an [int64]. *)
Definition stats : Type := string -> option (Z * Z).

Definition stat_line (name : string) (st : Z * Z) : string :=
  name +:+ ":" +:+ format_int st.1 +:+ ":" +:+ format_int st.2.

Definition fragment_files {E : Env} (confPath : string) : list string :=
  sort_strings (glob_conf (Join [Dir confPath; "proxy.d"])).

Definition sig_lines {E : Env} (stat : stats) (confPath : string) (cfg : Config) : list string :=
  omap (fun f => stat_line f <$> stat f) (fragment_files confPath) ++
  (if negb (String.eqb (TSIGKeysFile cfg) "")
   then option_list (stat_line "tsig" <$> stat (TSIGKeysFile cfg)) else []).

Definition watchSig {E : Env} (stat : stats) (confPath : string) (cfg : Config) : string := text_of (sig_lines stat confPath cfg).

(** *** It tells apart what it is about *)

(** What of the file system decides the signature. *)
Definition side_files {E : Env} (stat : stats) (confPath : string) (cfg : Config) : list (string * (Z * Z)) * option (Z * Z) :=
  (omap (fun f => pair f <$> stat f) (fragment_files confPath),
   if negb (String.eqb (TSIGKeysFile cfg) "") then stat (TSIGKeysFile cfg) else None).

Definition int64 (z : Z) : Prop := - (two64 / 2) <= z < two64 / 2.

(** The names of fragments: one line, ending in [.conf]. *)
Definition regular {E : Env} (stat : stats) (confPath : string) : Prop :=
  (forall f, f ∈ fragment_files confPath -> free_of newline f = true /\ has_suffix ".conf" f = true) /\
  (forall f st, stat f = Some st -> int64 st.1 /\ int64 st.2).

Lemma stat_line_inj a b x y : int64 x.1 -> int64 x.2 -> int64 y.1 -> int64 y.2 ->
  stat_line a x = stat_line b y -> a = b /\ x = y.
Proof.
  destruct x as [x1 x2], y as [y1 y2]. cbn [fst snd]. intros Hx1 Hx2 Hy1 Hy2 H. unfold stat_line in H. cbn [fst snd] in H.
  assert (Hd : forall p q : string, p +:+ ":" +:+ q = (p +:+ String ":" q)) by done.
  assert (Ha : forall n q : string, forall r, n +:+ String ":" (q +:+ String ":" r) = (n +:+ String ":" q) +:+ String ":" r).
  { intros n q r. rewrite str_app_assoc. done. }
  change (a +:+ String ":" (format_int x1 +:+ String ":" (format_int x2)) = b +:+ String ":" (format_int y1 +:+ String ":" (format_int y2))) in H.
  rewrite !Ha in H. apply last_field_inj in H as [H H2]; [|by apply format_int_free..].
  apply last_field_inj in H as [-> H1]; [|by apply format_int_free..].
  apply format_int_inj in H1, H2; [|done..]. by subst.
Qed.

Lemma stat_line_line a x : free_of newline a = true -> free_of newline (stat_line a x) = true.
Proof. intros Ha. unfold stat_line. rewrite !free_of_app, Ha, !format_int_free by done. done. Qed.

#[local] Arguments stat_line : simpl never.

Definition entry_line (e : string * (Z * Z)) : string := stat_line e.1 e.2.

Lemma sig_lines_of {E : Env} stat conf cfg : sig_lines stat conf cfg =
  (entry_line <$> (side_files stat conf cfg).1) ++ option_list (stat_line "tsig" <$> (side_files stat conf cfg).2).
Proof.
  unfold sig_lines, side_files. cbn [fst snd]. f_equal; [|by destruct (negb _)].
  induction (fragment_files conf) as [|f fs IH]; [done|]. cbn. destruct (stat f); cbn; by rewrite IH.
Qed.

Lemma side_files_regular {E : Env} stat conf cfg : regular stat conf ->
  Forall (fun e => free_of newline e.1 = true /\ e.1 <> "tsig" /\ int64 e.2.1 /\ int64 e.2.2) (side_files stat conf cfg).1 /\
  (forall st, (side_files stat conf cfg).2 = Some st -> int64 st.1 /\ int64 st.2).
Proof.
  intros [Hf Hs]. split.
  - apply Forall_forall. intros [f st] (f' & Hin & Hst)%list_elem_of_omap. destruct (stat f') as [st'|] eqn:Es; [|done].
    injection Hst as <- <-. destruct (Hf f' Hin) as [H1 H2]. cbn. split_and!; [done| |by eapply Hs..].
    intros ->. done.
  - intros st. cbn. destruct (negb _); [apply Hs|done].
Qed.

Definition entry_ok (e : string * (Z * Z)) : Prop := free_of newline e.1 = true /\ e.1 <> "tsig" /\ int64 e.2.1 /\ int64 e.2.2.
Definition stat_ok (o : option (Z * Z)) : Prop := forall st, o = Some st -> int64 st.1 /\ int64 st.2.

Lemma cons_inv {A} (x y : A) l k : x :: l = y :: k -> x = y /\ l = k.
Proof. by intros [= -> ->]. Qed.

Lemma lines_inj l1 l2 o1 o2 : Forall entry_ok l1 -> Forall entry_ok l2 -> stat_ok o1 -> stat_ok o2 ->
  (entry_line <$> l1) ++ option_list (stat_line "tsig" <$> o1) = (entry_line <$> l2) ++ option_list (stat_line "tsig" <$> o2) ->
  l1 = l2 /\ o1 = o2.
Proof.
  intros H1. revert l2. induction H1 as [|[f x] l1 (Hn & Hf & Hx1 & Hx2) _ IH]; intros l2 H2 Ho1 Ho2;
    (destruct H2 as [|[g y] l2 (Hn' & Hg & Hy1 & Hy2) H2]).
  - destruct o1 as [s1|], o2 as [s2|]; cbn; try done. intros [H _]%cons_inv.
    destruct (Ho1 _ eq_refl), (Ho2 _ eq_refl). apply stat_line_inj in H as [_ ->]; done.
  - destruct o1 as [s1|]; cbn; [|done]. intros [H _]%cons_inv. destruct (Ho1 _ eq_refl).
    apply stat_line_inj in H as [? _]; done.
  - destruct o2 as [s2|]; cbn; [|done]. intros [H _]%cons_inv. destruct (Ho2 _ eq_refl).
    apply stat_line_inj in H as [? _]; done.
  - cbn [fmap list_fmap app]. intros [H Hl]%cons_inv. unfold entry_line in H. cbn [fst snd] in H.
    apply stat_line_inj in H as [-> ->]; try done. destruct (IH l2 H2 Ho1 Ho2 Hl) as [-> ->]. done.
Qed.

Lemma sig_lines_lines {E : Env} stat conf cfg : regular stat conf -> Forall (fun l => free_of newline l = true) (sig_lines stat conf cfg).
Proof.
  intros [Hf _]. apply Forall_app. split.
  - apply Forall_forall. intros l (f & Hin & Hl)%list_elem_of_omap. destruct (stat f); [|done]. injection Hl as <-.
    by apply stat_line_line, Hf.
  - destruct (negb _); [|done]. destruct (stat (TSIGKeysFile cfg)); [|done]. apply Forall_singleton. by apply stat_line_line.
Qed.

Lemma watchSig_inj {E1 E2 : Env} stat1 stat2 conf c1 c2 : regular (E := E1) stat1 conf -> regular (E := E2) stat2 conf ->
  watchSig (E := E1) stat1 conf c1 = watchSig (E := E2) stat2 conf c2 <->
  side_files (E := E1) stat1 conf c1 = side_files (E := E2) stat2 conf c2.
Proof.
  intros H1 H2. unfold watchSig. split; [|intros H; by rewrite !sig_lines_of, H].
  intros H%(f_equal (split newline)). rewrite !split_text_of in H by (by apply sig_lines_lines).
  apply app_inj_tail in H as [H _]. rewrite !sig_lines_of in H.
  destruct (side_files_regular (E := E1) stat1 conf c1 H1) as [Ha Hb], (side_files_regular (E := E2) stat2 conf c2 H2) as [Hc Hd].
  apply lines_inj in H as [Hl Ho]; [|done..]. apply injective_projections; done.
Qed.

(** The poll misses nothing it is meant to see: it reads the configuration
    again exactly when the main file changed, or when, since the last reload, a
    fragment appeared or went, or the size or time of a fragment or of the key
    file changed; otherwise at most a proxy update that failed is tried again. *)
Theorem poll_sees_side_files {E0 E1 : Env} {D : Dns} proxied acme stat0 stat1 conf c0 changed (x : moment) (d : daemon) :
  regular (E := E0) stat0 conf -> regular (E := E1) stat1 conf ->
  d_sig d = watchSig (E := E0) stat0 conf c0 -> x_sig x = watchSig (E := E1) stat1 conf (d_cfg d) ->
  step (E := E1) proxied acme d (Tick changed x) =
    if changed || negb (bool_decide (side_files (E := E1) stat1 conf (d_cfg d) = side_files (E := E0) stat0 conf c0))
    then reload (E := E1) proxied acme x d
    else if d_dirty d then applyProxy (E := E1) proxied acme x (d_cfg d) d else d.
Proof.
  intros H0 H1 Hd Hx. cbn [step]. rewrite Hd, Hx.
  pose proof (watchSig_inj (E1 := E1) (E2 := E0) stat1 stat0 conf (d_cfg d) c0 H1 H0) as Hi.
  case_bool_decide as Hs.
  - apply Hi in Hs. rewrite Hs, String.eqb_refl. by destruct changed.
  - destruct (String.eqb_spec (watchSig (E := E1) stat1 conf (d_cfg d)) (watchSig (E := E0) stat0 conf c0)) as [He|_].
    { by apply Hi in He. }
    by destruct changed.
Qed.

(** ** The traffic loop *)

(** A day of ticks, one a minute. *)
Definition prune_every : nat := 60 * 24.

(** One tick of [runTrafficFlusher]: [cutoff] is the day 400 days back. *)
Definition flusher_tick (t : tick) (cutoff : string) (prune_fault : nat -> option string)
  (st : gmap string snap * Store.db * nat) : gmap string snap * Store.db * nat :=
  let '(last, db, ticks) := st in
  let '(last, db) := flush_tick (last, db) t in
  if (prune_every <=? S ticks)%nat
  then (last, (Store.PruneTraffic prune_fault cutoff db).2, 0%nat)
  else (last, db, S ticks).

Definition round : Type := tick * string * (nat -> option string).

Definition flusher (rounds : list round) (st : gmap string snap * Store.db * nat) : gmap string snap * Store.db * nat :=
  foldl (fun st r => flusher_tick r.1.1 r.1.2 r.2 st) st rounds.

Lemma flusher_cons t c f rounds st : flusher ((t, c, f) :: rounds) st = flusher rounds (flusher_tick t c f st).
Proof. done. Qed.

Lemma flusher_tick_count t c f st : (st.2 < prune_every)%nat ->
  (flusher_tick t c f st).2 = (S st.2 mod prune_every)%nat /\ ((flusher_tick t c f st).2 < prune_every)%nat.
Proof.
  destruct st as [[last db] ticks]. cbn [snd]. intros Ht. unfold flusher_tick.
  destruct (flush_tick (last, db) t) as [last' db']. destruct (Nat.leb_spec prune_every (S ticks)) as [Hle|Hgt]; cbn [snd].
  - replace (S ticks) with prune_every by lia. rewrite Nat.Div0.mod_same. split; [done|unfold prune_every; lia].
  - by rewrite Nat.mod_small.
Qed.

Lemma flusher_ticks rounds st : (st.2 < prune_every)%nat ->
  (flusher rounds st).2 = ((st.2 + length rounds) mod prune_every)%nat.
Proof.
  revert st. induction rounds as [|[[t c] f] rounds IH]; intros st Ht.
  { cbn [length]. by rewrite Nat.add_0_r, Nat.mod_small. }
  rewrite flusher_cons. destruct (flusher_tick_count t c f st Ht) as [Hc Hb].
  rewrite IH, Hc by done. cbn [length]. rewrite Nat.Div0.add_mod_idemp_l. f_equal. lia.
Qed.

Lemma flusher_app rs1 rs2 st : flusher (rs1 ++ rs2) st = flusher rs2 (flusher rs1 st).
Proof. apply foldl_app. Qed.

(** At the end of each day of ticks whose pruning the database takes, it holds
    no row of a day before the cutoff: the table does not grow with the age of
    the process. *)
Theorem traffic_pruned_daily (rounds : list round) t cutoff fault last db : (length rounds mod prune_every = prune_every - 1)%nat -> fault 0%nat = None ->
  Forall (fun r => String.ltb (Store.tr_Period r) cutoff = false)
    (Store.traffic (flusher (rounds ++ [(t, cutoff, fault)]) (last, db, 0%nat)).1.2).
Proof.
  intros Hn Hf. rewrite flusher_app. assert (Hz : ((last, db, 0%nat).2 < prune_every)%nat) by (cbn; unfold prune_every; lia).
  pose proof (flusher_ticks rounds (last, db, 0%nat) Hz) as Ht. destruct (flusher rounds (last, db, 0%nat)) as [[last1 db1] ticks].
  cbn [snd] in Ht. change (0 + length rounds)%nat with (length rounds) in Ht. rewrite Hn in Ht. rewrite flusher_cons. unfold flusher_tick.
  destruct (flush_tick (last1, db1) t) as [last2 db2]. replace (prune_every <=? S ticks)%nat with true by (symmetry; apply Nat.leb_le; lia).
  cbn [fst snd flusher foldl]. unfold Store.PruneTraffic, Store.stmt. rewrite Hf. cbn.
  apply Forall_forall. intros r [_ Hr]%elem_of_bfilter. by apply negb_true_iff.
Qed.

(** ** The console's accept loop *)

(** What the calls of [Accept] answer, and the connections handed to
    [ServeConsole]: up to the first error. *)
Fixpoint accept {conn : Type} (answers : list (result string conn)) : list conn :=
  match answers with
  | [] => []
  | Err _ :: _ => []
  | Ok c :: rest => c :: accept rest
  end.

(** A loop that ended is over for good: the manager of the listeners keeps the
    port as active, and opens nothing for it at any later reload. *)
Lemma dead_port_stays opens ports m p l : p ∈ ports -> m_active m !! p = Some l ->
  m_active (sync opens ports m) !! p = Some l /\ (m_next (sync opens [p] m) = m_next m).
Proof.
  intros Hp Hl. split; [by apply sync_kept|]. unfold sync. cbn [foldl]. unfold open_port.
  rewrite close_unwanted_lookup, decide_True by (by left). by rewrite Hl.
Qed.

(** ** The two listeners of the proxy *)

(** The port a redirect names: that of the listener, when it can be read. *)
Definition httpsPort (cfg : Config) : string :=
  match SplitHostPort (ProxyListen cfg) with Some (_, p) => p | None => "443" end.

(** A plain-HTTP request, when the redirect listener is there. *)
Definition plain_http (cfg : Config) (q : request) (table : gmap string rule) : option (result Z (Z * string)) :=
  if negb (String.eqb (ProxyRedirectListen cfg) "") then Some (RedirectHandler (httpsPort cfg) q table) else None.

(** A request on the TLS listener. *)
Definition proxy_handler {E : Env} {B : Encoding.Bcrypt} (with_origin : string -> string -> string -> option string)
  (cfg : Config) (adminH : bool) (now : Z) (q : request) (table : gmap string rule) : option (answer * gmap string rule) :=
  match dispatch (if adminH then Some (Config.Host cfg.(Admin)) else None) (q_Host q) with
  | ToAdmin => None
  | ToProxy => Some (ServeHTTP with_origin now q table)
  end.

(** ** A fragment appears *)

Module WatchExample.
Import ServeExample.
#[local] Existing Instance Sample.dns.

Definition conf_path : string := "/etc/goddns/goddns.conf".
Definition with_files (files : list string) : Env :=
  {| toml_config := @toml_config env; toml_proxy := @toml_proxy env; url_parse := @url_parse env; getenv := @getenv env;
     read_file := @read_file env; glob_conf _ := files |}.
Definition env0 : Env := with_files ["/etc/goddns/proxy.d/a.conf"].
Definition env1 : Env := with_files ["/etc/goddns/proxy.d/b.conf"; "/etc/goddns/proxy.d/a.conf"].
Definition stat : stats := fun f => if has_suffix ".conf" f then Some (120, 1700000000000000001) else None.

Example signature : watchSig (E := env1) stat conf_path defaults =
  "/etc/goddns/proxy.d/a.conf:120:1700000000000000001" +:+ GoStrings.nl +:+
  "/etc/goddns/proxy.d/b.conf:120:1700000000000000001" +:+ GoStrings.nl.
Proof. vm_compute. reflexivity. Qed.

Lemma stat_int64 f st : stat f = Some st -> int64 st.1 /\ int64 st.2.
Proof. unfold stat. destruct (has_suffix _ _); [|done]. intros [= <-]. unfold int64. split_and!; by vm_compute. Qed.

Lemma regular0 : regular (E := env0) stat conf_path.
Proof. split; [|apply stat_int64]. intros f Hf. apply list_elem_of_singleton in Hf as ->. done. Qed.

Lemma regular1 : regular (E := env1) stat conf_path.
Proof.
  split; [|apply stat_int64]. intros f Hf. apply elem_of_cons in Hf as [-> |Hf]; [done|]. apply list_elem_of_singleton in Hf as ->. done.
Qed.

Definition at_rest : daemon := set_sig d0 (watchSig (E := env0) stat conf_path defaults).
Definition found : moment := mkMoment 0 (watchSig (E := env1) stat conf_path (d_cfg d0)) (Load (E := env) "/on") true (fun _ => true) (fun _ => true).

Lemma poll_sees_side_files_witness : step (E := env1) true true at_rest (Tick false found) =
  if false || negb (bool_decide (side_files (E := env1) stat conf_path (d_cfg at_rest) = side_files (E := env0) stat conf_path defaults))
  then reload (E := env1) true true found at_rest
  else if d_dirty at_rest then applyProxy (E := env1) true true found (d_cfg at_rest) at_rest else at_rest.
Proof.
  assert (Hs : forall d s, d_sig (set_sig d s) = s) by done. assert (Hc : forall d s, d_cfg (set_sig d s) = d_cfg d) by done.
  assert (Hx : x_sig found = watchSig (E := env1) stat conf_path (d_cfg at_rest)).
  { unfold at_rest. rewrite Hc. unfold found. cbn [x_sig]. reflexivity. }
  exact (poll_sees_side_files true true stat stat conf_path defaults false found at_rest regular0 regular1 (Hs _ _) Hx).
Defined.

Definition yesterday : Store.TrafficRow := Store.mkTraffic "bmc.example" "2024-01-01" 1 2 3.
Definition old_db : Store.db := Store.with_traffic Store.empty_db [yesterday].
Definition quiet : round := ((works, "2026-01-02", []), "2024-11-28", fun _ => None).

Lemma traffic_pruned_daily_witness :
  Forall (fun r => String.ltb (Store.tr_Period r) "2024-11-28" = false)
    (Store.traffic (flusher (repeat quiet 1439 ++ [quiet]) (∅, old_db, 0%nat)).1.2).
Proof. exact (traffic_pruned_daily (repeat quiet 1439) _ "2024-11-28" (fun _ => None) ∅ old_db ltac:(vm_compute; reflexivity) eq_refl). Defined.

Example dead_accept : accept [Ok 1; Err "too many open files"; Ok 2] = [1].
Proof. reflexivity. Qed.

End WatchExample.
