(* ===== verification/Readers.v ===== *)
(** * Readers: programs that change no file

    The questions the console and the commands ask before an edit: the state
    of a zone's file, the vhosts and who owns one, and the previews. *)

From Stdlib Require Import String Ascii.
From S2P Require Import Prelude GoStrings Encoding FS DnsLib Config Named FileZone Host VhostMut.

Section readers.
Context {D : Dns} {B : Bcrypt} {E : Env} (fault : nat -> option string) (confPath : string).

Lemma readonly_FileStatus path dynamic : readonly (FileStatus fault path dynamic).
Proof.
  apply readonly_touches. unfold FileStatus. case_match; [auto with goddns|].
  apply touches_bind; [auto with goddns|]. intros [n|[]]; auto with goddns. case_match; [|auto with goddns].
  apply touches_bind; auto with goddns.
Qed.

Lemma touches_decodeProxy P path : touches P (decodeProxy fault path).
Proof.
  unfold decodeProxy. case_match; [auto with goddns|]. apply touches_bind; [auto with goddns|].
  intros [n|[]]; auto with goddns; (apply touches_bind; [auto with goddns|]); intros t; case_match; auto with goddns; case_match; auto with goddns.
Qed.

Lemma touches_fragmentFiles P : touches P (fragmentFiles fault confPath).
Proof. unfold fragmentFiles. apply touches_bind; auto with goddns. Qed.

Lemma touches_ownership P host : touches P (ownership fault confPath host).
Proof.
  unfold ownership. apply touches_bind; [apply touches_decodeProxy|]. intros base.
  apply touches_bind; [apply touches_fragmentFiles|]. intros fs. generalize (false, if defines host base then "goddns.conf" else "").
  induction fs as [|f fs IH]; intros mc; cbn [ownership_loop]; [auto with goddns|].
  apply touches_bind; [apply touches_decodeProxy|]. intros. apply IH.
Qed.

Lemma readonly_PreviewSet host rule : readonly (PreviewSet fault confPath host rule).
Proof.
  apply readonly_touches. unfold PreviewSet. case_match; [auto with goddns|]. case_match; [|auto with goddns].
  apply touches_bind; [apply touches_ownership|]. intros [m c]. case_match; auto with goddns.
Qed.

Lemma readonly_PreviewRemove host : readonly (PreviewRemove fault confPath host).
Proof.
  apply readonly_touches. unfold PreviewRemove. case_match; [auto with goddns|]. case_match; [auto with goddns|].
  apply touches_bind; [apply touches_ownership|]. intros [m c]. repeat case_match; auto with goddns.
Qed.

Lemma readonly_List : readonly (List_ fault confPath).
Proof.
  apply readonly_touches. unfold List_. apply touches_bind; [apply touches_decodeProxy|]. intros base.
  apply touches_bind; [apply touches_fragmentFiles|]. intros fs. apply touches_bind; [|auto with goddns].
  induction fs as [|f fs IH]; cbn [list_loop]; [auto with goddns|].
  apply touches_bind; [apply touches_decodeProxy|]. intros. apply touches_bind; auto with goddns.
Qed.

End readers.
