(* ===== verification/Form.v ===== *)
(** * Form: what the admin console reads of a request

    The helpers of [internal/admin/admin.go] that turn the text of a request
    into values, and values into the text of a page: the form fields and their
    numbers ([strconv.Atoi] with its error ignored, [fmt.Sscan] of an int64),
    the vhost form, credentials, and byte counts. *)

From Stdlib Require Import String Ascii DecimalString.
From S2P Require Import Prelude GoStrings NetIP Encoding FS Config.

(** ** Requests

    [q_Form] is [r.Form]: the fields of the body before those of the query. *)
Record request := mkReq {
  q_Method : string; q_Path : string; q_RemoteAddr : string;
  q_Form : list (string * string); q_Query : list (string * string);
  q_Cookie : option string; q_Auth : option (string * string)
}.

Definition first_value (k : string) (l : list (string * string)) : string :=
  match find_first (fun kv => String.eqb kv.1 k) l with Some kv => kv.2 | None => "" end.

Definition FormValue (q : request) (k : string) : string := first_value k (q_Form q).
Definition Query (q : request) (k : string) : string := first_value k (q_Query q).

Definition clientIP (q : request) : option addr :=
  ParseIP (match SplitHostPort (q_RemoteAddr q) with Some (host, _) => host | None => q_RemoteAddr q end).

(** ** Numbers *)

Definition max_i64 : Z := two64 / 2 - 1.

(** The value of [strconv.Atoi] when its error is ignored: nothing readable is
    0, and a number out of range is the nearest int64. *)
Definition atoi_value (s : string) : Z :=
  match parse_int s with
  | Some n => n
  | None =>
      let '(neg, digits) := match s with
                            | String "-" s' => (true, s') | String "+" s' => (false, s') | _ => (false, s) end in
      if String.eqb digits "" then 0
      else match NilEmpty.uint_of_string digits with
           | Some _ => if (neg : bool) then - (two64 / 2) else max_i64
           | None => 0
           end
  end.

(** *** [fmt.Sscan] into an int64: the verb %v reads a sign, a base prefix,
    then digits of that base and underscores; [strconv.ParseInt] judges the
    token, and what follows it is not read. *)

Definition one_of (cs : string) (c : ascii) : bool := str_exists (Ascii.eqb c) cs.

Fixpoint span (p : ascii -> bool) (s : string) : string * string :=
  match s with
  | String c s' => if p c then let '(a, b) := span p s' in (String c a, b) else ("", s)
  | EmptyString => ("", "")
  end.

(** The token after a sign; [None] where no digit is found. *)
Definition scan_digits (s : string) : option string :=
  let with_prefix pre digits rest := Some (pre +:+ (span (one_of digits) rest).1) in
  match s with
  | String "0" (String c rest) =>
      if one_of "bB" c then with_prefix (String "0" (String c "")) "01_" rest
      else if one_of "oO" c then with_prefix (String "0" (String c "")) "01234567_" rest
      else if one_of "xX" c then with_prefix (String "0" (String c "")) "0123456789aAbBcCdDeEfF_" rest
      else with_prefix "0" "01234567_" (String c rest)
  | _ => let tok := (span (one_of "0123456789_") s).1 in if String.eqb tok "" then None else Some tok
  end.

(** [strconv]'s rule for underscores: between digits, or after a prefix. *)
Fixpoint underscores_ok (after_digit : bool) (after_bar : bool) (s : string) : bool :=
  match s with
  | EmptyString => negb after_bar
  | String "_" s' => after_digit && underscores_ok false true s'
  | String _ s' => underscores_ok true false s'
  end.

Definition digit_value (c : ascii) : option Z :=
  if is_digit c then Some (byte c - 48)
  else let l := lower_char c in if is_lower l then Some (byte l - 87) else None.

Fixpoint digits_value (base acc : Z) (s : string) : option Z :=
  match s with
  | EmptyString => Some acc
  | String "_" s' => digits_value base acc s'
  | String c s' =>
      match digit_value c with
      | Some d => if d <? base then digits_value base (acc * base + d) s' else None
      | None => None
      end
  end.

(** [ParseUint(tok, 0, 64)] without its range. *)
Definition parse_base0 (tok : string) : option Z :=
  match tok with
  | EmptyString => None
  | String "0" (String c (String d rest)) =>
      let body := String d rest in
      let prefixed base := if underscores_ok true false body then digits_value base 0 body else None in
      if one_of "bB" c then prefixed 2
      else if one_of "oO" c then prefixed 8
      else if one_of "xX" c then prefixed 16
      else if underscores_ok true false (String c body) then digits_value 8 0 (String c body) else None
  | String "0" rest => if underscores_ok true false rest then digits_value 8 0 rest else None
  | _ => if underscores_ok false false tok then digits_value 10 0 tok else None
  end.

Definition scan_int64 (s : string) : option Z :=
  let s := trim_left_by is_space s in
  let '(neg, s) := match s with
                   | String "-" s' => (true, s') | String "+" s' => (false, s') | _ => (false, s) end in
  match scan_digits s with
  | None => None
  | Some tok =>
      match parse_base0 tok with
      | Some n => let v := if (neg : bool) then - n else n in
                  if (- (two64 / 2) <=? v) && (v <=? max_i64) then Some v else None
      | None => None
      end
  end.

Example scans :
  (scan_int64 "12abc", scan_int64 " -7", scan_int64 "0x1F", scan_int64 "010", scan_int64 "1_000", scan_int64 "1__0") =
  (Some 12, Some (-7), Some 31, Some 8, Some 1000, None) /\
  (scan_int64 "", scan_int64 "x", scan_int64 "0", scan_int64 "9223372036854775808") = (None, None, Some 0, None).
Proof. done. Qed.

(** ** The vhost form *)

Inductive form_error := PortNotANumber (f : string) | UserRequired | UserHasColon | PasswordShort | HashFailed (why : string).

Definition splitLines (s : string) : list string :=
  List.filter (fun f => negb (String.eqb f ""))
    (trim_space <$> fields_by (fun c => Ascii.eqb c "," || Ascii.eqb c newline || Ascii.eqb c cr) s).

Fixpoint parse_ports (fs : list string) : result form_error (list Z) :=
  match fs with
  | [] => Ok []
  | f :: fs' => match parse_int f with
                | Some p => ps ← parse_ports fs'; Ok (p :: ps)
                | None => Err (PortNotANumber f)
                end
  end.

Definition port_fields (s : string) : list string :=
  fields_by (fun c => Ascii.eqb c "," || Ascii.eqb c " " || Ascii.eqb c newline || Ascii.eqb c cr || Ascii.eqb c tab) s.

(** [gen]: [bcrypt.GenerateFromPassword]. *)
Definition check_login (gen : string -> result string string) (u pw : string) : result form_error string :=
  if String.eqb u "" then Err UserRequired
  else if has_byte ":" u then Err UserHasColon
  else if (String.length pw <? 8)%nat then Err PasswordShort
  else match gen pw with Ok hash => Ok (u +:+ ":" +:+ hash) | Err e => Err (HashFailed e) end.

Definition proxyRuleFromForm (gen : string -> result string string) (q : request) : result form_error (string * ProxyRule) :=
  let host := trim_space (FormValue q "host") in
  let rate := atoi_value (FormValue q "rate") in
  ports ← parse_ports (port_fields (FormValue q "console_ports"));
  let flag k := String.eqb (FormValue q k) "1" in
  let auth := splitLines (FormValue q "auth") in
  extra ← (let pw := FormValue q "auth_pass" in
           if String.eqb pw "" then Ok []
           else c ← check_login gen (trim_space (FormValue q "auth_user")) pw; Ok [c]);
  Ok (host, mkRule (trim_space (FormValue q "upstream")) (flag "verify") (flag "preserve") (flag "bmc") ports
              (splitLines (FormValue q "allow")) rate (auth ++ extra)).

Definition joinInts (ns : list Z) : string := join ", " (format_int <$> ns).

(** ** Credentials *)

(** The hash configured for a user: the first entry decides. *)
Fixpoint adminCred (users : list string) (user : string) : option string :=
  match users with
  | [] => None
  | c :: users' =>
      match cut ":" c with
      | Some (u, hash) => if String.eqb u user then Some hash else adminCred users' user
      | None => adminCred users' user
      end
  end.

Section credentials.
Context {B : Bcrypt}.

Definition initial_dummy : string := "$2a$10$N9qo8uLOickgx2ZMRZoMyeIjZAgcfl7p92ldGxad68LJZdL17lhWy".

(** The answer, and the hash that bcrypt was run against. *)
Fixpoint verify_loop (i : nat) (creds : list string) (dummy user pass : string) : bool * string :=
  match creds with
  | [] => (false, dummy)
  | c :: creds' =>
      match cut ":" c with
      | None => verify_loop (S i) creds' dummy user pass
      | Some (u, hash) =>
          let dummy := if (i =? 0)%nat || String.eqb dummy "" then hash else dummy in
          if String.eqb u user then (bcrypt_compare hash pass, hash) else verify_loop (S i) creds' dummy user pass
      end
  end.

Definition verifyCred (creds : list string) (user pass : string) : bool * string :=
  verify_loop 0 creds initial_dummy user pass.

Definition checkBasic (q : request) (creds : list string) : bool :=
  match q_Auth q with Some (u, p) => (verifyCred creds u p).1 | None => false end.

End credentials.

(** ** Byte counts *)

Definition units : string := "KMGTPE".

(** A count below 1024 is printed whole; another as [n / div] with one decimal
    and the unit. The float64 division and its rounding are not modelled. *)
Inductive human := Bytes (n : Z) | Scaled (n div : Z) (unit_ : ascii).

(** The loop; [None]: the fuel is used up. *)
Fixpoint scale (fuel : nat) (x div : Z) (exp : nat) : option (Z * nat) :=
  if (1024 <=? x) && (exp <? String.length units - 1)%nat then
    match fuel with O => None | S fuel' => scale fuel' (x / 1024) (i64 (div * 1024)) (S exp) end
  else Some (div, exp).

Definition humanBytes (n : Z) : option human :=
  if n <? 1024 then Some (Bytes n)
  else
    '(div, exp) ← scale 5 (n / 1024) 1024 0;
    u ← String.get exp units;
    Some (Scaled n div u).

(** ** Theorems *)

(** 1024 to the power of the unit's rank. *)
Definition unit_size (e : nat) : Z := 1024 ^ Z.of_nat (S e).

Lemma unit_size_S e : unit_size (S e) = unit_size e * 1024.
Proof. unfold unit_size. rewrite (Nat2Z.inj_succ (S e)), Z.pow_succ_r by lia. lia. Qed.

Lemma unit_size_pos e : 0 < unit_size e.
Proof. apply Z.pow_pos_nonneg; lia. Qed.

(** The loop keeps [x = n / div] and stops, within its fuel, at the unit that
    is no larger than [n]. *)
Lemma scale_spec n fuel e : (e <= 5)%nat -> (5 - e <= fuel)%nat -> unit_size e <= n < two64 / 2 ->
  exists e', scale fuel (n / unit_size e) (unit_size e) e = Some (unit_size e', e') /\ (e' <= 5)%nat /\
    unit_size e' <= n < 1024 * unit_size e'.
Proof.
  revert e. induction fuel as [|fuel IH]; intros e He Hf Hn; pose proof (unit_size_pos e) as Hp; cbn [scale];
    change (String.length units - 1)%nat with 5%nat;
    (destruct (Z.leb_spec 1024 (n / unit_size e)) as [Hl|Hl];
      [|exists e; split_and!; [by destruct (_ <? _)%nat|lia|lia|];
        pose proof (Z.mul_succ_div_gt n (unit_size e) Hp); nia]);
    (assert (Hbig : 1024 * unit_size e <= n) by (pose proof (Z.mul_div_le n (unit_size e) Hp); nia));
    (assert (He5 : (e < 5)%nat) by (destruct (decide (e = 5%nat)) as [->|]; [|lia];
       change (unit_size 5) with (2 ^ 60) in Hbig; change (two64 / 2) with (2 ^ 63) in Hn; lia)).
  - lia.
  - destruct (Nat.ltb_spec e 5); [|lia]. cbn [andb].
    replace (i64 (unit_size e * 1024)) with (unit_size (S e)).
    2: { rewrite unit_size_S. symmetry. apply i64_small. unfold is_i64. lia. }
    replace (n / unit_size e / 1024) with (n / unit_size (S e)) by (rewrite unit_size_S, Z.div_div; lia).
    apply IH; [lia|lia|]. rewrite unit_size_S. lia.
Qed.

(** The loop over the units ends for every int64: it never runs past the
    last unit, and the unit it stops at is the one with which the number shown
    is at least 1 and less than 1024. A count below 1024, or negative, is shown
    in bytes. *)
Theorem humanBytes_total n : is_i64 n ->
  if n <? 1024 then humanBytes n = Some (Bytes n)
  else exists e u, humanBytes n = Some (Scaled n (unit_size e) u) /\ String.get e units = Some u /\
         unit_size e <= n < 1024 * unit_size e.
Proof.
  intros [_ Hn]. unfold humanBytes. destruct (Z.ltb_spec n 1024) as [|Hge]; [done|].
  destruct (scale_spec n 5 0) as (e & H & He & Hr); [lia|lia|change (unit_size 0) with 1024; lia|].
  change (unit_size 0) with 1024 in H. rewrite H. cbn [mbind option_bind].
  assert (Hu : is_Some (String.get e units)) by (do 6 (destruct e as [|e]; [by eexists|]); lia).
  destruct Hu as [u Hu]. rewrite Hu. exists e, u. done.
Qed.

(** *** Credentials *)

Section credential_theorems.
Context {B : Bcrypt}.

Lemma verify_loop_spec i creds dummy user pass : Forall (fun c => is_Some (cut ":" c)) creds ->
  match adminCred creds user with
  | Some hash => verify_loop i creds dummy user pass = (bcrypt_compare hash pass, hash)
  | None => (verify_loop i creds dummy user pass).1 = false /\
            (i <> 0%nat -> dummy <> "" -> (verify_loop i creds dummy user pass).2 = dummy)
  end.
Proof.
  intros Hc. revert i dummy. induction Hc as [|c creds [[u hash] Hu] Hc IH]; intros i dummy; cbn; [done|].
  rewrite Hu. destruct (String.eqb u user); [done|]. specialize (IH (S i)).
  destruct (adminCred creds user); [apply IH|]. split; [apply IH|].
  intros Hi Hd. apply Nat.eqb_neq in Hi as ->. apply String.eqb_neq in Hd as E. rewrite E. cbn [orb]. apply IH; [done|].
  by apply String.eqb_neq.
Qed.

(** Logging in costs one bcrypt run against a configured hash, whether the
    user exists or not, and succeeds only against the user's own. *)
Lemma verifyCred_spec creds user pass : Forall (fun c => exists u h, cut ":" c = Some (u, h) /\ h <> "") creds -> creds <> [] ->
  let '(ok, ran) := verifyCred creds user pass in
  (exists c u, c ∈ creds /\ cut ":" c = Some (u, ran)) /\
  (ok = true <-> exists hash, adminCred creds user = Some hash /\ bcrypt_compare hash pass = true).
Proof.
  intros Hc Hne. unfold verifyCred. destruct creds as [|c creds]; [done|].
  inversion_clear Hc as [|? ? (u & hash & Hu & Hh) Hc'].
  assert (Hs : Forall (fun c => is_Some (cut ":" c)) creds) by (eapply Forall_impl; [exact Hc'|]; naive_solver).
  assert (Hin : forall l h, adminCred l user = Some h -> exists c u, c ∈ l /\ cut ":" c = Some (u, h)).
  { clear. induction l as [|c l IH]; [done|]. cbn. intros h. destruct (cut ":" c) as [[u h1]|] eqn:E.
    - destruct (String.eqb u user); [intros [= <-]; exists c, u; split; [left|done]|].
      intros H. destruct (IH h H) as (c2 & u2 & H2 & H3). exists c2, u2. split; [by right|done].
    - intros H. destruct (IH h H) as (c2 & u2 & H2 & H3). exists c2, u2. split; [by right|done]. }
  pose proof (Hin (c :: creds)) as Hin'. cbn [verify_loop adminCred] in *. rewrite Hu in *. cbn [Nat.eqb orb].
  destruct (String.eqb u user) eqn:Eu; [split; [by eauto|]; naive_solver|].
  pose proof (verify_loop_spec 1 creds hash user pass Hs) as Hl. destruct (adminCred creds user) as [h|] eqn:Ea.
  - rewrite Hl. split; [by apply Hin'|]. naive_solver.
  - destruct (verify_loop 1 creds hash user pass) as [ok ran]. cbn in Hl. destruct Hl as [-> Hl].
    rewrite Hl by done. split; [exists c, u; split; [left|done]|]. naive_solver.
Qed.

End credential_theorems.

(** ** Witness *)

Module FormExample.

Example shown : (humanBytes 512, humanBytes 1536, humanBytes max_i64) =
  (Some (Bytes 512), Some (Scaled 1536 1024 "K"), Some (Scaled max_i64 (2 ^ 60) "E")).
Proof. reflexivity. Qed.

Lemma humanBytes_total_witness :
  if max_i64 <? 1024 then humanBytes max_i64 = Some (Bytes max_i64)
  else exists e u, humanBytes max_i64 = Some (Scaled max_i64 (unit_size e) u) /\ String.get e units = Some u /\
         unit_size e <= max_i64 < 1024 * unit_size e.
Proof.
  assert (H : is_i64 max_i64) by (split; vm_compute; [discriminate|reflexivity]).
  exact (humanBytes_total max_i64 H).
Defined.

Example form_rule :
  proxyRuleFromForm (fun pw => Ok "$2a$10$h")
    (mkReq "POST" "/proxy/set" "10.0.0.9:5" [("host", " web.example "); ("upstream", "https://10.0.0.6"); ("rate", "99999999999999999999");
       ("console_ports", "5900, 5901"); ("auth_user", "op"); ("auth_pass", "long enough"); ("bmc", "1")] [] None None) =
  Ok ("web.example", mkRule "https://10.0.0.6" false false true [5900; 5901] [] max_i64 ["op:$2a$10$h"]).
Proof. reflexivity. Qed.

End FormExample.
