(* ===== verification/Tail.v ===== *)
(** * Tail: the end of a log file

    [tailFile] of [internal/admin/admin.go]: what the console's log page shows
    ([Admin.handleLogs]). The order it puts the lines in comes from
    [sort.SliceStable] with a comparison of positions instead of lines, for
    which Go documents nothing but that the lines are rearranged. *)

From Stdlib Require Import String Ascii Permutation.
From S2P Require Import Prelude GoStrings.

(** ** Lines, as [bufio.ScanLines] cuts them *)

Definition dropCR (l : string) : string := trim_suffix (String (ascii_of_nat 13) "") l.

Fixpoint scan (parts : list string) : list string :=
  match parts with
  | [] => []
  | [l] => if String.eqb l "" then [] else [dropCR l]
  | l :: rest => dropCR l :: scan rest
  end.

(** The scanner stops at a line that does not fit its buffer. *)
Definition max_line : nat := 1024 * 1024.

Fixpoint fitting (parts : list string) : list string :=
  match parts with
  | [] => []
  | l :: rest => if (max_line <=? String.length l)%nat then [] else l :: fitting rest
  end.

Definition scan_lines (s : string) : list string := scan (split newline s).

Definition window : nat := 256 * 1024.
#[global] Opaque window max_line.

Section tail.
Context (SliceStable : (nat -> nat -> bool) -> list string -> list string).

(** The last [n] of [l]. *)
Definition last_n {A} (n : nat) (l : list A) : list A := drop (length l - n) l.

(** [sized]: whether the file's size could be asked for. *)
Definition tailFile (file : result string string) (sized : bool) (path : string) (n : nat) : list string :=
  match file with
  | Err e => ["(cannot read " +:+ path +:+ ": " +:+ e +:+ ")"]
  | Ok s =>
      let s := if sized && (window <? String.length s)%nat then str_drop (String.length s - window) s else s in
      SliceStable (fun i j => (j <? i)%nat) (last_n n (scan (fitting (split newline s))))
  end.
End tail.

(** ** A cut text *)

Lemma split_drop sep k s : exists p q, split sep (str_drop k s) = p :: q /\ q `suffix_of` tl (split sep s).
Proof.
  revert k. induction s as [|c s IH]; intros [|k]; cbn [str_drop].
  - exists "", []. split; [done|]. done.
  - exists "", []. split; [done|]. done.
  - destruct (split sep (String c s)) as [|p q] eqn:E; [by apply split_nonempty in E|]. by exists p, q.
  - destruct (IH k) as (p & q & E & Hq). exists p, q. split; [done|]. cbn [split].
    destruct (split sep s) as [|h t] eqn:Es; [by apply split_nonempty in Es|].
    destruct (Ascii.eqb c sep); [|done]. cbn [tl] in *. by apply suffix_cons_r.
Qed.

Lemma scan_app a q : q <> [] -> scan (a ++ q) = (dropCR <$> a) ++ scan q.
Proof.
  intros Hq. induction a as [|x a IH]; [done|]. cbn. destruct (a ++ q) eqn:E; [by destruct a, q|]. by rewrite IH.
Qed.

Lemma fitting_all parts : Forall (fun l => (String.length l < max_line)%nat) parts -> fitting parts = parts.
Proof.
  induction 1 as [|l ls Hl _ IH]; [done|]. cbn. rewrite IH. by destruct (Nat.leb_spec max_line (String.length l)); [lia|].
Qed.

(** Of a text cut at its head, every line but the first is a line of the text. *)
Lemma scan_cut sep k s : exists first rest, scan (split sep (str_drop k s)) = first ++ rest /\ (length first <= 1)%nat /\
  rest `suffix_of` scan (split sep s).
Proof.
  destruct (split_drop sep k s) as (p & q & E & Hq). rewrite E. destruct q as [|x q].
  - exists (scan [p]), []. rewrite app_nil_r. split_and!; [done| |by eexists; rewrite app_nil_r].
    cbn. by destruct (String.eqb p ""); cbn; lia.
  - exists [dropCR p], (scan (x :: q)). split_and!; [done|cbn; lia|]. destruct Hq as [a Ha].
    destruct (split sep s) as [|h t]; [by destruct a|]. cbn [tl] in Ha. rewrite Ha.
    change (h :: a ++ x :: q) with ((h :: a) ++ x :: q). rewrite scan_app by done. by eexists.
Qed.

Section shown.
Context (SliceStable : (nat -> nat -> bool) -> list string -> list string).
(** The sort rearranges. *)
Hypothesis sort_permutes : forall less l, SliceStable less l ≡ₚ l.

Lemma last_n_length {A} n (l : list A) : (length (last_n n l) <= n)%nat.
Proof. unfold last_n. rewrite length_drop. lia. Qed.

(** The log page shows the last lines of the log, at most as many as asked for,
    each once, in some order. Of a log larger than the window the first
    line shown may be the end of a line; all the others are whole. *)
Theorem tail_recent s sized path n :
  Forall (fun l => (String.length l < max_line)%nat) (split newline (if sized && (window <? String.length s)%nat then str_drop (String.length s - window) s else s)) ->
  let out := tailFile SliceStable (Ok s) sized path n in
  (length out <= n)%nat /\
  exists first rest, out ≡ₚ last_n n (first ++ rest) /\ (length first <= 1)%nat /\ rest `suffix_of` scan_lines s /\
    (sized = false \/ (String.length s <= window)%nat -> first ++ rest = scan_lines s).
Proof.
  intros Hl. cbn zeta. unfold tailFile. rewrite fitting_all by done. rewrite sort_permutes. split; [apply last_n_length|].
  destruct sized, (Nat.ltb_spec window (String.length s)) as [Hw|Hw]; cbn [andb].
  1: { destruct (scan_cut newline (String.length s - window) s) as (first & rest & -> & Hf & Hr).
       exists first, rest. split_and!; try done. intros [?|?]; [done|lia]. }
  all: exists [], (scan_lines s); split_and!; [done|cbn; lia|done|done].
Qed.
End shown.

(** ** A short log *)

Module TailExample.

(** The order of the implementation: newest first. *)
Definition reversed (less : nat -> nat -> bool) (l : list string) : list string := rev l.
Definition log : string := "one" +:+ nl +:+ "two" +:+ String (ascii_of_nat 13) nl +:+ "three".

Example shown_lines : tailFile reversed (Ok log) true "/var/log/goddns.log" 2 = ["three"; "two"].
Proof. vm_compute. reflexivity. Qed.

Lemma tail_recent_witness :
  let out := tailFile reversed (Ok log) true "/var/log/goddns.log" 2 in
  (length out <= 2)%nat /\
  exists first rest, out ≡ₚ last_n 2 (first ++ rest) /\ (length first <= 1)%nat /\ rest `suffix_of` scan_lines log /\
    (true = false \/ (String.length log <= window)%nat -> first ++ rest = scan_lines log).
Proof.
  assert (Hp : forall less l, reversed less l ≡ₚ l) by (intros; symmetry; apply Permutation_rev).
  assert (Hl : Forall (fun l => (String.length l < max_line)%nat)
    (split newline (if true && (window <? String.length log)%nat then str_drop (String.length log - window) log else log))).
  { apply Forall_forall. intros l Hl. apply Nat.lt_le_trans with 10%nat; [|apply Nat.leb_le; vm_compute; reflexivity].
    replace (window <? String.length log)%nat with false in Hl by (vm_compute; reflexivity). cbn in Hl.
    repeat (apply elem_of_cons in Hl as [-> |Hl]; [cbn; lia|]). by apply elem_of_nil in Hl. }
  exact (tail_recent reversed Hp log true "/var/log/goddns.log" 2 Hl).
Defined.

End TailExample.
