(* ===== verification/Flag.v ===== *)
(** * Flag: the command line

    What the commands of [cmd/goddns] use of Go's package [flag]: a set of
    bool, string and int flags, parsed up to the first argument that is not a
    flag. *)

From Stdlib Require Import String Ascii.
From S2P Require Import Prelude GoStrings Form.

Inductive kind := KBool | KString | KInt.

Inductive flag_error := BadSyntax (arg : string) | NotDefined (name : string) | BadValue (name value : string) | NeedsArgument (name : string)
| Help.

Notation spec := (list (string * kind)).
Notation values := (gmap string string).

Definition ParseBool (s : string) : option bool :=
  if existsb (String.eqb s) ["1"; "t"; "T"; "TRUE"; "true"; "True"] then Some true
  else if existsb (String.eqb s) ["0"; "f"; "F"; "FALSE"; "false"; "False"] then Some false
  else None.

(** [ParseInt(s, 0, 64)]. *)
Definition ParseInt0 (s : string) : option Z :=
  let '(neg, tok) := match s with
                     | String "-" s' => (true, s') | String "+" s' => (false, s') | _ => (false, s) end in
  n ← parse_base0 tok;
  let v := if (neg : bool) then - n else n in
  if (- (two64 / 2) <=? v) && (v <=? max_i64) then Some v else None.

Definition valid (k : kind) (v : string) : bool :=
  match k with
  | KBool => match ParseBool v with Some _ => true | None => false end
  | KString => true
  | KInt => match ParseInt0 v with Some _ => true | None => false end
  end.

(** The name, and the value after the first [=] that is not in front. *)
Definition cut_value (s : string) : string * option string :=
  match s with
  | EmptyString => ("", None)
  | String c s' =>
      match span (fun c => negb (Ascii.eqb c "=")) s' with
      | (a, String _ v) => (String c a, Some v)
      | (a, EmptyString) => (String c a, None)
      end
  end.

Inductive token := Positional | Terminator | Flag (name : string) (value : option string) | Malformed.

Definition tokenize (s : string) : token :=
  match s with
  | String "-" (String c r) =>
      if Ascii.eqb c "-" && String.eqb r "" then Terminator
      else
        let body := if Ascii.eqb c "-" then r else String c r in
        match body with
        | EmptyString => Malformed
        | String c' _ =>
            if Ascii.eqb c' "-" || Ascii.eqb c' "=" then Malformed
            else let '(name, v) := cut_value body in Flag name v
        end
  | _ => Positional
  end.

Definition kind_of (sp : spec) (name : string) : option kind :=
  snd <$> find_first (fun p => String.eqb p.1 name) sp.

Definition set_flag (k : kind) (name v : string) (vals : values) : result flag_error values :=
  if valid k v then Ok (<[name := v]> vals) else Err (BadValue name v).

Fixpoint parse (sp : spec) (args : list string) (vals : values) : result flag_error (values * list string) :=
  match args with
  | [] => Ok (vals, [])
  | a :: rest =>
      match tokenize a with
      | Positional => Ok (vals, args)
      | Terminator => Ok (vals, rest)
      | Malformed => Err (BadSyntax a)
      | Flag name v =>
          match kind_of sp name, v with
          | None, _ => Err (if String.eqb name "help" || String.eqb name "h" then Help else NotDefined name)
          | Some KBool, None => vals' ← set_flag KBool name "true" vals; parse sp rest vals'
          | Some k, Some v => vals' ← set_flag k name v vals; parse sp rest vals'
          | Some k, None =>
              match rest with
              | [] => Err (NeedsArgument name)
              | v :: rest' => vals' ← set_flag k name v vals; parse sp rest' vals'
              end
          end
      end
  end.

Definition Parse (sp : spec) (args : list string) : result flag_error (values * list string) := parse sp args ∅.

Definition str_flag (vals : values) (name def : string) : string := default def (vals !! name).
Definition bool_flag (vals : values) (name : string) : bool :=
  match vals !! name with Some v => default false (ParseBool v) | None => false end.
Definition int_flag (vals : values) (name : string) (def : Z) : Z :=
  match vals !! name with Some v => default def (ParseInt0 v) | None => def end.

Example flags_first : Parse [("y", KBool); ("config", KString)] ["-y"; "--config=/x"; "zone"; "-y"] =
  Ok ({["y" := "true"; "config" := "/x"]}, ["zone"; "-y"]).
Proof. by vm_compute. Qed.

(** A flag after the first positional argument is not a flag. *)
Lemma parse_positional sp a rest vals : tokenize a = Positional -> parse sp (a :: rest) vals = Ok (vals, a :: rest).
Proof. intros H. cbn. by rewrite H. Qed.

(** What was set is of its kind. *)
Lemma parse_valid sp args : forall vals vals' rest, parse sp args vals = Ok (vals', rest) ->
  (forall n v, vals !! n = Some v -> exists k, kind_of sp n = Some k /\ valid k v = true) ->
  forall n v, vals' !! n = Some v -> exists k, kind_of sp n = Some k /\ valid k v = true.
Proof.
  assert (Hset : forall k name v vals vals', set_flag k name v vals = Ok vals' -> kind_of sp name = Some k ->
    (forall n v, vals !! n = Some v -> exists k, kind_of sp n = Some k /\ valid k v = true) ->
    forall n v, vals' !! n = Some v -> exists k, kind_of sp n = Some k /\ valid k v = true).
  { unfold set_flag. intros k name v vals vals'. destruct (valid k v) eqn:Ev; [|done]. intros [= <-] Hk Hv n v' Hn.
    apply lookup_insert_Some in Hn as [[<- <-]|[_ Hn]]; eauto. }
  induction args as [args IH] using (induction_ltof1 _ (@length string)). unfold ltof in IH. intros vals vals' rest.
  destruct args as [|a args]; cbn -[set_flag]; [by intros [= <- _]|].
  destruct (tokenize a) as [| |name v|]; [by intros [= <- _]..| |done].
  destruct (kind_of sp name) as [k|] eqn:Ek; [|done]. intros H Hv.
  destruct k, v as [v|]; cbn -[set_flag] in H;
    try (destruct args as [|v args]; [done|]);
    match type of H with context [set_flag ?k ?n ?v ?m] => destruct (set_flag k n v m) as [vs|] eqn:Es; [|done] end;
    (eapply IH; [|exact H|by eapply Hset]; cbn; lia).
Qed.

(** A flag none of the arguments looks like is not set. *)
Lemma parse_unset sp n args : (forall a v, a ∈ args -> tokenize a <> Flag n v) ->
  forall vals vals' rest, parse sp args vals = Ok (vals', rest) -> vals' !! n = vals !! n.
Proof.
  induction args as [args IH] using (induction_ltof1 _ (@length string)). unfold ltof in IH. intros Hn vals vals' rest.
  destruct args as [|a args]; cbn -[set_flag]; [by intros [= <- _]|].
  assert (Ha : forall v, tokenize a <> Flag n v) by (intros; apply Hn; left).
  destruct (tokenize a) as [| |name v|]; [by intros [= <- _]..| |done].
  destruct (kind_of sp name) as [k|] eqn:Ek; [|done]. intros H.
  assert (Hne : name <> n) by (intros ->; by eapply Ha).
  assert (Hset : forall k v vs, set_flag k name v vals = Ok vs -> vs !! n = vals !! n).
  { unfold set_flag. intros k0 v0 vs. destruct (valid k0 v0); [|done]. intros [= <-]. by rewrite lookup_insert_ne. }
  destruct k, v as [v|]; cbn -[set_flag] in H;
    try (destruct args as [|v args]; [done|]);
    match type of H with context [set_flag ?k name ?v vals] => destruct (set_flag k name v vals) as [vs|] eqn:Es; [|done] end;
    rewrite <- (Hset _ _ _ Es); (eapply IH; [..|exact H]; [cbn; lia|intros; apply Hn; set_solver]).
Qed.

Lemma bool_unset sp args vals rest n : (forall a v, a ∈ args -> tokenize a <> Flag n v) ->
  Parse sp args = Ok (vals, rest) -> bool_flag vals n = false.
Proof. intros Hn H. unfold bool_flag. by rewrite (parse_unset sp n args Hn _ _ _ H). Qed.
