(* ===== verification/Cli.v ===== *)
(** * Cli: the commands that edit

    [cmd/goddns]: main.go (dispatch, tokens, passwords, the ownership of the
    database files), record.go, vhost.go and the file commands of zone.go. A
    command is a step on the machine: the token store, the files, the name
    server and what was printed. [fatal] and [os.Exit] end the process where
    they stand, so what was deferred does not run: that is the error of the
    monad [cmd]. *)

From Stdlib Require Import String Ascii.
From S2P Require Import Prelude GoStrings NetIP Encoding.
From S2P Require Import FS DnsLib Config Ddns Named NamedParse ZoneFile FileZone Tsig Store RecordMut Host.
From S2P Require Import Zoned History RotateKey VhostMut Readers Form Flag.

(** [named_db], with the arguments parsed and the configuration loaded in the
    context. *)
Ltac named := do 5 eexists; split; [|split; [eassumption|split; [eassumption|reflexivity]]]; solve [reflexivity | done].

Definition defaultConf : string := "/etc/goddns/goddns.conf".

(** ** Standard input *)

Fixpoint skip_blank (s : string) : option string :=
  match s with
  | EmptyString => Some ""
  | String c s' => if Ascii.eqb c newline then None else if is_space c then skip_blank s' else Some s
  end.

(** Only white space up to the end of the line. *)
Fixpoint line_ends (s : string) : bool :=
  match s with
  | EmptyString => true
  | String c s' => if Ascii.eqb c newline then true else is_space c && line_ends s'
  end.

(** [fmt.Fscanln(os.Stdin, &s)]: the word, and whether there was no error. *)
Definition scanln (s : string) : string * bool :=
  match skip_blank s with
  | None | Some EmptyString => ("", false)
  | Some s => let '(w, rest) := span (fun c => negb (is_space c)) s in (w, line_ends rest)
  end.

Definition says_yes (stdin : string) : bool :=
  let s := to_lower (trim_space (scanln stdin).1) in String.eqb s "y" || String.eqb s "yes".

(** ** What a command prints, and how it ends *)

Inductive said :=
| SVersion | SUsage (of_ : string)
| SDiff (removed added : list string) | SNothing | SOnlySerial | SAsked (q : string) | SAborted
| SApplied (zone key : string) (snapshot : Z) | SEdited (file : string) (serial : Z) (backup : string)
| SEnabled (zone path : string) | SCanEnable (zone path conf : string) | SRaw (content : string)
| SPreserved (path : string)
| SToken (rec : Record') (token url : string) | SRotated (fqdn token : string) | SDeleted (fqdn : string)
| SRecords (rs : list Record')
| SSnapshots (rows : list (Z * Z * Z))
| SFewSnapshots (n : nat) | SPrunedMeanwhile | SSerials (older newer : Z)
| SVhosts (rows : list (string * string * bool * string)) | SVhost (host source : string) (managed : bool) (rule : ProxyRule)
| SVhostSet (action host file fragment : string) | SWrote (file : string) | SVhostDel (host file : string) | SRemoved (file : string)
| SKey (o : outcome) | SPasswd (entry : string)
| SZones (rows : list (list string)) | SHidden (n : nat) | SKeys (rows : list (string * string)) | SFindings (fs : list Finding)
| SNote (why : string) | SExport (text : string) | SHeader (lines : list string) | SRows (rows : list Row)
| SChecks (rows : list (string * string * string * string)) | SAgree (serial : Z) | SNoAnswer | SMismatch (rows : list (string * Z)).

Inductive cli_error :=
| EUsage | EConfig (e : config_error) | EIO (e : io_error) | EOpen (why : string)
| EParse (line why : string) | EType (t : string) | ERecord (e : rm_error store_error) | EZone (e : fz_error)
| EStore (e : store_error) | EBadId (id : string) | ENoSnapshot (id : Z) | EOtherZone (id : Z) (zone : string)
| EVhost (e : vm_error) | ENoVhost (host : string) | ERotate (e : rk_error)
| EUser | EPassword (why : string) | EShort | EMismatch | EEditor | EConf (why : string) | ETransfer (why : string).

(** [Stop]: the exit code of a usage message; [Fatal]: exit code 1. *)
Inductive exit := Stop (code : Z) | Fatal (e : cli_error) | Panic.

(** ** Lists of flags *)

Definition record_flags : spec := [("config", KString); ("y", KBool)].
Definition zone_flags : spec := [("config", KString)].
Definition vhost_flags : spec :=
  [("config", KString); ("y", KBool); ("upstream", KString); ("allow", KString); ("auth", KString); ("rate", KInt);
   ("verify", KBool); ("preserve-host", KBool)].
Definition token_flags : spec := [("config", KString); ("fqdn", KString); ("zone", KString); ("ttl", KInt)].
Definition rotate_flags : spec := [("config", KString); ("no-reconfig", KBool)].
Definition passwd_flags : spec := [("user", KString)].

Definition splitList (s : string) : list string :=
  if String.eqb (trim_space s) "" then []
  else List.filter (fun p => negb (String.eqb p "")) (trim_space <$> split "," s).

Definition qualifyName `{Dns} (name zone : string) : string :=
  let name := trim_space name in
  if String.eqb name "@" || String.eqb name "" then Fqdn zone
  else if has_suffix "." name then name
  else Fqdn (name +:+ "." +:+ zone).

Definition inEditable (cfg : Config) (zone : string) : bool :=
  let z := norm_name zone in existsb (fun x => String.eqb (norm_name x) z) (EditableZones cfg).

Definition editorKeys (cfg : Config) : list Tsig.Key :=
  match tsigKeys cfg with
  | [] => [Tsig.mkKey (trim_suffix "." (TSIGName cfg)) (TSIGAlgo cfg) (TSIGSecret cfg)]
  | ks => ks
  end.

Definition listenPort (cfg : Config) : string :=
  match SplitHostPort (Listen cfg) with
  | Some (_, port) => if String.eqb port "" || String.eqb port "443" then "" else ":" +:+ port
  | None => ""
  end.

Section monad.
Context {E : Env} {W : Type}.

Record state := mkState { st_db : db; st_world : world; st_net : W; st_out : list said }.

Definition cmd (A : Type) : Type := state -> result exit A * state.
#[local] Instance cmd_ret : MRet cmd := fun A a s => (Ok a, s).
#[local] Instance cmd_bind : MBind cmd := fun A X f m s =>
  match m s with (Ok a, s') => f a s' | (Err e, s') => (Err e, s') end.

Definition die {A} (e : exit) : cmd A := fun s => (Err e, s).
Definition fatal {A} (e : cli_error) : cmd A := die (Fatal e).
Definition say (x : said) : cmd unit := fun s => (Ok tt, mkState (st_db s) (st_world s) (st_net s) (st_out s ++ [x])).
Definition usage {A} (of_ : string) : cmd A := _ ← say (SUsage of_); die (Stop 2).

Definition ask {A} (f : state -> A) : cmd A := fun s => (Ok (f s), s).
Definition or_fatal {F A} (wrap : F -> cli_error) (r : result F A) : cmd A :=
  match r with Ok a => mret a | Err e => fatal (wrap e) end.
Definition on_files {F A} (m : io F A) : cmd (result F A) := fun s =>
  let '(r, w) := m (st_world s) in (Ok r, mkState (st_db s) w (st_net s) (st_out s)).
Definition files_or_fatal {F A} (wrap : F -> cli_error) (m : io F A) : cmd A := r ← on_files m; or_fatal wrap r.
Definition on_db {A} (f : db -> A * db) : cmd A := fun s =>
  let '(a, d) := f (st_db s) in (Ok a, mkState d (st_world s) (st_net s) (st_out s)).
Definition on_zone {A} (f : db -> W -> A * db * W) : cmd A := fun s =>
  let '(a, d, n) := f (st_db s) (st_net s) in (Ok a, mkState d (st_world s) n (st_out s)).

Definition flags (sp : spec) (args : list string) : cmd (values * list string) :=
  match Flag.Parse sp args with
  | Ok r => mret r
  | Err Help => die (Stop 0)
  | Err _ => die (Stop 2)
  end.

Definition config_flag (fl : values) : string := str_flag fl "config" defaultConf.
Definition load (fl : values) : cmd Config := or_fatal EConfig (Load (config_flag fl)).

(** ** What a command leaves alone *)

(** A file with other owners. *)
Definition chowned (n n' : node) : Prop :=
  match n, n' with
  | Reg d m _ _, Reg d' m' _ _ => d = d' /\ m = m'
  | Link t, Link t' => t = t'
  | _, _ => False
  end.

(** The files of a database: itself, its log and its index. *)
Definition db_files (dbPath : string) : list string := (fun suffix => dbPath +:+ suffix) <$> [""; "-wal"; "-shm"].

(** Files that were there are as they were, but for the owners of the files of
    the databases [dbs] (or of what their names link to). *)
Definition db_owned (dbs : string -> Prop) (fs : files) (p : string) : Prop :=
  exists path f, dbs path /\ f ∈ db_files path /\ p = follow fs f.

Definition kept_files (dbs : string -> Prop) (fs0 fs : files) : Prop := same_links fs0 fs /\
  forall p n, fs0 !! p = Some n -> exists n', fs !! p = Some n' /\ (n' = n \/ db_owned dbs fs0 p /\ chowned n n').

(** Nothing but these owners, new files and the output has changed. *)
Definition kept (dbs : string -> Prop) (s s' : state) : Prop :=
  st_db s' = st_db s /\ st_net s' = st_net s /\ kept_files dbs (w_files (st_world s)) (w_files (st_world s')).

Definition keeps {A} (dbs : string -> Prop) (m : cmd A) : Prop := forall s, kept dbs s (m s).2.

(** The databases an argument list names, by the configuration it, or the end
    of it, asks for. *)
Definition named_db (args : list string) (path : string) : Prop :=
  exists sp tl fl rest cfg, tl `suffix_of` args /\ Flag.Parse sp tl = Ok (fl, rest) /\ Load (config_flag fl) = Ok cfg /\ path = DBPath cfg.

Lemma named_db_suffix tl args path : tl `suffix_of` args -> named_db tl path -> named_db args path.
Proof.
  intros Hs (sp & tl' & fl & rest & cfg & Hs' & H). exists sp, tl', fl, rest, cfg. split; [by etrans|done].
Qed.

Lemma chowned_refl n : chowned n n.
Proof. by destruct n. Qed.

Lemma chowned_trans a b c : chowned a b -> chowned b c -> chowned a c.
Proof. destruct a, b, c; cbn; naive_solver. Qed.

Section keeping.
Context {dbs : string -> Prop}.

Lemma preserved_kept fs0 fs : preserved fs0 fs -> same_links fs0 fs -> kept_files dbs fs0 fs.
Proof. intros H Hl. split; [done|]. intros p n Hn. exists n. split; [|by left]. rewrite H; [done|]. by rewrite Hn. Qed.

Lemma kept_files_refl fs : kept_files dbs fs fs.
Proof. apply preserved_kept; [apply preserved_refl|done]. Qed.

Lemma kept_files_trans fs1 fs2 fs3 : kept_files dbs fs1 fs2 -> kept_files dbs fs2 fs3 -> kept_files dbs fs1 fs3.
Proof.
  intros [L1 H1] [L2 H2]. split; [by eapply same_links_trans|]. intros p n Hn.
  destruct (H1 p n Hn) as (n1 & Hn1 & Hc1). destruct (H2 p n1 Hn1) as (n2 & Hn2 & Hc2).
  exists n2. split; [done|]. assert (Ho : db_owned dbs fs2 p -> db_owned dbs fs1 p).
  { intros (path & f & Hd & Hf & ->). exists path, f. split_and!; [done..|]. by apply same_links_follow. }
  destruct Hc1 as [->|[Ho1 Hc1]], Hc2 as [->|[Ho2 Hc2]]; [by left|right; by auto..|].
  right. split; [done|]. by eapply chowned_trans.
Qed.

Lemma kept_refl s : kept dbs s s.
Proof. split_and!; [done..|]. apply kept_files_refl. Qed.

Lemma kept_trans s1 s2 s3 : kept dbs s1 s2 -> kept dbs s2 s3 -> kept dbs s1 s3.
Proof. intros (H1 & H2 & H3) (H4 & H5 & H6). split_and!; [congruence..|]. by eapply kept_files_trans. Qed.

Lemma keeps_ret {A} (a : A) : keeps dbs (mret a).
Proof. intros s. apply kept_refl. Qed.

Lemma keeps_die {A} e : keeps dbs (die (A := A) e).
Proof. intros s. apply kept_refl. Qed.

Lemma keeps_say x : keeps dbs (say x).
Proof. intros s. split_and!; [done..|]. apply kept_files_refl. Qed.

Lemma keeps_ask {A} (f : state -> A) : keeps dbs (ask f).
Proof. intros s. apply kept_refl. Qed.

Lemma keeps_bind {A X} (m : cmd A) (f : A -> cmd X) : keeps dbs m -> (forall a, keeps dbs (f a)) -> keeps dbs (mbind f m).
Proof.
  intros Hm Hf s. unfold mbind, cmd_bind. specialize (Hm s). destruct (m s) as [[a|e] s1]; [|done].
  eapply kept_trans; [done|apply Hf].
Qed.

Lemma keeps_or_fatal {F A} wrap (r : result F A) : keeps dbs (or_fatal wrap r).
Proof. destruct r; [apply keeps_ret|apply keeps_die]. Qed.

Lemma keeps_on_files {F A} (m : io F A) : (forall w, kept_files dbs (w_files w) (w_files (m w).2)) -> keeps dbs (on_files m).
Proof. intros H s. unfold on_files. specialize (H (st_world s)). destruct (m (st_world s)) as [r w]. by split_and!. Qed.

Lemma keeps_preserving {F A} (m : io F A) : preserving m -> keeps_links m -> keeps dbs (on_files m).
Proof. intros H Hl. apply keeps_on_files. intros w. apply preserved_kept; [apply H|apply Hl]. Qed.

Lemma keeps_readonly {F A} (m : io F A) : readonly m -> keeps dbs (on_files m).
Proof. intros H. apply keeps_on_files. intros w. rewrite H. apply kept_files_refl. Qed.

Lemma keeps_flags sp args : keeps dbs (flags sp args).
Proof. unfold flags. case_match; [apply keeps_ret|]. case_match; apply keeps_die. Qed.

Lemma keeps_fatal {A} e : keeps dbs (fatal (A := A) e).
Proof. apply keeps_die. Qed.

Lemma keeps_usage {A} o : keeps dbs (usage (A := A) o).
Proof. apply keeps_bind; [apply keeps_say|]. intros; apply keeps_die. Qed.

Lemma keeps_load fl : keeps dbs (load fl).
Proof. apply keeps_or_fatal. Qed.

Lemma keeps_files_or_fatal {F A} wrap (m : io F A) : preserving m -> keeps_links m -> keeps dbs (files_or_fatal wrap m).
Proof. intros H Hl. apply keeps_bind; [by apply keeps_preserving|]. intros; apply keeps_or_fatal. Qed.

Lemma keeps_reading {F A} wrap (m : io F A) : readonly m -> keeps dbs (files_or_fatal wrap m).
Proof. intros H. apply keeps_bind; [by apply keeps_readonly|]. intros; apply keeps_or_fatal. Qed.

Lemma keeps_flags_bind {X} sp args (f : values * list string -> cmd X) :
  (forall fl rest, Flag.Parse sp args = Ok (fl, rest) -> keeps dbs (f (fl, rest))) -> keeps dbs (r ← flags sp args; f r).
Proof.
  intros Hf s. unfold mbind, cmd_bind, flags. destruct (Flag.Parse sp args) as [[fl rest]|[]]; cbn; try apply kept_refl.
  by apply Hf.
Qed.

Lemma keeps_load_bind {X} fl (f : Config -> cmd X) :
  (forall cfg, Load (config_flag fl) = Ok cfg -> keeps dbs (f cfg)) -> keeps dbs (cfg ← load fl; f cfg).
Proof.
  intros Hf s. unfold mbind, cmd_bind, load, or_fatal. destruct (Load (config_flag fl)) as [cfg|err]; [by apply Hf|apply kept_refl].
Qed.

End keeping.

Lemma readonly_preserving {F A} (m : io F A) : readonly m -> preserving m.
Proof. intros H w p _. by rewrite H. Qed.

Lemma keeps_weaken {A} (dbs dbs' : string -> Prop) (m : cmd A) : (forall path, dbs path -> dbs' path) -> keeps dbs m -> keeps dbs' m.
Proof.
  intros Hsub H s. destruct (H s) as (H1 & H2 & Hl & H3). split_and!; [done..|]. split; [done|]. intros p n Hn.
  destruct (H3 p n Hn) as (n' & Hn' & [->|[(path & f & Hd & Hf) Hc]]); [by exists n; auto|]. exists n'. split; [done|]. right.
  split; [|done]. exists path, f. auto.
Qed.

End monad.

Section cli.
Context {D : Dns} {C : Crypto} {B : Bcrypt} {E : Env} {W : Type}.
#[local] Existing Instances cmd_ret cmd_bind.
#[local] Abbreviation state := (state (W := W)).
#[local] Abbreviation cmd := (cmd (W := W)).

(** *** What the commands run on

    Standard input, and whether it is a terminal with the passwords typed
    there; the clock and the random bytes of a token; bcrypt; the failures of
    the calls on the store and of the system calls; whether the database opens,
    and who owns a directory; the machine and the name server, which also
    answers the self-test of a new key; the record type names of the DNS
    library; and the editor, which may do anything to the files. *)
Context (stdin : string) (terminal : option (nat -> result string string)).
Context (now : Z) (random : string) (gen : string -> result string string) (new_secret : result string string).
Context (sf : nat -> nat -> option string) (open_db : option string) (dir_owner : string -> option (Z * Z)).
Context (fault : nat -> option string) (tempname : nat -> string -> string) (euid egid : Z) (dirGID : string -> Z).
Context (today : date) (now_ns : nat -> Z) (h : Host.Host) (hostname : option string).
Context (view : W -> Net) (late : nat -> bool) (exchange : string -> string -> updateMsg -> W -> W * result string Z).
Context (key_query : nat -> string -> string -> string -> string -> Hmac -> result string bool).
Context (StringToType : string -> option Z) (run_editor : list string -> world -> result string unit * world).

Definition confirmPrompt (q : string) : cmd bool := _ ← say (SAsked q); mret (says_yes stdin).

(** [!yes && !confirmPrompt(q)] is the negation. *)
Definition go_ahead (yes : bool) (q : string) : cmd bool := if yes then mret true else confirmPrompt q.

(** *** The database and its owner *)

Definition openStore (cfg : Config) : cmd unit :=
  _ ← files_or_fatal EIO (MkdirAll fault (Dir (DBPath cfg)));
  match open_db with Some why => fatal (EOpen why) | None => mret tt end.

(** [os.Chown] follows a link. *)
Definition chown (p : string) (uid gid : Z) : io io_error unit := syscall fault (fun fs =>
  let q := follow fs p in
  match fs !! q with
  | Some (Reg d m _ _) => Ok (tt, <[q := Reg d m uid gid]> fs)
  | _ => Err ENOENT
  end).

Fixpoint chown_all (files : list string) (uid gid : Z) : io io_error unit :=
  match files with
  | [] => mret tt
  | f :: fs => _ ← ignore (E' := io_error) (chown f uid gid); chown_all fs uid gid
  end.

Definition healDBOwnership (dbPath : string) : io io_error unit :=
  if negb (euid =? 0) then mret tt
  else match dir_owner (Dir dbPath) with
       | None => mret tt
       | Some (uid, gid) => chown_all (db_files dbPath) uid gid
       end.

(** A deferred call runs when [body] returns or panics, and not when it ends
    the process. *)
Definition defers {A} (body : cmd A) (cleanup : io io_error unit) : cmd A := fun s =>
  match body s with
  | (Err (Stop c), s') => (Err (Stop c), s')
  | (Err (Fatal e), s') => (Err (Fatal e), s')
  | (r, s') => (r, (on_files cleanup s').2)
  end.

Definition with_store {A} (cfg : Config) (body : cmd A) : cmd A :=
  _ ← openStore cfg; defers body (healDBOwnership (DBPath cfg)).

(** *** Tokens *)

Definition serverHost (cfg : Config) : string :=
  if negb (String.eqb (ACMEDomain cfg) "") then ACMEDomain cfg
  else match hostname with
       | Some n => if String.eqb n "" then "<this-host>" else n
       | None => "<this-host>"
       end.

Definition test_url (cfg : Config) (tok : string) : string :=
  "https://" +:+ serverHost cfg +:+ listenPort cfg +:+ "/update/" +:+ tok.

Definition token_command (cfg : Config) (sub : string) (fl : values) : cmd unit :=
  let fqdn := str_flag fl "fqdn" "" in
  let zone := str_flag fl "zone" "" in
  if String.eqb sub "add" then
    if String.eqb fqdn "" || String.eqb zone "" then fatal EUsage
    else
      r ← on_db (Store.Add (sf 0%nat) random fqdn zone (u32 (int_flag fl "ttl" 60)));
      '(rec, tok) ← or_fatal EStore r;
      say (SToken rec tok (test_url cfg tok))
  else if String.eqb sub "list" then
    r ← ask (fun s => Store.List (sf 0%nat) (st_db s));
    rs ← or_fatal EStore r;
    say (SRecords rs)
  else if String.eqb sub "rotate" then
    if String.eqb fqdn "" then fatal EUsage
    else
      r ← on_db (Store.Rotate (sf 0%nat) random fqdn);
      '(rec, tok) ← or_fatal EStore r;
      say (SRotated (FQDN_ rec) tok)
  else if String.eqb sub "del" then
    if String.eqb fqdn "" then fatal EUsage
    else
      r ← on_db (Store.Del (sf 0%nat) fqdn);
      _ ← or_fatal EStore r;
      say (SDeleted (FQDN fqdn))
  else usage "goddns".

Definition cmdToken (args : list string) : cmd unit :=
  match args with
  | [] => usage "goddns"
  | sub :: args' =>
      '(fl, _) ← flags token_flags args';
      cfg ← load fl;
      with_store cfg (token_command cfg sub fl)
  end.

(** *** Passwords *)

(** The k-th password: typed at the terminal, or a word of standard input. *)
Definition readPass (k : nat) : cmd string :=
  match terminal with
  | Some typed => or_fatal EPassword (typed k)
  | None => let '(w, good) := scanln stdin in if (good : bool) then mret w else fatal (EPassword "unexpected newline")
  end.

Definition cmdPasswd (args : list string) : cmd unit :=
  '(fl, _) ← flags passwd_flags args;
  let user := str_flag fl "user" "" in
  if String.eqb user "" || contains ":" user then fatal EUser
  else
    pass ← readPass 0;
    if (String.length pass <? 8)%nat then fatal EShort
    else
      again ← (match terminal with Some _ => readPass 1 | None => mret pass end);
      if negb (String.eqb pass again) then fatal EMismatch
      else
        hash ← or_fatal EPassword (gen pass);
        say (SPasswd (user +:+ ":" +:+ hash)).

(** *** Records *)

Definition recordEditor (cfg : Config) : RecordMut.Editor :=
  RecordMut.mkEditor (NamedConf cfg) (DNSServer cfg) (editorKeys cfg) (HistoryKeep cfg).

Definition fileEditor (cfg : Config) : FileZone.Editor :=
  default_editor fault tempname euid egid h (NamedConf cfg) (DNSServer cfg) (EditableZones cfg) (HistoryKeep cfg).

#[local] Abbreviation rm_preview cfg zone ops :=
  (fun s : state => RecordMut.Preview (SE := store_error) (h_checkConf h) view late (recordEditor cfg) zone ops (st_net s)).
#[local] Abbreviation rm_apply n cfg zone ops :=
  (RecordMut.Apply (S := store_snapshotter (sf n) now) (h_checkConf h) view late exchange true (recordEditor cfg) zone ops).

Definition rm_empty (res : RecordMut.Result) : bool :=
  (length (RecordMut.res_Added res) =? 0)%nat && (length (RecordMut.res_Removed res) =? 0)%nat.
Definition fz_empty (res : FileZone.Result) : bool :=
  (length (FileZone.res_Added res) =? 0)%nat && (length (FileZone.res_Removed res) =? 0)%nat.

Definition applied (res : RecordMut.Result) : cmd unit := say (SApplied (res_Zone res) (res_Key res) (res_Snapshot res)).
Definition edited (res : FileZone.Result) : cmd unit :=
  say (SEdited (FileZone.res_File res) (FileZone.res_Serial res) (FileZone.res_Backup res)).

(** A record as text, with the zone as its origin. *)
Definition parseRRInZone (line zone : string) : result string RR := ParseRR line zone.

Definition record_ops (sub : string) (rest : list string) : cmd (string * list Op) :=
  if String.eqb sub "add" || String.eqb sub "del" then
    match rest with
    | [zone; line] =>
        rr ← or_fatal (EParse line) (parseRRInZone line zone);
        mret (zone, [mkOp (if String.eqb sub "del" then DelRR else AddRR) (Some rr)])
    | _ => fatal EUsage
    end
  else if String.eqb sub "delset" then
    match rest with
    | [zone; name; t] =>
        match StringToType (to_upper t) with
        | None => fatal (EType t)
        | Some rrtype => mret (zone, [mkOp DelRRset (Some (mk_hdr (qualifyName name zone) rrtype))])
        end
    | _ => fatal EUsage
    end
  else usage "goddns record".

(** A static zone: its file. *)
Definition cmdRecordFile (cfg : Config) (zone : string) (ops : list Op) (yes : bool) : cmd unit :=
  let ed := fileEditor cfg in
  res ← files_or_fatal EZone (FileZone.Preview fault today ed zone ops);
  _ ← say (SDiff (FileZone.res_Removed res) (FileZone.res_Added res));
  if fz_empty res then say SNothing
  else
    ok ← go_ahead yes ("edit static zone " +:+ zone +:+ " in place?");
    if negb ok then say SAborted
    else
      res ← files_or_fatal EZone (FileZone.Apply fault tempname euid egid today now_ns ed zone ops);
      edited res.

(** A dynamic zone: a signed update. *)
Definition record_dynamic (cfg : Config) (zone : string) (ops : list Op) (yes : bool) : cmd unit :=
  r ← ask (rm_preview cfg zone ops);
  res ← or_fatal ERecord r;
  _ ← say (SDiff (RecordMut.res_Removed res) (RecordMut.res_Added res));
  if rm_empty res then say SNothing
  else
    ok ← go_ahead yes ("apply to " +:+ zone +:+ "?");
    if negb ok then say SAborted
    else
      r ← on_zone (rm_apply 0%nat cfg zone ops);
      res ← or_fatal ERecord r;
      applied res.

Definition list_snapshots (zone : string) (limit : Z) : cmd (list Snapshot) :=
  r ← ask (fun s => SnapshotList (sf 0%nat) (st_db s) zone limit); or_fatal EStore r.

Definition snapshot_rows (snaps : list Snapshot) : list (Z * Z * Z) :=
  (fun sn => (sn_ID sn, sn_Serial sn, sn_TakenAt sn)) <$> snaps.

Definition restore_from (cfg : Config) (zone id_text : string) (yes : bool) : cmd unit :=
  match scan_int64 id_text with
  | None => fatal (EBadId id_text)
  | Some id =>
      if id <=? 0 then fatal (EBadId id_text)
      else
        r ← ask (fun s => SnapshotByID (sf 0%nat) (st_db s) id);
        found ← or_fatal EStore r;
        match found with
        | None => fatal (ENoSnapshot id)
        | Some snap =>
            if negb (equal_fold (trim_suffix "." (sn_Zone snap)) (trim_suffix "." zone)) then fatal (EOtherZone id (sn_Zone snap))
            else
              p ← ask (fun s => RestorePlan (SE := store_error) (h_checkConf h) view late (recordEditor cfg) zone (sn_Content snap) (st_net s));
              '(ops, res) ← or_fatal ERecord p;
              if (length ops =? 0)%nat then say SNothing
              else
                _ ← say (SDiff (RecordMut.res_Removed res) (RecordMut.res_Added res));
                ok ← go_ahead yes ("restore " +:+ zone +:+ "?");
                if negb ok then say SAborted
                else
                  r ← on_zone (rm_apply 1%nat cfg zone ops);
                  res ← or_fatal ERecord r;
                  applied res
        end
  end.

Definition cmdRecordRestore (cfg : Config) (rest : list string) (yes : bool) : cmd unit :=
  match rest with
  | [zone] => with_store cfg (snaps ← list_snapshots zone 50; say (SSnapshots (snapshot_rows snaps)))
  | [zone; id] => with_store cfg (restore_from cfg zone id yes)
  | _ => fatal EUsage
  end.

Definition cmdRecord (args : list string) : cmd unit :=
  match args with
  | [] => usage "goddns record"
  | sub :: args' =>
      '(fl, rest) ← flags record_flags args';
      let yes := bool_flag fl "y" in
      cfg ← load fl;
      if String.eqb sub "restore" then cmdRecordRestore cfg rest yes
      else
        '(zone, ops) ← record_ops sub rest;
        if inEditable cfg zone then cmdRecordFile cfg zone ops yes
        else with_store cfg (record_dynamic cfg zone ops yes)
  end.

(** *** The file of a static zone *)

Definition loadCfgArg (args : list string) : cmd (Config * string * string) :=
  '(fl, rest) ← flags zone_flags args;
  match rest with
  | [zone] => cfg ← load fl; mret (cfg, config_flag fl, zone)
  | _ => fatal EUsage
  end.

Definition cmdZoneEnable (args : list string) : cmd unit :=
  '(cfg, confPath, zone) ← loadCfgArg args;
  path ← files_or_fatal EZone (PreflightEnable fault
           (default_editor fault tempname euid egid h (NamedConf cfg) "" [] 0) zone);
  if inEditable cfg zone then say (SEnabled zone path) else say (SCanEnable zone path confPath).

Definition cmdZoneExport (args : list string) : cmd unit :=
  '(cfg, _, zone) ← loadCfgArg args;
  data ← files_or_fatal EZone (ReadRaw fault (fileEditor cfg) zone);
  say (SRaw data).

Definition cmdZoneImport (args : list string) : cmd unit :=
  '(fl, rest) ← flags record_flags args;
  match rest with
  | [zone; file] =>
      cfg ← load fl;
      content ← files_or_fatal EIO (ReadFile fault file);
      let ed := fileEditor cfg in
      '(res, base) ← files_or_fatal EZone (PreviewRaw fault today ed zone content);
      _ ← say (SDiff (FileZone.res_Removed res) (FileZone.res_Added res));
      _ ← (if fz_empty res then say SOnlySerial else mret tt);
      ok ← go_ahead (bool_flag fl "y") ("replace " +:+ zone +:+ " with " +:+ file +:+ "?");
      if negb ok then say SAborted
      else
        res ← files_or_fatal EZone (ReplaceRaw fault tempname euid egid today now_ns ed zone content (Some base));
        edited res
  | _ => fatal EUsage
  end.

Definition or_env (names : list string) (def : string) : string :=
  match find_first (fun v => negb (String.eqb v "")) (getenv <$> names) with Some v => v | None => def end.

(** A fatal error on the way: the edit is kept in [tmp]. *)
Definition keeping {F A} (tmp : string) (wrap : F -> cli_error) (m : io F A) : cmd A :=
  r ← on_files m;
  match r with
  | Ok a => mret a
  | Err e => _ ← say (SPreserved tmp); fatal (wrap e)
  end.

(** After the editor. *)
Definition apply_edit (cfg : Config) (zone base tmp : string) : cmd unit :=
  let ed := fileEditor cfg in
  new ← files_or_fatal EIO (ReadFile fault tmp);
  if String.eqb new base then say SNothing
  else
    '(res, _) ← keeping tmp EZone (PreviewRaw fault today ed zone new);
    _ ← say (SDiff (FileZone.res_Removed res) (FileZone.res_Added res));
    ok ← confirmPrompt ("apply your edit to " +:+ zone +:+ "?");
    if negb ok then say SAborted
    else
      res ← keeping tmp EZone (ReplaceRaw fault tempname euid egid today now_ns ed zone new (Some base));
      edited res.

(** The session: from the editor to the file. *)
Definition edit_session (cfg : Config) (zone base tmp : string) : cmd unit :=
  _ ← on_files (ignore (E' := io_error) (write_at fault tmp base));
  _ ← on_files (ignore (E' := io_error) (Close fault tmp));
  match fields (or_env ["EDITOR"; "VISUAL"] "vi") with
  | [] => die Panic
  | argv =>
      _ ← files_or_fatal (fun _ => EEditor) (run_editor (argv ++ [tmp]));
      apply_edit cfg zone base tmp
  end.

Definition cmdZoneEdit (args : list string) : cmd unit :=
  '(cfg, _, zone) ← loadCfgArg args;
  base ← files_or_fatal EZone (ReadRaw fault (fileEditor cfg) zone);
  tmp ← files_or_fatal EIO (CreateTemp fault tempname euid egid "/tmp");
  defers (edit_session cfg zone base tmp) (FS.Remove fault tmp).

(** *** Vhosts *)

Definition vhostList (conf : string) : cmd unit :=
  entries ← files_or_fatal EVhost (List_ fault conf);
  say (SVhosts ((fun e => (en_Host e, Upstream (en_Rule e), en_Managed e,
                           if en_Managed e then "proxy.d/" +:+ en_Host e +:+ ".conf" else "goddns.conf")) <$> entries)).

Definition vhostShow (conf host : string) : cmd unit :=
  entries ← files_or_fatal EVhost (List_ fault conf);
  match find_first (fun e => String.eqb (en_Host e) (norm_name host)) entries with
  | Some e => say (SVhost (en_Host e) (en_Source e) (en_Managed e) (en_Rule e))
  | None => fatal (ENoVhost (norm_name host))
  end.

Definition vhostSet (conf host : string) (rule : ProxyRule) (yes : bool) : cmd unit :=
  res ← files_or_fatal EVhost (PreviewSet fault conf host rule);
  _ ← say (SVhostSet (v_Action res) (v_Host res) (v_File res) (v_Fragment res));
  ok ← go_ahead yes (v_Action res +:+ " " +:+ v_Host res +:+ "?");
  if negb ok then say SAborted
  else
    _ ← files_or_fatal EVhost (Set_ fault tempname euid egid dirGID conf host rule);
    say (SWrote (v_File res)).

Definition vhostDel (conf host : string) (yes : bool) : cmd unit :=
  res ← files_or_fatal EVhost (PreviewRemove fault conf host);
  _ ← say (SVhostDel (v_Host res) (v_File res));
  ok ← go_ahead yes ("remove " +:+ v_Host res +:+ "?");
  if negb ok then say SAborted
  else
    _ ← files_or_fatal EVhost (Remove_ fault conf host);
    say (SRemoved (v_File res)).

Definition flag_rule (fl : values) : ProxyRule :=
  mkRule (str_flag fl "upstream" "") (bool_flag fl "verify") (bool_flag fl "preserve-host") false []
    (splitList (str_flag fl "allow" "")) (int_flag fl "rate" 0) (splitList (str_flag fl "auth" "")).

(** The subcommands that take a host do so right behind their name. *)
Definition takes_host (sub : string) : bool := existsb (String.eqb sub) ["set"; "show"; "del"; "rm"; "remove"].

Definition host_arg (sub : string) (args : list string) : cmd (string * list string) :=
  if takes_host sub then
    match args with
    | host :: args' => if has_prefix "-" host then fatal EUsage else mret (host, args')
    | [] => fatal EUsage
    end
  else mret ("", args).

Definition vhost_command (sub host : string) (flagArgs : list string) : cmd unit :=
  '(fl, _) ← flags vhost_flags flagArgs;
  let conf := config_flag fl in
  let yes := bool_flag fl "y" in
  if String.eqb sub "list" then vhostList conf
  else if String.eqb sub "show" then vhostShow conf host
  else if String.eqb sub "set" then
    if String.eqb (str_flag fl "upstream" "") "" then fatal EUsage else vhostSet conf host (flag_rule fl) yes
  else if takes_host sub then vhostDel conf host yes
  else usage "goddns vhost".

Definition cmdVhost (args : list string) : cmd unit :=
  match args with
  | [] => usage "goddns vhost"
  | sub :: args' => '(host, flagArgs) ← host_arg sub args'; vhost_command sub host flagArgs
  end.

(** *** Keys *)

Definition rotate_key (args : list string) : cmd unit :=
  '(fl, rest) ← flags rotate_flags args;
  cfg ← load fl;
  o ← files_or_fatal ERotate (cmdRotateKey fault tempname euid egid (h_checkConf h) key_query cfg
        (default "" (head rest)) (bool_flag fl "no-reconfig") new_secret);
  say (SKey o).

(** ** What the commands leave alone *)

Lemma keeps_defers {A} dbs (body : cmd A) m :
  keeps dbs body -> (forall w, kept_files dbs (w_files w) (w_files (m w).2)) -> keeps dbs (defers body m).
Proof.
  intros Hb Hm s. unfold defers. specialize (Hb s). destruct (body s) as [r s1].
  pose proof (keeps_on_files m Hm s1) as Hc.
  assert (H : kept dbs s (on_files m s1).2) by (eapply kept_trans; [apply Hb|apply Hc]).
  by destruct r as [a|[]].
Qed.

Lemma chown_keeps (dbs : string -> Prop) path p uid gid w : dbs path -> p ∈ db_files path ->
  kept_files dbs (w_files w) (w_files (chown p uid gid w).2).
Proof.
  intros Hd Hf. unfold chown, syscall. destruct (fault _); [apply kept_files_refl|].
  set (q := follow (w_files w) p). destruct (w_files w !! q) as [[d m u g|]|] eqn:Eq; cbn; try apply kept_files_refl.
  split; [apply same_links_insert; [done|]; intros t; by rewrite Eq|].
  intros p' n Hn. destruct (decide (p' = q)) as [->|Hne]; [rewrite lookup_insert_eq|rewrite lookup_insert_ne by done].
  - eexists. split; [done|]. rewrite Eq in Hn. injection Hn as <-. right. split; [|done]. by exists path, p.
  - exists n. auto.
Qed.

Lemma heal_keeps (dbs : string -> Prop) dbPath w : dbs dbPath -> kept_files dbs (w_files w) (w_files (healDBOwnership dbPath w).2).
Proof.
  intros Hd. unfold healDBOwnership. case_match; [apply kept_files_refl|].
  destruct (dir_owner _) as [[uid gid]|]; [|apply kept_files_refl].
  assert (Hsub : forall f, f ∈ db_files dbPath -> f ∈ db_files dbPath) by done. revert Hsub.
  generalize (db_files dbPath) at 1 3. intros fs Hsub. revert w. induction fs as [|f fs IH]; intros w; cbn [chown_all]; [apply kept_files_refl|].
  unfold mbind, io_bind, ignore. cbn [fst snd]. eapply kept_files_trans; [eapply chown_keeps; [done|]|apply IH].
  - apply Hsub. by left.
  - intros f' Hf'. apply Hsub. by right.
Qed.

Lemma keeps_openStore dbs cfg : keeps dbs (openStore cfg).
Proof.
  apply keeps_bind.
  - apply keeps_reading, readonly_touches, touches_MkdirAll.
  - intros _. case_match; [apply keeps_fatal|apply keeps_ret].
Qed.

Lemma keeps_with_store {A} (dbs : string -> Prop) cfg (body : cmd A) : dbs (DBPath cfg) -> keeps dbs body -> keeps dbs (with_store cfg body).
Proof. intros Hd H. apply keeps_bind; [apply keeps_openStore|]. intros. apply keeps_defers; [done|]. intros w. by apply heal_keeps. Qed.

(** ** Nothing is changed without a yes *)

Lemma go_ahead_no yes q (s : state) : yes = false -> says_yes stdin = false ->
  go_ahead yes q s = (Ok false, (say (SAsked q) s).2).
Proof. intros -> H. unfold go_ahead, confirmPrompt, mbind, cmd_bind, say. cbn. unfold mret, cmd_ret. by rewrite H. Qed.

(** What follows a question that is answered with no. *)
Lemma keeps_unconfirmed {A} dbs yes q (m1 m2 : cmd A) : yes = false -> says_yes stdin = false -> keeps dbs m1 ->
  keeps dbs (ok ← go_ahead yes q; if negb ok then m1 else m2).
Proof.
  intros Hy Hs H1 s. unfold mbind, cmd_bind. rewrite go_ahead_no by done. cbn.
  eapply kept_trans; [apply (keeps_say (SAsked q))|apply H1].
Qed.

Lemma file_readers cfg zone : let ed := fileEditor cfg in
  (forall ops, preserving (FileZone.Preview fault today ed zone ops)) /\ preserving (ReadRaw fault ed zone) /\
  (forall new, preserving (PreviewRaw fault today ed zone new)) /\ preserving (PreflightEnable fault ed zone).
Proof.
  intros ed. destruct (default_editor_tame fault tempname euid egid h (NamedConf cfg) (DNSServer cfg) (EditableZones cfg) (HistoryKeep cfg)).
  by apply reading_preserves.
Qed.

Lemma file_readers_links cfg zone : let ed := fileEditor cfg in
  (forall ops, keeps_links (FileZone.Preview fault today ed zone ops)) /\ keeps_links (ReadRaw fault ed zone) /\
  (forall new, keeps_links (PreviewRaw fault today ed zone new)) /\ keeps_links (PreflightEnable fault ed zone).
Proof.
  intros ed. destruct (default_editor_tame fault tempname euid egid h (NamedConf cfg) (DNSServer cfg) (EditableZones cfg) (HistoryKeep cfg)).
  by apply reading_links.
Qed.

Ltac keep :=
  repeat first
    [ progress intros
    | apply keeps_ret | apply keeps_fatal | apply keeps_die | apply keeps_say | apply keeps_ask | apply keeps_usage
    | apply keeps_flags | apply keeps_load | apply keeps_or_fatal | apply keeps_with_store; [done|]
    | apply keeps_unconfirmed; [done|done|] | apply keeps_bind
    | case_match ].

Section asking.
Hypothesis no : says_yes stdin = false.

Lemma cmdRecordFile_asks dbs cfg zone ops : keeps dbs (cmdRecordFile cfg zone ops false).
Proof. apply keeps_bind; [apply keeps_files_or_fatal; [by apply file_readers|by apply file_readers_links]|]. keep. Qed.

Lemma record_dynamic_asks dbs cfg zone ops : keeps dbs (record_dynamic cfg zone ops false).
Proof. unfold record_dynamic. keep. Qed.

Lemma restore_asks (dbs : string -> Prop) cfg rest : dbs (DBPath cfg) -> keeps dbs (cmdRecordRestore cfg rest false).
Proof. unfold cmdRecordRestore, restore_from, list_snapshots. keep. Qed.

Lemma record_ops_keeps dbs sub rest : keeps dbs (record_ops sub rest).
Proof. unfold record_ops. keep. Qed.

Lemma vhostSet_asks dbs conf host rule : keeps dbs (vhostSet conf host rule false).
Proof. apply keeps_bind; [by apply keeps_reading, readonly_PreviewSet|]. keep. Qed.

Lemma vhostDel_asks dbs conf host : keeps dbs (vhostDel conf host false).
Proof. apply keeps_bind; [by apply keeps_reading, readonly_PreviewRemove|]. keep. Qed.

Lemma vhost_reads dbs conf host : keeps dbs (vhostList conf) /\ keeps dbs (vhostShow conf host).
Proof. split; (apply keeps_bind; [by apply keeps_reading, readonly_List|keep]). Qed.

(** No argument asks to skip the question. *)
Definition asks (args : list string) : Prop := forall a v, a ∈ args -> tokenize a <> Flag "y" v.

Lemma asks_tail a args : asks (a :: args) -> asks args.
Proof. intros H a' v Ha. apply H. by right. Qed.

Lemma keeps_tail {A} a args (m : cmd A) : keeps (named_db args) m -> keeps (named_db (a :: args)) m.
Proof. apply keeps_weaken. intros path. apply named_db_suffix. by exists [a]. Qed.

Lemma cmdRecord_asks args : asks args -> keeps (named_db args) (cmdRecord args).
Proof.
  intros Ha. destruct args as [|sub args]; [apply keeps_usage|]. apply asks_tail in Ha. apply keeps_tail. cbn [cmdRecord].
  apply keeps_flags_bind. intros fl rest Hf. rewrite (bool_unset _ _ _ _ _ Ha Hf). cbv zeta.
  apply keeps_load_bind. intros cfg Hc. assert (Hd : named_db args (DBPath cfg)) by named.
  destruct (String.eqb sub "restore"); [by apply restore_asks|].
  apply keeps_bind; [apply record_ops_keeps|]. intros [zone ops].
  destruct (inEditable cfg zone); [apply cmdRecordFile_asks|by apply keeps_with_store, record_dynamic_asks].
Qed.

Lemma vhost_command_asks dbs sub host args : asks args -> keeps dbs (vhost_command sub host args).
Proof.
  intros Ha. apply keeps_flags_bind. intros fl rest Hf. rewrite (bool_unset _ _ _ _ _ Ha Hf). cbv zeta.
  repeat case_match; auto using keeps_fatal, keeps_usage, vhostSet_asks, vhostDel_asks; by apply vhost_reads.
Qed.

Lemma cmdVhost_asks dbs args : asks args -> keeps dbs (cmdVhost args).
Proof.
  intros Ha. destruct args as [|sub args]; [apply keeps_usage|]. apply asks_tail in Ha. cbn [cmdVhost].
  intros s. unfold mbind, cmd_bind, host_arg. destruct (takes_host sub); [|by apply vhost_command_asks].
  destruct args as [|host args]; [apply keeps_fatal|]. destruct (has_prefix "-" host); [apply keeps_fatal|].
  by apply vhost_command_asks, (asks_tail host).
Qed.

Lemma cmdZoneImport_asks dbs args : asks args -> keeps dbs (cmdZoneImport args).
Proof.
  intros Ha. apply keeps_flags_bind. intros fl rest Hf. rewrite (bool_unset _ _ _ _ _ Ha Hf).
  destruct rest as [|zone [|file [|]]]; try apply keeps_fatal. apply keeps_bind; [apply keeps_load|]. intros cfg.
  apply keeps_bind; [apply keeps_reading, readonly_touches, touches_ReadFile|]. intros content.
  apply keeps_bind; [apply keeps_files_or_fatal; [by apply file_readers|by apply file_readers_links]|]. keep.
Qed.

End asking.

(** ** Which of the two worlds a record command reaches *)

Lemma files_or_fatal_state {F A} wrap (m : io F A) (s : state) :
  (files_or_fatal wrap m s).2 = mkState (st_db s) (m (st_world s)).2 (st_net s) (st_out s).
Proof.
  unfold files_or_fatal, mbind, cmd_bind, on_files. destruct (m (st_world s)) as [[a|e] w]; done.
Qed.

(** A command that asks nothing of the store and the name server. *)
Definition local {A} (m : cmd A) : Prop := forall s, st_db (m s).2 = st_db s /\ st_net (m s).2 = st_net s.

Lemma local_bind {A X} (m : cmd A) (f : A -> cmd X) : local m -> (forall a, local (f a)) -> local (mbind f m).
Proof.
  intros Hm Hf s. unfold mbind, cmd_bind. specialize (Hm s). destruct (m s) as [[a|e] s1]; [|done].
  destruct (Hf a s1) as [H1 H2], Hm as [H3 H4]. split; cbn in *; congruence.
Qed.

Lemma local_files {F A} wrap (m : io F A) : local (files_or_fatal wrap m).
Proof. intros s. by rewrite files_or_fatal_state. Qed.

Lemma local_say x : local (say x).
Proof. by intros s. Qed.

Lemma local_go_ahead yes q : local (go_ahead yes q).
Proof. unfold go_ahead. destruct yes; [by intros s|]. apply local_bind; [apply local_say|]. by intros _ s. Qed.

Lemma cmdRecordFile_local cfg zone ops yes : local (cmdRecordFile cfg zone ops yes).
Proof.
  apply local_bind; [apply local_files|]. intros res. apply local_bind; [apply local_say|]. intros _.
  case_match; [apply local_say|]. apply local_bind; [apply local_go_ahead|]. intros ok.
  case_match; [apply local_say|]. apply local_bind; [apply local_files|]. intros; apply local_say.
Qed.

(** What is in a file after an edit of a static zone. *)
Lemma cmdRecordFile_files cfg zone ops yes s p :
  is_Some (w_files (st_world s) !! p) -> ~ is_backup (fileEditor cfg) zone (w_files (st_world s)) p ->
  w_files (st_world (cmdRecordFile cfg zone ops yes s).2) !! p <> w_files (st_world s) !! p ->
  exists inv w z d, inventory h (NamedConf cfg) w = (Ok inv, w) /\ ZoneByName inv zone = Some z /\
    admitted (fileEditor cfg) zone p z d.
Proof.
  intros Hp Hb. unfold cmdRecordFile. unfold mbind at 1, cmd_bind at 1.
  pose proof (files_or_fatal_state EZone (FileZone.Preview fault today (fileEditor cfg) zone ops) s) as H1.
  destruct (file_readers cfg zone) as [Hr _]. specialize (Hr ops (st_world s)).
  destruct (file_readers_links cfg zone) as [Hl _]. specialize (Hl ops (st_world s)).
  destruct (files_or_fatal _ _ s) as [[res|e] s1]; cbn in H1; subst s1; cbn [st_world]; [|by rewrite Hr].
  set (w1 := (FileZone.Preview _ _ _ _ _ _).2) in *. unfold mbind at 1, cmd_bind at 1, say at 1. cbn [snd].
  destruct (fz_empty res); [cbn; by rewrite Hr|]. unfold mbind at 1, cmd_bind at 1.
  assert (Hg : forall yes q (s : state), st_world (go_ahead yes q s).2 = st_world s) by (by intros [] q s').
  match goal with |- context [go_ahead yes ?q ?st] => specialize (Hg yes q st); destruct (go_ahead yes q st) as [[ok|e] s2] end;
    cbn in Hg; cbn; rewrite ?Hg; [|by rewrite Hr].
  destruct ok; cbn; [|by rewrite Hg, Hr]. unfold mbind, cmd_bind.
  pose proof (files_or_fatal_state EZone (FileZone.Apply fault tempname euid egid today now_ns (fileEditor cfg) zone ops) s2) as H2.
  destruct (files_or_fatal _ _ s2) as [[res'|e] s3]; cbn in H2; subst s3; cbn; rewrite Hg, <- (Hr p Hp); intros Hch;
    (destruct (default_editor_tame fault tempname euid egid h (NamedConf cfg) (DNSServer cfg) (EditableZones cfg) (HistoryKeep cfg));
     destruct (edit_admitted fault tempname euid egid today now_ns (fileEditor cfg) zone
              ltac:(done) ltac:(done) ltac:(done) ltac:(done) ltac:(done) w1
              (FileZone.Apply fault tempname euid egid today now_ns (fileEditor cfg) zone ops) p)
       as (inv & w2 & z & d & Hi & Hz & Hadm & Hd);
       [eauto|by rewrite (Hr p Hp)|intros (n & Hn & Hbk); apply Hb; exists n; by rewrite <- (same_links_follow _ _ n Hl)|done|];
     exists inv, w1, z, d; split_and!; [|done..]; cbn in Hi; unfold inventory in *; by destruct (h_checkConf h _); simplify_eq).
Qed.

#[local] Abbreviation updated cfg zone ops s s' :=
  (guarded_update (SE := store_error) (S := store_snapshotter (sf 0%nat) now) (h_checkConf h) view late exchange
     (recordEditor cfg) zone ops (st_db s') (st_net s) (st_net s')).

(** A command that leaves the files alone and sends at most one update. *)
Definition sends (cfg : Config) (zone : string) (ops : list Op) (s s' : state) : Prop :=
  kept_files (eq (DBPath cfg)) (w_files (st_world s)) (w_files (st_world s')) /\ (st_net s' = st_net s \/ updated cfg zone ops s s').

Lemma record_dynamic_sends cfg zone ops yes (s : state) : Store.wf (st_db s) ->
  sends cfg zone ops s (record_dynamic cfg zone ops yes s).2.
Proof.
  intros Hwf. assert (Hk : forall s', st_world s' = st_world s -> st_net s' = st_net s -> sends cfg zone ops s s').
  { intros s' Hw Hn. split; [rewrite Hw; apply kept_files_refl|by left]. }
  unfold record_dynamic, ask, mbind, cmd_bind, or_fatal. destruct (RecordMut.Preview _ _ _ _ _ _ _) as [res|e]; [|by apply Hk].
  cbn. destruct (rm_empty res); [by apply Hk|]. unfold mbind, cmd_bind.
  assert (Hg : forall yes q (s : state), let s' := (go_ahead yes q s).2 in st_world s' = st_world s /\ st_net s' = st_net s /\ st_db s' = st_db s)
    by (by intros [] q s').
  match goal with |- context [go_ahead yes ?q ?st] => specialize (Hg yes q st); destruct (go_ahead yes q st) as [[ok|e] s1] end;
    cbn in Hg; destruct Hg as (Hw & Hn & Hd); [|by apply Hk].
  destruct ok; cbn; [|by apply Hk]. unfold on_zone, mbind, cmd_bind.
  destruct (RecordMut.Apply _ _ _ _ _ _ _ _ _ _) as [[r d] n] eqn:Ea. rewrite Hn in Ea.
  assert (Hc : sends cfg zone ops s (mkState d (st_world s1) n (st_out s1))).
  { split; [cbn; rewrite Hw; apply kept_files_refl|]. cbn.
    apply (apply_cases (S := store_snapshotter (sf 0%nat) now)) in Ea; [done|]. by rewrite Hd. }
  destruct r as [res'|e]; cbn; apply Hc.
Qed.

Lemma with_store_sends cfg zone ops (body : cmd unit) (s : state) :
  (forall s1, st_db s1 = st_db s -> st_net s1 = st_net s -> sends cfg zone ops s1 (body s1).2) ->
  sends cfg zone ops s (with_store cfg body s).2.
Proof.
  intros Hb. unfold with_store, mbind, cmd_bind. pose proof (keeps_openStore (eq (DBPath cfg)) cfg s) as (Hd & Hn & Hf).
  destruct (openStore cfg s) as [[[]|e] s1]; cbn in Hd, Hn, Hf; [|by split; [|left]].
  specialize (Hb s1 Hd Hn) as [Hbf Hbn]. unfold defers. destruct (body s1) as [r s2]. cbn [snd] in *.
  pose proof (heal_keeps (eq (DBPath cfg)) (DBPath cfg) (st_world s2) eq_refl) as Hh. unfold on_files.
  destruct (healDBOwnership (DBPath cfg) (st_world s2)) as [r' w2]. cbn [snd] in Hh.
  assert (Hs2 : sends cfg zone ops s s2).
  { split; [by eapply kept_files_trans|]. destruct Hbn as [Hbn|Hbn]; [left; congruence|right]. by rewrite Hn in Hbn. }
  destruct Hs2 as [Hs2 Hs2']. destruct r as [a|[]]; split; cbn; try done; by eapply kept_files_trans.
Qed.

(** C13: a record command that names operations ([add], [del], [delset]; not
    [restore], whose operations come from a snapshot and which goes to the name
    server without asking that list) reaches one of two worlds, and which one
    is for the list of editable zones to say; the arguments, the configuration
    and the operations having been read, and the records in the store being
    well formed. For a listed zone the name server and the
    token store are left alone, and a file that was there (the zone's backups
    apart) changes only if it is that zone's: static, primary, outside the
    control panels. For any other zone no file that was there changes, but for the owners of
    the database's, and the name server sees nothing, or one update of a zone
    that is dynamic and grants one of the held keys, sent after a snapshot. *)
Theorem record_routes sub args fl rest cfg zone ops (s : state) :
  Store.wf (st_db s) -> Flag.Parse record_flags args = Ok (fl, rest) -> Load (config_flag fl) = Ok cfg ->
  String.eqb sub "restore" = false -> record_ops sub rest s = (Ok (zone, ops), s) ->
  let s' := (cmdRecord (sub :: args) s).2 in
  if inEditable cfg zone then
    st_db s' = st_db s /\ st_net s' = st_net s /\
    forall p, is_Some (w_files (st_world s) !! p) -> ~ is_backup (fileEditor cfg) zone (w_files (st_world s)) p ->
      w_files (st_world s') !! p <> w_files (st_world s) !! p ->
      exists inv w z d, inventory h (NamedConf cfg) w = (Ok inv, w) /\ ZoneByName inv zone = Some z /\
        admitted (fileEditor cfg) zone p z d
  else sends cfg zone ops s s'.
Proof.
  intros Hwf Hf Hl Hs Ho. cbn [cmdRecord]. unfold flags, load, or_fatal, mbind, cmd_bind. rewrite Hf. cbn. rewrite Hl. cbn.
  rewrite Hs. unfold mbind, cmd_bind. rewrite Ho. cbn. destruct (inEditable cfg zone).
  - destruct (cmdRecordFile_local cfg zone ops (bool_flag fl "y") s) as [H1 H2]. split_and!; [done..|].
    intros p. apply cmdRecordFile_files.
  - apply with_store_sends. intros s1 Hd Hn. apply record_dynamic_sends. by rewrite Hd.
Qed.

(** ** A file that was saved meanwhile *)

(** A step that leaves the files that were there, the store and the name
    server; what it ends with. *)
Definition quiet (s : state) (x : result exit unit * state) : Prop :=
  preserved (w_files (st_world s)) (w_files (st_world x.2)) /\ st_db x.2 = st_db s /\ st_net x.2 = st_net s /\
  ((exists e, x.1 = Err e) \/ last (st_out x.2) = Some SAborted \/ last (st_out x.2) = Some SNothing).

Lemma quiet_after (s s1 : state) x :
  preserved (w_files (st_world s)) (w_files (st_world s1)) -> st_db s1 = st_db s -> st_net s1 = st_net s ->
  quiet s1 x -> quiet s x.
Proof.
  intros Hp Hd Hn (H1 & H2 & H3 & H4). unfold quiet. split_and!; [by eapply preserved_trans|congruence..|done].
Qed.

(** One call on the files that changes none that was there, and goes on. *)
Lemma quiet_files {F A} (m : io F A) (f : result F A -> cmd unit) (s : state) : preserving m ->
  (forall r w, m (st_world s) = (r, w) -> quiet (mkState (st_db s) w (st_net s) (st_out s)) (f r (mkState (st_db s) w (st_net s) (st_out s)))) ->
  quiet s ((r ← on_files m; f r) s).
Proof.
  intros Hm Hf. unfold mbind, cmd_bind, on_files. specialize (Hm (st_world s)).
  destruct (m (st_world s)) as [r w] eqn:Em. cbn in Hm.
  apply (quiet_after s (mkState (st_db s) w (st_net s) (st_out s))); auto.
Qed.

Lemma quiet_die e (s : state) : quiet s (die e s).
Proof. split_and!; [apply preserved_refl|done|done|]. left. by eexists. Qed.

Lemma quiet_say x (s : state) : x = SAborted \/ x = SNothing -> quiet s (say x s).
Proof. intros Hx. split_and!; [apply preserved_refl|done|done|]. right. cbn. rewrite last_snoc. destruct Hx as [-> | ->]; auto. Qed.

Lemma quiet_said x (f : cmd unit) (s : state) : (forall s1, st_world s1 = st_world s -> quiet s1 (f s1)) -> quiet s ((_ ← say x; f) s).
Proof.
  intros Hf. apply (quiet_after s (say x s).2); [apply preserved_refl|done|done|]. by apply Hf.
Qed.

Lemma quiet_keeping {F A} tmp wrap (m : io F A) (f : A -> cmd unit) (s : state) : preserving m ->
  (forall a w, m (st_world s) = (Ok a, w) -> quiet (mkState (st_db s) w (st_net s) (st_out s)) (f a (mkState (st_db s) w (st_net s) (st_out s)))) ->
  quiet s ((a ← keeping tmp wrap m; f a) s).
Proof.
  intros Hm Hf. unfold keeping, mbind, cmd_bind, on_files. specialize (Hm (st_world s)).
  destruct (m (st_world s)) as [[a|e] w] eqn:Em; cbn in Hm; apply (quiet_after s (mkState (st_db s) w (st_net s) (st_out s)));
    try done; [by apply Hf|].
  apply (quiet_said (SPreserved tmp) (fatal (wrap e))). intros; apply quiet_die.
Qed.

Lemma quiet_prompt q (f : bool -> cmd unit) (s : state) :
  (forall s1, st_world s1 = st_world s -> quiet s1 (f (says_yes stdin) s1)) -> quiet s ((ok ← confirmPrompt q; f ok) s).
Proof. intros Hf. apply (quiet_said (SAsked q) (f (says_yes stdin))). apply Hf. Qed.

Lemma quiet_or_fatal {F A} wrap (r : result F A) (f : A -> cmd unit) (s : state) :
  (forall a, r = Ok a -> quiet s (f a s)) -> quiet s ((a ← or_fatal wrap r; f a) s).
Proof. intros Hf. destruct r as [a|e]; [by apply Hf|apply quiet_die]. Qed.

Lemma quiet_files_or_fatal {F A} wrap (m : io F A) (f : A -> cmd unit) (s : state) : preserving m ->
  (forall a w, m (st_world s) = (Ok a, w) -> quiet (mkState (st_db s) w (st_net s) (st_out s)) (f a (mkState (st_db s) w (st_net s) (st_out s)))) ->
  quiet s ((a ← files_or_fatal wrap m; f a) s).
Proof.
  intros Hm Hf. unfold files_or_fatal, mbind, cmd_bind, on_files. specialize (Hm (st_world s)).
  destruct (m (st_world s)) as [[a|e] w] eqn:Em; cbn in Hm; apply (quiet_after s (mkState (st_db s) w (st_net s) (st_out s)));
    try done; [by apply Hf|apply quiet_die].
Qed.

Lemma apply_edit_stale cfg zone base tmp s dump z d m u g :
  h_checkConf h (namedConf (NamedConf cfg)) = Ok dump -> ZoneByName (NamedParse.Parse dump) zone = Some z ->
  w_files (st_world s) !! z_Path z = Some (Reg d m u g) -> d <> base -> quiet s (apply_edit cfg zone base tmp s).
Proof.
  intros Hconf Hz Hf Hd. unfold apply_edit. destruct (file_readers cfg zone) as (_ & _ & Hpre & _).
  assert (Hread : preserving (ReadFile fault tmp)) by apply readonly_preserving, readonly_touches, touches_ReadFile.
  apply quiet_files_or_fatal; [done|]. intros new w1 E1. destruct (String.eqb new base); [apply quiet_say; auto|].
  apply quiet_keeping; [done|]. intros [res base'] w2 E2. cbn in E2. apply quiet_said. intros s1 Hs1. cbn in Hs1.
  apply quiet_prompt. intros s2 Hs2. destruct (says_yes stdin); [|apply quiet_say; auto]. cbn [negb].
  assert (Hw : w_files (st_world s2) !! z_Path z = Some (Reg d m u g)).
  { rewrite Hs2, Hs1. pose proof (Hread (st_world s)) as P1. rewrite E1 in P1. pose proof (Hpre new w1) as P2. rewrite E2 in P2.
    cbn in P1, P2. rewrite (P2 (z_Path z)); rewrite (P1 (z_Path z)); rewrite ?Hf; eauto. }
  destruct (default_editor_tame fault tempname euid egid h (NamedConf cfg) (DNSServer cfg) (EditableZones cfg) (HistoryKeep cfg)).
  assert (Hi : e_Inv (fileEditor cfg) (st_world s2) = (Ok (NamedParse.Parse dump), st_world s2))
    by (cbn; unfold inventory; by rewrite Hconf).
  pose proof (replace_stale fault tempname euid egid today now_ns (fileEditor cfg) zone ltac:(done) _ _ _ _ _ _ _ _ new base Hi Hz Hw Hd) as Hr.
  unfold keeping, mbind, cmd_bind, on_files. destruct (ReplaceRaw _ _ _ _ _ _ _ _ _ _ _) as [r w3].
  destruct Hr as [[err ->] Hr]. apply (quiet_after s2 (mkState (st_db s2) w3 (st_net s2) (st_out s2))); [done..|].
  apply (quiet_said (SPreserved tmp) (fatal (EZone err))). intros; apply quiet_die.
Qed.

(** An editing session never overwrites what someone else saved: when,
    after the editor, the zone's file no longer holds the bytes the session
    started from, nothing that exists is written, and the command ends with an
    error, with the answer no, or with nothing to do. *)
Theorem edit_session_guard cfg zone base tmp s dump z argv d m u g :
  fields (or_env ["EDITOR"; "VISUAL"] "vi") = argv -> argv <> [] ->
  let w1 := (Close fault tmp (write_at fault tmp base (st_world s)).2).2 in
  let w2 := (run_editor (argv ++ [tmp]) w1).2 in
  h_checkConf h (namedConf (NamedConf cfg)) = Ok dump -> ZoneByName (NamedParse.Parse dump) zone = Some z ->
  w_files w2 !! z_Path z = Some (Reg d m u g) -> d <> base ->
  let '(r, s') := edit_session cfg zone base tmp s in
  preserved (w_files w2) (w_files (st_world s')) /\ st_db s' = st_db s /\ st_net s' = st_net s /\
  ((exists e, r = Err e) \/ last (st_out s') = Some SAborted \/ last (st_out s') = Some SNothing).
Proof.
  intros Hargv Hne w1 w2 Hconf Hz Hf Hd. unfold edit_session. rewrite Hargv. destruct argv as [|a0 argv]; [done|].
  unfold files_or_fatal, mbind, cmd_bind, on_files, ignore. cbn [fst snd st_db st_world st_net st_out]. fold w1.
  subst w2. destruct (run_editor ((a0 :: argv) ++ [tmp]) w1) as [[[]|e] w2]; cbn [snd] in *.
  - pose proof (apply_edit_stale cfg zone base tmp (mkState (st_db s) w2 (st_net s) (st_out s)) dump z d m u g Hconf Hz Hf Hd) as Hq.
    unfold or_fatal, mret, cmd_ret. destruct (apply_edit _ _ _ _ _) as [r s']. apply Hq.
  - cbn. split_and!; [apply preserved_refl|done|done|]. left. by eexists.
Qed.

(** ** The owner of the database *)

Section owner.
Context (uid gid : Z).

Definition owned (fs : files) (p : string) : Prop := forall d m u g, fs !! p = Some (Reg d m u g) -> u = uid /\ g = gid.

Hypothesis no_fault : forall t, fault t = None.

Lemma chown_owned p w : owned (w_files (chown p uid gid w).2) p /\
  forall q, owned (w_files w) q -> owned (w_files (chown p uid gid w).2) q.
Proof.
  unfold chown, syscall, follow. rewrite no_fault. destruct (w_files w !! p) as [[d m u g|t]|] eqn:Ep; cbn.
  - rewrite Ep. cbn. split; [intros d' m' u' g'; rewrite lookup_insert_eq; by intros [= _ _ <- <-]|].
    intros q Hq d' m' u' g'. destruct (decide (q = p)) as [->|]; [rewrite lookup_insert_eq; by intros [= _ _ <- <-]|].
    rewrite lookup_insert_ne by done. apply Hq.
  - destruct (w_files w !! t) as [[d m u g|t']|] eqn:Et; cbn; (split; [|try done]); try (by intros d' m' u' g'; rewrite Ep).
    + intros d' m' u' g'. destruct (decide (p = t)) as [->|]; [congruence|]. rewrite lookup_insert_ne by done. by rewrite Ep.
    + intros q Hq d' m' u' g'. destruct (decide (q = t)) as [->|]; [rewrite lookup_insert_eq; by intros [= _ _ <- <-]|].
      rewrite lookup_insert_ne by done. apply Hq.
  - rewrite Ep. cbn. split; [by intros d' m' u' g'; rewrite Ep|done].
Qed.

Lemma chown_all_owned fs w : (forall f, f ∈ fs -> owned (w_files (chown_all fs uid gid w).2) f) /\
  forall q, owned (w_files w) q -> owned (w_files (chown_all fs uid gid w).2) q.
Proof.
  revert w. induction fs as [|f fs IH]; intros w; cbn [chown_all]; [split; [by intros ? ?%elem_of_nil|done]|].
  unfold mbind, io_bind, ignore. cbn [fst snd]. destruct (chown_owned f w) as [H1 H2], (IH (chown f uid gid w).2) as [H3 H4].
  split; [|auto]. intros f' [->|Hf']%elem_of_cons; auto.
Qed.

End owner.

(** Run as root, a command that returns leaves the database, its log and
    its shared memory with the owner of their directory, whatever it did. *)
Theorem database_healed {A} cfg (body : cmd A) s a s' uid gid :
  (forall t, fault t = None) -> euid = 0 -> dir_owner (Dir (DBPath cfg)) = Some (uid, gid) ->
  with_store cfg body s = (Ok a, s') -> forall f, f ∈ db_files (DBPath cfg) -> owned uid gid (w_files (st_world s')) f.
Proof.
  intros Hnf He Ho H. unfold with_store, mbind, cmd_bind in H. destruct (openStore cfg s) as [[[]|e] s1]; [|done].
  unfold defers in H. destruct (body s1) as [r s2]. unfold on_files in H.
  assert (Hh : healDBOwnership (DBPath cfg) = chown_all (db_files (DBPath cfg)) uid gid)
    by (unfold healDBOwnership; by rewrite He, Ho).
  rewrite Hh in H. destruct (chown_all_owned uid gid Hnf (db_files (DBPath cfg)) (st_world s2)) as [Hc _].
  destruct (chown_all (db_files (DBPath cfg)) uid gid (st_world s2)) as [r' w2]. cbn in H.
  destruct r as [a'|[]]; simplify_eq/=; done.
Qed.

End cli.

(** ** Witnesses *)

Module CliExample.

#[local] Existing Instances Sample.dns RecordMutExample.plain.

(** A configuration with a pair, a key and one zone to edit by file. *)
#[local] Instance env : Env := {|
  toml_config text c := Ok (
    mkConfig c.(Listen) c.(DBPath) c.(ReloadInterval) c.(LogFile) c.(AccessLog) c.(PublicHost)
      c.(NamedConf) c.(HistoryInterval) c.(HistoryKeep) c.(TLSMode) "/c.pem" "/k.pem"
      c.(ACMEDomain) c.(ACMEEmail) c.(ACMECA) c.(ACMEStorage) c.(ACMETSIGName) c.(ACMETSIGAlgo)
      c.(ACMETSIGSecret) c.(DNSServer) c.(TSIGName) c.(TSIGAlgo) "c2VjcmV0" c.(TSIGKeysFile) c.(TrustedProxies)
      ["Static.GR."] c.(ZonedSocket) c.(ProxyEnabled) c.(ProxyListen) c.(ProxyRedirectListen) c.(Proxy)
      c.(Admin) c.(trustedNets) c.(tsigKeys), []);
  toml_proxy _ := Err "syntax";
  url_parse _ := None;
  getenv _ := "";
  read_file p := if String.eqb p defaultConf then Ok "main" else Err ENOENT;
  glob_conf _ := [];
|}.

Definition cfg : Config := from_ok defaults (Load defaultConf).
Definition host : Host := mkHost (fun z => true) (Some "/usr/sbin/named-checkzone") (Some "/usr/sbin/rndc")
  (fun nc => Ok NamedParseExample.dump) (fun server zone w => Err "no answer").
Definition no_fault : nat -> option string := fun _ => None.
Definition no_store_fault (call stmt : nat) : option string := None.
Definition temp (t : nat) (dir : string) : string := dir +:+ "/goddns-1".
Definition db_path : string := "/var/lib/goddns/goddns.db".
Definition owner (dir : string) : option (Z * Z) := Some (977, 990).
Definition types (t : string) : option Z := if String.eqb t "A" then Some TypeA else None.

Definition s0 : state (W := list Sample.srr) :=
  mkState empty_db
    (mkWorld {["/z/static" := Reg "old" 420 0 0; db_path := Reg "sqlite" 416 977 990; db_path +:+ "-wal" := Reg "wal" 416 0 0]} 0 [] no_open)
    RecordMutExample.w0 [].

Definition record (stdin : string) (args : list string) :=
  cmdRecord stdin 100 no_store_fault None owner no_fault temp 0 0 FileZoneExample.today FileZoneExample.clock host
    RecordMutExample.view RecordMutExample.in_time RecordMutExample.exchange types args s0.

Definition line : string := "tv.myip.gr. 60 IN A 192.0.2.7".

(** A yes applies the update, and heals the owner of the log. *)
Example applied_with_yes :
  let out := record "yes" ["add"; "myip.gr"; line] in
  (is_ok out.1, st_out out.2, st_net out.2, w_files (st_world out.2) !! (db_path +:+ "-wal")) =
  (true, [SDiff [] [Sample.print RecordMutExample.tv]; SAsked "apply to myip.gr?"; SApplied "myip.gr" "ddns-update" 1],
   RecordMutExample.w0 ++ [RecordMutExample.tv], Some (Reg "wal" 416 977 990)).
Proof. by vm_compute. Qed.

(** Anything else does not. *)
Example not_applied : st_net (record "yess" ["add"; "myip.gr"; line]).2 = RecordMutExample.w0.
Proof. by vm_compute. Qed.

(** A flag behind the record is one argument too many. *)
Example flag_too_late : (record "" ["add"; "myip.gr"; line; "-y"]).1 = Err (Fatal EUsage).
Proof. by vm_compute. Qed.

(** A command that fails with the database open leaves the log as it was,
    owned by root. *)
Example failed_unhealed :
  let out := record "yes" ["restore"; "-y"; "myip.gr"; "7"] in
  out.1 = Err (Fatal (ENoSnapshot 7)) /\ w_files (st_world out.2) !! (db_path +:+ "-wal") = Some (Reg "wal" 416 0 0).
Proof. by vm_compute. Qed.

Definition ops : list (Op (H := Sample.dns)) := [mkOp AddRR (Some (RecordMutExample.tv : RR))].

Lemma record_routes_witness :
  let s' := (record "yes" ["add"; "myip.gr"; line]).2 in
  inEditable cfg "myip.gr" = false /\
  sends 100 no_store_fault host RecordMutExample.view RecordMutExample.in_time RecordMutExample.exchange cfg "myip.gr" ops s0 s'.
Proof.
  assert (Hl : Load defaultConf = Ok cfg) by (apply from_ok_ok; vm_compute; reflexivity).
  assert (He : inEditable cfg "myip.gr" = false) by (vm_compute; reflexivity).
  split; [exact He|].
  pose proof (record_routes "yes" 100 no_store_fault None owner no_fault temp 0 0 FileZoneExample.today FileZoneExample.clock host
    RecordMutExample.view RecordMutExample.in_time RecordMutExample.exchange types "add" ["myip.gr"; line] ∅ ["myip.gr"; line]
    cfg "myip.gr" ops s0 wf_empty eq_refl Hl eq_refl eq_refl) as H.
  rewrite He in H. exact H.
Defined.

Definition listed : cmd (W := list Sample.srr) unit :=
  token_command "random" no_store_fault None cfg "list" ∅.
Definition token_list := with_store None owner no_fault 0 cfg listed s0.

Lemma database_healed_witness : owned 977 990 (w_files (st_world token_list.2)) (db_path +:+ "-wal").
Proof.
  assert (Ho : owner (Dir (DBPath cfg)) = Some (977, 990)) by reflexivity.
  assert (H : with_store None owner no_fault 0 cfg listed s0 = (Ok tt, token_list.2)) by (vm_compute; reflexivity).
  assert (Hin : db_path +:+ "-wal" ∈ db_files (DBPath cfg)) by (vm_compute; right; left).
  exact (database_healed None owner no_fault 0 cfg listed s0 tt token_list.2 977 990 (fun _ => eq_refl) eq_refl Ho H _ Hin).
Defined.

(** The operator's editor writes the temporary file; meanwhile someone else
    saves the zone's. *)
Definition editor (argv : list string) (w : world) : result string unit * world :=
  (Ok tt, with_files w (<["/z/static" := Reg "saved by another" 420 0 0]> (<["/tmp/goddns-1" := Reg "edited" 384 0 0]> (w_files w)))).

Definition session := edit_session "y" no_fault temp 0 0 FileZoneExample.today FileZoneExample.clock host editor
  cfg "static.gr" "old" "/tmp/goddns-1" s0.

Lemma edit_session_guard_witness :
  let w2 := (editor ["vi"; "/tmp/goddns-1"] (Close no_fault "/tmp/goddns-1" (write_at no_fault "/tmp/goddns-1" "old" (st_world s0)).2).2).2 in
  let '(r, s') := session in
  preserved (w_files w2) (w_files (st_world s')) /\ st_db s' = st_db s0 /\ st_net s' = st_net s0 /\
  ((exists e, r = Err e) \/ last (st_out s') = Some SAborted \/ last (st_out s') = Some SNothing).
Proof.
  set (z := default (mkZone "" "" "" "" "" false [] "") (ZoneByName (NamedParse.Parse NamedParseExample.dump) "static.gr")).
  assert (Hz : ZoneByName (NamedParse.Parse NamedParseExample.dump) "static.gr" = Some z) by (vm_compute; reflexivity).
  assert (Hp : z_Path z = "/z/static") by (vm_compute; reflexivity).
  exact (edit_session_guard "y" no_fault temp 0 0 FileZoneExample.today FileZoneExample.clock host editor
    cfg "static.gr" "old" "/tmp/goddns-1" s0 NamedParseExample.dump z ["vi"] "saved by another" 420 0 0
    eq_refl ltac:(discriminate) eq_refl Hz ltac:(rewrite Hp; reflexivity) ltac:(discriminate)).
Defined.

End CliExample.
