(* ===== verification/ZoneView.v ===== *)
(** * ZoneView: the commands that look, and the dispatch

    [cmd/goddns]: zones.go, the viewer, the history and the export of zone.go,
    and [main]. They read named's configuration, the live zone and the stored
    snapshots; the export is text that loads as a zone file. *)

From Stdlib Require Import String Ascii.
From S2P Require Import Prelude GoStrings NetIP Encoding.
From S2P Require Import FS DnsLib Config Ddns Tsig Store FileZone RecordMut Host History VhostMut Named NamedParse Readers Form Flag Cli.

Definition zones_flags : spec :=
  [("config", KString); ("named-conf", KString); ("dump", KString); ("all", KBool); ("check", KBool)].
Definition viewer_flags : spec :=
  [("config", KString); ("named-conf", KString); ("server", KString); ("key", KString); ("export", KBool); ("check", KBool);
   ("history", KBool); ("diff", KBool)].

Definition or_else (s def : string) : string := if String.eqb s "" then def else s.

(** Who may update a dynamic zone. *)
Definition update_keys (z : Zone) : string := or_else (join ", " (z_UpdateKeys z)) (z_AllowUpdate z).

(** ** The export *)

Definition writeStaticRestore (name path : string) : list string :=
  ["; STATIC restore:";
   ";   1. save this file as the zone file, e.g. " +:+ path;
   ";   2. named-checkzone " +:+ name +:+ " " +:+ path;
   ";   3. rndc reload " +:+ name +:+ "     (bump the SOA serial first if it refuses)"].

Definition writeDynamicRestore (name path : string) : list string :=
  ["; DYNAMIC restore — do NOT just overwrite the live file (journal foot-gun):";
   ";   option A — replace the file, keep the zone dynamic:";
   ";     rndc freeze " +:+ name;
   ";     install this snapshot as " +:+ path;
   ";     named-checkzone " +:+ name +:+ " " +:+ path;
   ";     rndc thaw " +:+ name +:+ "     (rebuilds; a fresh journal starts on the next update)";
   ";   option B — re-inject records via dynamic update, no freeze:";
   ";     nsupdate -k <keyfile>  ->  zone " +:+ name +:+ "; update add <each record>; send"].

Definition signed_note (n : nat) : list string :=
  [";"; "; *** DNSSEC-SIGNED ZONE (" +:+ format_uint (Z.of_nat n) +:+ " signing records) ***";
   "; This dump INCLUDES RRSIG/DNSKEY/NSEC(3) records. They expire and are";
   "; normally generated and rotated by BIND (inline-signing / auto-dnssec),";
   "; so restoring them by hand is usually WRONG: prefer restoring the";
   "; UNSIGNED source zone and letting BIND re-sign, or use dnssec tooling.";
   "; The signatures in this snapshot may already be near expiry."].

Section export.
Context {D : Dns}.

Definition export_path (name : string) (z : option Zone) : string :=
  let default := "/var/named/" +:+ name +:+ ".hosts" in
  match z with Some z => or_else (z_Path z) default | None => default end.

Definition restore_notes (name path : string) (z : option Zone) : list string :=
  match z with
  | None =>
      ["; kind: UNKNOWN — " +:+ name +:+ " is not in named.conf. If it's a normal static";
       ";   zone, follow the STATIC steps; if it accepts dynamic updates, the";
       ";   DYNAMIC steps. Both are below."; ";"] ++
      writeStaticRestore name path ++ [";"] ++ writeDynamicRestore name path
  | Some z =>
      if z_Dynamic z
      then ["; kind: DYNAMIC (updates via: " +:+ update_keys z +:+ ")"; ";"] ++ writeDynamicRestore name path
      else ["; kind: static (hand-edited zone file)"; ";"] ++ writeStaticRestore name path
  end.

(** The lines before the records; [taken]: the time of the export. *)
Definition export_header (taken name server auth : string) (z : option Zone) (records : list RR) : list string :=
  ["; goddns export of zone " +:+ name;
   "; taken " +:+ taken +:+ " from " +:+ server +:+ " via AXFR (" +:+ auth +:+ "; for a dynamic zone this is journal-merged)"] ++
  match SOAOf records with
  | Some soa => ["; serial " +:+ format_uint (soa_serial soa) +:+ ", " +:+ format_uint (Z.of_nat (length records)) +:+ " records"]
  | None => []
  end ++
  (let '(signed, n) := Signed records in if (signed : bool) then signed_note n else []) ++
  [";"; "; NOTE: this is a record snapshot. Comments / $ORIGIN / $INCLUDE / record";
   "; ordering from the original source file are NOT preserved (AXFR carries";
   "; records, not source text). It reloads cleanly as-is."; ";";
   "; ---- restore by hand (goddns never writes BIND files) ----"] ++
  restore_notes name (export_path name z) z ++
  ["; ----------------------------------------------------------"].

Definition writeExport (taken name server auth : string) (z : option Zone) (records : list RR) : string :=
  text_of (export_header taken name server auth z records ++ ["$ORIGIN ."] ++ (rr_string <$> records)).

(** The summary above the table of records. *)
Definition printZoneHeader (name auth : string) (z : option Zone) (records : list RR) : list string :=
  let '(kind, dyn) :=
    match z with
    | Some z => (Kind z, if z_Dynamic z then "  DYNAMIC (updates: " +:+ update_keys z +:+ ")" else "  static (hand-edited file)")
    | None => ("(not in named.conf)", "")
    end in
  let count := format_uint (Z.of_nat (length records)) +:+ " records" in
  ["zone: " +:+ name +:+ "   [" +:+ kind +:+ "]" +:+ dyn;
   match SOAOf records with
   | Some soa => "serial: " +:+ format_uint (soa_serial soa) +:+ "   primary: " +:+ trim_suffix "." (soa_ns soa) +:+ "   " +:+ count
   | None => count
   end] ++
  (let '(signed, n) := Signed records in
   if (signed : bool) then ["DNSSEC: signed (" +:+ format_uint (Z.of_nat n) +:+ " signing records — managed by BIND, not hand-restorable)"] else []) ++
  ["transfer: " +:+ auth; ""].

End export.

(** ** The live zone *)

Section network.
Context {D : Dns} {N : Net} (late : nat -> bool).

Definition transfer (inv : Inventory) (z : option Zone) (name server goddnsKey forceKey : string) : result string (list RR * string) :=
  if negb (String.eqb forceKey "") then
    match find_first (fun k => String.eqb (k_Name k) (trim_suffix "." forceKey)) (i_Keys inv) with
    | None => Err ("key " +:+ forceKey +:+ " not found in named.conf")
    | Some k =>
        rrs ← Transfer name server (Some (mkTSIG (k_Name k) (k_Algorithm k) (k_Secret k)));
        Ok (rrs, "key " +:+ String quote (k_Name k) +:+ String quote "")
    end
  else TransferAuto late name server (AXFRKeys inv z goddnsKey).

(** The verdict on a zone's nameservers; zones without a file have none. *)
Definition zoneSerial (z : Zone) (server : string) : string :=
  if negb (is_zone_kind (Kind z)) then "-"
  else match ZoneSerialCheck (z_Name z) server with
       | (SerialAgree, serial) => "✓ " +:+ format_uint serial
       | (SerialMismatch, _) => "✗ MISMATCH"
       | (SerialUnreachable, _) => "unreachable"
       | (SerialNoNS, _) => "no-NS"
       end.

Definition check_row (c : NSCheck) : string * string * string * string :=
  (c_Name c, default "-" (head (c_Addrs c)), if c_Serial c =? 0 then "-" else format_uint (c_Serial c),
   if c_OK c then "ok" else or_else (c_Note c) "?").

End network.

(** ** The commands *)

Section view.
Context {D : Dns} {E : Env} {W : Type}.
Context (sf : nat -> nat -> option string) (open_db : option string) (dir_owner : string -> option (Z * Z)) (euid : Z).
Context (fault : nat -> option string) (h : Host.Host) (view : W -> Net) (late : nat -> bool) (taken : string).
#[local] Existing Instances cmd_ret cmd_bind.
#[local] Abbreviation cmd := (cmd (W := W)).

Definition list_snaps (zone : string) (limit : Z) : cmd (list Snapshot) :=
  r ← ask (fun s => SnapshotList (sf 0%nat) (st_db s) zone limit); or_fatal EStore r.

(** The two newest snapshots, read one after the other. *)
Definition history_diff (zone : string) : cmd unit :=
  snaps ← list_snaps zone 2;
  match snaps with
  | sn :: so :: _ =>
      newer ← ask (fun s => SnapshotByID (sf 1%nat) (st_db s) (sn_ID sn));
      older ← ask (fun s => SnapshotByID (sf 2%nat) (st_db s) (sn_ID so));
      match newer, older with
      | Err e, _ | Ok _, Err e => fatal (EStore e)
      | Ok (Some newer), Ok (Some older) =>
          let '(added, removed) := Diff (sn_Content older) (sn_Content newer) in
          _ ← say (SSerials (sn_Serial older) (sn_Serial newer));
          say (SDiff (DropSOA removed) (DropSOA added))
      | _, _ => say SPrunedMeanwhile
      end
  | _ => say (SFewSnapshots (length snaps))
  end.

Definition cmdZoneHistory (name : string) (fl : values) (list : bool) : cmd unit :=
  cfg ← load fl;
  with_store open_db dir_owner fault euid cfg (
    if list then snaps ← list_snaps name 0; say (SSnapshots (snapshot_rows snaps))
    else history_diff name).

(** The configuration is only asked for defaults: what can't be read is empty. *)
Definition best_effort (fl : values) : string * string * string * string :=
  match Load (config_flag fl) with
  | Ok cfg => (TSIGName cfg, TSIGSecret cfg, NamedConf cfg, DNSServer cfg)
  | Err _ => ("", "", "", "")
  end.

Definition named_conf (fl : values) (nc : string) : string := or_else (or_else (str_flag fl "named-conf" "") nc) "/etc/named.conf".

Definition printChecks (name resolver : string) (records : list RR) (live : bool) : cmd unit :=
  _ ← say (SFindings (CheckDelegation name records));
  if negb live then mret tt
  else
    checks ← ask (fun s => CheckNameservers (N := view (st_net s)) name records resolver);
    if (length checks =? 0)%nat then mret tt
    else
      _ ← say (SChecks (check_row <$> checks));
      let '(agree, seen) := SerialsAgree checks in
      if (size seen =? 0)%nat then say SNoAnswer
      else if (agree : bool) then
        foldr (fun kv rest => _ ← say (SAgree kv.1); rest) (mret tt) (map_to_list seen)
      else say (SMismatch ((fun c => (c_Name c, c_Serial c)) <$> List.filter c_OK checks)).

Definition view_zone (name : string) (fl : values) : cmd unit :=
  let '(tsigName, _, nc, srv) := best_effort fl in
  let nc := named_conf fl nc in
  let srv := or_else (or_else (str_flag fl "server" "") srv) "127.0.0.1:53" in
  inv ← (match h_checkConf h nc with
         | Ok dump => mret (NamedParse.Parse dump)
         | Err why => _ ← say (SNote why); mret (mkInv "" [] [])
         end : cmd Inventory);
  let z := ZoneByName inv name in
  r ← ask (fun s => transfer (N := view (st_net s)) late inv z name srv tsigName (str_flag fl "key" ""));
  '(records, auth) ← or_fatal ETransfer r;
  let records := SortZone records in
  if bool_flag fl "export" then say (SExport (writeExport taken name srv auth z records))
  else
    _ ← say (SHeader (printZoneHeader name auth z records));
    _ ← say (SRows (Rows records));
    printChecks name srv records (bool_flag fl "check").

(** The name may come before the flags. *)
Definition show_zone (args : list string) : cmd unit :=
  let '(name, args) := match args with
                       | a :: rest => if has_prefix "-" a then ("", args) else (a, rest)
                       | [] => ("", args)
                       end in
  '(fl, rest) ← flags viewer_flags args;
  let name := or_else name (default "" (head rest)) in
  if String.eqb name "" then fatal EUsage
  else if bool_flag fl "history" || bool_flag fl "diff" then cmdZoneHistory name fl (bool_flag fl "history")
  else view_zone name fl.

(** One row of the table of zones. *)
Definition zone_line (hasView check : bool) (server : string) (z : Zone) : cmd (list string) :=
  ns ← ask (fun s => if check then [zoneSerial (N := view (st_net s)) z server] else []);
  st ← (if String.eqb (z_Path z) "" then mret (Ok "" : result io_error string)
        else on_files (FileStatus fault (z_Path z) (z_Dynamic z)) : cmd (result io_error string));
  let file := if String.eqb (z_Path z) "" then "-"
              else match from_ok "" st with "" => z_Path z | st => z_Path z +:+ " (" +:+ st +:+ ")" end in
  mret ((if hasView then [z_View z] else []) ++
        [z_Name z; Kind z; file; or_else (join ", " (z_UpdateKeys z)) "-"] ++ ns).

Fixpoint zone_lines (hasView check : bool) (server : string) (zones : list Zone) : cmd (list (list string)) :=
  match zones with
  | [] => mret []
  | z :: zs => l ← zone_line hasView check server z; ls ← zone_lines hasView check server zs; mret (l :: ls)
  end.

Definition cmdZones (args : list string) : cmd unit :=
  '(fl, _) ← flags zones_flags args;
  let '(tsigName, tsigSecret, nc, server) := best_effort fl in
  let server := or_else server "127.0.0.1:53" in
  let dump := str_flag fl "dump" "" in
  data ← (if negb (String.eqb dump "") then files_or_fatal EIO (ReadFile fault dump)
          else or_fatal EConf (h_checkConf h (named_conf fl nc)));
  let inv := NamedParse.Parse data in
  let all := bool_flag fl "all" in
  let check := bool_flag fl "check" in
  let zones := if all then i_Zones inv else UserZones inv in
  let hasView := existsb (fun z => negb (String.eqb (z_View z) "")) zones in
  rows ← zone_lines hasView check server zones;
  _ ← say (SZones rows);
  _ ← (let n := (length (i_Zones inv) - length zones)%nat in
       if negb all && (0 <? n)%nat then say (SHidden n) else mret tt);
  _ ← say (SKeys ((fun k => (k_Name k, k_Algorithm k)) <$> i_Keys inv));
  say (SFindings (Check inv tsigName tsigSecret)).

End view.

(** ** What an export loads as *)

Definition comment (l : string) : Prop := has_prefix ";" l = true /\ free_of newline l = true.

Section loads.
Context {D : Dns}.

Ltac comments :=
  repeat apply Forall_cons_2; try apply Forall_nil_2;
  (split; [reflexivity|rewrite ?free_of_app, ?format_uint_line; cbn;
   repeat match goal with H : free_of _ _ = true |- _ => rewrite H end; reflexivity]).

(** One line of text. *)
Notation line s := (free_of newline s = true).

Lemma static_comments name path : line name -> line path -> Forall comment (writeStaticRestore name path).
Proof. intros H1 H2. unfold writeStaticRestore. comments. Qed.

Lemma dynamic_comments name path : line name -> line path -> Forall comment (writeDynamicRestore name path).
Proof. intros H1 H2. unfold writeDynamicRestore. comments. Qed.

Lemma restore_comments name path z : line name -> line path -> (forall z', z = Some z' -> line (update_keys z')) ->
  Forall comment (restore_notes name path z).
Proof.
  intros H1 H2 H3. unfold restore_notes. destruct z as [z|].
  - specialize (H3 z eq_refl). destruct (z_Dynamic z); apply Forall_app; (split; [comments|]);
      [by apply dynamic_comments|by apply static_comments].
  - apply Forall_app; split; [comments|]. apply Forall_app; split; [by apply static_comments|].
    apply Forall_app; split; [comments|]. by apply dynamic_comments.
Qed.

Lemma header_comments taken name server auth z records :
  line taken -> line name -> line server -> line auth ->
  (forall z', z = Some z' -> line (z_Path z') /\ line (update_keys z')) ->
  Forall comment (export_header taken name server auth z records).
Proof.
  intros H1 H2 H3 H4 Hz. unfold export_header. repeat (apply Forall_app; split); try comments.
  - destruct (SOAOf records); [comments|constructor].
  - destruct (Signed records) as [[] n]; [unfold signed_note; comments|constructor].
  - apply restore_comments; [done| |by intros z' ->; apply Hz]. unfold export_path.
    assert (Hd : line ("/var/named/" +:+ name +:+ ".hosts")) by (by rewrite !free_of_app, H2).
    destruct z as [z|]; [|done]. unfold or_else. case_match; [done|]. by apply Hz.
Qed.

(** C38: an export is a zone file of exactly the records that were transferred:
    besides comments, its lines are the origin and then each record, as long as
    the name, the server, the zone's path and its keys are each one line, and
    each record prints as one line that is not a comment. *)
Theorem export_loads taken name server auth z records :
  line taken -> line name -> line server -> line auth ->
  (forall z', z = Some z' -> line (z_Path z') /\ line (update_keys z')) ->
  (forall rr, rr ∈ records -> line (rr_string rr) /\ has_prefix ";" (rr_string rr) = false /\ rr_string rr <> "") ->
  List.filter (fun l => negb (has_prefix ";" l) && negb (String.eqb l ""))
    (split newline (writeExport taken name server auth z records)) = "$ORIGIN ." :: (rr_string <$> records).
Proof.
  intros H1 H2 H3 H4 Hz Hr. unfold writeExport. pose proof (header_comments taken name server auth z records H1 H2 H3 H4 Hz) as Hh.
  rewrite split_text_of.
  2: { apply Forall_app; split; [by eapply Forall_impl; [done|]; intros l [_ Hl]|]. apply Forall_app; split; [by repeat constructor|].
       apply Forall_fmap, Forall_forall. intros rr Hrr. by apply Hr. }
  rewrite !List.filter_app. cbn [List.filter]. rewrite app_nil_r.
  assert (forall ls, Forall comment ls -> List.filter (fun l => negb (has_prefix ";" l) && negb (String.eqb l "")) ls = []) as Hnone.
  { induction 1 as [|l ls [Hl _] _ IH]; [done|]. cbn [List.filter]. by rewrite Hl. }
  rewrite Hnone by done. change (negb (has_prefix ";" "$ORIGIN .") && negb (String.eqb "$ORIGIN ." "")) with true. cbv iota. cbn [app].
  f_equal. clear - Hr. induction records as [|rr rrs IH]; [done|]. cbn [fmap list_fmap List.filter].
  destruct (Hr rr ltac:(left)) as (_ & Hc & Hn). rewrite Hc. apply String.eqb_neq in Hn. rewrite Hn. cbn [negb andb]. f_equal.
  apply IH. intros rr' Hrr'. apply Hr. by right.
Qed.

End loads.

(** ** Witness *)

Module ViewExample.

#[local] Existing Instance Sample.dns.

Definition records : list Sample.srr := RecordMutExample.w0.
Definition zone : Zone := mkZone "myip.gr" "" "master" "dyn/myip.hosts" "/var/named/dyn/myip.hosts" true ["ddns-update"] "policy".
Definition text : string := writeExport "2026-01-02T00:00:00Z" "myip.gr" "127.0.0.1:53" "unauthenticated" (Some zone) (records : list RR).

Lemma export_loads_witness :
  List.filter (fun l => negb (has_prefix ";" l) && negb (String.eqb l "")) (split newline text) =
  "$ORIGIN ." :: (Sample.print <$> records).
Proof.
  assert (Hz : forall z', Some zone = Some z' -> free_of newline (z_Path z') = true /\ free_of newline (update_keys z') = true).
  { intros z' Hz'. assert (z' = zone) as -> by congruence. split; vm_compute; reflexivity. }
  assert (Hr : forall rr : Sample.srr, rr ∈ records ->
    free_of newline (Sample.print rr) = true /\ has_prefix ";" (Sample.print rr) = false /\ Sample.print rr <> "").
  { apply Forall_forall. unfold records, RecordMutExample.w0. repeat constructor; vm_compute; congruence. }
  exact (export_loads "2026-01-02T00:00:00Z" "myip.gr" "127.0.0.1:53" "unauthenticated" (Some zone) (records : list RR)
    eq_refl eq_refl eq_refl eq_refl Hz Hr).
Defined.

End ViewExample.
