(* ===== verification/Main.v ===== *)
(** * Main: the program's command line

    [main] and [cmdZone] of [cmd/goddns]: which command an argument list is,
    and what holds of all of them. The two daemons it can start are
    parameters here: [Serve] and [Zoned] model them. *)

From Stdlib Require Import String Ascii.
From S2P Require Import Prelude GoStrings NetIP Encoding.
From S2P Require Import FS DnsLib Config Ddns Tsig Store ZoneFile FileZone RecordMut Host Zoned History RotateKey.
From S2P Require Import VhostMut Named NamedParse Readers Form Flag Cli ZoneView.

Section main.
Context {D : Dns} {C : Crypto} {B : Bcrypt} {E : Env} {W : Type}.
Context (stdin : string) (terminal : option (nat -> result string string)).
Context (now : Z) (random : string) (gen : string -> result string string) (new_secret : result string string).
Context (sf : nat -> nat -> option string) (open_db : option string) (dir_owner : string -> option (Z * Z)).
Context (fault : nat -> option string) (tempname : nat -> string -> string) (euid egid : Z) (dirGID : string -> Z).
Context (today : date) (now_ns : nat -> Z) (h : Host.Host) (hostname : option string).
Context (view : W -> Net) (late : nat -> bool) (exchange : string -> string -> updateMsg -> W -> W * result string Z).
Context (key_query : nat -> string -> string -> string -> string -> Hmac -> result string bool).
Context (StringToType : string -> option Z) (run_editor : list string -> world -> result string unit * world).
Context (taken : string) (cmdServe cmdZoned : list string -> cmd (W := W) unit).
#[local] Existing Instances cmd_ret cmd_bind.
#[local] Abbreviation cmd := (cmd (W := W)).

Definition record (args : list string) : cmd unit :=
  cmdRecord stdin now sf open_db dir_owner fault tempname euid egid today now_ns h view late exchange StringToType args.
Definition vhost (args : list string) : cmd unit := cmdVhost stdin fault tempname euid egid dirGID args.
Definition token (args : list string) : cmd unit := cmdToken random sf open_db dir_owner fault euid hostname args.
Definition zone_import (args : list string) : cmd unit := cmdZoneImport stdin fault tempname euid egid today now_ns h args.
Definition zone_edit (args : list string) : cmd unit := cmdZoneEdit stdin fault tempname euid egid today now_ns h run_editor args.
Definition zone_view (args : list string) : cmd unit := show_zone sf open_db dir_owner euid fault h view late taken args.

Definition cmdZone (args : list string) : cmd unit :=
  match args with
  | [] => zone_view args
  | sub :: args' =>
      if String.eqb sub "enable" then cmdZoneEnable fault tempname euid egid h args'
      else if String.eqb sub "export" then cmdZoneExport fault tempname euid egid h args'
      else if String.eqb sub "import" then zone_import args'
      else if String.eqb sub "edit" then zone_edit args'
      else zone_view args
  end.

(** [args]: without the name of the program. *)
Definition main (args : list string) : cmd unit :=
  match args with
  | [] => usage "goddns"
  | sub :: args' =>
      if String.eqb sub "serve" then cmdServe args'
      else if String.eqb sub "token" then token args'
      else if String.eqb sub "passwd" then cmdPasswd stdin terminal gen args'
      else if String.eqb sub "rotate-key" then rotate_key new_secret fault tempname euid egid h key_query args'
      else if String.eqb sub "record" then record args'
      else if String.eqb sub "zoned" then cmdZoned args'
      else if String.eqb sub "vhost" then vhost args'
      else if String.eqb sub "zones" then cmdZones fault h view args'
      else if String.eqb sub "zone" then cmdZone args'
      else if existsb (String.eqb sub) ["version"; "-v"; "--version"] then say SVersion
      else if existsb (String.eqb sub) ["-h"; "--help"; "help"] then say (SUsage "goddns")
      else usage "goddns"
  end.

(** ** Nothing is changed without a yes *)

Ltac keep_step :=
  first
    [ progress intros
    | apply keeps_ret | apply keeps_fatal | apply keeps_die | apply keeps_say | apply keeps_ask | apply keeps_usage
    | apply keeps_flags_bind | apply keeps_flags | apply keeps_load_bind | apply keeps_load | apply keeps_or_fatal
    | apply keeps_with_store; [named|]
    | apply keeps_bind | case_match ].
Ltac keep := repeat keep_step.

Lemma cmdPasswd_keeps dbs args : keeps dbs (cmdPasswd (W := W) stdin terminal gen args).
Proof. unfold cmdPasswd, readPass. keep. Qed.

Lemma zone_line_keeps dbs hasView check server z : keeps dbs (zone_line fault view hasView check server z).
Proof. unfold zone_line. keep. apply keeps_readonly, readonly_FileStatus. Qed.

Lemma zone_lines_keeps dbs hasView check server zs : keeps dbs (zone_lines fault view hasView check server zs).
Proof.
  induction zs as [|z zs IH]; cbn [zone_lines]; [apply keeps_ret|].
  apply keeps_bind; [apply zone_line_keeps|]. intros l. apply keeps_bind; [done|]. keep.
Qed.

Lemma cmdZones_keeps dbs args : keeps dbs (cmdZones fault h view args).
Proof.
  unfold cmdZones. keep; try apply zone_lines_keeps. apply keeps_readonly, readonly_touches, touches_ReadFile.
Qed.

Lemma printChecks_keeps dbs name resolver records live : keeps dbs (printChecks view name resolver records live).
Proof.
  unfold printChecks. keep. generalize (map_to_list g). intros l. induction l; cbn [foldr]; keep; done.
Qed.

Lemma zone_view_keeps args : keeps (named_db args) (zone_view args).
Proof.
  unfold zone_view, show_zone.
  assert (Ht : forall name tl, tl `suffix_of` args -> keeps (named_db args) ('(fl, rest) ← flags viewer_flags tl;
    let name := or_else name (default "" (head rest)) in
    if String.eqb name "" then fatal EUsage
    else if bool_flag fl "history" || bool_flag fl "diff" then
      cmdZoneHistory sf open_db dir_owner euid fault name fl (bool_flag fl "history")
    else view_zone h view late taken name fl)).
  { intros name tl Hs. apply keeps_weaken with (dbs := named_db tl); [by intros path; apply named_db_suffix|].
    unfold view_zone, cmdZoneHistory, history_diff, list_snaps. repeat (apply printChecks_keeps || keep_step). }
  destruct args as [|a rest]; [by apply Ht|]. destruct (has_prefix "-" a); apply Ht; [done|by exists [a]].
Qed.

(** The commands that ask before they change anything, and those that change
    nothing: all but the daemons, the tokens, the rotation of a key, and the
    editing session, in which the editor may do anything. *)
Definition asking (args : list string) : bool :=
  match args with
  | sub :: rest =>
      negb (existsb (String.eqb sub) ["serve"; "zoned"; "token"; "rotate-key"]) &&
      negb (String.eqb sub "zone" && String.eqb (default "" (head rest)) "edit")
  | [] => true
  end.

Hypothesis no : says_yes stdin = false.

Lemma loadCfgArg_keeps dbs args : keeps dbs (loadCfgArg (W := W) args).
Proof. unfold loadCfgArg. keep. Qed.

Lemma cmdZone_asks args : asks args -> asking ("zone" :: args) = true -> keeps (named_db args) (cmdZone args).
Proof.
  intros Ha Hed. unfold cmdZone.
  destruct args as [|sub rest]; [apply zone_view_keeps|]. apply asks_tail in Ha. cbn in Hed.
  destruct (String.eqb sub "enable").
  { apply keeps_bind; [apply loadCfgArg_keeps|]. intros [[cfg conf] zone]. apply keeps_bind; [|keep].
    apply keeps_files_or_fatal; destruct (default_editor_tame fault tempname euid egid h (NamedConf cfg) "" [] 0);
      [by apply reading_preserves|by apply reading_links]. }
  destruct (String.eqb sub "export").
  { apply keeps_bind; [apply loadCfgArg_keeps|]. intros [[cfg conf] zone]. apply keeps_bind; [|keep].
    apply keeps_files_or_fatal; [by apply file_readers|by apply file_readers_links]. }
  destruct (String.eqb sub "import"); [by apply cmdZoneImport_asks|].
  destruct (String.eqb sub "edit"); [done|]. apply zone_view_keeps.
Qed.

(** C24: without [-y] and without a yes at the prompt, the program changes
    nothing: not the token store, not the name server, and no file that was
    there, apart from the owners of the files of the database that the configuration
    it names gives (of what their names link to). That is so for every command
    line but those that start a daemon, that manage tokens or rotate a key, and
    an editing session, where the editor itself may write. *)
Theorem main_asks args s : asks args -> asking args = true -> kept (named_db args) s (main args s).2.
Proof.
  intros Ha Hk. revert s. change (keeps (named_db args) (main args)). unfold main. destruct args as [|sub args]; [apply keeps_usage|].
  pose proof (asks_tail _ _ Ha) as Ha'. cbn in Hk. apply keeps_tail.
  destruct (String.eqb sub "serve"); [done|]. destruct (String.eqb sub "token"); [by destruct (String.eqb sub "zoned")|].
  destruct (String.eqb sub "passwd"); [apply cmdPasswd_keeps|].
  destruct (String.eqb sub "rotate-key"); [by destruct (String.eqb sub "zoned")|].
  destruct (String.eqb sub "record"); [by apply cmdRecord_asks|]. destruct (String.eqb sub "zoned"); [done|].
  destruct (String.eqb sub "vhost"); [by apply cmdVhost_asks|]. destruct (String.eqb sub "zones"); [apply cmdZones_keeps|].
  destruct (String.eqb sub "zone") eqn:Ez; [apply String.eqb_eq in Ez as ->; by apply cmdZone_asks|].
  keep.
Qed.

End main.

(** ** Witness *)

Module MainExample.

#[local] Existing Instances Sample.dns RecordMutExample.plain VhostExample.bcrypt CliExample.env.

Definition idle (args : list string) : cmd (W := list Sample.srr) unit := say SVersion.
Definition run (args : list string) := main "" None 100 "random" (fun p => Ok p) (Ok "c2VjcmV0") CliExample.no_store_fault None
  CliExample.owner CliExample.no_fault CliExample.temp 0 0 (fun _ => 7) FileZoneExample.today FileZoneExample.clock CliExample.host
  None RecordMutExample.view RecordMutExample.in_time RecordMutExample.exchange (fun _ _ _ _ _ _ => Err "no answer")
  CliExample.types CliExample.editor "now" idle idle args CliExample.s0.

Definition args : list string := ["record"; "add"; "myip.gr"; CliExample.line].

Example asked : (is_ok (run args).1, last (st_out (run args).2)) = (true, Some SAborted).
Proof. by vm_compute. Qed.

Lemma main_asks_witness : kept (named_db args) CliExample.s0 (run args).2.
Proof.
  assert (Ha : asks args).
  { intros a v Ha. repeat (apply elem_of_cons in Ha as [->|Ha]; [vm_compute; discriminate|]). by apply elem_of_nil in Ha. }
  exact (main_asks "" None 100 "random" (fun p => Ok p) (Ok "c2VjcmV0") CliExample.no_store_fault None
    CliExample.owner CliExample.no_fault CliExample.temp 0 0 (fun _ => 7) FileZoneExample.today FileZoneExample.clock CliExample.host
    None RecordMutExample.view RecordMutExample.in_time RecordMutExample.exchange (fun _ _ _ _ _ _ => Err "no answer")
    CliExample.types CliExample.editor "now" idle idle eq_refl args CliExample.s0 Ha eq_refl).
Defined.

End MainExample.
