(* ===== verification/Admin.v ===== *)
(** * Admin: the web console

    [internal/admin/admin.go]: every handler, and the layers in front of them:
    the address list, the outer Basic gate, the login and its throttle, the
    session, the CSRF token and the confirmation. A request is one step on the
    console's state: the token store, the login throttle, the files, the name
    server, the number of reloads asked for, and the audit log. A reply is
    what the handler answers: a status, a redirect or the data of a page; the
    templates that render it are not modelled. *)

From Stdlib Require Import String Ascii.
From S2P Require Import Prelude GoStrings NetIP Encoding Stats Proxy.
From S2P Require Import FS DnsLib Config Ddns Named NamedParse ZoneFile FileZone Tsig Store Session Throttle.
From S2P Require Import RecordMut Host Zoned History VhostMut Readers Form.

Definition cookieName : string := "goddns_admin".

(** ** Replies *)

Inductive event :=
| EvLoginThrottled | EvLoginFailed | EvLoginOK
| EvAdd (fqdn zone : string) (ttl : Z) | EvRotate (fqdn : string) | EvDel (fqdn : string)
| EvRecord (action zone line key : string) (snapshot : Z)
| EvStatic (action zone line : string) (serial : Z) (backup via : string)
| EvRestore (zone : string) (id : Z) (key : string) (snapshot : Z)
| EvVhost (action host upstream : string).

Record audit := mkAudit { a_user : string; a_peer : string; a_event : event }.

Inductive failure :=
| FStore (e : store_error) | FZone (e : fz_error) | FHelper (e : string) | FRecord (e : rm_error store_error)
| FVhost (e : vm_error) | FForm (e : form_error) | FParse (line e : string) | FNoRecord (line : string) | FPortCollision (p : Z)
| FNoSnapshot (id : Z) (zone : string) | FNothingToRestore (zone : string) (id : Z) | FNoVhost (host : string)
| FConf (e : string) | FTransfer (e : string).

Record recordView := mkRecordView {
  rv_FQDN : string; rv_Zone : string; rv_LastIP : string; rv_LastChange : string; rv_LastSeen : string; rv_State : string; rv_TTL : Z
}.
Record proxyView := mkProxyView {
  pv_Host : string; pv_Upstream : string; pv_Allow : string; pv_Auth : bool; pv_Rate : Z; pv_Managed : bool
}.
Record proxyStatView := mkStatView {
  ps_Host : string; ps_Active : Z; ps_Requests : Z; ps_In : option human; ps_Out : option human;
  ps_Codes : Z * Z * Z * Z; ps_LastSeen : string
}.
Record trafficView := mkTrafficView { tv_Host : string; tv_Period : string; tv_Requests : Z; tv_In : option human; tv_Out : option human }.
Record zoneRow := mkZoneRow {
  zr_View : string; zr_Name : string; zr_Kind : string; zr_File : string; zr_Status : string; zr_Keys : string;
  zr_NS : option (SerialStatus * Z); zr_Dynamic : bool
}.
Record rrRow := mkRRRow { rr_Name : string; rr_Type : string; rr_Data : string; rr_Full : string; rr_TTL : Z }.
Record nsRow := mkNSRow { ns_Name : string; ns_Addr : string; ns_Note : string; ns_Serial : Z; ns_OK : bool }.
Record snapRow := mkSnapRow { sr_Serial : Z; sr_Taken : string; sr_ID : Z }.

Record zonePage := mkZonePage {
  zp_Name : string; zp_Records : list rrRow; zp_Count : nat; zp_Auth : string;
  zp_Conf : option (string * bool * string);              (* kind, dynamic, keys *)
  zp_Edit : option (string * bool);                       (* the CSRF token, and whether the file is edited *)
  zp_Serial : option (Z * string); zp_Signed : option nat;
  zp_Delegation : list Finding; zp_NS : option (list nsRow * bool * bool)
}.

Inductive page :=
| PLogin (error : string)
| PResult (why : failure)
| PHelp (rec : Record') (host port token : string) (fresh : bool)
| PConfirm (action target csrf : string)
| PRecordConfirm (zone action line : string) (added removed : list string) (csrf : string)
| PRestoreConfirm (zone : string) (id serial : Z) (added removed : list string) (csrf : string)
| PProxyConfirm (res : VhostMut.Result) (rule : ProxyRule) (csrf : string)
| PProxyForm (entry : Entry) (console csrf : string)
| PDashboard (rv : list recordView) (pv : list proxyView) (ps : list proxyStatView) (edit : bool) (csrf : string)
| PTraffic (monthly daily : list trafficView)
| PZones (rows : list zoneRow) (keys : list (string * string)) (findings : list Finding) (views : bool) (builtin : nat)
| PZone (z : zonePage)
| PHistory (name : string) (snaps : list snapRow) (csrf : option string) (diff : option (list string * list string * Z * Z))
| PLogs (title path : string)
| PPasswd (csrf user : string) (entry : option (result string string)).

Inductive reply :=
| HttpError (status : Z)
| Redirect (url : string)
| Cookie (value : string) (max_age : Z) (url : string)
| Page (status : Z) (p : page).

(** The pages that report an error, and the plain errors. *)
Definition is_error (r : reply) : bool :=
  match r with HttpError _ => true | Page _ (PResult _) => true | Page s _ => negb (s =? 200) | _ => false end.

(** ** Small pure helpers *)

Definition stamp (fmt_time : Z -> string) (t : Z) : string := if t <=? 0 then "never" else fmt_time t.

(** Host and port of the update endpoint, for the help page. *)
Definition endpoint (cfg : Config) : string * string :=
  (if String.eqb (PublicHost cfg) "" then "<your-goddns-host>" else PublicHost cfg,
   match SplitHostPort (Listen cfg) with
   | Some (_, p) => if String.eqb p "" then "8245" else p
   | None => "8245"
   end).

Definition recordViewOf (fmt_time : Z -> string) (r : Record') : recordView :=
  mkRecordView (FQDN_ r) (Zone_ r) (LastIP r) (stamp fmt_time (LastUpdate r)) (stamp fmt_time (LastSeen r))
    (if Disabled r then "disabled" else "enabled") (TTL_ r).

Definition trafficViewOf (t : TrafficRow) : trafficView :=
  mkTrafficView (tr_Host t) (tr_Period t) (tr_Requests t) (humanBytes (tr_BytesIn t)) (humanBytes (tr_BytesOut t)).

Definition statViewOf (fmt_time : Z -> string) (hc : string * counters) : proxyStatView :=
  let c := hc.2 in
  mkStatView hc.1 (c_active c) (c_requests c) (humanBytes (c_in c)) (humanBytes (c_out c))
    (c_2xx c, c_3xx c, c_4xx c, c_5xx c) (stamp fmt_time (c_seen c)).

(** The vhosts with a fragment of their own: a later entry of the list wins. *)
Definition managedHosts (es : list Entry) : gmap string bool := foldl (fun m e => <[en_Host e := en_Managed e]> m) ∅ es.

Definition no_rule : ProxyRule := mkRule "" false false false [] [] 0 [].

Definition proxyViewOf (cfg : Config) (managed : gmap string bool) (host : string) : proxyView :=
  let rule := default no_rule (Config.Proxy cfg !! host) in
  mkProxyView host (Upstream rule) (join ", " (Allow rule)) (negb (length (BasicAuth rule) =? 0)%nat) (RateLimit rule)
    (default false (managed !! trim_suffix "." (to_lower host))).

(** [url.QueryEscape]. *)
Definition url_safe (c : ascii) : bool :=
  is_upper c || is_lower c || is_digit c || one_of "-_.~" c.
Definition upper_hex (z : Z) : ascii := chr (if z <? 10 then 48 + z else 55 + z).
Fixpoint QueryEscape (s : string) : string :=
  match s with
  | EmptyString => ""
  | String c s' =>
      (if url_safe c then String c ""
       else if Ascii.eqb c " " then "+"
       else String "%" (String (upper_hex (byte c / 16)) (String (upper_hex (byte c mod 16)) ""))) +:+ QueryEscape s'
  end.

(** A console port equal to the proxy's own listening port. *)
Definition colliding_port (cfg : Config) (rule : ProxyRule) : option Z :=
  match SplitHostPort (ProxyListen cfg) with
  | Some (_, plPort) => if String.eqb plPort "" then None
                        else find_first (fun p => String.eqb (format_int p) plPort) (ConsolePorts rule)
  | None => None
  end.

(** ** The console's state *)

Section console.
Context {D : Dns} {C : Crypto} {B : Bcrypt} {E : Env} {J : Wire} {W : Type}.

Record state := mkState {
  st_db : db; st_fails : fails; st_world : world; st_net : W; st_reloads : nat; st_audit : list audit
}.

Definition M (A : Type) : Type := state -> A * state.
#[local] Instance M_ret : MRet M := fun A a s => (a, s).
#[local] Instance M_bind : MBind M := fun A X f m s => let '(a, s') := m s in f a s'.

Definition read {A} (f : state -> A) : M A := fun s => (f s, s).
Definition on_db {A} (f : db -> A * db) : M A := fun s =>
  let '(a, d) := f (st_db s) in (a, mkState d (st_fails s) (st_world s) (st_net s) (st_reloads s) (st_audit s)).
Definition on_fails (f : fails -> fails) : M unit := fun s =>
  (tt, mkState (st_db s) (f (st_fails s)) (st_world s) (st_net s) (st_reloads s) (st_audit s)).
Definition on_files {A} (f : world -> A * world) : M A := fun s =>
  let '(a, w) := f (st_world s) in (a, mkState (st_db s) (st_fails s) w (st_net s) (st_reloads s) (st_audit s)).
Definition on_zone {A} (f : db -> W -> A * db * W) : M A := fun s =>
  let '(a, d, n) := f (st_db s) (st_net s) in (a, mkState d (st_fails s) (st_world s) n (st_reloads s) (st_audit s)).
Definition note_event (user peer : string) (ev : event) : M unit := fun s =>
  (tt, mkState (st_db s) (st_fails s) (st_world s) (st_net s) (st_reloads s) (st_audit s ++ [mkAudit user peer ev])).
Definition do_reload (wired : bool) : M unit := fun s =>
  (tt, mkState (st_db s) (st_fails s) (st_world s) (st_net s)
         (if wired then S (st_reloads s) else st_reloads s) (st_audit s)).

(** *** The handler's surroundings

    The configuration as loaded now, the signing key, the vhost editor's path
    (empty when it is off) and whether a reload is wired; the clock, the random
    bytes of a token and bcrypt; the failures of the store's calls, in the
    order a handler makes them, and of the system calls; the machine, the name
    server, and the socket of the privileged helper. *)
Context (cfg : Config) (secret confPath : string) (wired : bool) (proxyStats : option (list (string * counters))).
Context (now : Z) (random : string) (gen : string -> result string string) (fmt_time : Z -> string).
Context (cutoff_months cutoff_days : string).
Context (sf : nat -> nat -> option string).
Context (fault : nat -> option string) (tempname : nat -> string -> string) (euid egid : Z) (dirGID : string -> Z).
Context (today : date) (now_ns : nat -> Z) (h : Host.Host).
Context (view : W -> Net) (late : nat -> bool) (exchange : string -> string -> updateMsg -> W -> W * result string Z).
Context (conn : string -> world -> result string string * world).

Definition ad : AdminConfig := Config.Admin cfg.

Definition csrfFor (user : string) : string := csrfToken secret (default "" (adminCred (Users ad) user)) user.
Definition csrfOK (user got : string) : bool := csrfValid secret (default "" (adminCred (Users ad) user)) user got.

Definition session (q : request) : option string :=
  v ← q_Cookie q; parseSession secret v (adminCred (Users ad)) now.

Definition is_post (q : request) : bool := String.eqb (q_Method q) "POST".
Definition confirmed (q : request) : bool := String.eqb (FormValue q "confirm") "1".
Definition guarded (q : request) (user : string) : bool := is_post q && csrfOK user (FormValue q "csrf").

Definition bad_request : M reply := mret (HttpError 400).
Definition result_page (why : failure) : M reply := mret (Page 200 (PResult why)).

(** *** The tokens *)

Definition renderHelp (rec : Record') (token : string) (fresh : bool) : reply :=
  let '(host, port) := endpoint cfg in Page 200 (PHelp rec host port token fresh).

Definition handleAdd (q : request) (user peer : string) : M reply :=
  if negb (guarded q user) then bad_request
  else
    let fqdn := trim_space (FormValue q "fqdn") in
    let zone := trim_space (FormValue q "zone") in
    let ttl := atoi_value (FormValue q "ttl") in
    let ttl := if ttl <=? 0 then 60 else ttl in
    if String.eqb fqdn "" || String.eqb zone "" then bad_request
    else
      r ← on_db (Store.Add (sf 0%nat) random fqdn zone (u32 ttl));
      match r with
      | Err e => result_page (FStore e)
      | Ok (rec, tok) =>
          _ ← note_event user peer (EvAdd (FQDN_ rec) (Zone_ rec) (TTL_ rec));
          mret (renderHelp rec tok true)
      end.

Definition handleHelp (q : request) : M reply :=
  r ← read (fun s => Store.Get (sf 0%nat) (st_db s) (trim_space (Query q "fqdn")));
  mret (match r with Err _ => HttpError 404 | Ok rec => renderHelp rec "<token>" false end).

Definition handleRotate (q : request) (user peer : string) : M reply :=
  if negb (guarded q user) then bad_request
  else
    let fqdn := trim_space (FormValue q "fqdn") in
    if negb (confirmed q) then mret (Page 200 (PConfirm "/ddns/rotate" (FQDN fqdn) (csrfFor user)))
    else
      r ← on_db (Store.Rotate (sf 0%nat) random fqdn);
      match r with
      | Err _ => bad_request
      | Ok (rec, tok) => _ ← note_event user peer (EvRotate (FQDN_ rec)); mret (renderHelp rec tok true)
      end.

Definition handleDel (q : request) (user peer : string) : M reply :=
  if negb (guarded q user) then bad_request
  else
    let fqdn := trim_space (FormValue q "fqdn") in
    if negb (confirmed q) then mret (Page 200 (PConfirm "/ddns/del" (FQDN fqdn) (csrfFor user)))
    else
      r ← on_db (Store.Del (sf 0%nat) fqdn);
      match r with
      | Err _ => bad_request
      | Ok _ => _ ← note_event user peer (EvDel (FQDN fqdn)); mret (Redirect "/")
      end.

(** *** The zones *)

Definition editor : RecordMut.Editor :=
  let keys := match tsigKeys cfg with
              | [] => [Tsig.mkKey (trim_suffix "." (TSIGName cfg)) (TSIGAlgo cfg) (TSIGSecret cfg)]
              | ks => ks
              end in
  RecordMut.mkEditor (namedConf (NamedConf cfg)) (server (DNSServer cfg)) keys (HistoryKeep cfg).

Definition fileEditor : FileZone.Editor :=
  default_editor fault tempname euid egid h (namedConf (NamedConf cfg)) (server (DNSServer cfg)) (EditableZones cfg) (HistoryKeep cfg).

Definition ops_of (action : string) (rr : RR) : list Op := [mkOp (act_of action) (Some rr)].

(** What an edit of a static zone gives: added, removed, serial, backup. *)
Definition edit_result : Type := list string * list string * Z * string.

Definition staticEdit (zone action line : string) (apply : bool) (w : world) : result failure edit_result * world :=
  if negb (String.eqb (ZonedSocket cfg) "") then
    match Call conn (mkRequest zone action line apply) w with
    | (Err e, w') => (Err (FHelper e), w')
    | (Ok resp, w') => (Ok (Added resp, Removed resp, Serial resp, Backup resp), w')
    end
  else
    match ParseRR line zone with
    | Err e => (Err (FParse line e), w)
    | Ok rr =>
        match run_editor fault tempname euid egid today now_ns fileEditor apply zone (ops_of action rr) w with
        | (Err e, w') => (Err (FZone e), w')
        | (Ok res, w') =>
            (Ok (FileZone.res_Added res, FileZone.res_Removed res, FileZone.res_Serial res, FileZone.res_Backup res), w')
        end
    end.

Definition zone_url (zone : string) : string := "/zone?name=" +:+ QueryEscape zone.

Definition handleStaticRecord (q : request) (user peer zone action line : string) : M reply :=
  if negb (confirmed q) then
    r ← on_files (staticEdit zone action line false);
    match r with
    | Err e => result_page e
    | Ok (added, removed, _, _) => mret (Page 200 (PRecordConfirm zone action line added removed (csrfFor user)))
    end
  else
    r ← on_files (staticEdit zone action line true);
    match r with
    | Err e => result_page e
    | Ok (_, _, serial, backup) =>
        _ ← note_event user peer (EvStatic action zone line serial backup
               (if String.eqb (ZonedSocket cfg) "" then "direct" else "zoned"));
        mret (Redirect (zone_url zone))
    end.

#[local] Abbreviation rm_preview zone ops := (RecordMut.Preview (SE := store_error) (h_checkConf h) view late editor zone ops).
#[local] Abbreviation rm_apply n zone ops :=
  (RecordMut.Apply (S := store_snapshotter (sf n) now) (h_checkConf h) view late exchange true editor zone ops).

Definition handleRecord (q : request) (user peer : string) : M reply :=
  if negb (guarded q user) then bad_request
  else
    let zone := trim_space (FormValue q "zone") in
    let action := FormValue q "action" in
    let line := trim_space (FormValue q "rr") in
    if String.eqb zone "" || String.eqb line "" || negb (String.eqb action "add" || String.eqb action "del") then bad_request
    else
      z ← on_files (lookup fileEditor zone);
      if FileZone.CanEdit fileEditor (from_ok None z) then handleStaticRecord q user peer zone action line
      else
        match NewRR line with
        | Err e => result_page (FParse line e)
        | Ok None => result_page (FNoRecord line)
        | Ok (Some rr) =>
            let ops := ops_of action rr in
            if negb (confirmed q) then
              r ← read (fun s => rm_preview zone ops (st_net s));
              match r with
              | Err e => result_page (FRecord e)
              | Ok res => mret (Page 200 (PRecordConfirm zone action line (RecordMut.res_Added res) (RecordMut.res_Removed res) (csrfFor user)))
              end
            else
              r ← on_zone (rm_apply 0%nat zone ops);
              match r with
              | Err e => result_page (FRecord e)
              | Ok res =>
                  _ ← note_event user peer (EvRecord action zone line (res_Key res) (res_Snapshot res));
                  mret (Redirect (zone_url zone))
              end
        end.

Definition handleRestore (q : request) (user peer : string) : M reply :=
  if negb (guarded q user) then bad_request
  else
    let zone := trim_space (FormValue q "zone") in
    match scan_int64 (trim_space (FormValue q "id")) with
    | None => bad_request
    | Some id =>
        if String.eqb zone "" || (id <=? 0) then bad_request
        else
          r ← read (fun s => Store.SnapshotByID (sf 0%nat) (st_db s) id);
          match r with
          | Err e => result_page (FStore e)
          | Ok None => result_page (FNoSnapshot id zone)
          | Ok (Some snap) =>
              if negb (equal_fold (trim_suffix "." (sn_Zone snap)) (trim_suffix "." zone)) then result_page (FNoSnapshot id zone)
              else
                p ← read (fun s => RestorePlan (SE := store_error) (h_checkConf h) view late editor zone (sn_Content snap) (st_net s));
                match p with
                | Err e => result_page (FRecord e)
                | Ok (ops, res) =>
                    if (length ops =? 0)%nat then result_page (FNothingToRestore zone id)
                    else if negb (confirmed q) then
                      mret (Page 200 (PRestoreConfirm zone id (sn_Serial snap) (RecordMut.res_Added res) (RecordMut.res_Removed res) (csrfFor user)))
                    else
                      r ← on_zone (rm_apply 1%nat zone ops);
                      match r with
                      | Err e => result_page (FRecord e)
                      | Ok res =>
                          _ ← note_event user peer (EvRestore zone id (res_Key res) (res_Snapshot res));
                          mret (Redirect (zone_url zone +:+ "&history=1"))
                      end
                end
          end
    end.

(** *** The vhosts *)

#[local] Abbreviation vh_preview host rule := (PreviewSet fault confPath host rule).
#[local] Abbreviation vh_set host rule := (Set_ fault tempname euid egid dirGID confPath host rule).

Definition handleProxyEdit (q : request) (user : string) : M reply :=
  if String.eqb confPath "" then mret (HttpError 404)
  else
    let host := trim_suffix "." (to_lower (trim_space (Query q "host"))) in
    r ← on_files (List_ fault confPath);
    mret (match r with
          | Err e => Page 200 (PResult (FVhost e))
          | Ok entries =>
              match find_first (fun e => String.eqb (en_Host e) host && en_Managed e) entries with
              | Some e => Page 200 (PProxyForm e (joinInts (ConsolePorts (en_Rule e))) (csrfFor user))
              | None => Page 200 (PResult (FNoVhost host))
              end
          end).

Definition handleProxySet (q : request) (user peer : string) : M reply :=
  if negb (guarded q user) || String.eqb confPath "" then bad_request
  else
    match proxyRuleFromForm gen q with
    | Err e => result_page (FForm e)
    | Ok (host, rule) =>
        match colliding_port cfg rule with
        | Some p => result_page (FPortCollision p)
        | None =>
            r ← on_files (vh_preview host rule);
            match r with
            | Err e => result_page (FVhost e)
            | Ok res =>
                if negb (confirmed q) then mret (Page 200 (PProxyConfirm res rule (csrfFor user)))
                else
                  r ← on_files (vh_set host rule);
                  match r with
                  | Err e => result_page (FVhost e)
                  | Ok _ =>
                      _ ← note_event user peer (EvVhost (v_Action res) (v_Host res) (Upstream rule));
                      _ ← do_reload wired;
                      mret (Redirect "/")
                  end
            end
        end
    end.

Definition handleProxyDel (q : request) (user peer : string) : M reply :=
  if negb (guarded q user) || String.eqb confPath "" then bad_request
  else
    let host := trim_space (FormValue q "host") in
    r ← on_files (PreviewRemove fault confPath host);
    match r with
    | Err e => result_page (FVhost e)
    | Ok res =>
        if negb (confirmed q) then mret (Page 200 (PConfirm "/proxy/del" (v_Host res) (csrfFor user)))
        else
          r ← on_files (Remove_ fault confPath host);
          match r with
          | Err e => result_page (FVhost e)
          | Ok _ =>
              _ ← note_event user peer (EvVhost "remove" (v_Host res) "");
              _ ← do_reload wired;
              mret (Redirect "/")
          end
    end.

(** *** Reading pages *)

Definition handleDashboard (user : string) : M reply :=
  r ← read (fun s => Store.List (sf 0%nat) (st_db s));
  match r with
  | Err _ => mret (HttpError 500)
  | Ok recs =>
      es ← (if String.eqb confPath "" then mret (Ok [] : result vm_error (list Entry)) : M _ else on_files (List_ fault confPath));
      let managed := managedHosts (from_ok [] es) in
      mret (Page 200 (PDashboard (recordViewOf fmt_time <$> recs) (proxyViewOf cfg managed <$> ProxyHosts cfg)
                        (statViewOf fmt_time <$> default [] proxyStats) (negb (String.eqb confPath "")) (csrfFor user)))
  end.

(** Twelve months, then thirty days. *)
Definition handleTraffic : M reply :=
  m ← read (fun s => TrafficMonthly (sf 0%nat) cutoff_months (st_db s));
  d ← read (fun s => TrafficDaily (sf 1%nat) cutoff_days (st_db s));
  mret (match m, d with
        | Ok monthly, Ok daily => Page 200 (PTraffic (trafficViewOf <$> monthly) (trafficViewOf <$> daily))
        | _, _ => HttpError 500
        end).

Definition handleLogs (q : request) : M reply :=
  let access := String.eqb (Query q "which") "access" in
  let path := if access then AccessLog cfg else LogFile cfg in
  mret (if String.eqb path "" then HttpError 404
        else Page 200 (PLogs (if access then "access log" else "event log") path)).

Definition handlePasswd (q : request) (user : string) : M reply :=
  let page u entry := Page 200 (PPasswd (csrfFor user) u entry) in
  mret (
    if negb (is_post q) then page "" None
    else if negb (csrfOK user (FormValue q "csrf")) then HttpError 400
    else
      let u := trim_space (FormValue q "u") in
      let pw := FormValue q "pw" in
      page u (Some (
        if String.eqb u "" || String.eqb pw "" then Err "user and password are both required"
        else if has_byte ":" u then Err "user must not contain ':'"
        else if (String.length pw <? 8)%nat then Err "password too short (min 8 characters)"
        else match gen pw with Ok hash => Ok (u +:+ ":" +:+ hash) | Err e => Err e end))).

(** [zoneNSVerdict]: only master zones are probed. *)
Definition zoneNSVerdict (n : Net) (z : Zone) (srv : string) : option (SerialStatus * Z) :=
  if is_zone_kind (Kind z) then Some (ZoneSerialCheck (N := n) (z_Name z) srv) else None.

Definition zone_row (check : bool) (z : Zone) : M zoneRow :=
  status ← on_files (FileStatus fault (z_Path z) (z_Dynamic z));
  ns ← read (fun s => if check then zoneNSVerdict (view (st_net s)) z (server (DNSServer cfg)) else None);
  mret (mkZoneRow (z_View z) (z_Name z) (Kind z) (z_Path z) (from_ok "" status) (join ", " (z_UpdateKeys z)) ns (z_Dynamic z)).

Fixpoint zone_rows (check : bool) (zs : list Zone) : M (list zoneRow) :=
  match zs with
  | [] => mret []
  | z :: zs' => r ← zone_row check z; rs ← zone_rows check zs'; mret (r :: rs)
  end.

Definition handleZones (q : request) : M reply :=
  match h_checkConf h (namedConf (NamedConf cfg)) with
  | Err e => result_page (FConf e)
  | Ok dump =>
      let inv := NamedParse.Parse dump in
      let zones := UserZones inv in
      rows ← zone_rows (String.eqb (Query q "check") "1") zones;
      mret (Page 200 (PZones rows ((fun k => (k_Name k, k_Algorithm k)) <$> i_Keys inv)
                        (Named.Check inv (TSIGName cfg) (TSIGSecret cfg))
                        (existsb (fun z => negb (String.eqb (z_View z) "")) zones)
                        (length (i_Zones inv) - length zones)))
  end.

Definition canEditZone (name : string) : bool :=
  match h_checkConf h (namedConf (NamedConf cfg)) with
  | Err _ => false
  | Ok dump => RecordMut.CanEdit editor (ZoneByName (NamedParse.Parse dump) name)
  end.

(** The newest change of a zone, from its two newest snapshots. *)
Definition newest_diff (snaps : list Snapshot) (s : state) : option (list string * list string * Z * Z) :=
  match snaps with
  | n :: o :: _ =>
      match Store.SnapshotByID (sf 1%nat) (st_db s) (sn_ID n), Store.SnapshotByID (sf 2%nat) (st_db s) (sn_ID o) with
      | Ok (Some newer), Ok (Some older) =>
          let '(added, removed) := Diff (sn_Content older) (sn_Content newer) in
          Some (DropSOA added, DropSOA removed, sn_Serial older, sn_Serial newer)
      | _, _ => None
      end
  | _ => None
  end.

Definition handleZoneHistory (user name : string) : M reply :=
  r ← read (fun s => SnapshotList (sf 0%nat) (st_db s) name 200);
  match r with
  | Err e => result_page (FStore e)
  | Ok snaps =>
      d ← read (newest_diff snaps);
      mret (Page 200 (PHistory name ((fun sn => mkSnapRow (sn_Serial sn) (fmt_time (sn_TakenAt sn)) (sn_ID sn)) <$> snaps)
                        (if canEditZone name then Some (csrfFor user) else None) d))
  end.

Definition rr_row (r : Row) : rrRow :=
  mkRRRow (row_Name r) (row_Type r) (row_Data r)
    (row_Name r +:+ " " +:+ format_uint (row_TTL r) +:+ " IN " +:+ row_Type r +:+ " " +:+ row_Data r) (row_TTL r).

Definition ns_row (c : NSCheck) : nsRow := mkNSRow (c_Name c) (default "" (head (c_Addrs c))) (c_Note c) (c_Serial c) (c_OK c).

Definition zone_page (user name : string) (z : option Zone) (records : list RR) (auth : string) (n : Net) (check : bool) : zonePage :=
  let records := SortZone records in
  mkZonePage name (rr_row <$> Rows records) (length records) auth
    ((fun z => (Kind z, z_Dynamic z, join ", " (z_UpdateKeys z))) <$> z)
    (if RecordMut.CanEdit editor z || FileZone.CanEdit fileEditor z
     then Some (csrfFor user, FileZone.CanEdit fileEditor z) else None)
    ((fun soa => (soa_serial soa, trim_suffix "." (soa_ns soa))) <$> SOAOf records)
    (let '(signed, k) := Signed records in if (signed : bool) then Some k else None)
    (CheckDelegation name records)
    (if check then
       let checks := CheckNameservers (N := n) name records (server (DNSServer cfg)) in
       let '(agree, seen) := SerialsAgree checks in
       Some (ns_row <$> checks, agree && (size seen =? 1)%nat, (size seen =? 0)%nat)
     else None).

Definition handleZone (q : request) (user : string) : M reply :=
  let name := trim_suffix "." (trim_space (Query q "name")) in
  if String.eqb name "" then mret (Redirect "/zones")
  else if String.eqb (Query q "history") "1" then handleZoneHistory user name
  else
    let inv := match h_checkConf h (namedConf (NamedConf cfg)) with Ok d => NamedParse.Parse d | Err _ => mkInv "" [] [] end in
    let z := ZoneByName inv name in
    read (fun s =>
      let n := view (st_net s) in
      match TransferAuto (N := n) late name (server (DNSServer cfg)) (AXFRKeys inv z (TSIGName cfg)) with
      | Err e => Page 200 (PResult (FTransfer e))
      | Ok (records, auth) => Page 200 (PZone (zone_page user name z records auth n (String.eqb (Query q "check") "1")))
      end).

(** *** The layers *)

Definition peer_string (q : request) : string := match clientIP q with Some ip => ip_string ip | None => "?" end.

Definition handleLogin (q : request) (peer : string) : M reply :=
  if String.eqb (q_Method q) "GET" then
    mret (match session q with Some _ => Redirect "/" | None => Page 200 (PLogin "") end)
  else
    let user := trim_space (FormValue q "user") in
    let pass := FormValue q "pass" in
    let ipKey := "ip:" +:+ peer in
    until ← read (fun s => blockedUntil (st_fails s) now [ipKey]);
    if negb (until =? 0) then
      _ ← note_event user peer EvLoginThrottled;
      mret (Page 429 (PLogin "too many attempts"))
    else if negb (verifyCred (Users ad) user pass).1 then
      _ ← on_fails (Throttle.fail now [ipKey]);
      _ ← note_event user peer EvLoginFailed;
      mret (Page 401 (PLogin "invalid credentials"))
    else
      _ ← on_fails (Throttle.ok [ipKey]);
      let ttl := i64 (SessionTTL ad * (3600 * second)) in
      _ ← note_event user peer EvLoginOK;
      mret (Cookie (newSession secret (default "" (adminCred (Users ad) user)) user ttl now) (ttl / second) "/").

Definition route (q : request) (user peer : string) : M reply :=
  let path := q_Path q in
  if String.eqb path "/" then handleDashboard user
  else if String.eqb path "/ddns/add" then handleAdd q user peer
  else if String.eqb path "/ddns/del" then handleDel q user peer
  else if String.eqb path "/ddns/rotate" then handleRotate q user peer
  else if String.eqb path "/ddns/help" then handleHelp q
  else if String.eqb path "/logs" then handleLogs q
  else if String.eqb path "/traffic" then handleTraffic
  else if String.eqb path "/zones" then handleZones q
  else if String.eqb path "/zone" then handleZone q user
  else if String.eqb path "/zone/record" then handleRecord q user peer
  else if String.eqb path "/zone/restore" then handleRestore q user peer
  else if String.eqb path "/passwd" then handlePasswd q user
  else if String.eqb path "/proxy/edit" then handleProxyEdit q user
  else if String.eqb path "/proxy/set" then handleProxySet q user peer
  else if String.eqb path "/proxy/del" then handleProxyDel q user peer
  else mret (HttpError 404).

Definition ServeHTTP (q : request) : M reply :=
  let peer := clientIP q in
  if negb (IsAllowed ad peer) then mret (HttpError 403)
  else if negb (length (AdminBasicAuth ad) =? 0)%nat && negb (checkBasic q (AdminBasicAuth ad)) then mret (HttpError 401)
  else if String.eqb (q_Path q) "/login" then handleLogin q (peer_string q)
  else if String.eqb (q_Path q) "/logout" then mret (Cookie "" (-1) "/login")
  else
    match session q with
    | None => mret (Redirect "/login")
    | Some user => route q user (peer_string q)
    end.

(** ** What may change, and for whom *)

(** Everything but the throttle and the audit log is as it was. *)
Definition same (s s' : state) : Prop :=
  st_db s' = st_db s /\ w_files (st_world s') = w_files (st_world s) /\ st_net s' = st_net s /\ st_reloads s' = st_reloads s.

Lemma same_refl s : same s s.
Proof. done. Qed.

Lemma same_trans s1 s2 s3 : same s1 s2 -> same s2 s3 -> same s1 s3.
Proof. intros (? & ? & ? & ?) (? & ? & ? & ?). split_and!; congruence. Qed.

Definition keeps {A} (m : M A) : Prop := forall s, same s (m s).2 /\ st_audit (m s).2 = st_audit s.

Lemma console_keeps_ret {A} (a : A) : keeps (mret a).
Proof. done. Qed.

Lemma keeps_read {A} (f : state -> A) : keeps (read f).
Proof. done. Qed.

Lemma console_keeps_bind {A X} (m : M A) (f : A -> M X) : keeps m -> (forall a, keeps (f a)) -> keeps (mbind f m).
Proof.
  intros Hm Hf s. unfold mbind, M_bind. specialize (Hm s). destruct (m s) as [a s1]. destruct (Hf a s1) as [H1 H2], Hm as [H3 H4].
  split; [by eapply same_trans|]. cbn in *. congruence.
Qed.

Lemma console_keeps_on_files {A} (f : world -> A * world) : (forall w, w_files (f w).2 = w_files w) -> keeps (on_files f).
Proof. intros H s. unfold on_files. specialize (H (st_world s)). by destruct (f (st_world s)). Qed.

#[local] Hint Resolve console_keeps_ret keeps_read console_keeps_bind console_keeps_on_files : goddns.


Lemma readonly_staticEdit zone action line : readonly (Call conn (mkRequest zone action line false)) ->
  readonly (staticEdit zone action line false).
Proof.
  intros Hconn w. unfold staticEdit. destruct (negb _).
  - pose proof (Hconn w) as H. by destruct (Call _ _ w) as [[|] w'].
  - case_match; [|done]. unfold run_editor. cbv iota.
    match goal with |- context [FileZone.Preview fault today ?e zone ?ops w] =>
      pose proof (default_preview_readonly fault tempname euid egid h today (namedConf (NamedConf cfg)) (server (DNSServer cfg))
                    (EditableZones cfg) (HistoryKeep cfg) zone ops w) as Hpr;
      change (w_files (FileZone.Preview fault today e zone ops w).2 = w_files w) in Hpr;
      by destruct (FileZone.Preview fault today e zone ops w) as [[|] w'] end.
Qed.

(** A field of the form, as the handlers read it. *)
Definition field (q : request) (k : string) : string := trim_space (FormValue q k).

Definition kept_db (s s' : state) : Prop := st_db s' = st_db s.
Definition kept_world (s s' : state) : Prop := w_files (st_world s') = w_files (st_world s).
Definition kept_net (s s' : state) : Prop := st_net s' = st_net s.
Definition reloaded (n : nat) (s s' : state) : Prop := st_reloads s' = (n + st_reloads s)%nat.

(** What a line of the audit log says was done is what the form asked for,
    and what happened: the call of the store, of the zone editors or of the
    vhost editor that it names succeeded on the form's own values, took [s] to
    [s'], and gave what the line says; the rest of the state was kept. *)
Definition recounts (q : request) (s s' : state) (ev : event) : Prop :=
  match ev with
  | EvAdd fqdn zone ttl =>
      q_Path q = "/ddns/add" /\ kept_world s s' /\ kept_net s s' /\ reloaded 0 s s' /\
      exists rec tok, Store.Add (sf 0%nat) random (field q "fqdn") (field q "zone")
          (u32 (let t := atoi_value (FormValue q "ttl") in if t <=? 0 then 60 else t)) (st_db s) = (Ok (rec, tok), st_db s') /\
        fqdn = FQDN_ rec /\ zone = Zone_ rec /\ ttl = TTL_ rec
  | EvRotate fqdn =>
      q_Path q = "/ddns/rotate" /\ kept_world s s' /\ kept_net s s' /\ reloaded 0 s s' /\
      exists rec tok, Store.Rotate (sf 0%nat) random (field q "fqdn") (st_db s) = (Ok (rec, tok), st_db s') /\ fqdn = FQDN_ rec
  | EvDel fqdn =>
      q_Path q = "/ddns/del" /\ kept_world s s' /\ kept_net s s' /\ reloaded 0 s s' /\
      Store.Del (sf 0%nat) (field q "fqdn") (st_db s) = (Ok tt, st_db s') /\ fqdn = FQDN (field q "fqdn")
  | EvRecord action zone line key snapshot =>
      q_Path q = "/zone/record" /\ action = FormValue q "action" /\ zone = field q "zone" /\ line = field q "rr" /\
      kept_world s s' /\ reloaded 0 s s' /\
      exists rr res, NewRR line = Ok (Some rr) /\
        rm_apply 0%nat zone (ops_of action rr) (st_db s) (st_net s) = (Ok res, st_db s', st_net s') /\
        key = res_Key res /\ snapshot = res_Snapshot res
  | EvStatic action zone line serial backup via =>
      q_Path q = "/zone/record" /\ action = FormValue q "action" /\ zone = field q "zone" /\ line = field q "rr" /\
      kept_db s s' /\ kept_net s s' /\ reloaded 0 s s' /\
      (exists w added removed, w_files w = w_files (st_world s) /\
         staticEdit zone action line true w = (Ok (added, removed, serial, backup), st_world s')) /\
      via = if String.eqb (ZonedSocket cfg) "" then "direct" else "zoned"
  | EvRestore zone id key snapshot =>
      q_Path q = "/zone/restore" /\ zone = field q "zone" /\ scan_int64 (field q "id") = Some id /\ kept_world s s' /\ reloaded 0 s s' /\
      exists snap ops plan res, Store.SnapshotByID (sf 0%nat) (st_db s) id = Ok (Some snap) /\
        RestorePlan (SE := store_error) (h_checkConf h) view late editor zone (sn_Content snap) (st_net s) = Ok (ops, plan) /\
        rm_apply 1%nat zone ops (st_db s) (st_net s) = (Ok res, st_db s', st_net s') /\
        key = res_Key res /\ snapshot = res_Snapshot res
  | EvVhost action host upstream =>
      kept_db s s' /\ kept_net s s' /\ reloaded (if wired then 1 else 0) s s' /\
      exists w res set, w_files w = w_files (st_world s) /\ host = v_Host res /\
        ((q_Path q = "/proxy/set" /\ action = v_Action res /\ exists h0 rule, proxyRuleFromForm gen q = Ok (h0, rule) /\ upstream = Upstream rule /\
            (vh_preview h0 rule (st_world s)) = (Ok res, w) /\ vh_set h0 rule w = (Ok set, st_world s')) \/
         (q_Path q = "/proxy/del" /\ action = "remove" /\ upstream = "" /\
            PreviewRemove fault confPath (field q "host") (st_world s) = (Ok res, w) /\
            Remove_ fault confPath (field q "host") w = (Ok set, st_world s')))
  | EvLoginThrottled | EvLoginFailed | EvLoginOK => False
  end.

(** What a request that was let through to its handler may have done. *)
Definition permitted (q : request) (user peer : string) (r : reply) (s s' : state) : Prop :=
  (same s s' /\ st_audit s' = st_audit s) \/
  (guarded q user = true /\ (q_Path q = "/ddns/add" \/ confirmed q = true) /\
   (is_error r = false -> exists ev, recounts q s s' ev /\ st_audit s' = st_audit s ++ [mkAudit user peer ev])).

Lemma keeps_permitted q user peer (m : M reply) s : keeps m -> permitted q user peer (m s).1 s (m s).2.
Proof. intros H. left. apply H. Qed.

Lemma handleAdd_permitted q user peer s : q_Path q = "/ddns/add" ->
  permitted q user peer (handleAdd q user peer s).1 s (handleAdd q user peer s).2.
Proof.
  intros Hp. unfold handleAdd. destruct (guarded q user) eqn:Hg; [|by left]. cbn [negb].
  destruct (_ || _); [by left|]. right. split_and!; [done|by left|].
  unfold mbind, M_bind, on_db. destruct (Store.Add _ _ _ _ _ _) as [[[rec tok]|e] d] eqn:Ecall; cbn; [|done].
  intros _. eexists. split; [|reflexivity]. cbn. split_and!; try done. exists rec, tok. done.
Qed.

Lemma handleDel_permitted q user peer s : q_Path q = "/ddns/del" ->
  permitted q user peer (handleDel q user peer s).1 s (handleDel q user peer s).2.
Proof.
  intros Hp. unfold handleDel. destruct (guarded q user) eqn:Hg; [|by left]. cbn [negb].
  destruct (confirmed q) eqn:Hc; cbn [negb]; [|by left]. right. split_and!; [done|by right|].
  unfold mbind, M_bind, on_db. destruct (Store.Del _ _ _) as [[[]|e] d] eqn:Ecall; cbn; [|done].
  intros _. eexists. split; [|reflexivity]. done.
Qed.

Lemma handleRotate_permitted q user peer s : q_Path q = "/ddns/rotate" ->
  permitted q user peer (handleRotate q user peer s).1 s (handleRotate q user peer s).2.
Proof.
  intros Hp. unfold handleRotate. destruct (guarded q user) eqn:Hg; [|by left]. cbn [negb].
  destruct (confirmed q) eqn:Hc; cbn [negb]; [|by left]. right. split_and!; [done|by right|].
  unfold mbind, M_bind, on_db. destruct (Store.Rotate _ _ _ _) as [[[rec tok]|e] d] eqn:Ecall; cbn; [|done].
  intros _. eexists. split; [|reflexivity]. cbn. split_and!; try done. by exists rec, tok.
Qed.

Lemma handleProxySet_permitted q user peer s : q_Path q = "/proxy/set" ->
  permitted q user peer (handleProxySet q user peer s).1 s (handleProxySet q user peer s).2.
Proof.
  intros Hp. unfold handleProxySet. destruct (guarded q user) eqn:Hg; [|by left]. cbn [negb orb].
  destruct (String.eqb confPath ""); [by left|]. destruct (proxyRuleFromForm gen q) as [[host rule]|e] eqn:Ef; [|by left].
  destruct (colliding_port cfg rule); [by left|]. destruct (confirmed q) eqn:Hc; cbn [negb].
  2: { apply keeps_permitted. apply console_keeps_bind; [apply console_keeps_on_files, readonly_PreviewSet|]. intros [res|e]; apply console_keeps_ret. }
  right. split_and!; [done|by right|]. unfold mbind, M_bind, on_files.
  pose proof (readonly_PreviewSet fault confPath host rule (st_world s)) as Hro.
  destruct (PreviewSet _ _ _ _ _) as [[res|e] w] eqn:E1; cbn; [|done]. destruct (Set_ _ _ _ _ _ _ _ _ _) as [[r2|e] w2] eqn:E2; cbn; [|done].
  intros _. eexists. split; [|by destruct wired]. cbn. split_and!; [by destruct wired..|].
  exists w, res, r2. split_and!; [done|done|]. left. split_and!; [done|done|]. exists host, rule. by destruct wired.
Qed.

Lemma handleProxyDel_permitted q user peer s : q_Path q = "/proxy/del" ->
  permitted q user peer (handleProxyDel q user peer s).1 s (handleProxyDel q user peer s).2.
Proof.
  intros Hp. unfold handleProxyDel. destruct (guarded q user) eqn:Hg; [|by left]. cbn [negb orb].
  destruct (String.eqb confPath ""); [by left|]. destruct (confirmed q) eqn:Hc; cbn [negb].
  2: { apply keeps_permitted. apply console_keeps_bind; [apply console_keeps_on_files, readonly_PreviewRemove|]. intros [res|e]; apply console_keeps_ret. }
  right. split_and!; [done|by right|]. unfold mbind, M_bind, on_files.
  pose proof (readonly_PreviewRemove fault confPath (trim_space (FormValue q "host")) (st_world s)) as Hro.
  destruct (PreviewRemove _ _ _ _) as [[res|e] w] eqn:E1; cbn; [|done]. destruct (Remove_ _ _ _ _) as [[r2|e] w2] eqn:E2; cbn; [|done].
  intros _. eexists. split; [|by destruct wired]. cbn. split_and!; [by destruct wired..|].
  exists w, res, r2. split_and!; [done|done|]. right. by destruct wired.
Qed.

Lemma handleRestore_permitted q user peer s : q_Path q = "/zone/restore" ->
  permitted q user peer (handleRestore q user peer s).1 s (handleRestore q user peer s).2.
Proof.
  intros Hp. unfold handleRestore. destruct (guarded q user) eqn:Hg; [|by left]. cbn [negb].
  destruct (scan_int64 _) as [id|] eqn:Eid; [|by left]. destruct (_ || _); [by left|].
  unfold mbind, M_bind, read. destruct (Store.SnapshotByID _ _ _) as [[snap|]|e] eqn:Es; [|by left|by left].
  destruct (negb _); [by left|]. destruct (RestorePlan _ _ _ _ _ _ _) as [[ops res]|e] eqn:Ep; [|by left].
  destruct (length ops =? 0)%nat; [by left|]. destruct (confirmed q) eqn:Hc; [|by left].
  right. split_and!; [done|by right|]. cbn [negb]. unfold on_zone.
  destruct (RecordMut.Apply _ _ _ _ _ _ _ _ _ _) as [[[res2|e] d] n] eqn:Ea; cbn; [|done].
  intros _. eexists. split; [|reflexivity]. cbn. split_and!; try done. exists snap, ops, res, res2. done.
Qed.

Lemma handleStaticRecord_permitted q user peer s s0 : q_Path q = "/zone/record" -> guarded q user = true ->
  (let req := mkRequest (field q "zone") (FormValue q "action") (field q "rr") false in readonly (Call conn req)) ->
  same s s0 -> st_audit s0 = st_audit s ->
  let m := handleStaticRecord q user peer (field q "zone") (FormValue q "action") (field q "rr") in
  permitted q user peer (m s0).1 s (m s0).2.
Proof.
  intros Hp Hg Hconn Hs Hau m. unfold m, handleStaticRecord. destruct (confirmed q) eqn:Hc; cbn [negb].
  - right. split_and!; [done|by right|]. unfold mbind, M_bind, on_files.
    destruct (staticEdit _ _ _ _ _) as [[[[[a r] n] b]|e] w] eqn:Ee; cbn; [|done].
    intros _. eexists. split; [|by rewrite Hau]. destruct Hs as (H1 & H2 & H3 & H4). cbn. split_and!; try done.
    exists (st_world s0), a, r. done.
  - set (k := on_files _). assert (Hk : keeps k) by (apply console_keeps_on_files, readonly_staticEdit, Hconn).
    assert (Hm : forall f, (forall x, keeps (f x)) -> permitted q user peer (mbind f k s0).1 s (mbind f k s0).2).
    { intros f Hf. left. destruct (console_keeps_bind k f Hk Hf s0) as [H1 H2]. split; [by eapply same_trans|congruence]. }
    apply Hm. intros [[[[a r] n] b]|e]; apply console_keeps_ret.
Qed.

Lemma handleRecord_permitted q user peer s : q_Path q = "/zone/record" ->
  (let req := mkRequest (field q "zone") (FormValue q "action") (field q "rr") false in readonly (Call conn req)) ->
  permitted q user peer (handleRecord q user peer s).1 s (handleRecord q user peer s).2.
Proof.
  intros Hp Hconn. unfold handleRecord. destruct (guarded q user) eqn:Hg; [|by left]. cbn [negb]. destruct (_ || _); [by left|].
  fold (field q "zone") (field q "rr").
  assert (Hk : keeps (on_files (lookup fileEditor (field q "zone")))) by (apply console_keeps_on_files, default_lookup_readonly).
  unfold mbind at 1 5, M_bind at 1 5. specialize (Hk s). destruct (on_files (lookup fileEditor (field q "zone")) s) as [z s1].
  cbn [snd] in Hk. destruct Hk as [Hk1 Hk2].
  destruct (FileZone.CanEdit _ _); [by apply handleStaticRecord_permitted|].
  assert (Hleft : forall r, permitted q user peer r s s1) by (by left).
  destruct (NewRR (field q "rr")) as [[rr|]|e] eqn:Er; [|apply Hleft|apply Hleft]. destruct (confirmed q) eqn:Hc; cbn [negb].
  2: { unfold mbind, M_bind, read. destruct (RecordMut.Preview _ _ _ _ _ _ _); apply Hleft. }
  right. split_and!; [done|by right|]. unfold mbind, M_bind, on_zone. destruct Hk1 as (Hd & Hw & Hn & Hr).
  destruct (RecordMut.Apply _ _ _ _ _ _ _ _ _ _) as [[[res|e] d] n] eqn:Ea; cbn; [|done].
  intros _. eexists. split; [|by rewrite Hk2]. cbn. split_and!; try done. exists rr, res. rewrite <- Hd, <- Hn. done.
Qed.

(** The pages that only read. *)
Lemma reading_pages_keep q user :
  keeps (handleDashboard user) /\ keeps (handleHelp q) /\ keeps (handleLogs q) /\ keeps handleTraffic /\
  keeps (handleZones q) /\ keeps (handleZone q user) /\ keeps (handlePasswd q user) /\ keeps (handleProxyEdit q user).
Proof.
  split_and!.
  - apply console_keeps_bind; [apply keeps_read|]. intros [recs|e]; [|apply console_keeps_ret]. apply console_keeps_bind; [|intros; apply console_keeps_ret].
    destruct (String.eqb confPath ""); [apply console_keeps_ret|]. apply console_keeps_on_files, readonly_List.
  - apply console_keeps_bind; [apply keeps_read|intros; apply console_keeps_ret].
  - apply console_keeps_ret.
  - apply console_keeps_bind; [apply keeps_read|intros m]. apply console_keeps_bind; [apply keeps_read|intros; apply console_keeps_ret].
  - unfold handleZones. case_match; [|apply console_keeps_ret]. apply console_keeps_bind; [|intros; apply console_keeps_ret].
    induction (UserZones _) as [|z zs IH]; cbn [zone_rows]; [apply console_keeps_ret|].
    apply console_keeps_bind; [|intros; apply console_keeps_bind; [done|intros; apply console_keeps_ret]].
    unfold zone_row. apply console_keeps_bind; [apply console_keeps_on_files, readonly_FileStatus|].
    intros st. apply console_keeps_bind; [apply keeps_read|intros; apply console_keeps_ret].
  - unfold handleZone. destruct (String.eqb _ ""); [apply console_keeps_ret|]. destruct (String.eqb _ "1"); [|apply keeps_read].
    apply console_keeps_bind; [apply keeps_read|]. intros [snaps|e]; [|apply console_keeps_ret].
    apply console_keeps_bind; [apply keeps_read|intros; apply console_keeps_ret].
  - apply console_keeps_ret.
  - unfold handleProxyEdit. destruct (String.eqb confPath ""); [apply console_keeps_ret|].
    apply console_keeps_bind; [apply console_keeps_on_files, readonly_List|intros; apply console_keeps_ret].
Qed.

(** A preview that the request asks of the helper changes no file. *)
Definition helper_previews (q : request) : Prop :=
  readonly (Call conn (mkRequest (field q "zone") (FormValue q "action") (field q "rr") false)).

Lemma route_permitted q user peer s : helper_previews q -> permitted q user peer (route q user peer s).1 s (route q user peer s).2.
Proof.
  intros Hconn. destruct (reading_pages_keep q user) as (H1 & H2 & H3 & H4 & H5 & H6 & H7 & H8). unfold route.
  repeat match goal with |- context [String.eqb (q_Path q) ?p] => destruct (String.eqb_spec (q_Path q) p) end;
    first [by apply keeps_permitted|by apply handleAdd_permitted|by apply handleDel_permitted|by apply handleRotate_permitted
          |by apply handleRecord_permitted|by apply handleRestore_permitted|by apply handleProxySet_permitted
          |by apply handleProxyDel_permitted|by left].
Qed.

Lemma handleLogin_same q peer s : same s (handleLogin q peer s).2.
Proof.
  unfold handleLogin. destruct (String.eqb _ "GET"); [done|]. unfold mbind, M_bind, read.
  destruct (negb _); [done|]. by destruct (negb _).
Qed.

(** C2: the layers of the console, with a helper whose previews change no file
    (as is proved of it). Whatever a request is, the tokens, the files, the
    name server's zones and the loaded configuration stay as they are unless
    its address is allowed, the outer gate is passed, its cookie is a valid
    session of a configured user, it is a POST with that user's own CSRF
    token, and (but for adding a token) it carries the confirmation; and when
    such a request does not answer with an error, exactly one line in the
    audit log names the user and the peer, and recounts what was done: one
    call, of the store, a zone editor or the vhost editor, on what the form
    asked for, which succeeded, gave what the line says and is all that
    changed. *)
Theorem console_guarded q s r s' : helper_previews q -> ServeHTTP q s = (r, s') ->
  same s s' \/
  (IsAllowed ad (clientIP q) = true /\ (AdminBasicAuth ad = [] \/ checkBasic q (AdminBasicAuth ad) = true) /\
   q_Method q = "POST" /\ (q_Path q = "/ddns/add" \/ FormValue q "confirm" = "1") /\
   exists user cookie, q_Cookie q = Some cookie /\ parseSession secret cookie (adminCred (Users ad)) now = Some user /\
     csrfOK user (FormValue q "csrf") = true /\
     (is_error r = false -> exists ev, recounts q s s' ev /\ st_audit s' = st_audit s ++ [mkAudit user (peer_string q) ev])).
Proof.
  intros Hconn. unfold ServeHTTP. destruct (IsAllowed ad (clientIP q)); cbn [negb]; [|intros [= <- <-]; by left].
  assert (Hb : negb (length (AdminBasicAuth ad) =? 0)%nat && negb (checkBasic q (AdminBasicAuth ad)) = true \/
               (AdminBasicAuth ad = [] \/ checkBasic q (AdminBasicAuth ad) = true)).
  { destruct (AdminBasicAuth ad); [by right; left|]. destruct (checkBasic q _); [by right; right|by left]. }
  destruct Hb as [->|Hb]; [intros [= <- <-]; by left|].
  destruct (negb _ && negb _); [intros [= <- <-]; by left|].
  destruct (String.eqb (q_Path q) "/login").
  { intros H. left. pose proof (handleLogin_same q (peer_string q) s) as Hs. by rewrite H in Hs. }
  destruct (String.eqb (q_Path q) "/logout"); [intros [= <- <-]; by left|].
  destruct (session q) as [user|] eqn:Es; [|intros [= <- <-]; by left]. intros H.
  pose proof (route_permitted q user (peer_string q) s Hconn) as Hp. rewrite H in Hp. cbn in Hp.
  destruct Hp as [[Hp _]|(Hg & Hc & Ha)]; [by left|]. right. unfold guarded, is_post in Hg.
  apply andb_true_iff in Hg as [Hg1 Hg2]. apply String.eqb_eq in Hg1.
  unfold session in Es. destruct (q_Cookie q) as [v|] eqn:Ev; [|done]. split_and!; try done.
  - destruct Hc as [?|Hc]; [by left|right]. by apply String.eqb_eq.
  - exists user, v. split_and!; done.
Qed.

(** *** Logging in *)

Lemma verify_true creds user pass : (verifyCred creds user pass).1 = true ->
  exists hash, adminCred creds user = Some hash /\ bcrypt_compare hash pass = true.
Proof.
  unfold verifyCred. generalize initial_dummy, 0%nat. induction creds as [|c creds IH]; intros dummy i; cbn; [done|].
  destruct (cut ":" c) as [[u hash]|]; [|by apply IH]. destruct (String.eqb u user); [|by apply IH]. cbn. eauto.
Qed.

(** C26: the login, for a client the outer layers let through, while the end of
    a session is a time an int64 of seconds holds. While its address is locked
    out the answer is 429 and no credential makes a difference; otherwise wrong
    credentials are answered with 401 and count against the address, and
    against nothing else, whatever user they name; and right ones clear the
    address's count and give a cookie with which every later request is that
    user's, until the session expires. *)
Theorem login_spec q s : IsAllowed ad (clientIP q) = true ->
  AdminBasicAuth ad = [] \/ checkBasic q (AdminBasicAuth ad) = true ->
  q_Path q = "/login" -> q_Method q <> "GET" ->
  let key := "ip:" +:+ peer_string q in
  let user := trim_space (FormValue q "user") in
  let ttl := i64 (SessionTTL ad * (3600 * second)) in
  is_i64 (unix (now + ttl)) ->
  let '(r, s') := ServeHTTP q s in
  if negb (blockedUntil (st_fails s) now [key] =? 0) then r = Page 429 (PLogin "too many attempts") /\ st_fails s' = st_fails s
  else if (verifyCred (Users ad) user (FormValue q "pass")).1 then
    st_fails s' = delete key (st_fails s) /\
    exists v, r = Cookie v (ttl / second) "/" /\
      (exists hash, adminCred (Users ad) user = Some hash /\ bcrypt_compare hash (FormValue q "pass") = true) /\
      forall later, parseSession secret v (adminCred (Users ad)) later =
                    if unix (now + ttl) <? unix later then None else Some user
  else r = Page 401 (PLogin "invalid credentials") /\ st_fails s' = Throttle.fail now [key] (st_fails s).
Proof.
  intros Ha Hb Hp Hm key user ttl Hi. unfold ServeHTTP. rewrite Ha, Hp. cbn [negb].
  assert (negb (length (AdminBasicAuth ad) =? 0)%nat && negb (checkBasic q (AdminBasicAuth ad)) = false) as ->
    by (destruct Hb as [->| ->]; [done|by rewrite andb_false_r]).
  rewrite String.eqb_refl. unfold handleLogin. apply String.eqb_neq in Hm as ->.
  unfold mbind, M_bind, read. cbv beta iota zeta. fold key user. destruct (negb (blockedUntil _ _ _ =? 0)); [done|].
  destruct ((verifyCred (Users ad) user (FormValue q "pass")).1) eqn:Ev; cbn [negb]; [|done].
  cbn. split; [done|]. destruct (verify_true _ _ _ Ev) as (hash & Hh & Hc). eexists. split_and!; [reflexivity|by eauto|].
  intros later. fold ttl. rewrite session_roundtrip by done. fold user. rewrite Hh. cbn [default]. destruct (_ <? _); [done|]. by rewrite String.eqb_refl.
Qed.

(** *** From the vhost form to the next reload *)

(** C27: a vhost set through the console is written to the host's own fragment
    and, temporary files never having a fragment's name, no other file that was
    there changes; the tokens, the zones and the throttle are kept, and a
    reload is asked for. The rule that is written passes the checks [Load]
    makes of each rule by itself, the clash with the proxy's own port
    included, exactly when its credentials do: what else those checks refuse,
    the form has refused already. (How the fragment's text decodes, and the
    checks [Load] makes across hosts, are not part of this.) *)
Theorem console_vhost_loads q user peer s s' :
  (forall t d host rule, proxyRuleFromForm gen q = Ok (host, rule) -> tempname t d <> frag confPath (normalize host)) ->
  handleProxySet q user peer s = (Redirect "/", s') ->
  exists host rule, proxyRuleFromForm gen q = Ok (host, rule) /\
    let own := frag confPath (normalize host) in
    replaced (w_files (st_world s)) own (renderFragment (normalize host) (cleaned rule)) (w_files (st_world s')) /\
    st_db s' = st_db s /\ st_net s' = st_net s /\ st_fails s' = st_fails s /\
    st_reloads s' = (if wired then S (st_reloads s) else st_reloads s) /\
    norm_name (normalize host) = normalize host /\ host_chars_ok (normalize host) = true /\
    is_ok (check_rule (ProxyListen cfg) (normalize host) (cleaned rule)) = forallb cred_ok (BasicAuth (cleaned rule)).
Proof.
  intros Hfresh. unfold handleProxySet. destruct (_ || _); [done|].
  destruct (proxyRuleFromForm gen q) as [[host rule]|] eqn:Eform; [|done]. destruct (colliding_port cfg rule) eqn:Hport; [done|].
  unfold mbind, M_bind, on_files. pose proof (readonly_PreviewSet fault confPath host rule (st_world s)) as Hro.
  destruct (PreviewSet _ _ _ _ _) as [[res|e] w1]; [|done]. destruct (confirmed q); [|done]. cbn [negb st_world].
  destruct (Set_ _ _ _ _ _ _ _ _ w1) as [[r2|e] w2] eqn:Es; [|done]. intros [= <-]. cbn [snd] in Hro.
  apply Set_effect in Es as (Hv & Hrep & _); [|by intros; eapply Hfresh].
  exists host, rule. split; [done|]. cbn zeta. destruct (rule_loads (ProxyListen cfg) host rule Hv) as (Hn & Hh & Hl).
  split_and!; try done; [by rewrite <- Hro|]. rewrite Hl.
  assert (forallb (fun p => negb (String.eqb (format_int p) (listen_port (ProxyListen cfg)))) (ConsolePorts rule) = true) as ->;
    [|by rewrite andb_true_r].
  apply forallb_forall. intros p Hp. apply negb_true_iff. unfold colliding_port, listen_port in *.
  assert (Hne : String.eqb (format_int p) "" = false).
  { apply String.eqb_neq. unfold format_int. destruct (p <? 0); [done|]. apply format_uint_digits. }
  destruct (SplitHostPort (ProxyListen cfg)) as [[hh pl]|]; [|done].
  destruct (String.eqb pl "") eqn:Ep; [apply String.eqb_eq in Ep; by subst|]. eapply (find_first_None _ _ p Hport). by apply list_elem_of_In.
Qed.

End console.

(** ** Witnesses *)

Module AdminExample.

#[local] Existing Instances Sample.dns RecordMutExample.plain VhostExample.env VhostExample.bcrypt ZonedExample.wire.

Definition console : AdminConfig :=
  mkAdmin true "admin.example" ["10.0.0.0/8"] [] ["root:$2a$10$secret"] 8 (from_ok [] (parse_nets (fun _ => ErrAdmin "allow") ["10.0.0.0/8"])).
Definition cfg : Config := set_ProxyListen ":443" (set_Admin console defaults).
Definition key : string := "0123456789abcdef".
Definition now : Z := 1767312000 * second.
Definition cookie : string := newSession key "$2a$10$secret" "root" (8 * 3600 * second) now.
Definition csrf : string := csrfToken key "$2a$10$secret" "root".
Definition down (bytes : string) (w : world) : result string string * world := (Err "connection refused", w).

Definition s0 : state (W := list Sample.srr) :=
  mkState empty_db newLoginThrottle VhostExample.w0 RecordMutExample.w0 0 [].

Definition serve (q : request) : reply * state (W := list Sample.srr) :=
  ServeHTTP cfg key VhostExample.conf true None now "random" (fun pw => Ok pw) format_int "2025-01" "2025-12"
    (fun _ _ => None) VhostExample.no_fault VhostExample.temp 0 0 (fun _ => 7) FileZoneExample.today FileZoneExample.clock
    ZonedExample.host RecordMutExample.view RecordMutExample.in_time RecordMutExample.exchange down q s0.

Definition post (path : string) (form : list (string * string)) : request :=
  mkReq "POST" path "10.0.0.9:5000" (("csrf", csrf) :: form) [] (Some cookie) None.

Definition add : request := post "/ddns/add" [("fqdn", " home.example"); ("zone", "example"); ("ttl", "4294967297")].
Definition set_web : request := post "/proxy/set"
  [("host", "Web.Example."); ("upstream", " https://10.0.0.6/ "); ("verify", "1"); ("bmc", "1"); ("console_ports", "5900");
   ("allow", " 10.0.0.0/8 "); ("rate", "5"); ("auth", "op:$2a$10$x"); ("confirm", "1")].
Definition login : request :=
  mkReq "POST" "/login" "10.0.0.9:5000" [("user", "root"); ("pass", "$2a$10$secret")] [] None None.

(** The TTL of a new token is the form's number modulo 2^32. *)
Example added :
  (is_error (serve add).1, (fun r => (FQDN_ r, TTL_ r)) <$> records (st_db (serve add).2), length (st_audit (serve add).2)) =
  (false, [("home.example.", 1)], 1%nat).
Proof. by vm_compute. Qed.

Example without_csrf : serve (mkReq "POST" "/ddns/add" "10.0.0.9:5000" [("fqdn", "a"); ("zone", "b")] [] (Some cookie) None) =
  (HttpError 400, s0).
Proof. by vm_compute. Qed.

Example from_outside : (serve (mkReq "POST" "/ddns/add" "192.0.2.1:5000" (("csrf", csrf) :: nil) [] (Some cookie) None)).1 = HttpError 403.
Proof. by vm_compute. Qed.

(** A vhost with the console's own name is accepted and written; the next
    load of the configuration rejects it. *)
Example console_name_accepted :
  let q := post "/proxy/set" [("host", "admin.example"); ("upstream", "https://10.0.0.6/"); ("confirm", "1")] in
  (serve q).1 = Redirect "/" /\ st_reloads (serve q).2 = 1%nat /\
  check_admin (set_Proxy {["admin.example" := VhostExample.bmc]}
    (set_Admin console (mkConfig "" "" 0 "" "" "" "" 0 0 "" "" "" "" "" "" "" "" "" "" "" "" "" "" "" [] [] "" true "" "" ∅ console [] []))) =
  Err (ErrAdmin "dup").
Proof. by vm_compute. Qed.

(** A record of a static zone, added through a helper that lets the daemon
    in. *)
Definition via : Config := set_ProxyListen ":443" (set_Admin console ZonedExample.cfg).
Definition helper := Zoned.socket VhostExample.no_fault FileZoneExample.temp 0 0 FileZoneExample.today FileZoneExample.clock
  ZonedExample.host ZonedExample.fz_text ZonedExample.server (Some (977, 990)).
Definition s1 : state (W := list Sample.srr) :=
  mkState empty_db newLoginThrottle FileZoneExample.w0 RecordMutExample.w0 0 [].
Definition add_record : request := post "/zone/record"
  [("zone", "example"); ("action", "add"); ("rr", " api 60 IN A 192.0.2.9"); ("confirm", "1")].
Definition served : reply * state (W := list Sample.srr) :=
  ServeHTTP via key VhostExample.conf true None now "random" (fun pw => Ok pw) format_int "2025-01" "2025-12"
    (fun _ _ => None) VhostExample.no_fault FileZoneExample.temp 0 0 (fun _ => 7) FileZoneExample.today FileZoneExample.clock
    ZonedExample.host RecordMutExample.view RecordMutExample.in_time RecordMutExample.exchange helper add_record s1.

Example served_value : served.1 = Redirect "/zone?name=example" /\
  (a_event <$> st_audit served.2) = [EvStatic "add" "example" "api 60 IN A 192.0.2.9" 2026010200
     "/var/lib/goddns/zonebackups/example/1767312000000000012.zone" "zoned"].
Proof. by vm_compute. Qed.

Lemma console_guarded_witness :
  exists ev, recounts via VhostExample.conf true now "random" (fun pw => Ok pw) (fun _ _ => None) VhostExample.no_fault
      FileZoneExample.temp 0 0 (fun _ => 7) FileZoneExample.today FileZoneExample.clock ZonedExample.host
      RecordMutExample.view RecordMutExample.in_time RecordMutExample.exchange helper add_record s1 served.2 ev /\
    st_audit served.2 = [mkAudit "root" "10.0.0.9" ev].
Proof.
  assert (Hp : helper_previews helper add_record).
  { intros w. apply socket_previews. intros q.
    set (req := mkRequest _ _ _ _). replace (dec_request (str_take maxRequest (enc_request req))) with (Ok (E := string) req)
      by (vm_compute; reflexivity). by intros [= <-]. }
  assert (H : served = (served.1, served.2)) by apply surjective_pairing.
  destruct (console_guarded via key VhostExample.conf true None now "random" (fun pw => Ok pw) format_int "2025-01" "2025-12"
    (fun _ _ => None) VhostExample.no_fault FileZoneExample.temp 0 0 (fun _ => 7) FileZoneExample.today FileZoneExample.clock
    ZonedExample.host RecordMutExample.view RecordMutExample.in_time RecordMutExample.exchange helper add_record s1 _ _ Hp H)
    as [(_ & Hw & _)|(_ & _ & _ & _ & user & cookie & Hq & Hs & _ & He)].
  - set (unedited := fun m : files => match m !! FileZoneExample.path with
       Some (Reg d _ _ _) => String.eqb d FileZoneExample.content | _ => true end).
    assert (Hne : unedited (w_files (st_world served.2)) = false) by (vm_compute; reflexivity).
    change (w_files (st_world served.2) = w_files (st_world s1)) in Hw. rewrite Hw in Hne. vm_compute in Hne. discriminate Hne.
  - injection Hq as <-. assert (user = "root") as -> by (vm_compute in Hs; congruence).
    apply He. vm_compute. reflexivity.
Defined.

Lemma login_spec_witness :
  let '(r, s') := serve login in
  if negb (blockedUntil (st_fails s0) now ["ip:" +:+ peer_string login] =? 0)
  then r = Page 429 (PLogin "too many attempts") /\ st_fails s' = st_fails s0
  else if (verifyCred (Users (ad cfg)) "root" (FormValue login "pass")).1 then
    st_fails s' = delete ("ip:" +:+ peer_string login) (st_fails s0) /\
    exists v, r = Cookie v (i64 (SessionTTL (ad cfg) * (3600 * second)) / second) "/" /\
      (exists hash, adminCred (Users (ad cfg)) "root" = Some hash /\ bcrypt_compare hash (FormValue login "pass") = true) /\
      forall later, parseSession key v (adminCred (Users (ad cfg))) later =
        if unix (now + i64 (SessionTTL (ad cfg) * (3600 * second))) <? unix later then None else Some "root"
  else r = Page 401 (PLogin "invalid credentials") /\
       st_fails s' = Throttle.fail now ["ip:" +:+ peer_string login] (st_fails s0).
Proof.
  assert (H1 : IsAllowed (ad cfg) (clientIP login) = true) by (vm_compute; reflexivity).
  assert (H2 : is_i64 (unix (now + i64 (SessionTTL (ad cfg) * (3600 * second))))) by (split; vm_compute; [discriminate|reflexivity]).
  exact (login_spec cfg key VhostExample.conf true None now "random" (fun pw => Ok pw) format_int "2025-01" "2025-12"
    (fun _ _ => None) VhostExample.no_fault VhostExample.temp 0 0 (fun _ => 7) FileZoneExample.today FileZoneExample.clock
    ZonedExample.host RecordMutExample.view RecordMutExample.in_time RecordMutExample.exchange down login s0
    H1 (or_introl eq_refl) eq_refl ltac:(discriminate) H2).
Defined.

Definition set_call := handleProxySet cfg key VhostExample.conf true (fun pw => Ok pw) VhostExample.no_fault VhostExample.temp 0 0
  (fun _ => 7) set_web "root" "10.0.0.9" s0.

Lemma console_vhost_loads_witness :
  exists host rule, proxyRuleFromForm (fun pw => Ok pw) set_web = Ok (host, rule) /\
    let own := frag VhostExample.conf (normalize host) in
    replaced (w_files (st_world s0)) own (renderFragment (normalize host) (cleaned rule)) (w_files (st_world set_call.2)) /\
    st_db set_call.2 = st_db s0 /\ st_net set_call.2 = st_net s0 /\ st_fails set_call.2 = st_fails s0 /\
    st_reloads set_call.2 = 1%nat /\
    norm_name (normalize host) = normalize host /\ host_chars_ok (normalize host) = true /\
    is_ok (check_rule (ProxyListen cfg) (normalize host) (cleaned rule)) = forallb cred_ok (BasicAuth (cleaned rule)).
Proof.
  assert (H : handleProxySet cfg key VhostExample.conf true (fun pw => Ok pw) VhostExample.no_fault VhostExample.temp 0 0
    (fun _ => 7) set_web "root" "10.0.0.9" s0 = (Redirect "/", set_call.2)).
  { assert (Hr : set_call.1 = Redirect "/") by (vm_compute; reflexivity). rewrite <- Hr. apply surjective_pairing. }
  assert (Hf : forall t d host rule, proxyRuleFromForm (fun pw => Ok pw) set_web = Ok (host, rule) ->
    VhostExample.temp t d <> frag VhostExample.conf (normalize host)).
  { intros t d host rule Hq. assert (host = "Web.Example.") as ->.
    { apply (f_equal (fun r => match r with Ok (hr, _) => hr | Err _ => "" end)) in Hq. vm_compute in Hq. by subst. }
    apply VhostExample.temp_fresh. }
  exact (console_vhost_loads cfg key VhostExample.conf true (fun pw => Ok pw) VhostExample.no_fault VhostExample.temp 0 0
    (fun _ => 7) set_web "root" "10.0.0.9" s0 _ Hf H).
Defined.

End AdminExample.
