(* ===== verification/Privsep.v ===== *)
(** * Privsep: the two ways to a zone's file

    The console edits a static zone itself, or, in a daemon that may not touch
    the files, through the helper's socket ([staticEdit] of
    [internal/admin/admin.go], [Call] and [process] of
    [internal/zoned/zoned.go]). Both are the same edit. *)

From Stdlib Require Import String Ascii.
From S2P Require Import Prelude GoStrings Encoding FS DnsLib Ddns Config ZoneFile FileZone Host RecordMut Zoned Readers Form Admin.

Section transparent.
Context {D : Dns} {J : Wire} (fault : nat -> option string) (tempname : nat -> string -> string) (euid egid : Z).
Context (today : date) (now_ns : nat -> Z) (h : Host.Host) (fz_text : fz_error -> string).

(** The settings of an edit, as the console reads its configuration and the
    helper its own. *)
Definition same_settings (console helper : Config) : Prop :=
  namedConf (NamedConf console) = NamedConf helper /\ Host.server (DNSServer console) = DNSServer helper /\
  EditableZones console = EditableZones helper /\ HistoryKeep console = HistoryKeep helper.

(** What the operator is told. *)
Definition told (r : result failure edit_result) : result string edit_result :=
  match r with
  | Ok res => Ok res
  | Err (FHelper e) => Err e
  | Err (FZone e) => Err (fz_text e)
  | Err (FParse _ e) => Err ("parse: " +:+ e)
  | Err _ => Err ""
  end.

(** A message that fits and is read back as it was written. *)
Definition carried (req : Request) (resp : Response) : Prop :=
  dec_request (str_take maxRequest (enc_request req)) = Ok req /\
  dec_response (str_take maxRequest (enc_response resp)) = Ok resp.

#[local] Abbreviation helper s cred := (socket fault tempname euid egid today now_ns h fz_text s cred).
#[local] Abbreviation helped s req w := (Zoned.process fault tempname euid egid today now_ns h fz_text (Cfg s) req w).

(** C10: an edit through the helper is the edit itself: with the same
    settings and the same user (by effective ids) on both sides, a peer the
    helper lets in and messages that fit, previews and edits leave the very
    files and commands behind that the console would have left, and tell the
    operator the same, whatever system call fails. *)
Theorem helper_transparent (direct via : Config) (s : Server) (c : Config) cred conn zone action line apply w :
  ZonedSocket direct = "" -> ZonedSocket via <> "" -> Cfg s = Ok c -> same_settings direct c ->
  peerOK cred (PeerGID s) = true -> action = "add" \/ action = "del" -> (forall e, fz_text e <> "") ->
  (let req := mkRequest zone action line apply in carried req (helped s req w).1) ->
  let d := staticEdit direct fault tempname euid egid today now_ns h conn zone action line apply w in
  let v := staticEdit via fault tempname euid egid today now_ns h (helper s cred) zone action line apply w in
  v.2 = d.2 /\ told v.1 = told d.1.
Proof.
  intros Hd Hv Hc (H1 & H2 & H3 & H4) Hp Ha Ht Hw. cbn zeta in *. destruct Hw as [Hq Hr].
  apply String.eqb_neq in Hv. unfold staticEdit. rewrite Hd, Hv. cbn [negb String.eqb].
  rewrite Call_process by done. unfold Zoned.process. cbn [rq_Action rq_Zone rq_RR rq_Apply].
  replace (negb (String.eqb action "add") && negb (String.eqb action "del")) with false by (by destruct Ha as [-> | ->]).
  rewrite Hc. destruct (ParseRR line zone) as [rr|e] eqn:Er; [|done].
  assert (Zoned.editorFor fault tempname euid egid h c = Admin.fileEditor direct fault tempname euid egid h) as ->.
  { unfold Zoned.editorFor, Admin.fileEditor. by rewrite H1, H2, H3, H4. }
  unfold ops_of. destruct (run_editor _ _ _ _ _ _ _ _ _ _ w) as [[res|e] w']; [done|].
  cbn. split; [done|]. done.
Qed.

End transparent.

(** ** The same edit, twice *)

Module PrivsepExample.
Import ZonedExample.
#[local] Existing Instances Sample.dns ZonedExample.wire.

(** The configuration of [ZonedExample] without the socket. *)
Definition alone : Config := let c := cfg in
  mkConfig c.(Listen) c.(DBPath) c.(ReloadInterval) c.(LogFile) c.(AccessLog) c.(PublicHost)
    c.(NamedConf) c.(HistoryInterval) c.(HistoryKeep) c.(TLSMode) c.(CertFile) c.(KeyFile)
    c.(ACMEDomain) c.(ACMEEmail) c.(ACMECA) c.(ACMEStorage) c.(ACMETSIGName) c.(ACMETSIGAlgo)
    c.(ACMETSIGSecret) c.(DNSServer) c.(TSIGName) c.(TSIGAlgo) c.(TSIGSecret) c.(TSIGKeysFile) c.(TrustedProxies)
    c.(EditableZones) "" c.(ProxyEnabled) c.(ProxyListen) c.(ProxyRedirectListen) c.(Proxy)
    c.(Config.Admin) c.(trustedNets) c.(tsigKeys).

Definition refused (bytes : string) (w : world) : result string string * world := (Err "connection refused", w).
Definition edit (c : Config) (conn : string -> world -> result string string * world) :=
  staticEdit c FileZoneExample.no_fault FileZoneExample.temp 0 0 FileZoneExample.today FileZoneExample.clock host conn
    "example" "add" "api 60 IN A 192.0.2.9" true w0.
Definition sock := socket FileZoneExample.no_fault FileZoneExample.temp 0 0 FileZoneExample.today FileZoneExample.clock host fz_text
  server (Some (977, 990)).

Example both : (edit cfg sock).1 = (edit alone refused).1 /\ is_ok (edit cfg sock).1 = true /\ is_ok (edit cfg refused).1 = false.
Proof. by vm_compute. Qed.

Lemma helper_transparent_witness :
  (edit cfg sock).2 = (edit alone refused).2 /\ told fz_text (edit cfg sock).1 = told fz_text (edit alone refused).1.
Proof.
  assert (Hw : let req := mkRequest "example" "add" "api 60 IN A 192.0.2.9" true in
    carried req (Zoned.process FileZoneExample.no_fault FileZoneExample.temp 0 0 FileZoneExample.today FileZoneExample.clock
      host fz_text (Cfg server) req w0).1) by (split; vm_compute; reflexivity).
  exact (helper_transparent FileZoneExample.no_fault FileZoneExample.temp 0 0 FileZoneExample.today FileZoneExample.clock
    host fz_text alone cfg server cfg (Some (977, 990)) refused "example" "add" "api 60 IN A 192.0.2.9" true w0
    eq_refl ltac:(done) eq_refl ltac:(by split_and!) eq_refl ltac:(by left) ltac:(done) Hw).
Defined.

End PrivsepExample.
