(* ===== verification/Fanout.v ===== *)
(** * Fanout: probing name servers at the same time

    Three places start a goroutine per item, each writing the slot of its own
    item, and wait for all: the zone list of the console ([internal/admin],
    [handleZones]) and of the command line ([cmd/goddns/zones.go]), which let
    eight probe at a time, and [CheckNameservers] ([internal/named/health.go]),
    which lets all. Elsewhere in the library they are a map over the list; here
    is why that is right. *)

From Stdlib Require Import String.
From S2P Require Import Prelude GoStrings DnsLib Config FS Named Host Cli ZoneView Admin.

(** The goroutines that wait for the semaphore, are probing, have written
    their slot, and are gone; and the loop that starts them and waits. *)
Record fan (R : Type) := mkFan {
  f_next : nat; f_blocked : list nat; f_probing : list nat; f_stored : list nat; f_gone : list nat;
  f_rows : list R; f_returned : bool
}.
Arguments mkFan {R} f_next f_blocked f_probing f_stored f_gone f_rows f_returned.
Arguments f_next {R} f.
Arguments f_blocked {R} f.
Arguments f_probing {R} f.
Arguments f_stored {R} f.
Arguments f_gone {R} f.
Arguments f_rows {R} f.
Arguments f_returned {R} f.

Section fanout.
Context {A B R : Type} (probe : A -> B) (store_in : B -> R -> R) (cap : option nat) (items : list A).

(** Room in the semaphore, if there is one. *)
Definition room (inside : nat) : Prop := match cap with Some n => (inside < n)%nat | None => True end.

Inductive step : fan R -> fan R -> Prop :=
| spawn n b p s g rows :
    (n < length items)%nat -> step (mkFan n b p s g rows false) (mkFan (S n) (b ++ [n]) p s g rows false)
| enter n b1 i b2 p s g rows ret :
    room (length p + length s) -> step (mkFan n (b1 ++ i :: b2) p s g rows ret) (mkFan n (b1 ++ b2) (p ++ [i]) s g rows ret)
| store_row n b p1 i p2 s g rows ret x :
    items !! i = Some x ->
    step (mkFan n b (p1 ++ i :: p2) s g rows ret) (mkFan n b (p1 ++ p2) (s ++ [i]) g (alter (store_in (probe x)) i rows) ret)
| leave n b p s1 i s2 g rows ret :
    step (mkFan n b p (s1 ++ i :: s2) g rows ret) (mkFan n b p (s1 ++ s2) (g ++ [i]) rows ret)
| wait g rows : step (mkFan (length items) [] [] [] g rows false) (mkFan (length items) [] [] [] g rows true).

Definition started (rows : list R) : fan R := mkFan 0 [] [] [] [] rows false.

(** All goroutines, each once. *)
Definition everyone (v : fan R) : list nat := f_blocked v ++ f_probing v ++ f_stored v ++ f_gone v.
Definition written (v : fan R) : list nat := f_stored v ++ f_gone v.

Record orderly (rows0 : list R) (v : fan R) : Prop := {
  od_next : (f_next v <= length items)%nat;
  od_all : everyone v ≡ₚ seq 0 (f_next v);
  od_room : match cap with Some n => (length (f_probing v) + length (f_stored v) <= n)%nat | None => True end;
  od_length : length (f_rows v) = length rows0;
  od_rows i x r : items !! i = Some x -> rows0 !! i = Some r ->
    f_rows v !! i = Some (if decide (i ∈ written v) then store_in (probe x) r else r);
  od_returned : f_returned v = true -> f_next v = length items /\ f_blocked v = [] /\ f_probing v = [] /\ f_stored v = []
}.

Lemma orderly_step rows0 v v' : orderly rows0 v -> step v v' -> orderly rows0 v'.
Proof.
  intros [Hn Ha Hc Hl Hr Hret] Hs.
  destruct Hs as [n b p s g rows Hlt|n b1 i b2 p s g rows ret Hroom|n b p1 i p2 s g rows ret x Hx|n b p s1 i s2 g rows ret|g rows];
    unfold everyone, written in *; cbn in *.
  - split; unfold everyone, written; cbn; try done.
    change (0%nat :: seq 1 n) with (seq 0 (S n)). rewrite seq_S, <- Ha. solve_Permutation.
  - split; unfold everyone, written; cbn; try done.
    + rewrite <- Ha. solve_Permutation.
    + unfold room in Hroom. destruct cap; [|done]. rewrite length_app. cbn. lia.
    + intros Hret'. destruct (Hret Hret') as (_ & Hb & _). by destruct b1.
  - assert (Hi : i ∉ s ++ g).
    { intros Hin. assert (Hnd : NoDup (b ++ (p1 ++ i :: p2) ++ s ++ g)) by (rewrite Ha; apply NoDup_seq).
      apply NoDup_app in Hnd as (_ & _ & Hnd). apply NoDup_app in Hnd as (_ & Hnd & _). apply (Hnd i); [set_solver|done]. }
    split; unfold everyone, written; cbn; try done.
    + rewrite <- Ha. solve_Permutation.
    + destruct cap; [|done]. rewrite !length_app in *. cbn in *. lia.
    + by rewrite length_alter.
    + intros j y r Hy Hr0. destruct (decide (j = i)) as [->|Hne].
      * rewrite list_lookup_alter_eq, (Hr i y r Hy Hr0). rewrite Hx in Hy. injection Hy as <-. cbn.
        destruct (decide (i ∈ s ++ g)); [done|]. destruct (decide (i ∈ (s ++ [i]) ++ g)); [done|set_solver].
      * rewrite list_lookup_alter_ne by congruence. rewrite (Hr j y r Hy Hr0). f_equal.
        destruct (decide (j ∈ s ++ g)), (decide (j ∈ (s ++ [i]) ++ g)); set_solver.
    + intros Hret'. destruct (Hret Hret') as (_ & _ & Hp & _). by destruct p1.
  - split; unfold everyone, written; cbn; try done.
    + rewrite <- Ha. solve_Permutation.
    + destruct cap; [|done]. rewrite !length_app in *. cbn in *. lia.
    + intros j y r Hy Hr0. rewrite (Hr j y r Hy Hr0). f_equal.
      destruct (decide (j ∈ (s1 ++ i :: s2) ++ g)), (decide (j ∈ (s1 ++ s2) ++ g ++ [i])); set_solver.
    + intros Hret'. destruct (Hret Hret') as (_ & _ & _ & Hp). by destruct s1.
  - split; unfold everyone, written; cbn; try done.
Qed.

Lemma orderly_run rows0 v : rtc step (started rows0) v -> orderly rows0 v.
Proof.
  assert (Hs : orderly rows0 (started rows0)).
  { split; unfold everyone, written; cbn; try done; [lia|destruct cap; [lia|done]]. }
  intros H. revert Hs. induction H as [|x y z Hxy _ IH]; [done|]. intros Hx. apply IH. by eapply orderly_step.
Qed.

(** What the goroutines and the loop have left to do. *)
Definition work_left (v : fan R) : nat :=
  (4 * (length items - f_next v) + 3 * length (f_blocked v) + 2 * length (f_probing v) + length (f_stored v)
   + if f_returned v then 0 else 1)%nat.

Lemma work_decreases v v' : step v v' -> (work_left v' < work_left v)%nat.
Proof. destruct 1; unfold work_left; cbn [f_next f_blocked f_probing f_stored f_returned]; rewrite ?length_app; cbn [length]; try lia. Qed.

Lemma never_stuck rows0 v : orderly rows0 v -> room 0 -> f_returned v = false -> exists v', step v v'.
Proof.
  intros [Hn Ha _ _ _ _] Hroom. destruct v as [n b p s g rows ret]. cbn in *. intros ->.
  destruct s as [|i s]; [|eexists; apply (leave _ _ _ [])].
  destruct p as [|i p].
  - destruct b as [|i b]; [|eexists; by apply (enter _ [])].
    destruct (decide (n < length items)%nat); [eexists; by apply spawn|].
    assert (n = length items) as -> by lia. eexists. apply wait.
  - assert (Hi : (i < n)%nat).
    { assert (Hin : i ∈ seq 0 n) by (rewrite <- Ha; unfold everyone; cbn; set_solver). apply elem_of_seq in Hin. lia. }
    destruct (lookup_lt_is_Some_2 items i) as [x Hx]; [lia|]. eexists. by apply (store_row _ _ []) with (x := x).
Qed.

(** In whatever order they are served: the semaphore's bound is kept, the wait
    comes to its end, and when it does each slot has the answer for its item. *)
Definition any_order (rows0 rows : list R) : Prop := forall v, rtc step (started rows0) v ->
  match cap with Some n => (length (f_probing v) + length (f_stored v) <= n)%nat | None => True end /\
  (f_returned v = false -> exists v', step v v') /\
  (forall v', step v v' -> (work_left v' < work_left v)%nat) /\
  (f_returned v = true -> f_rows v = rows).

Lemma fan_out rows0 : room 0 -> length rows0 = length items ->
  any_order rows0 (zip_with (fun x r => store_in (probe x) r) items rows0).
Proof.
  intros Hroom Hlen v Hv. pose proof (orderly_run rows0 v Hv) as Ho. split_and!.
  - apply Ho.
  - by apply (never_stuck rows0).
  - apply work_decreases.
  - intros Hret. destruct Ho as [_ Ha _ Hl Hr Hdone]. destruct (Hdone Hret) as (Hn & Hb & Hp & Hs).
    apply list_eq. intros i. destruct (items !! i) as [x|] eqn:Ex.
    + destruct (lookup_lt_is_Some_2 rows0 i) as [r Er]; [rewrite Hlen; by eapply lookup_lt_Some|].
      rewrite (Hr i x r Ex Er), lookup_zip_with, Ex, Er. cbn. f_equal.
      rewrite decide_True; [done|]. unfold everyone, written in *. rewrite Hb, Hp, Hs, Hn in *. cbn in *. rewrite Ha.
      apply elem_of_seq. apply lookup_lt_Some in Ex. lia.
    + apply lookup_ge_None in Ex. rewrite lookup_ge_None_2 by lia. symmetry. apply lookup_ge_None. rewrite length_zip_with. lia.
Qed.

End fanout.

(** ** The three places *)

(** [out[i] = …]: nothing of the slot is kept. *)
Definition overwrite {X} (x _ : X) : X := x.

Definition nsCheckConcurrency : nat := 8.

(** [zr[i].NS, zr[i].NSClass = …] *)
Definition set_ns (ns : option (SerialStatus * Z)) (r : zoneRow) : zoneRow :=
  mkZoneRow (zr_View r) (zr_Name r) (zr_Kind r) (zr_File r) (zr_Status r) (zr_Keys r) ns (zr_Dynamic r).

Definition no_check : NSCheck := mkNSCheck "" [] 0 false false "".

Lemma zip_overwrite {A X} (f : A -> X) (x0 : X) items :
  zip_with (fun a r => overwrite (f a) r) items (replicate (length items) x0) = f <$> items.
Proof. induction items as [|a items IH]; [done|]. cbn. by rewrite IH. Qed.

Section console.
Context {D : Dns} {W : Type} (cfg : Config) (fault : nat -> option string) (view : W -> Net).

Lemma zone_rows_checked zs s :
  zone_rows cfg fault view true zs s =
  let '(rows, s') := zone_rows cfg fault view false zs s in
  (zip_with (fun z r => set_ns (Admin.zoneNSVerdict (view (Admin.st_net s)) z (Host.server (DNSServer cfg))) r) zs rows, s').
Proof.
  revert s. induction zs as [|z zs IH]; intros s; [done|]. cbn [zone_rows].
  unfold zone_row, on_files, read, mbind, Admin.M_bind, mret, Admin.M_ret.
  destruct (FileStatus fault (z_Path z) (z_Dynamic z) (Admin.st_world s)) as [st w]. rewrite IH.
  destruct (zone_rows cfg fault view false zs _) as [rows s'']. done.
Qed.

Lemma zone_rows_length check zs s : length (zone_rows cfg fault view check zs s).1 = length zs.
Proof.
  revert s. induction zs as [|z zs IH]; intros s; [done|]. cbn [zone_rows]. unfold mbind, Admin.M_bind, mret, Admin.M_ret.
  destruct (zone_row cfg fault view check z s) as [r s1]. specialize (IH s1).
  destruct (zone_rows cfg fault view check zs s1) as [rs s2]. cbn in *. by rewrite IH.
Qed.

End console.

Section commands.
Context {D : Dns} {W : Type} (fault : nat -> option string) (view : W -> Net).

Lemma zone_line_checked hasView srv z s : exists l s', Cli.st_net s' = Cli.st_net s /\
  zone_line fault view hasView false srv z s = (Ok l, s') /\
  zone_line fault view hasView true srv z s = (Ok (l ++ [zoneSerial (N := view (Cli.st_net s)) z srv]), s').
Proof.
  unfold zone_line, ask, Cli.on_files, mbind, Cli.cmd_bind, mret, Cli.cmd_ret. cbn beta iota.
  destruct (String.eqb (z_Path z) ""); [|destruct (FileStatus _ _ _ _) as [st w]];
    do 2 eexists; (split; [|split; [reflexivity|by rewrite app_nil_r, app_assoc]]); done.
Qed.

(** The table of the command line is the one without probes, with a last
    column. *)
Lemma zone_lines_checked hasView srv zs s : exists ls s',
  zone_lines fault view hasView false srv zs s = (Ok ls, s') /\
  zone_lines fault view hasView true srv zs s =
    (Ok (zip_with (fun z l => l ++ [zoneSerial (N := view (Cli.st_net s)) z srv]) zs ls), s').
Proof.
  revert s. induction zs as [|z zs IH]; intros s; [by exists [], s|].
  destruct (zone_line_checked hasView srv z s) as (l & s1 & Hnet & Hf & Ht). destruct (IH s1) as (ls & s2 & Hfs & Hts).
  exists (l :: ls), s2. rewrite Hnet in Hts. cbn [zone_lines].
  unfold mbind, Cli.cmd_bind, mret, Cli.cmd_ret. by rewrite Hf, Ht, Hfs, Hts.
Qed.

End commands.

(** C40: probing at the same time changes nothing but the time it takes. In
    whatever order the goroutines run, at most eight zones are probed at once
    (and any number of one zone's name servers), the wait comes to its end,
    and then the rows of the console's list are the ones it had with the
    verdicts filled in, which is the list the page shows; each row of the
    command line's has its own zone's serial; and the checks of a zone are
    those of its name servers in their order. *)
Theorem probes_in_any_order {D : Dns} {W : Type} (cfg : Config) fault (view : W -> Net) (n : Net) zs zone rrs resolver srv s :
  any_order (fun z => Admin.zoneNSVerdict (view (Admin.st_net s)) z (Host.server (DNSServer cfg))) set_ns (Some nsCheckConcurrency) zs
    (zone_rows cfg fault view false zs s).1 (zone_rows cfg fault view true zs s).1 /\
  any_order (fun z => zoneSerial z srv) overwrite (Some nsCheckConcurrency) zs
    (replicate (length zs) "") ((fun z => zoneSerial z srv) <$> zs) /\
  any_order (fun ns => probeNS zone ns (addressIndex rrs ns) resolver) overwrite None (apexNS zone rrs)
    (replicate (length (apexNS zone rrs)) no_check) (CheckNameservers zone rrs resolver).
Proof.
  split_and!.
  - pose proof (zone_rows_length cfg fault view false zs s) as Hl. rewrite zone_rows_checked.
    destruct (zone_rows cfg fault view false zs s) as [rows s']. apply fan_out; [cbn; unfold nsCheckConcurrency; lia|done].
  - rewrite <- (zip_overwrite _ "" zs). apply fan_out; [cbn; unfold nsCheckConcurrency; lia|apply length_replicate].
  - unfold CheckNameservers. rewrite <- (zip_overwrite _ no_check). apply fan_out; [done|apply length_replicate].
Qed.
